(* ===== verification/_CoqProject ===== *)
-Q . S2P
Prelude.v
Float32.v
Rounding.v
CStr.v
Sort.v
Vector.v
HTable.v
Util.v
Alloc.v
Layer.v
Event.v
Timer.v
Registry.v
NkOM.v
App.v
Env.v
EnvStore.v
Stdio.v
Io.v
Bmp.v
Log.v
Error.v
Platform.v
Runtime.v
NkStr.v
Path.v
Input.v
World.v
Renderer.v
RendererOwned.v
RendererToy.v
RendererRun.v
Window.v
WindowRun.v
Session.v
Db.v
DbToy.v
DbOwned.v
DbQuery.v
Asset.v
Explorer.v
EdProject.v
EdDialog.v
