(* ===== verification/Prelude.v ===== *)
(** * Noriko engine: verification development

    This library models the Noriko game engine (the C sources under [src/src/Noriko]
    and [src/src/NorikoRt] with the headers under [src/include/Noriko]) and the parts of
    its editor that are not user interface ([src/src/NorikoEd], in C++), and proves what
    their components do.  This file is the root: it documents the development and holds
    the prelude every other file requires.

    ** The program and the files

    The engine is a set of components started and stopped in a fixed order by
    [application.c].  Everything stands on the allocators and the data structures;
    objects with reference counts (NkOM) are created by factories from a class
    registry and published in a component registry, both hash tables with UUID keys;
    the window procedure turns messages of Windows into events, which go through the
    layer stack, a vector of layers; the world layer draws through the renderer of the
    window; bitmaps are read and written through file streams, assets are looked up in
    a database.

    Foundations:
    - [Prelude]: error codes and [NK_ASSERT] ([error.h]), machine integers and the
      macros and checked additions of [util.h], [int] arithmetic that is undefined on
      overflow, the outcome monad, the host allocator, buffers, little-endian bytes.
    - [Float32]: IEEE binary32/binary64 arithmetic on the Standard Library's
      [SpecFloat], its conversions and comparisons, vectors of two numbers.  [Rounding]:
      that binary32 rounds to the nearest number.
    - [CStr]: [strcmp], [strncmp], NUL-terminated strings and plain [char]s.  [Stdio]: the file
      streams of the C library, over files that are byte lists.
    - [Sort]: [sort.c].  [Vector]: [dstruct/vector.c].  [HTable]: [dstruct/htable.c].
      [NkStr]: [dstruct/string.c].
    - [Util]: [util.c] (random numbers, UUIDs, variants, string views, viewport), window
      modes and viewport alignments.  [Alloc]: [alloc.c] (pool allocator).
    - [Registry]: the interface between the hash table and the two registries, and
      its implementation by [HTable].

    Application and objects:
    - [NkOM]: [nkom.c].  [App]: [application.c], [winloop.c].  [Env]: [env.c], and
      [EnvStore]: the hash table behind it.
    - [Runtime]: [NorikoRt/main.c] and the main loop as a whole.
    - [Error]: [error.c].  [Platform]: [platform.c], [winrng.c].
    - [Layer]: [layer.c].  [Event]: [event.c].  [Timer]: [timer.c], [wintimer.c].

    Services:
    - [Io]: [io.c], [winfilesys.c].  [Path]: [path.c], [winpath.c].  [Log]: [log.c].
      [Input]: [input.c], [wininput.c].  [Bmp]: [bmp.c].
    - [Db]: [db.c]; [DbToy]: an instance of its SQLite parameter; [DbOwned]: who owns
      connections and statements; [DbQuery]: rows, parameters and values.
    - [Asset]: [asset.c].

    Window, renderer, world:
    - [Renderer]: [renderer.c], [wingdi.c]; [RendererOwned]: which handles it owns;
      [RendererToy]: an instance of its device parameter; [RendererRun]: what a client
      can do with it.
    - [Window]: [window.c], [winwindow.c], [winhelpers.c]; [WindowRun]: what the window
      procedure and the methods promise, and a host to run them on.  [World]: [world.c].
    - [Session]: the main loop of [App] on the window of [Window] and its layers, fed by a
      message queue.

    Editor:
    - [Explorer]: [explorer.cpp], the item tree of the project explorer and its model.
    - [EdProject]: [session.cpp], [project.cpp].  [EdDialog]: [dialog.cpp].

    A C function is a definition of the same name, without the [__NkInt_] prefix of
    internal functions and the [NkInt_Windows] of some; [NK_COMPONENT_STARTUPFN(X)] is
    [X_Startup].  A C++ method [C::m] is [C_m].  Structures are records with the fields' names.  Loops are recursive
    functions named after what they do, mapped to the lines of the loop; the cases of
    the window procedure are functions [on_key], [on_size], ...

    ** How the code is modelled

    Every operation takes the state it can change and returns an [outcome]: [Ret],
    the value and the new state; [Halt], a failed assertion, which ends the process
    in the configuration modelled; [Undef], undefined behaviour; [OutOfFuel], the
    bound of a loop was used up.  The configuration is the debug build for 64-bit
    Windows (assertions on, little-endian, multithreaded target).  Integers are in [Z]
    and brought back to their width by [wrapN] where the code can leave it.  Locks are
    not state, except in [Log], where they are part of what goes wrong: elsewhere
    operations run one after the other, and where a lock is released around a call into
    user code the call may change the whole state.  Log messages are left out of the
    components that write them; their delivery is [Log], and the stages of startup and
    shutdown keep the trace the theorems about them speak of.

    Parameters stand for what is not in the repository, as type classes with their
    documented laws where theorems need them: the host allocator ([heap], [Allocator],
    [RdMemory], [DbHost]), the signedness of [char] ([CharType]), the memory behind
    pointers ([KeyMemory]), the shell's folders ([PathHost]), key codes and key states
    ([NativeInput]), the GDI ([Gdi]), windows and messages ([WndHost]), SQLite
    ([Sqlite]), the message queue ([MessageQueue]), the editor's user-interface library
    ([QtText], [QtXml], [QtFiles], [QtExists]), the performance counter, [strtod],
    [rand_s]; and for the methods users
    of the engine write: layers ([NkILayer]), objects ([NkObjects] with the contract of
    [nkom.h]), log devices ([NkILogDevice]), assets.  Where one component reaches
    another through an interface it is a class too: [Registry] and [ViewStore], which the
    hash table is shown to implement, [RdWindow], [WndRenderer], [WorldHost].

    ** What is shown

    - Hash table: insertion, lookup and removal are the ones of a finite map for
      every key type, through resizing; clearing does not end when there are more
      elements than the minimum capacity.  The refinement theorem of [Registry]
      states the same as an interface, against which the clients are proved.
    - Vector, sorting, pools, strings: appending, erasing, growing, joining, freeing,
      with the cases in which they go wrong; sorting permutes and orders up to adjacent
      elements; joined strings hold the concatenation, lengths count UTF-8 characters.  The
      NUL of a string is written behind its buffer when that is full: how many bytes the
      allocator really gives decides whether building is defined, and both cases are stated.
    - NkOM: reference counts through instance creation, installation and removal of
      factories.  Application: order of the startup and shutdown stages, what a
      failed stage does to the shutdown.  Runtime: the code the process ends with; the
      main loop ends once the program is going to be closed, for every frequency of
      the counter at which an update is at least one tick and the ticks of a frame are
      exact in binary32 ([LoopLaws]), and the process then ends with the code of the quit
      message.  [Session] shows these laws of the window, the
      layers and the queue together: closing the main window ends the program with the
      code for success, after the layers were told.  Environment: which
      definition of an option counts and what value it gets, on any store and so, by
      [EnvStore], on the hash table.
    - Errors: every code has its name and a description of its own; what a failed
      assertion logs and shows, how much of it is cut, and that it ends the process with its
      code, if the log's lock is free.
    - Streams: what any sequence of operations can do to a file, reading back what was
      written.  Bitmaps: filling against a reference, saving and loading.  Log: what
      devices are installed after any sequence of operations, who gets a message, with
      devices that leave the log's devices, levels and lock as they find them
      ([StableDevices]; they may log), and what goes wrong with others.
    - Paths against a reference that concatenates.  Input: the key tables are inverse
      to each other.  Events, layers, timers, UUIDs, variants: functional behaviour and
      round trips.  A layer that declines an event may push layers; one that removes layers
      breaks the pass ([keeps_layers], [pop_in_handler]).
    - Database: who owns connections and statements after any sequence of operations,
      error paths included; which rows a query delivers; which values survive.  Assets:
      the life of the database they are looked up in.
    - Renderer: after any sequence of operations the device holds what the renderer
      holds references to, and the last release gives it back; the cases in which it
      does not; where a bitmap is drawn.  Window: after any messages and calls it is in
      a mode it supports and keeps its identity, a change of mode ends and sends one
      event, keys and mouse moves become the right events, the first position.  World:
      the player stays on the grid, arrives, and the tiles around it are drawn.
    - Editor: the explorer's model keeps the contract of item models whatever is edited
      and inserted; a project that was created is read back from its file as it was, when
      the disk took the whole text, which nobody asks; what the user can do with the dialog
      that creates projects.

    Theorems that say the code fails in some situation are stated like the others,
    about the definitions translated from it.

    ** Bounds and fuel

    Sorting needs more fuel than the range has elements and the theorem shows that
    this is enough; the probe loop of the hash table needs the capacity, since a free
    slot is met within one round ([robin_hood_loop_free]); trimming a string needs
    its length.  Searching and reversing a vector and clearing a full table are shown
    to exhaust any fuel where the code does not end.  The main loop needs as much as
    the message queue has answers before the quit message, and the updates of one
    frame ([main_loop_leaves], [closing_ends_program]).  The window procedure is entered
    again by the messages sent while it runs: as deep as Windows nests its own messages,
    which is finite but not known, so it is a parameter ([MessageNesting]) and the fuel is
    any number above it ([window_mode_change]).  A move of the player takes at most 31
    updates, at any frequency of the counter ([world_arrives]).  The registry interface promises room for 256 entries,
    checked by computing the growth of the table for each count.  Viewports whose sides
    have at most 8192 pixels are drawn without overflow ([gdi_draw_whole]).

    ** What is not modelled

    SQLite is third-party code; of Windows, the C library and the editor's user-interface
    library only what the program uses of them appears, as parameters.  Left out of the
    engine are virtual tables and component descriptions, the constant reference counts of
    the engine's static objects (the laws of [NkOM] allow for them), the wrappers around [malloc] and [free] that only pass their arguments
    on, static assertions, log messages, and the console window of the console log device.
    Left out of the editor are its main window ([application.cpp], [window.cpp],
    [main.cpp]) and the explorer's widget (menus, icons, expanding and collapsing), which
    put together widgets, and message boxes.  In [Session] the window, the layers and the
    main loop share one state; layers are any that keep answering and cannot end the
    program themselves, and loops of Windows inside a message (moving a window by its
    title) do not occur.  The other components' theorems hold in a world of each
    component's own. *)
From stdpp Require Export base list gmap strings numbers.
From Stdlib Require Export ZArith Lia.

#[export] Set Default Goal Selector "!".
Declare Scope nk_scope.
Delimit Scope nk_scope with nk.
Open Scope Z_scope.

(** ** Error codes ([include/Noriko/error.h], [NkErrorCode]) *)

Inductive NkErrorCode : Set :=
  | NkErr_Ok | NkErr_Unknown | NkErr_NoOperation | NkErr_ManuallyAborted
  | NkErr_AccessDenied | NkErr_NotImplemented | NkErr_InParameter | NkErr_OutParameter
  | NkErr_InOutParameter | NkErr_InptrParameter | NkErr_OutptrParameter
  | NkErr_CallbackParameter | NkErr_MemoryAlignment | NkErr_MemoryAllocation
  | NkErr_MemoryReallocation | NkErr_ItemNotFound | NkErr_ArrayOutOfBounds
  | NkErr_ArrayElemOutOfBounds | NkErr_InvalidRange | NkErr_UnsignedWrapAround
  | NkErr_CapLimitExceeded | NkErr_ComponentState | NkErr_ObjectType | NkErr_ObjectState
  | NkErr_SynchInit | NkErr_UnexpectedCharacter | NkErr_InvalidIdentifier
  | NkErr_ClosingTokenNotFound | NkErr_InterfacePureVirtual | NkErr_InterfaceNotImpl
  | NkErr_UnknownClass | NkErr_AggregationNotSupp | NkErr_ClassAlreadyReg
  | NkErr_ClassNotReg | NkErr_RegWindowClass | NkErr_CreateNativeWindow
  | NkErr_WndModeNotSupported | NkErr_AdjustClientArea | NkErr_CreateMemDC
  | NkErr_CreateCompBitmap | NkErr_CreateBrush | NkErr_OpenFile | NkErr_ErrorDuringDiskIO
  | NkErr_UnsupportedFileFormat | NkErr_InvImageDimensions | NkErr_InvBitDepth
  | NkErr_CreateDDBFromDIB | NkErr_CopyDDBPixels | NkErr_QueryStdLocation
  | NkErr_DatabaseOpen | NkErr_SetDatabaseProps | NkErr_DatabaseClose
  | NkErr_CompileSqlStatement | NkErr_DatabaseApplySchema | NkErr_InvalidStreamType
  | NkErr_CreateDirectory | NkErr_FindFileOrDir | NkErr_InvStreamMode
  | NkErr_InvSeekOrigin | NkErr_StreamSeek | NkErr_StreamFlush.

#[export] Instance NkErrorCode_eq_dec : EqDecision NkErrorCode.
Proof. solve_decision. Defined.

(** Boolean test [e == NkErr_Ok]. *)
Definition isOk (e : NkErrorCode) : bool := bool_decide (e = NkErr_Ok).

(** ** Outcomes of a C call

    [Ret a]: the call returned [a].  [Halt e]: an [NK_ASSERT] failed and
    [NkFatalTerminate] ended the process with code [e] (the assertions are the
    ones of the debug configurations).  [Undef]: the C code has undefined
    behaviour here (an access outside an object, a read of an indeterminate
    value, ...).  [OutOfFuel]: the bound given to the model of an unbounded
    loop was used up; a theorem that a loop terminates says this is not the
    result. *)
Inductive outcome (A : Type) : Type :=
  | Ret (a : A) | Halt (e : NkErrorCode) | Undef | OutOfFuel.
Arguments Ret {A} a.
Arguments Halt {A} e.
Arguments Undef {A}.
Arguments OutOfFuel {A}.

#[export] Instance outcome_eq_dec {A} `{EqDecision A} : EqDecision (outcome A).
Proof. solve_decision. Defined.
#[export] Instance outcome_ret : MRet outcome := λ _ a, Ret a.
#[export] Instance outcome_bind : MBind outcome := λ A B f m,
  match m with Ret a => f a | Halt e => Halt e | Undef => Undef | OutOfFuel => OutOfFuel end.
#[export] Instance outcome_fmap : FMap outcome := λ A B f m,
  match m with Ret a => Ret (f a) | Halt e => Halt e | Undef => Undef | OutOfFuel => OutOfFuel end.

(** [NK_ASSERT(expr, ec)] of [include/Noriko/error.h]. *)
Definition NK_ASSERT (expr : bool) (ec : NkErrorCode) : outcome unit :=
  if expr then Ret tt else Halt ec.

(** Turning a partial lookup into an outcome. *)
Definition get_or {A} (o : outcome A) (x : option A) : outcome A :=
  match x with Some a => Ret a | None => o end.

Lemma bind_Ret {A B} (a : A) (f : A → outcome B) : (Ret a ≫= f) = f a.
Proof. done. Qed.

Lemma bind_Ret_inv {A B} (m : outcome A) (f : A → outcome B) b :
  (m ≫= f) = Ret b → ∃ a, m = Ret a ∧ f a = Ret b.
Proof. destruct m; simpl; naive_solver. Qed.

Lemma bind_assoc {A B C} (m : outcome A) (f : A → outcome B) (g : B → outcome C) :
  ((m ≫= f) ≫= g) = (m ≫= λ a, f a ≫= g).
Proof. by destruct m. Qed.

Lemma bind_ext {A B} (m : outcome A) (f g : A → outcome B) :
  (∀ a, m = Ret a → f a = g a) → (m ≫= f) = (m ≫= g).
Proof. destruct m; simpl; auto. Qed.

Lemma assert_Ret_inv b e u : NK_ASSERT b e = Ret u → b = true.
Proof. destruct b; simpl; by intros. Qed.

Lemma get_or_Ret_inv {A} (o : outcome A) x a :
  (∀ b, o ≠ Ret b) → get_or o x = Ret a → x = Some a.
Proof. destruct x; simpl; intros Ho; [intros [= ->]|intros H; destruct (Ho a)]; done. Qed.

(** Decompose a hypothesis [m1 ≫= (λ x, ...) = Ret b] into its steps. *)
Ltac outcome_inv :=
  repeat match goal with
  | H : (_ ≫= _) = Ret _ |- _ =>
      let a := fresh "r" in let E1 := fresh "E" in
      apply bind_Ret_inv in H; destruct H as (a & E1 & H)
  | H : NK_ASSERT _ _ = Ret _ |- _ => apply assert_Ret_inv in H
  | H : Ret _ = Ret _ |- _ => injection H as H; simplify_eq
  | H : Halt _ = Ret _ |- _ => discriminate H
  | H : Undef = Ret _ |- _ => discriminate H
  | H : OutOfFuel = Ret _ |- _ => discriminate H
  end.

(** Running the next step of a computation whose first call has returned, and taking
    the branch after a call that returned [NkErr_Ok]. *)
Ltac step := cbn [mbind outcome_bind].
Ltac ok_step := change (isOk NkErr_Ok) with true; cbn [negb].

(** ** Machine integers

    A [w]-bit unsigned value is an integer in [[0, 2^w)]; arithmetic is written
    on [Z] and brought back by [wrapN].  Signed values use [swrapN]. *)
Definition wrapN (w z : Z) : Z := z mod 2 ^ w.
Definition swrapN (w z : Z) : Z := (z + 2 ^ (w - 1)) mod 2 ^ w - 2 ^ (w - 1).
Notation u8 := (wrapN 8) (only parsing).
Notation u16 := (wrapN 16) (only parsing).
Notation u32 := (wrapN 32) (only parsing).
Notation u64 := (wrapN 64) (only parsing).
Notation i32 := (swrapN 32) (only parsing).
Notation i64 := (swrapN 64) (only parsing).

Definition UINT8_MAX : Z := 255.
Definition UINT32_MAX : Z := 4294967295.
Definition INT32_MAX : Z := 2147483647.
Definition INT32_MIN : Z := -2147483648.
Definition INT64_MAX : Z := 9223372036854775807.
Definition INT64_MIN : Z := -9223372036854775808.
Definition SIZE_MAX : Z := 18446744073709551615.
(** Size of a pointer on the 64-bit target. *)
Definition sizeof_ptr : Z := 8.
(** A null pointer. *)
Definition NULL : Z := 0.
(** [int] arithmetic: undefined on overflow. *)
Definition int_op (z : Z) : outcome Z := if (INT32_MIN <=? z) && (z <=? INT32_MAX) then Ret z else Undef.
Lemma int_op_ok z : INT32_MIN ≤ z ≤ INT32_MAX → int_op z = Ret z.
Proof. intros [K1 K2]. unfold int_op. by rewrite (proj2 (Z.leb_le _ _) K1), (proj2 (Z.leb_le _ _) K2). Qed.
Lemma int_op_inv z n : int_op z = Ret n → n = z ∧ INT32_MIN ≤ z ≤ INT32_MAX.
Proof.
  unfold int_op. destruct (Z.leb_spec INT32_MIN z), (Z.leb_spec z INT32_MAX); cbn [andb]; try done. intros [= <-]. done.
Qed.

Definition is_u (w z : Z) : Prop := 0 ≤ z < 2 ^ w.
#[export] Instance is_u_dec w z : Decision (is_u w z).
Proof. unfold is_u. apply _. Defined.

Lemma wrapN_range w z : 0 ≤ w → is_u w (wrapN w z).
Proof. intros. apply Z.mod_pos_bound. lia. Qed.

Lemma wrapN_small w z : is_u w z → wrapN w z = z.
Proof. apply Z.mod_small. Qed.

Lemma wrapN_idemp w z : 0 ≤ w → wrapN w (wrapN w z) = wrapN w z.
Proof. intros. apply wrapN_small. by apply wrapN_range. Qed.

(** ** Macros of [include/Noriko/util.h] *)
Definition NK_MIN (x y : Z) : Z := if x >? y then y else x.
Definition NK_MAX (x y : Z) : Z := if x >? y then x else y.
Definition NK_CLAMP (elem lo hi : Z) : Z := NK_MAX (NK_MIN elem hi) lo.
(** [NK_INRANGE_INCL] multiplies the two distances; operands are the signed
    integers the callers pass, small enough not to overflow. *)
Definition NK_INRANGE_INCL (x lo hi : Z) : bool := (hi - x) * (x - lo) >=? 0.
Definition NK_ISBITFLAG (n : Z) : bool := Z.land n (n - 1) =? 0.

Lemma NK_MIN_spec x y : NK_MIN x y = x `min` y.
Proof. unfold NK_MIN. destruct (Z.gtb_spec x y); lia. Qed.
Lemma NK_MAX_spec x y : NK_MAX x y = x `max` y.
Proof. unfold NK_MAX. destruct (Z.gtb_spec x y); lia. Qed.
Lemma NK_CLAMP_spec x lo hi : NK_CLAMP x lo hi = (x `min` hi) `max` lo.
Proof. unfold NK_CLAMP. by rewrite NK_MAX_spec, NK_MIN_spec. Qed.
Lemma NK_INRANGE_INCL_spec x lo hi :
  lo ≤ hi → NK_INRANGE_INCL x lo hi = bool_decide (lo ≤ x ≤ hi).
Proof.
  intros. unfold NK_INRANGE_INCL. destruct (Z.geb_spec ((hi - x) * (x - lo)) 0).
  - symmetry. apply bool_decide_eq_true. nia.
  - symmetry. apply bool_decide_eq_false. nia.
Qed.

(** The idiom [x ^ y] used as [x != y]. *)
Lemma lxor_zero i j : (Z.lxor i j =? 0) = (i =? j).
Proof.
  destruct (Z.eqb_spec i j) as [->|Hne]; [by rewrite Z.lxor_nilpotent|].
  apply Z.eqb_neq. by intros ?%Z.lxor_eq.
Qed.

(** Overflow-checked additions ([NkChecked*Add]): the flag and the result. *)
Definition NkCheckedInt32Add (s1 s2 : Z) : bool * Z :=
  ((s1 >=? 0) && (INT32_MAX - s1 >=? s2) || (s1 <? 0) && (INT32_MIN - s1 <=? s2), i32 (s1 + s2)).
Definition NkCheckedInt64Add (s1 s2 : Z) : bool * Z :=
  ((s1 >=? 0) && (INT64_MAX - s1 >=? s2) || (s1 <? 0) && (INT64_MIN - s1 <=? s2), i64 (s1 + s2)).
Definition NkCheckedUint32Add (s1 s2 : Z) : bool * Z :=
  (UINT32_MAX - s1 >=? s2, u32 (s1 + s2)).
Definition NkCheckedUint64Add (s1 s2 : Z) : bool * Z :=
  (SIZE_MAX - s1 >=? s2, u64 (s1 + s2)).

(** ** The host allocator

    [malloc]/[calloc]/[realloc] of the C library: [h n] is the number of bytes
    the host really makes usable for a request of [n] bytes, or [None] when the
    request fails.  [HeapLaws] is what the C standard (and the documented limit
    [PTRDIFF_MAX] on object sizes) promises. *)
Definition heap := Z → option Z.
Class HeapLaws (h : heap) : Prop := {
  heap_usable : ∀ n u, h n = Some u → n ≤ u ≤ INT64_MAX;
  heap_limit : ∀ n, INT64_MAX < n → h n = None
}.
(** The allocator that makes exactly the requested bytes usable. *)
Definition strict_heap : heap := λ n, if n <=? INT64_MAX then Some n else None.
#[export] Instance strict_heap_laws : HeapLaws strict_heap.
Proof.
  split; unfold strict_heap; intros n; destruct (Z.leb_spec n INT64_MAX); intros; simplify_eq; (done || lia).
Qed.

(** ** Byte and word buffers

    An object of [length b] cells; every access outside it is undefined. *)
Section buffers.
Context {A : Type}.
Implicit Types b l : list A.

Definition in_buf (b : list A) (i : Z) : bool :=
  (0 <=? i) && (i <? Z.of_nat (length b)).
(** [b[i]] as a value. *)
Definition buf_get (b : list A) (i : Z) : outcome A :=
  if in_buf b i then get_or Undef (b !! Z.to_nat i) else Undef.
(** [b[i] = x]. *)
Definition buf_set (b : list A) (i : Z) (x : A) : outcome (list A) :=
  if in_buf b i then Ret (<[Z.to_nat i := x]> b) else Undef.
(** [n] cells starting at [off]: the source of a [memcpy]/[memmove]. *)
Definition buf_read (b : list A) (off n : Z) : outcome (list A) :=
  if n =? 0 then Ret []
  else if (0 <=? off) && (0 <=? n) && (off + n <=? Z.of_nat (length b))
  then Ret (take (Z.to_nat n) (drop (Z.to_nat off) b)) else Undef.
(** Writing the cells [l] at [off]: the destination of a [memcpy]. *)
Definition buf_write (b : list A) (off : Z) (l : list A) : outcome (list A) :=
  if (length l =? 0)%nat then Ret b
  else if (0 <=? off) && (off + Z.of_nat (length l) <=? Z.of_nat (length b))
  then Ret (take (Z.to_nat off) b ++ l ++ drop (Z.to_nat off + length l) b) else Undef.

Lemma in_buf_spec b i : in_buf b i = true ↔ 0 ≤ i < Z.of_nat (length b).
Proof. unfold in_buf. rewrite andb_true_iff, Z.leb_le, Z.ltb_lt. done. Qed.

Lemma buf_get_lookup b i x : 0 ≤ i → b !! Z.to_nat i = Some x → buf_get b i = Ret x.
Proof.
  intros Hi Hx. unfold buf_get. pose proof (lookup_lt_Some _ _ _ Hx).
  rewrite (proj2 (in_buf_spec b i)) by lia. by rewrite Hx.
Qed.

Lemma buf_get_Ret b i x : buf_get b i = Ret x ↔ 0 ≤ i ∧ b !! Z.to_nat i = Some x.
Proof.
  split; [|intros []; by apply buf_get_lookup].
  unfold buf_get. destruct (in_buf b i) eqn:E; [|done].
  apply in_buf_spec in E. intros H%get_or_Ret_inv; [|done]. split; [lia|done].
Qed.

Lemma buf_get_in b i : 0 ≤ i < Z.of_nat (length b) → ∃ x, buf_get b i = Ret x ∧ b !! Z.to_nat i = Some x.
Proof.
  intros. destruct (lookup_lt_is_Some_2 b (Z.to_nat i)) as [x Hx]; [lia|].
  exists x. split; [|done]. apply buf_get_lookup; [lia|done].
Qed.

Lemma buf_get_out b i : ¬ (0 ≤ i < Z.of_nat (length b)) → buf_get b i = Undef.
Proof.
  intros H. unfold buf_get. destruct (in_buf b i) eqn:E; [|done].
  by apply in_buf_spec in E.
Qed.

Lemma buf_set_in b i x :
  0 ≤ i < Z.of_nat (length b) → buf_set b i x = Ret (<[Z.to_nat i := x]> b).
Proof. intros. unfold buf_set. by rewrite (proj2 (in_buf_spec b i)). Qed.

Lemma buf_set_Ret b i x b' :
  buf_set b i x = Ret b' ↔ 0 ≤ i < Z.of_nat (length b) ∧ b' = <[Z.to_nat i := x]> b.
Proof.
  split.
  - unfold buf_set. destruct (in_buf b i) eqn:E; [|done]. apply in_buf_spec in E.
    by intros [= <-].
  - intros [? ->]. by apply buf_set_in.
Qed.

Lemma buf_read_in b off n :
  0 ≤ off → 0 ≤ n → off + n ≤ Z.of_nat (length b) →
  buf_read b off n = Ret (take (Z.to_nat n) (drop (Z.to_nat off) b)).
Proof.
  intros. unfold buf_read. destruct (Z.eqb_spec n 0) as [->|]; [done|].
  rewrite (proj2 (Z.leb_le 0 off)), (proj2 (Z.leb_le 0 n)),
    (proj2 (Z.leb_le (off + n) (Z.of_nat (length b)))) by lia. done.
Qed.

Lemma buf_read_out b off n :
  0 < n → Z.of_nat (length b) < off + n → buf_read b off n = Undef.
Proof.
  intros. unfold buf_read. destruct (Z.eqb_spec n 0); [lia|].
  destruct (Z.leb_spec (off + n) (Z.of_nat (length b))); [lia|]. by rewrite andb_false_r.
Qed.

Lemma buf_write_in b off l :
  0 ≤ off → off + Z.of_nat (length l) ≤ Z.of_nat (length b) →
  buf_write b off l =
    Ret (take (Z.to_nat off) b ++ l ++ drop (Z.to_nat off + length l) b).
Proof.
  intros. unfold buf_write. destruct (Nat.eqb_spec (length l) 0) as [E|].
  - apply nil_length_inv in E as ->. simpl. by rewrite Nat.add_0_r, take_drop.
  - by rewrite (proj2 (Z.leb_le 0 off)),
      (proj2 (Z.leb_le (off + Z.of_nat (length l)) (Z.of_nat (length b)))) by lia.
Qed.

Lemma buf_write_Ret b off l b' :
  buf_write b off l = Ret b' → length b' = length b.
Proof.
  unfold buf_write. destruct (length l =? 0)%nat; [congruence|].
  destruct (0 <=? off) eqn:E1; [|done]; simpl.
  destruct (off + _ <=? _) eqn:E2; [|done]. intros [= <-].
  apply Z.leb_le in E1. apply Z.leb_le in E2.
  rewrite !length_app, length_take, length_drop. lia.
Qed.
End buffers.

(** Overwriting the element behind a prefix. *)
Lemma insert_middle {A} (l1 l2 : list A) x y : <[length l1 := y]> (l1 ++ x :: l2) = l1 ++ y :: l2.
Proof. rewrite insert_app_r_alt by done. by rewrite Nat.sub_diag. Qed.

(** ** Little-endian bytes *)
Fixpoint le_bytes (n : nat) (z : Z) : list Z :=
  match n with
  | O => []
  | S n => z mod 256 :: le_bytes n (z / 256)
  end.
Fixpoint le_value (l : list Z) : Z :=
  match l with
  | [] => 0
  | b :: l => b + 256 * le_value l
  end.
Definition is_byte (b : Z) : Prop := 0 ≤ b < 256.

Lemma length_le_bytes n z : length (le_bytes n z) = n.
Proof. revert z. induction n; intros; simpl; auto. Qed.

Lemma le_value_bytes n z : le_value (le_bytes n z) = z mod 2 ^ (8 * Z.of_nat n).
Proof.
  revert z. induction n as [|n IH]; intros z; simpl; [by rewrite Z.mod_1_r|].
  rewrite IH. replace (2 ^ (8 * Z.of_nat (S n))) with (256 * 2 ^ (8 * Z.of_nat n)).
  - rewrite Z.rem_mul_r; lia.
  - rewrite Nat2Z.inj_succ, Z.mul_succ_r, Z.pow_add_r; lia.
Qed.

Lemma le_bytes_value l :
  Forall is_byte l → le_bytes (length l) (le_value l) = l.
Proof.
  induction 1 as [|b l Hb Hl IH]; simpl; [done|]. unfold is_byte in Hb. f_equal.
  - rewrite Z.mul_comm, Z.mod_add by lia. apply Z.mod_small. lia.
  - replace ((b + 256 * le_value l) / 256) with (le_value l); [done|].
    rewrite Z.mul_comm, Z.div_add by lia. rewrite (Z.div_small b) by lia. lia.
Qed.

Lemma le_bytes_is_byte n z : Forall is_byte (le_bytes n z).
Proof.
  revert z. induction n; intros; simpl; constructor; auto. apply Z.mod_pos_bound. lia.
Qed.

Lemma le_value_range l : Forall is_byte l → 0 ≤ le_value l < 2 ^ (8 * Z.of_nat (length l)).
Proof.
  induction 1 as [|b l Hb Hl IH]; simpl; [lia|]. unfold is_byte in Hb.
  replace (8 * Z.of_nat (S (length l))) with (8 + 8 * Z.of_nat (length l)) by lia.
  rewrite Z.pow_add_r by lia. lia.
Qed.

Lemma le_value_roundtrip n z : 0 ≤ z < 2 ^ (8 * Z.of_nat n) → le_value (le_bytes n z) = z.
Proof. intros. by rewrite le_value_bytes, Z.mod_small. Qed.

(** ** Iteration helpers *)

(** Lists of consecutive indices [lo, lo+1, ..., lo+n-1]. *)
Definition zrange (lo : Z) (n : nat) : list Z := (λ i, lo + Z.of_nat i) <$> seq 0 n.

Lemma length_zrange lo n : length (zrange lo n) = n.
Proof. unfold zrange. by rewrite length_fmap, length_seq. Qed.

Lemma zrange_lookup lo n i : (i < n)%nat → zrange lo n !! i = Some (lo + Z.of_nat i).
Proof. intros. unfold zrange. by rewrite list_lookup_fmap, lookup_seq_lt. Qed.

(** A finite check covers a range of integers. *)
Lemma zrange_all (P : Z → Prop) lo n x : Forall P (zrange lo n) → lo ≤ x < lo + Z.of_nat n → P x.
Proof.
  intros HF Hx. apply (Forall_lookup_1 _ _ (Z.to_nat (x - lo)) _ HF).
  rewrite zrange_lookup by lia. f_equal. lia.
Qed.

Lemma zrange_S lo n : zrange lo (S n) = lo :: zrange (lo + 1) n.
Proof.
  unfold zrange. cbn [seq]. rewrite fmap_cons. f_equal; [lia|]. rewrite <-fmap_S_seq, <-list_fmap_compose.
  apply list_fmap_ext. intros _ i _. unfold compose. lia.
Qed.
Lemma zrange_app lo n m : zrange lo (n + m) = zrange lo n ++ zrange (lo + Z.of_nat n) m.
Proof.
  revert lo. induction n as [|n IH]; intros lo; [by rewrite Z.add_0_r|]. cbn [Nat.add]. rewrite !zrange_S, IH.
  cbn [app]. do 3 f_equal. lia.
Qed.
Lemma bind_zrange_ext {B} (f g : Z → list B) lo n :
  (∀ t, lo ≤ t < lo + Z.of_nat n → f t = g t) → (zrange lo n ≫= f) = (zrange lo n ≫= g).
Proof.
  revert lo. induction n as [|n IH]; intros lo He; [done|]. rewrite zrange_S. cbn [mbind list_bind].
  f_equal; [apply He; lia|]. apply IH. intros t Ht. apply He. lia.
Qed.
Lemma bind_zrange_nil {B} (f : Z → list B) lo n : (∀ t, lo ≤ t < lo + Z.of_nat n → f t = []) → (zrange lo n ≫= f) = [].
Proof.
  intros He. rewrite (bind_zrange_ext f (λ _, [])) by done. generalize (zrange lo n). by induction 0 as [|x l IH].
Qed.
(** A range may be widened where the function gives nothing. *)
Lemma bind_zrange_widen {B} (g : Z → list B) a n lo m :
  lo ≤ a → a + Z.of_nat n ≤ lo + Z.of_nat m →
  (∀ t, lo ≤ t < lo + Z.of_nat m → ¬ (a ≤ t < a + Z.of_nat n) → g t = []) → (zrange a n ≫= g) = (zrange lo m ≫= g).
Proof.
  intros Hlo Hhi Hg. replace m with (Z.to_nat (a - lo) + (n + Z.to_nat (lo + Z.of_nat m - a - Z.of_nat n)))%nat by lia.
  rewrite !zrange_app, !bind_app. replace (lo + Z.of_nat (Z.to_nat (a - lo))) with a by lia.
  rewrite (bind_zrange_nil g lo), (bind_zrange_nil g (a + Z.of_nat n)), app_nil_r; [done|intros t Ht; apply Hg; lia..].
Qed.
Lemma bind_zrange_same {B} (g : Z → list B) a n b m :
  (∀ t, ¬ (a ≤ t < a + Z.of_nat n) → g t = []) → (∀ t, ¬ (b ≤ t < b + Z.of_nat m) → g t = []) →
  (zrange a n ≫= g) = (zrange b m ≫= g).
Proof.
  intros Ha Hb. set (lo := a `min` b). set (k := Z.to_nat ((a + Z.of_nat n) `max` (b + Z.of_nat m) - lo)).
  transitivity (zrange lo k ≫= g); [|symmetry]; apply bind_zrange_widen; unfold k, lo; try lia; auto.
Qed.

#[export] Set Warnings "-notation-overridden".
Create HintDb nk.
#[export] Hint Resolve wrapN_range le_bytes_is_byte : nk.
#[export] Hint Rewrite @length_le_bytes length_zrange @length_insert @length_app @length_fmap
  @length_replicate : nk.
