(* ===== verification/Float32.v ===== *)
(** * Binary floating-point values ([NkFloat] and [NkDouble])

    IEEE-754 binary32 and binary64 values on the Standard Library's executable
    specification [SpecFloat]: every operation rounds to nearest even, as the
    C code compiled for SSE does.  The functions are generic in the format's
    precision and exponent bound. *)
From S2P Require Import Prelude.
From Stdlib Require Export SpecFloat.

Definition NkFloat := spec_float.
Definition NkDouble := spec_float.

(** Equality of the representations (not of the numbers: there are two zeros). *)
#[export] Instance spec_float_eq_dec : EqDecision spec_float.
Proof. solve_decision. Defined.

(** ** binary32 *)
Definition f32_of_Z (z : Z) : NkFloat := binary_normalize 24 128 z 0 false.
Definition f32_add : NkFloat → NkFloat → NkFloat := SFadd 24 128.
Definition f32_sub : NkFloat → NkFloat → NkFloat := SFsub 24 128.
Definition f32_mul : NkFloat → NkFloat → NkFloat := SFmul 24 128.
Definition f32_div : NkFloat → NkFloat → NkFloat := SFdiv 24 128.
(** The literal [num/den]: one correct rounding, both numbers being exact. *)
Definition f32_lit (num den : Z) : NkFloat := f32_div (f32_of_Z num) (f32_of_Z den).

(** ** binary64 *)
Definition f64_of_Z (z : Z) : NkDouble := binary_normalize 53 1024 z 0 false.
Definition f64_mul : NkDouble → NkDouble → NkDouble := SFmul 53 1024.
Definition f64_div : NkDouble → NkDouble → NkDouble := SFdiv 53 1024.
Definition f64_sub : NkDouble → NkDouble → NkDouble := SFsub 53 1024.
Definition f64_lit (num den : Z) : NkDouble := f64_div (f64_of_Z num) (f64_of_Z den).

(** ** Comparisons (false on NaN) *)
Definition f_lt (x y : spec_float) : bool :=
  match SFcompare x y with Some Lt => true | _ => false end.
Definition f_le (x y : spec_float) : bool :=
  match SFcompare x y with Some (Lt | Eq) => true | _ => false end.
Definition f32_eq (x y : NkFloat) : bool := SFeqb x y.
Definition f_gt (x y : spec_float) : bool := f_lt y x.
Definition f_ge (x y : spec_float) : bool := f_le y x.

(** ** Conversions to integers

    [None] for infinities and NaN. *)
Definition f_signed (s : bool) (m : positive) : Z := if s then Z.neg m else Z.pos m.
(** [ceilf], as an integer. *)
Definition f_ceil (x : spec_float) : option Z :=
  match x with
  | S754_zero _ => Some 0
  | S754_finite s m e =>
      Some (if 0 <=? e then f_signed s m * 2 ^ e else - ((- f_signed s m) / 2 ^ (- e)))
  | _ => None
  end.
(** Truncation towards zero: the C conversion to an integer type. *)
Definition f_trunc (x : spec_float) : option Z :=
  match x with
  | S754_zero _ => Some 0
  | S754_finite s m e =>
      Some (if 0 <=? e then f_signed s m * 2 ^ e else Z.quot (f_signed s m) (2 ^ (- e)))
  | _ => None
  end.
(** Conversion to a [w]-bit unsigned type; undefined when the value does not fit. *)
Definition f_to_u (w : Z) (x : option Z) : outcome Z :=
  match x with
  | Some z => if bool_decide (is_u w z) then Ret z else Undef
  | None => Undef
  end.
(** [(int)x]. *)
Definition f_to_int (x : spec_float) : outcome Z :=
  match f_trunc x with
  | Some z => if (INT32_MIN <=? z) && (z <=? INT32_MAX) then Ret z else Undef
  | None => Undef
  end.

(** ** Vectors ([include/Noriko/renderer.h]) *)
Record NkVec2F := mkVec { m_xVal : NkFloat; m_yVal : NkFloat }.
