(* ===== verification/Rounding.v ===== *)
(** * Rounding to nearest in binary32

    What [binary_round_aux] of the Standard Library's floating-point numbers computes: the
    mantissa nearest to the exact quotient, for results that are normal numbers.  Used for
    the time of an update in [World.v]. *)
From S2P Require Import Prelude Float32.

(** ** Digits *)
Lemma digits2_bounds p : 2 ^ (Z.pos (digits2_pos p) - 1) ≤ Z.pos p < 2 ^ Z.pos (digits2_pos p).
Proof.
  induction p as [p IH|p IH|]; cbn [digits2_pos]; [| |done]; rewrite Pos2Z.inj_succ, Z.sub_1_r, Z.pred_succ;
    rewrite Z.pow_succ_r by lia; rewrite <-(Z.sub_add 1 (Z.pos (digits2_pos p))) in IH;
    rewrite <-(Z.sub_add 1 (Z.pos (digits2_pos p))); rewrite Z.add_1_r in *; rewrite Z.pow_succ_r in * by lia;
    rewrite Z.sub_1_r, ?Z.pred_succ, ?Z.succ_pred in *; lia.
Qed.
Lemma digits2_unique p d : 0 < d → 2 ^ (d - 1) ≤ Z.pos p < 2 ^ d → Z.pos (digits2_pos p) = d.
Proof.
  intros Hd [Hlo Hhi]. pose proof (digits2_bounds p) as [Hlo' Hhi'].
  destruct (Z.lt_trichotomy (Z.pos (digits2_pos p)) d) as [Hlt|[?|Hgt]]; [|done|].
  - pose proof (Z.pow_le_mono_r 2 (Z.pos (digits2_pos p)) (d - 1)). lia.
  - pose proof (Z.pow_le_mono_r 2 d (Z.pos (digits2_pos p) - 1)). lia.
Qed.

(** ** Shifting out digits

    The record is the quotient [n / d]: its integer part, and where the rest lies. *)
Definition quotient (mrs : shr_record) (n d : Z) : Prop :=
  0 < d ∧ 0 ≤ shr_m mrs ∧ let x := 2 * (n - shr_m mrs * d) in
  match shr_r mrs, shr_s mrs with
  | false, false => x = 0
  | false, true => 0 < x < d
  | true, false => x = d
  | true, true => d < x < 2 * d
  end.

Lemma shr_1_quotient mrs n d : quotient mrs n d → quotient (shr_1 mrs) n (2 * d).
Proof.
  destruct mrs as [m r s]. unfold quotient. cbn [shr_m shr_r shr_s]. intros (Hd & Hm & Hx).
  destruct m as [|[p|p|]|p]; [..|lia]; cbn [shr_1 shr_m shr_r shr_s];
    rewrite ?(Pos2Z.inj_xI p), ?(Pos2Z.inj_xO p) in *; (split; [lia|]); (split; [lia|]); destruct r, s; cbn [orb]; lia.
Qed.
Lemma iter_shr_quotient p mrs n d : quotient mrs n d → quotient (iter_pos shr_1 p mrs) n (2 ^ Z.pos p * d).
Proof.
  revert mrs d. induction p as [p IH|p IH|]; intros mrs d Hq; cbn [iter_pos].
  - apply shr_1_quotient, IH, IH in Hq.
    replace (2 ^ Z.pos p~1 * d) with (2 ^ Z.pos p * (2 ^ Z.pos p * (2 * d))); [done|].
    rewrite (Pos2Z.inj_xI p), Z.pow_add_r, Z.pow_mul_r by lia.
    replace ((2 ^ 2) ^ Z.pos p) with (2 ^ Z.pos p * 2 ^ Z.pos p) by (rewrite <-Z.pow_mul_l; done). lia.
  - apply IH, IH in Hq.
    replace (2 ^ Z.pos p~0 * d) with (2 ^ Z.pos p * (2 ^ Z.pos p * d)); [done|].
    rewrite (Pos2Z.inj_xO p), Z.pow_mul_r by lia.
    replace ((2 ^ 2) ^ Z.pos p) with (2 ^ Z.pos p * 2 ^ Z.pos p) by (rewrite <-Z.pow_mul_l; done). lia.
  - by apply shr_1_quotient in Hq.
Qed.
Lemma shr_quotient mrs e k n d : 0 ≤ k → quotient mrs n d →
  ∃ mrs', shr mrs e k = (mrs', e + k) ∧ quotient mrs' n (2 ^ k * d).
Proof.
  intros Hk Hq. destruct k as [|k|k]; [| |lia].
  - exists mrs. split; [cbn [shr]; f_equal; lia|]. by rewrite Z.pow_0_r, Z.mul_1_l.
  - eexists. split; [done|]. by apply iter_shr_quotient.
Qed.
(** Rounding is to the nearest integer. *)
Lemma round_nearest mrs n d : quotient mrs n d →
  let r := round_nearest_even (shr_m mrs) (loc_of_shr_record mrs) in 2 * Z.abs (r * d - n) ≤ d.
Proof.
  destruct mrs as [m r s]. unfold quotient. cbn [shr_m shr_r shr_s]. intros (Hd & Hm & Hx).
  destruct r, s; cbn [loc_of_shr_record round_nearest_even]; [| |nia..]; [nia|]. destruct (Z.even m); nia.
Qed.

Lemma quotient_unique mrs n d lo hi : quotient mrs n d → lo * d ≤ n → n < hi * d → lo ≤ shr_m mrs < hi.
Proof.
  destruct mrs as [m r s]. unfold quotient. cbn [shr_m shr_r shr_s]. intros (Hd & Hm & Hx) Hlo Hhi.
  assert (Hb : 0 ≤ n - m * d < d) by (destruct r, s; lia). nia.
Qed.

(** ** [binary_round_aux] *)

(** A mantissa of 24 or 25 digits after rounding, the latter being 2^24. *)
Definition normal (s : bool) (r e : Z) : NkFloat :=
  if r =? 2 ^ 24 then S754_finite s (2 ^ 23) (e + 1) else S754_finite s (Z.to_pos r) e.

Lemma fexp_normal e : -149 ≤ e - 24 → fexp 24 128 e = e - 24.
Proof. intros. unfold fexp, emin. lia. Qed.
Lemma Zdigits2_pos z d : 0 < d → 2 ^ (d - 1) ≤ z < 2 ^ d → Zdigits2 z = d.
Proof.
  intros Hd Hz. assert (0 < 2 ^ (d - 1)) by (apply Z.pow_pos_nonneg; lia). destruct z; [lia| |lia].
  by apply digits2_unique.
Qed.

Lemma round_aux_normal s m e l n d dg :
  quotient (shr_record_of_loc m l) n d → 24 ≤ dg → 2 ^ (dg - 1) * d ≤ n → n < 2 ^ dg * d →
  -149 ≤ e + dg - 24 → e + dg - 24 < 104 →
  ∃ r, 2 ^ 23 ≤ r ≤ 2 ^ 24 ∧ 2 * Z.abs (r * (2 ^ (dg - 24) * d) - n) ≤ 2 ^ (dg - 24) * d ∧
    binary_round_aux 24 128 s m e l = normal s r (e + dg - 24).
Proof.
  intros Hq Hdg Hlo Hhi He1 He2. pose proof Hq as (Hd & _).
  assert (Hm : shr_m (shr_record_of_loc m l) = m) by (by destruct l as [|[]]).
  pose proof (quotient_unique _ _ _ _ _ Hq Hlo Hhi) as Hmb. rewrite Hm in Hmb.
  unfold binary_round_aux, shr_fexp. rewrite (Zdigits2_pos m dg), fexp_normal by lia.
  replace (dg + e - 24 - e) with (dg - 24) by lia.
  destruct (shr_quotient _ e (dg - 24) n d ltac:(lia) Hq) as (mrs & -> & Hq1).
  assert (Hp : 0 < 2 ^ (dg - 24)) by (apply Z.pow_pos_nonneg; lia).
  assert (E1 : 2 ^ (dg - 1) = 2 ^ 23 * 2 ^ (dg - 24)) by (rewrite <-Z.pow_add_r by lia; f_equal; lia).
  assert (E2 : 2 ^ dg = 2 ^ 24 * 2 ^ (dg - 24)) by (rewrite <-Z.pow_add_r by lia; f_equal; lia).
  pose proof (quotient_unique _ _ _ (2 ^ 23) (2 ^ 24) Hq1 ltac:(lia) ltac:(lia)) as Hmb1.
  pose proof (round_nearest _ _ _ Hq1) as Hr. cbv zeta in Hr.
  assert (Hrb : 2 ^ 23 ≤ round_nearest_even (shr_m mrs) (loc_of_shr_record mrs) ≤ 2 ^ 24).
  { unfold round_nearest_even. repeat case_match; lia. }
  set (r := round_nearest_even _ _) in *. clearbody r. exists r. split; [done|]. split; [lia|].
  unfold normal. destruct (Z.eqb_spec r (2 ^ 24)) as [->|Hne].
  - change (Zdigits2 (2 ^ 24)) with 25. rewrite fexp_normal by lia.
    replace (25 + (e + (dg - 24)) - 24 - (e + (dg - 24))) with 1 by lia.
    change (shr (shr_record_of_loc (2 ^ 24) loc_Exact) ?x 1) with ({| shr_m := 2 ^ 23; shr_r := false; shr_s := false |}, x + 1).
    cbn [shr_m]. change (2 ^ 23) with (Z.pos (2 ^ 23)). cbv iota.
    rewrite (proj2 (Z.leb_le _ _)) by lia. f_equal. lia.
  - rewrite (Zdigits2_pos r 24), fexp_normal by lia.
    replace (24 + (e + (dg - 24)) - 24 - (e + (dg - 24))) with 0 by lia. cbn [shr shr_record_of_loc shr_m].
    destruct r as [|r|r]; [lia| |lia]. cbn [Z.to_pos]. rewrite (proj2 (Z.leb_le _ _)) by lia. f_equal. lia.
Qed.

(** An integer of at most 63 digits as a binary32 number. *)
Lemma f32_of_Z_normal z : 0 < z < 2 ^ 63 →
  ∃ m e, f32_of_Z z = S754_finite false m e ∧ 2 ^ 23 ≤ Z.pos m < 2 ^ 24 ∧ -23 ≤ e ≤ 40.
Proof.
  intros Hz. destruct z as [|p|p]; [lia| |lia]. unfold f32_of_Z, binary_normalize, binary_round.
  pose proof (digits2_bounds p) as Hb. set (dg := Z.pos (digits2_pos p)) in *.
  assert (Hdg : 1 ≤ dg ≤ 63).
  { split; [unfold dg; lia|]. destruct (Z.le_gt_cases dg 63); [done|].
    pose proof (Z.pow_le_mono_r 2 63 (dg - 1)). lia. }
  rewrite Z.add_0_r, fexp_normal by lia. unfold shl_align. rewrite Z.sub_0_r.
  assert (Hfin : ∀ m e k, 24 ≤ k ≤ 63 → 2 ^ (k - 1) ≤ Z.pos m < 2 ^ k → e + k = dg →
    ∃ m' e', binary_round_aux 24 128 false (Z.pos m) e loc_Exact = S754_finite false m' e' ∧ 2 ^ 23 ≤ Z.pos m' < 2 ^ 24 ∧ -23 ≤ e' ≤ 40).
  { intros m e k Hk Hm He. destruct (round_aux_normal false (Z.pos m) e loc_Exact (Z.pos m) 1 k) as (r & Hr & _ & ->); [|lia..|].
    { split; [done|]. split; [done|]. cbn. lia. }
    unfold normal. destruct (Z.eqb_spec r (2 ^ 24)).
    - exists (2 ^ 23)%positive, (e + k - 24 + 1). split; [done|]. lia.
    - exists (Z.to_pos r), (e + k - 24). rewrite Z2Pos.id by lia. split; [done|]. lia. }
  destruct (dg - 24) as [|k|k] eqn:Ek.
  - apply (Hfin p 0 24); [lia| |lia]. replace 24 with dg by lia. done.
  - apply (Hfin p 0 dg); [lia|done|lia].
  - apply (Hfin _ _ 24); [lia| |lia].
    assert (Ei : Z.pos (Pos.iter xO p k) = Z.pos p * 2 ^ Z.pos k).
    { clear. induction k as [|k IH] using Pos.peano_ind; [cbn; lia|].
      rewrite Pos.iter_succ, Pos2Z.inj_succ, Z.pow_succ_r, (Pos2Z.inj_xO (Pos.iter _ _ _)), IH by lia. lia. }
    rewrite Ei. assert (E1 : 2 ^ (24 - 1) = 2 ^ (dg - 1) * 2 ^ Z.pos k) by (rewrite <-Z.pow_add_r by lia; f_equal; lia).
    assert (E2 : 2 ^ 24 = 2 ^ dg * 2 ^ Z.pos k) by (rewrite <-Z.pow_add_r by lia; f_equal; lia).
    assert (0 < 2 ^ Z.pos k) by (apply Z.pow_pos_nonneg; lia). rewrite E1, E2. nia.
Qed.

(** ** Products and quotients of normal numbers *)
Lemma new_location_quotient q r d : 0 < d → 0 ≤ q → 0 ≤ r < d →
  quotient (shr_record_of_loc q (new_location d r)) (q * d + r) d.
Proof.
  intros Hd Hq Hr.
  assert (Hloc : new_location d r = if r =? 0 then loc_Exact else loc_Inexact (2 * r ?= d)).
  { unfold new_location, new_location_even, new_location_odd. destruct (Z.even d) eqn:He; [done|]. case_match; [done|]. f_equal.
    assert (2 * r ≠ d) by (intros <-; by rewrite Z.even_mul in He).
    destruct (Z.compare_spec (2 * r + 1) d), (Z.compare_spec (2 * r) d); done || lia. }
  rewrite Hloc. unfold quotient. destruct (Z.eqb_spec r 0) as [->|Hne]; [cbn; lia|].
  destruct (Z.compare_spec (2 * r) d); cbn; lia.
Qed.

Lemma mul_normal m1 e1 m2 e2 dg :
  24 ≤ dg → 2 ^ (dg - 1) ≤ Z.pos m1 * Z.pos m2 < 2 ^ dg → -149 ≤ e1 + e2 + dg - 24 → e1 + e2 + dg - 24 < 104 →
  ∃ r, 2 ^ 23 ≤ r ≤ 2 ^ 24 ∧ 2 * Z.abs (r * 2 ^ (dg - 24) - Z.pos m1 * Z.pos m2) ≤ 2 ^ (dg - 24) ∧
    f32_mul (S754_finite false m1 e1) (S754_finite false m2 e2) = normal false r (e1 + e2 + dg - 24).
Proof.
  intros Hdg Hm He1 He2. unfold f32_mul, SFmul. cbn [xorb].
  destruct (round_aux_normal false (Z.pos (m1 * m2)) (e1 + e2) loc_Exact (Z.pos (m1 * m2)) 1 dg) as (r & Hr & Hn & ->);
    [by split; [|cbn; lia]|lia..|]. exists r. split; [done|]. split; [lia|done].
Qed.
(** The quotient of two numbers with 24 digits each has 24 or 25, with 24 more bits. *)
Lemma div_normal m1 e1 m2 e2 dg :
  2 ^ 23 ≤ Z.pos m1 < 2 ^ 24 → 2 ^ 23 ≤ Z.pos m2 < 2 ^ 24 → -100 ≤ e1 - e2 ≤ 100 → 24 ≤ dg →
  2 ^ (dg - 1) * Z.pos m2 ≤ Z.pos m1 * 2 ^ 24 → Z.pos m1 * 2 ^ 24 < 2 ^ dg * Z.pos m2 → e1 - e2 + dg - 48 < 104 →
  ∃ r, 2 ^ 23 ≤ r ≤ 2 ^ 24 ∧ 2 * Z.abs (r * (2 ^ (dg - 24) * Z.pos m2) - Z.pos m1 * 2 ^ 24) ≤ 2 ^ (dg - 24) * Z.pos m2 ∧
    f32_div (S754_finite false m1 e1) (S754_finite false m2 e2) = normal false r (e1 - e2 + dg - 48).
Proof.
  intros Hm1 Hm2 He Hdg Hlo Hhi Hmax. unfold f32_div, SFdiv, SFdiv_core_binary.
  rewrite !(Zdigits2_pos (Z.pos _) 24), fexp_normal by lia.
  replace (Z.min _ _) with (e1 - e2 - 24) by lia. replace (e1 - e2 - (e1 - e2 - 24)) with 24 by lia.
  rewrite Z.shiftl_mul_pow2 by lia.
  destruct (Z.div_eucl (Z.pos m1 * 2 ^ 24) (Z.pos m2)) as [q r0] eqn:E.
  pose proof (Z_div_mod (Z.pos m1 * 2 ^ 24) (Z.pos m2) eq_refl) as Hdm. rewrite E in Hdm. destruct Hdm as [Hq Hr0].
  assert (Hq0 : 0 ≤ q) by nia.
  destruct (round_aux_normal false q (e1 - e2 - 24) (new_location (Z.pos m2) r0) (Z.pos m1 * 2 ^ 24) (Z.pos m2) dg)
    as (r & Hr & Hn & Hb); [|lia..|].
  { replace (Z.pos m1 * 2 ^ 24) with (q * Z.pos m2 + r0) by lia. by apply new_location_quotient. }
  exists r. split; [done|]. split; [done|]. cbn [xorb]. rewrite Hb. f_equal. lia.
Qed.

(** ** The neighbours

    A number multiplied by an integer and divided by it again is the number or one of its
    two neighbours. *)
Lemma mul_div_neighbour c e z :
  2 ^ 23 < Z.pos c < 2 ^ 24 - 2 → -40 ≤ e ≤ -10 → 0 < z < 2 ^ 63 →
  ∃ r, Z.abs (r - Z.pos c) ≤ 1 ∧
    f32_div (f32_mul (S754_finite false c e) (f32_of_Z z)) (f32_of_Z z) = S754_finite false (Z.to_pos r) e.
Proof.
  intros Hc He Hz. destruct (f32_of_Z_normal z Hz) as (m & em & -> & Hm & Hem).
  assert (Hfin : ∀ p ep dg, f32_mul (S754_finite false c e) (S754_finite false m em) = S754_finite false p ep →
    2 ^ 23 ≤ Z.pos p < 2 ^ 24 → ep = e + em + 48 - dg → 24 ≤ dg ≤ 25 →
    2 * Z.abs (Z.pos p * 2 ^ (48 - dg) - Z.pos c * Z.pos m) ≤ 2 ^ (48 - dg) → 2 ^ (47 - dg) * 2 < Z.pos m * 2 →
    ∃ r, Z.abs (r - Z.pos c) ≤ 1 ∧
      f32_div (f32_mul (S754_finite false c e) (S754_finite false m em)) (S754_finite false m em) = S754_finite false (Z.to_pos r) e).
  { intros p ep dg E Hp -> Hdg Hr Hmm. rewrite E.
    assert (dg = 24 ∨ dg = 25) as [->| ->] by lia.
    - destruct (div_normal p (e + em + 48 - 24) m em 24) as (r & Hr' & Hn & ->); [lia..|nia|nia|lia|].
      exists r. change (2 ^ (24 - 24)) with 1 in Hn. change (2 ^ (48 - 24)) with (2 ^ 24) in Hr. change (2 ^ (47 - 24)) with (2 ^ 23) in Hmm.
      assert (Hrc : Z.abs (r - Z.pos c) ≤ 1) by nia. split; [done|].
      unfold normal. rewrite (proj2 (Z.eqb_neq _ _)) by lia. f_equal. lia.
    - destruct (div_normal p (e + em + 48 - 25) m em 25) as (r & Hr' & Hn & ->); [lia..|nia|nia|lia|].
      exists r. change (2 ^ (25 - 24)) with 2 in Hn. change (2 ^ (48 - 25)) with (2 ^ 23) in Hr.
      assert (Hrc : Z.abs (r - Z.pos c) ≤ 1) by nia. split; [done|].
      unfold normal. rewrite (proj2 (Z.eqb_neq _ _)) by lia. f_equal. lia. }
  destruct (Z.lt_ge_cases (Z.pos c * Z.pos m) (2 ^ 47)) as [Hlt|Hge].
  - destruct (mul_normal c e m em 47) as (r & Hr & Hn & E); [lia|nia|lia|lia|]. change (2 ^ (47 - 24)) with (2 ^ 23) in Hn.
    unfold normal in E. destruct (Z.eqb_spec r (2 ^ 24)) as [->|Hne].
    + apply (Hfin _ _ 24 E); [lia|lia|lia|change (2 ^ (48 - 24)) with (2 ^ 24); lia|change (2 ^ (47 - 24)) with (2 ^ 23); nia].
    + apply (Hfin _ _ 25 E); [lia|lia|lia|change (2 ^ (48 - 25)) with (2 ^ 23)|change (2 ^ (47 - 25)) with (2 ^ 22)]; lia.
  - destruct (mul_normal c e m em 48) as (r & Hr & Hn & E); [lia|nia|lia|lia|]. change (2 ^ (48 - 24)) with (2 ^ 24) in Hn.
    assert (Hr24 : r ≠ 2 ^ 24) by nia. unfold normal in E. rewrite (proj2 (Z.eqb_neq _ _)) in E by done.
    apply (Hfin _ _ 24 E); [lia|lia|lia|change (2 ^ (48 - 24)) with (2 ^ 24)|change (2 ^ (47 - 24)) with (2 ^ 23)]; [lia|nia].
Qed.
