(* ===== verification/CStr.v ===== *)
(** * The C library's string functions, on byte lists

    A byte is an integer in [[0, 256)].  A C string is given by its bytes up to,
    and without, the terminating NUL. *)
From S2P Require Import Prelude.

(** The bytes of a string literal. *)
Definition bytes_of (s : string) : list Z := (λ c, Z.of_N (Ascii.N_of_ascii c)) <$> String.list_ascii_of_string s.

(** [strncmp] over two blocks of the same size: unsigned bytes, stopping at a NUL. *)
Fixpoint strncmp (a b : list Z) : Z :=
  match a, b with
  | x :: a, y :: b => if x =? y then if x =? 0 then 0 else strncmp a b else x - y
  | _, _ => 0
  end.
(** [strcmp] over two C strings. *)
Definition strcmp (a b : list Z) : Z := strncmp (a ++ [0]) (b ++ [0]).
(** The part of a block before its first NUL. *)
Fixpoint cut_nul (a : list Z) : list Z :=
  match a with
  | x :: a => if x =? 0 then [] else x :: cut_nul a
  | [] => []
  end.

Lemma strncmp_zero a b : length a = length b → strncmp a b = 0 ↔ cut_nul a = cut_nul b.
Proof.
  revert b. induction a as [|x a IH]; intros [|y b] Hlen; try done. simpl.
  injection Hlen as Hlen. destruct (Z.eqb_spec x y) as [->|Hne].
  - destruct (Z.eqb_spec y 0); [done|]. rewrite IH by done.
    split; [by intros ->|by intros [= ->]].
  - split; [lia|]. destruct (Z.eqb_spec x 0), (Z.eqb_spec y 0); congruence.
Qed.

Lemma cut_nul_snoc a : Forall (λ x, x ≠ 0) a → cut_nul (a ++ [0]) = a.
Proof.
  induction 1 as [|x a Hx Ha IH]; simpl; [done|]. destruct (Z.eqb_spec x 0); [done|]. by rewrite IH.
Qed.

Lemma strcmp_zero a b :
  Forall (λ x, x ≠ 0) a → Forall (λ x, x ≠ 0) b → strcmp a b = 0 ↔ a = b.
Proof.
  intros Ha Hb. unfold strcmp. revert b Hb.
  induction Ha as [|x a Hx Ha IH]; intros b [|y b' Hy Hb']; simpl; try done.
  - destruct y; done.
  - destruct x; done.
  - destruct (Z.eqb_spec x y) as [->|Hne]; [|split; [lia|congruence]].
    destruct (Z.eqb_spec y 0); [done|]. rewrite IH by done.
    split; [by intros ->|by intros [= ->]].
Qed.

(** ** A plain [char]
    Its bytes are 0 to 255; the implementation of C decides whether it is signed. *)
Class CharType := { char_is_signed : bool }.
Definition char_value `{CharType} (b : Z) : Z := if char_is_signed then swrapN 8 b else b.
Definition unsigned_char : CharType := {| char_is_signed := false |}.
Definition signed_char : CharType := {| char_is_signed := true |}.
Lemma char_value_ok `{CharType} x : 0 ≤ x < 256 → (char_is_signed = true → x < 128) → char_value x = x.
Proof.
  intros Hx Hs. unfold char_value. destruct char_is_signed; [|done]. specialize (Hs eq_refl).
  unfold swrapN. change (2 ^ (8 - 1)) with 128. change (2 ^ 8) with 256. rewrite Z.mod_small; lia.
Qed.
