(* ===== verification/Sort.v ===== *)
(** * [src/Noriko/sort.c]: sorting of pointer arrays

    [NkQuicksortPointers] and its splitting routine, on an array whose cells are
    of any type [A]; the predicate [fnPred] is a function to [Z] (an
    [NkInt32]).  Both loops and the recursion take the same fuel: a bound on
    the iterations of each loop and on the depth of the recursion. *)
From S2P Require Import Prelude.

Section sort.
  Context {A : Type} (fnPred : A → A → Z).
  Implicit Types arr : list A.

(** ** Definitions *)

(** First inner loop of the split: [while (i < j && fnPred(ptrArray[i], pivot) <= 0) ++i]. *)
Fixpoint split_scan_left (fuel : nat) (ptrArray : list A) (i j : Z) (pivot : A) : outcome Z :=
  match fuel with
  | O => OutOfFuel
  | S fuel =>
      if i <? j then
        x ← buf_get ptrArray i;
        if fnPred x pivot <=? 0 then split_scan_left fuel ptrArray (i + 1) j pivot else Ret i
      else Ret i
  end.

(** Second inner loop: [while (j > i && fnPred(ptrArray[j], pivot) > 0) --j]. *)
Fixpoint split_scan_right (fuel : nat) (ptrArray : list A) (i j : Z) (pivot : A) : outcome Z :=
  match fuel with
  | O => OutOfFuel
  | S fuel =>
      if j >? i then
        x ← buf_get ptrArray j;
        if fnPred x pivot >? 0 then split_scan_right fuel ptrArray i (j - 1) pivot else Ret j
      else Ret j
  end.

(** Exchange of two cells through a temporary. *)
Definition swap_cells (ptrArray : list A) (i j : Z) : outcome (list A) :=
  tmpPtr ← buf_get ptrArray i;
  y ← buf_get ptrArray j;
  ptrArray ← buf_set ptrArray i y;
  buf_set ptrArray j tmpPtr.

(** The outer loop [while (i < j)]; the result is the array and the final [i]. *)
Fixpoint split_loop (fuel : nat) (ptrArray : list A) (i j : Z) (pivot : A) : outcome (list A * Z) :=
  match fuel with
  | O => OutOfFuel
  | S fuel' =>
      if i <? j then
        i ← split_scan_left fuel ptrArray i j pivot;
        j ← split_scan_right fuel ptrArray i j pivot;
        x ← buf_get ptrArray i;
        y ← buf_get ptrArray j;
        if fnPred x y >? 0 then
          ptrArray ← swap_cells ptrArray i j;
          split_loop fuel' ptrArray i j pivot
        else split_loop fuel' ptrArray i j pivot
      else Ret (ptrArray, i)
  end.

Definition QuicksortSplit (fuel : nat) (ptrArray : list A) (left right : Z) : outcome (list A * Z) :=
  let i := left in
  let j := u64 (right - 1) in
  pivot ← buf_get ptrArray right;
  '(ptrArray, i) ← split_loop fuel ptrArray i j pivot;
  x ← buf_get ptrArray i;
  if fnPred x pivot >? 0 then
    ptrArray ← swap_cells ptrArray i right;
    Ret (ptrArray, i)
  else Ret (ptrArray, right).

Fixpoint NkQuicksortPointers (fuel : nat) (ptrArray : list A) (sInd eInd : Z)
    : outcome (list A * NkErrorCode) :=
  match fuel with
  | O => OutOfFuel
  | S fuel' =>
      if u64 (eInd - sInd) <? 2 then Ret (ptrArray, NkErr_NoOperation)
      else if sInd <? eInd then
        '(ptrArray, split) ← QuicksortSplit fuel ptrArray sInd eInd;
        '(ptrArray, _) ← NkQuicksortPointers fuel' ptrArray sInd (u64 (split - 1));
        '(ptrArray, _) ← NkQuicksortPointers fuel' ptrArray (u64 (split + 1)) eInd;
        Ret (ptrArray, NkErr_Ok)
      else Ret (ptrArray, NkErr_InvalidRange)
  end.

(** ** The comparison a caller has to supply

    [x ≼ y] iff [fnPred x y <= 0]; the C comparators of the repository are
    three-way comparisons of keys, so this is a total preorder. *)
Class ConsistentPred : Prop := {
  pred_total : ∀ x y, 0 < fnPred x y → fnPred y x ≤ 0;
  pred_trans : ∀ x y z, fnPred x y ≤ 0 → fnPred y z ≤ 0 → fnPred x z ≤ 0
}.

(** Elements of the cells [lo..hi] satisfy [P]. *)
Definition on_range (arr : list A) (lo hi : Z) (P : A → Prop) : Prop :=
  ∀ m x, lo ≤ m ≤ hi → arr !! Z.to_nat m = Some x → P x.

(** [arr'] is [arr] with the cells [lo..hi] permuted. *)
Definition permuted_within (lo hi : Z) (arr arr' : list A) : Prop :=
  arr' ≡ₚ arr ∧ ∀ m, 0 ≤ m → ¬ (lo ≤ m ≤ hi) → arr' !! Z.to_nat m = arr !! Z.to_nat m.

(** The strongest ordering the routine establishes: elements at least two cells apart. *)
Definition almost_sorted (arr : list A) (lo hi : Z) : Prop :=
  ∀ i j x y, lo ≤ i → i + 2 ≤ j → j ≤ hi →
    arr !! Z.to_nat i = Some x → arr !! Z.to_nat j = Some y → fnPred x y ≤ 0.

(** ** Lemmas *)

Lemma scan_left_spec fuel arr i j p :
  0 ≤ i ≤ j → j < Z.of_nat (length arr) → j - i < Z.of_nat fuel →
  ∃ i', split_scan_left fuel arr i j p = Ret i' ∧ i ≤ i' ≤ j ∧
    on_range arr i (i' - 1) (λ x, fnPred x p ≤ 0) ∧
    (i' < j → on_range arr i' i' (λ x, 0 < fnPred x p)).
Proof.
  revert i. induction fuel as [|fuel IH]; intros i Hij Hj Hf; [lia|]. simpl.
  destruct (Z.ltb_spec i j) as [Hlt|Hge].
  - destruct (buf_get_in arr i) as (x & -> & Hx); [lia|]. simpl.
    destruct (Z.leb_spec (fnPred x p) 0) as [Hle|Hgt].
    + destruct (IH (i + 1)) as (i' & -> & ? & Hr & Hi'); [lia..|].
      exists i'. split_and!; [done|lia..| |done].
      intros m y Hm Hy. destruct (decide (m = i)) as [->|]; [congruence|].
      apply (Hr m); [lia|done].
    + exists i. split_and!; [done|lia..| |]; [intros m y Hm; lia|].
      intros _ m y Hm Hy. replace m with i in Hy by lia. congruence.
  - exists i. split_and!; [done|lia..| |lia]. intros m y Hm; lia.
Qed.

Lemma scan_right_spec fuel arr i j p :
  0 ≤ i ≤ j → j < Z.of_nat (length arr) → j - i < Z.of_nat fuel →
  ∃ j', split_scan_right fuel arr i j p = Ret j' ∧ i ≤ j' ≤ j ∧
    on_range arr (j' + 1) j (λ x, 0 < fnPred x p) ∧
    (i < j' → on_range arr j' j' (λ x, fnPred x p ≤ 0)).
Proof.
  revert j. induction fuel as [|fuel IH]; intros j Hij Hj Hf; [lia|]. simpl.
  destruct (Z.gtb_spec j i) as [Hlt|Hge].
  - destruct (buf_get_in arr j) as (x & -> & Hx); [lia|]. simpl.
    destruct (Z.gtb_spec (fnPred x p) 0) as [Hgt|Hle].
    + destruct (IH (j - 1)) as (j' & -> & ? & Hr & Hj'); [lia..|].
      exists j'. split_and!; [done|lia..| |done].
      intros m y Hm Hy. destruct (decide (m = j)) as [->|]; [congruence|].
      apply (Hr m); [lia|done].
    + exists j. split_and!; [done|lia..| |]; [intros m y Hm; lia|].
      intros _ m y Hm Hy. replace m with j in Hy by lia. congruence.
  - exists j. split_and!; [done|lia..| |lia]. intros m y Hm; lia.
Qed.

Lemma permuted_within_refl lo hi arr : permuted_within lo hi arr arr.
Proof. by split. Qed.

Lemma permuted_within_trans lo hi lo' hi' a b c :
  lo ≤ lo' → hi' ≤ hi → permuted_within lo hi a b → permuted_within lo' hi' b c →
  permuted_within lo hi a c.
Proof.
  intros ?? [P1 E1] [P2 E2]. split; [by rewrite P2|].
  intros m Hm Hout. rewrite E2, E1; auto; lia.
Qed.

Lemma permuted_within_weaken lo hi lo' hi' a b :
  lo' ≤ lo → hi ≤ hi' → permuted_within lo hi a b → permuted_within lo' hi' a b.
Proof. intros ?? [P E]. split; [done|]. intros m ??. apply E; lia. Qed.

Lemma permuted_within_length lo hi a b : permuted_within lo hi a b → length b = length a.
Proof. intros [P _]. by apply Permutation_length. Qed.

(** What holds of every element of a range still does after permuting within it. *)
Lemma permuted_within_on_range lo hi a b P :
  0 ≤ lo → permuted_within lo hi a b → on_range a lo hi P → on_range b lo hi P.
Proof.
  intros Hlo [Hp He] Ha m x Hm Hx.
  set (l := Z.to_nat lo). set (n := S (Z.to_nat (hi - lo))).
  assert (Hsplit : ∀ c : list A, c = take l c ++ take n (drop l c) ++ drop n (drop l c)).
  { intros c. by rewrite !take_drop. }
  assert (Hl : take l b = take l a).
  { apply list_eq. intros i. destruct (decide (i < l)%nat).
    - rewrite !lookup_take_lt by done. specialize (He (Z.of_nat i)).
      rewrite Nat2Z.id in He. apply He; lia.
    - by rewrite !lookup_take_ge by lia. }
  assert (Hr : drop n (drop l b) = drop n (drop l a)).
  { rewrite !drop_drop. apply list_eq. intros i. rewrite !lookup_drop.
    specialize (He (Z.of_nat (l + n + i))). rewrite Nat2Z.id in He. apply He; lia. }
  rewrite (Hsplit a), (Hsplit b), Hl, Hr in Hp.
  apply Permutation_app_inv_l, Permutation_app_inv_r in Hp.
  assert (Hin : x ∈ take n (drop l b)).
  { apply elem_of_take. exists (Z.to_nat m - l)%nat. rewrite lookup_drop.
    split; [|lia]. by replace (l + _)%nat with (Z.to_nat m) by lia. }
  rewrite Hp in Hin. apply elem_of_take in Hin as (i & Hi & ?).
  rewrite lookup_drop in Hi. apply (Ha (Z.of_nat (l + i))); [lia|]. by rewrite Nat2Z.id.
Qed.

Lemma swap_cells_spec arr i j :
  0 ≤ i < Z.of_nat (length arr) → 0 ≤ j < Z.of_nat (length arr) → i ≤ j →
  ∃ arr' x y, swap_cells arr i j = Ret arr' ∧ permuted_within i j arr arr' ∧
    arr !! Z.to_nat i = Some x ∧ arr !! Z.to_nat j = Some y ∧
    arr' !! Z.to_nat i = Some y ∧ arr' !! Z.to_nat j = Some x ∧
    (∀ m, 0 ≤ m → m ≠ i → m ≠ j → arr' !! Z.to_nat m = arr !! Z.to_nat m).
Proof.
  intros Hi Hj Hij. unfold swap_cells.
  destruct (buf_get_in arr i) as (x & -> & Hx); [done|].
  destruct (buf_get_in arr j) as (y & -> & Hy); [done|]. simpl.
  rewrite buf_set_in by done. simpl. rewrite buf_set_in by (rewrite length_insert; done).
  assert (Hm : ∀ m, 0 ≤ m → m ≠ i → m ≠ j →
    <[Z.to_nat j:=x]> (<[Z.to_nat i:=y]> arr) !! Z.to_nat m = arr !! Z.to_nat m).
  { intros m ???. rewrite !list_lookup_insert_ne by lia. done. }
  eexists _, x, y. split_and!; [done| |done|done| | |done].
  - split; [by apply Permutation_insert_swap|]. intros m ??. apply Hm; lia.
  - destruct (decide (i = j)) as [->|].
    + rewrite list_lookup_insert_eq; [congruence|]. rewrite length_insert. lia.
    + rewrite list_lookup_insert_ne by lia. rewrite list_lookup_insert_eq by lia. done.
  - rewrite list_lookup_insert_eq; [done|]. rewrite length_insert. lia.
Qed.

Lemma on_range_ext a b lo hi P :
  (∀ m, lo ≤ m ≤ hi → b !! Z.to_nat m = a !! Z.to_nat m) → on_range a lo hi P → on_range b lo hi P.
Proof. intros He Ha m x Hm Hx. apply (Ha m); [done|]. by rewrite <-He. Qed.

Lemma on_range_join a lo mid hi P :
  on_range a lo mid P → on_range a (mid + 1) hi P → on_range a lo hi P.
Proof.
  intros H1 H2 m x Hm Hx. destruct (decide (m ≤ mid)); [apply (H1 m)|apply (H2 m)]; auto; lia.
Qed.

Lemma on_range_single a i x (P : A → Prop) : a !! Z.to_nat i = Some x → on_range a i i P ↔ P x.
Proof.
  intros Hx. split; [intros H; apply (H i); [lia|done]|].
  intros H m y Hm Hy. replace m with i in Hy by lia. congruence.
Qed.

Lemma on_range_at a i x (P : A → Prop) : a !! Z.to_nat i = Some x → on_range a i i P → P x.
Proof. intros Hx. by apply on_range_single. Qed.

Lemma on_range_empty a lo hi P : hi < lo → on_range a lo hi P.
Proof. intros ? m x Hm; lia. Qed.

Lemma pred_refl `{!ConsistentPred} x : fnPred x x ≤ 0.
Proof. destruct (decide (0 < fnPred x x)) as [Hx|]; [|lia]. by apply pred_total in Hx. Qed.

(** One pass of the split loop: either the two indices met, or the cells they
    stopped at are exchanged and the loop goes on. *)
Lemma split_loop_spec `{!ConsistentPred} fuel arr i j p :
  0 ≤ i ≤ j → j < Z.of_nat (length arr) →
  j - i + 1 < Z.of_nat fuel ∨ (on_range arr i i (λ x, fnPred x p ≤ 0) ∧ j - i < Z.of_nat fuel) →
  ∃ arr' k, split_loop fuel arr i j p = Ret (arr', k) ∧ i ≤ k ≤ j ∧
    permuted_within i j arr arr' ∧
    on_range arr' i (k - 1) (λ x, fnPred x p ≤ 0) ∧
    on_range arr' (k + 1) j (λ x, 0 < fnPred x p) ∧
    (on_range arr j j (λ x, 0 < fnPred x p) ∨ k < j → on_range arr' k k (λ x, 0 < fnPred x p)).
Proof.
  revert arr i j. induction fuel as [|fuel IH]; intros arr i j Hij Hj Hf; [lia|].
  cbn [split_loop]. destruct (Z.ltb_spec i j) as [Hlt|Hge].
  2: { exists arr, i. split_and!; [done|lia..|apply permuted_within_refl| | |];
       [by apply on_range_empty; lia..|]. replace j with i by lia. intros [?|]; [done|lia]. }
  destruct (scan_left_spec (S fuel) arr i j p) as (i' & -> & Hi' & Hleft & Hstop); [lia..|].
  step.
  destruct (scan_right_spec (S fuel) arr i' j p) as (j' & -> & Hj' & Hright & Hstop'); [lia..|].
  step.
  destruct (buf_get_in arr i') as (x & -> & Hx); [lia|]. step.
  destruct (buf_get_in arr j') as (y & -> & Hy); [lia|]. step.
  destruct (decide (i' = j')) as [->|Hne].
  - assert (x = y) as -> by congruence. pose proof (pred_refl y).
    destruct (Z.gtb_spec (fnPred y y) 0); [lia|].
    destruct fuel as [|fuel]; [lia|]. cbn [split_loop]. rewrite Z.ltb_irrefl.
    exists arr, j'. split_and!; [done|lia..|apply permuted_within_refl|done|done|].
    destruct (decide (j' = j)) as [->|]; [intros [?|]; [done|lia]|intros _; apply Hstop; lia].
  - assert (0 < fnPred x p) as Hxp by exact (on_range_at _ _ _ _ Hx (Hstop ltac:(lia))).
    assert (fnPred y p ≤ 0) as Hyp by exact (on_range_at _ _ _ _ Hy (Hstop' ltac:(lia))).
    destruct (Z.gtb_spec (fnPred x y) 0) as [_|Hxy].
    2: { pose proof (pred_trans x y p Hxy Hyp). lia. }
    destruct (swap_cells_spec arr i' j') as (arr1 & x' & y' & -> & Hperm & ? & ? & Hi1 & Hj1 & Ho);
      [lia..|]. simplify_eq. step.
    pose proof (permuted_within_length _ _ _ _ Hperm) as Hlen.
    destruct (IH arr1 i' j') as (arr' & k & -> & Hk & Hp' & Hl' & Hr' & Hkk); [lia..| |].
    { right. split; [by eapply on_range_single|].
      destruct Hf as [|[Hi ?]]; [lia|]. destruct (decide (i' = i)) as [->|]; [|lia].
      pose proof (on_range_at _ _ _ _ Hx Hi). simpl in *. lia. }
    exists arr', k. split_and!; [done|lia..| | | |].
    + eapply permuted_within_trans; [..|exact Hp']; [| |eapply permuted_within_weaken; [..|exact Hperm]]; lia.
    + apply (on_range_join _ _ (i' - 1)); [|by replace (i' - 1 + 1) with i' by lia].
      eapply on_range_ext; [|exact Hleft]. intros m Hm.
      rewrite (proj2 Hp') by lia. apply Ho; lia.
    + apply (on_range_join _ _ j'); [done|].
      eapply on_range_ext; [|exact Hright]. intros m Hm.
      rewrite (proj2 Hp') by lia. apply Ho; lia.
    + intros _. apply Hkk. left. by eapply on_range_single.
Qed.

(** The split: the pivot is the last cell, it ends up at the index returned, and
    the cells before (after) that index are not above (above) it. *)
Lemma QuicksortSplit_spec `{!ConsistentPred} fuel arr s e :
  0 ≤ s < e → e < Z.of_nat (length arr) → Z.of_nat (length arr) ≤ SIZE_MAX →
  e - s < Z.of_nat fuel →
  ∃ arr' k p, QuicksortSplit fuel arr s e = Ret (arr', k) ∧ s ≤ k ≤ e ∧
    permuted_within s e arr arr' ∧ arr' !! Z.to_nat k = Some p ∧
    on_range arr' s (k - 1) (λ x, fnPred x p ≤ 0) ∧
    on_range arr' (k + 1) e (λ x, 0 < fnPred x p).
Proof.
  intros Hs He Hlen Hf. unfold QuicksortSplit.
  rewrite wrapN_small by (unfold is_u, SIZE_MAX in *; lia).
  destruct (buf_get_in arr e) as (p & -> & Hp); [lia|]. step.
  destruct (decide (e - 1 - s + 1 < Z.of_nat fuel)) as [Hf'|]; [|lia].
  destruct (split_loop_spec fuel arr s (e - 1) p)
    as (arr1 & k & -> & Hk & Hp1 & Hl & Hr & Hkk); [lia..|by left|].
  step.
  pose proof (permuted_within_length _ _ _ _ Hp1) as Hlen1.
  assert (arr1 !! Z.to_nat e = Some p) as Hpe by (rewrite (proj2 Hp1) by lia; done).
  destruct (buf_get_in arr1 k) as (x & -> & Hx); [lia|]. step.
  destruct (Z.gtb_spec (fnPred x p) 0) as [Hxp|Hxp].
  - destruct (swap_cells_spec arr1 k e) as (arr2 & x' & p' & -> & Hperm & ? & ? & Hk2 & He2 & Ho);
      [lia..|]. simplify_eq. step.
    exists arr2, k, p. split_and!; [done|lia..| |done| |].
    + eapply permuted_within_trans; [..|exact Hperm]; [| |eapply permuted_within_weaken; [..|exact Hp1]]; lia.
    + eapply on_range_ext; [|exact Hl]. intros m Hm. apply Ho; lia.
    + apply (on_range_join _ _ (e - 1)).
      * intros m z Hm Hz. apply (Hr m); [lia|]. rewrite <-Ho by lia. done.
      * replace (e - 1 + 1) with e by lia. by apply (on_range_single _ _ _ _ He2).
  - exists arr1, e, p. split_and!; [done|lia..| |done| |by apply on_range_empty; lia].
    + eapply permuted_within_weaken; [..|exact Hp1]; lia.
    + destruct (decide (k = e - 1)) as [->|Hne].
      * apply (on_range_join _ _ (e - 1 - 1)); [done|].
        replace (e - 1 - 1 + 1) with (e - 1) by lia. by eapply on_range_single.
      * assert (0 < fnPred x p) by exact (on_range_at _ _ _ _ Hx (Hkk ltac:(lia))). lia.
Qed.

Lemma almost_sorted_ext a b lo hi :
  (∀ m, lo ≤ m ≤ hi → b !! Z.to_nat m = a !! Z.to_nat m) → almost_sorted a lo hi → almost_sorted b lo hi.
Proof.
  intros He Ha i j x y ??? Hx Hy. rewrite He in Hx, Hy by lia. by apply (Ha i j).
Qed.

Lemma almost_sorted_small a lo hi : hi < lo + 2 → almost_sorted a lo hi.
Proof. intros ? i j x y; lia. Qed.

(** Gluing two sorted sides around a pivot. *)
Lemma almost_sorted_glue `{!ConsistentPred} a s k e p :
  a !! Z.to_nat k = Some p → almost_sorted a s (k - 1) → almost_sorted a (k + 1) e →
  on_range a s (k - 1) (λ x, fnPred x p ≤ 0) → on_range a (k + 1) e (λ x, 0 < fnPred x p) →
  almost_sorted a s e.
Proof.
  intros Hp Hl Hr Hle Hgt i j x y Hi Hij Hj Hx Hy.
  assert (Hxp : i ≤ k → fnPred x p ≤ 0).
  { intros. destruct (decide (i = k)) as [->|]; [|apply (Hle i); auto; lia].
    replace x with p by congruence. apply pred_refl. }
  assert (Hpy : k ≤ j → fnPred p y ≤ 0).
  { intros. destruct (decide (j = k)) as [->|].
    - replace y with p by congruence. apply pred_refl.
    - apply pred_total, (Hgt j); auto; lia. }
  destruct (decide (j < k)); [apply (Hl i j); auto; lia|].
  destruct (decide (k < i)); [apply (Hr i j); auto; lia|].
  apply (pred_trans x p y); [apply Hxp|apply Hpy]; lia.
Qed.

(** A split index of 0 makes the left recursive call read far outside the array. *)
Lemma quicksort_wrapped fuel arr s :
  0 < Z.of_nat fuel → 0 ≤ s < SIZE_MAX - 2 → Z.of_nat (length arr) ≤ SIZE_MAX →
  NkQuicksortPointers fuel arr s SIZE_MAX = Undef.
Proof.
  intros Hf Hs Hlen. destruct fuel as [|fuel]; [lia|]. cbn [NkQuicksortPointers].
  rewrite wrapN_small by (unfold is_u, SIZE_MAX in *; lia).
  destruct (Z.ltb_spec (SIZE_MAX - s) 2); [lia|]. destruct (Z.ltb_spec s SIZE_MAX); [|lia].
  unfold QuicksortSplit. rewrite buf_get_out by lia. done.
Qed.

(** The recursion on a range inside the array. *)
Lemma quicksort_range `{!ConsistentPred} fuel arr s e :
  0 ≤ s → 0 ≤ e → s ≤ e + 1 → e < Z.of_nat (length arr) → Z.of_nat (length arr) < SIZE_MAX - 2 →
  e - s + 1 < Z.of_nat fuel →
  (s = 0 ∧ NkQuicksortPointers fuel arr s e = Undef) ∨
  ∃ arr' ec, NkQuicksortPointers fuel arr s e = Ret (arr', ec) ∧
    permuted_within s e arr arr' ∧ almost_sorted arr' s e.
Proof.
  revert arr s e. induction fuel as [|fuel IH]; intros arr s e Hs He0 Hse He Hlen Hf; [lia|].
  cbn [NkQuicksortPointers].
  destruct (decide (e < s + 2)) as [Hsmall|Hbig].
  { right. destruct (Z.ltb_spec (u64 (e - s)) 2) as [_|Hw].
    - exists arr, NkErr_NoOperation. split_and!; [done|apply permuted_within_refl|].
      by apply almost_sorted_small.
    - destruct (Z.ltb_spec s e) as [Hlt|_].
      { rewrite wrapN_small in Hw by (unfold is_u, SIZE_MAX in *; lia). lia. }
      exists arr, NkErr_InvalidRange. split_and!; [done|apply permuted_within_refl|].
      by apply almost_sorted_small. }
  rewrite wrapN_small by (unfold is_u, SIZE_MAX in *; lia).
  destruct (Z.ltb_spec (e - s) 2); [lia|]. destruct (Z.ltb_spec s e); [|lia].
  destruct (QuicksortSplit_spec (S fuel) arr s e)
    as (arr1 & k & p & -> & Hk & Hp1 & Hpk & Hl & Hr); [lia..|]. step.
  pose proof (permuted_within_length _ _ _ _ Hp1) as Hlen1.
  destruct (decide (k = 0)) as [->|Hk0].
  { left. split; [lia|]. replace (u64 (0 - 1)) with SIZE_MAX by done.
    rewrite quicksort_wrapped; [done|lia..]. }
  rewrite (wrapN_small 64 (k - 1)) by (unfold is_u, SIZE_MAX in *; lia).
  rewrite (wrapN_small 64 (k + 1)) by (unfold is_u, SIZE_MAX in *; lia).
  destruct (IH arr1 s (k - 1)) as [[-> ->]|(arr2 & ec2 & -> & Hp2 & Hs2)]; [lia..|by left|].
  step.
  pose proof (permuted_within_length _ _ _ _ Hp2) as Hlen2.
  destruct (IH arr2 (k + 1) e) as [[? _]|(arr3 & ec3 & -> & Hp3 & Hs3)]; [lia..|].
  step. right. exists arr3, NkErr_Ok. split; [done|].
  assert (He3 : ∀ m, 0 ≤ m ≤ k → arr3 !! Z.to_nat m = arr2 !! Z.to_nat m)
    by (intros; apply Hp3; lia).
  assert (He2 : ∀ m, k ≤ m → arr2 !! Z.to_nat m = arr1 !! Z.to_nat m)
    by (intros; apply Hp2; lia).
  split.
  - apply (permuted_within_trans s e (k + 1) e _ arr2); [lia..| |done].
    apply (permuted_within_trans s e s (k - 1) _ arr1); [lia..|done|done].
  - apply (almost_sorted_glue _ s k e p); [|eapply almost_sorted_ext; [|done]|done| |].
    + rewrite He3, He2 by lia. done.
    + intros; apply He3; lia.
    + eapply on_range_ext; [|eapply permuted_within_on_range; [| |exact Hl]]; [|done|done].
      intros. apply He3; lia.
    + eapply permuted_within_on_range; [|done|]; [lia|].
      eapply on_range_ext; [|exact Hr]. intros. apply He2; lia.
Qed.

(** When every other cell of the range is above the pivot the split index is the
    first cell. *)
Lemma split_at_first `{!ConsistentPred} fuel arr s e p :
  0 ≤ s < e → e < Z.of_nat (length arr) → Z.of_nat (length arr) ≤ SIZE_MAX →
  e - s < Z.of_nat fuel → arr !! Z.to_nat e = Some p →
  on_range arr s (e - 1) (λ x, 0 < fnPred x p) →
  ∃ arr', QuicksortSplit fuel arr s e = Ret (arr', s) ∧ permuted_within s e arr arr'.
Proof.
  intros Hs He Hlen Hf Hp Hgt. unfold QuicksortSplit.
  rewrite wrapN_small by (unfold is_u, SIZE_MAX in *; lia).
  rewrite (buf_get_lookup _ _ p) by (done || lia). step.
  assert (Hloop : split_loop fuel arr s (e - 1) p = Ret (arr, s)).
  { destruct fuel as [|fuel]; [lia|]. cbn [split_loop].
    destruct (Z.ltb_spec s (e - 1)) as [Hlt|]; [|done].
    destruct (scan_left_spec (S fuel) arr s (e - 1) p) as (i' & -> & Hi' & Hl & _); [lia..|].
    step. assert (i' = s) as ->.
    { destruct (decide (i' = s)) as [|Hne]; [done|]. destruct (buf_get_in arr s) as (x & _ & Hx); [lia|].
      assert (fnPred x p ≤ 0) by (apply (Hl s); [lia|done]).
      assert (0 < fnPred x p) by (apply (Hgt s); [lia|done]). lia. }
    destruct (scan_right_spec (S fuel) arr s (e - 1) p) as (j' & -> & Hj' & _ & Hr); [lia..|].
    step. assert (j' = s) as ->.
    { destruct (decide (j' = s)) as [|Hne]; [done|]. destruct (buf_get_in arr j') as (x & _ & Hx); [lia|].
      assert (fnPred x p ≤ 0) by (apply (Hr ltac:(lia) j'); [lia|done]).
      assert (0 < fnPred x p) by (apply (Hgt j'); [lia|done]). lia. }
    destruct (buf_get_in arr s) as (x & -> & Hx); [lia|]. step.
    destruct (Z.gtb_spec (fnPred x x) 0); [by pose proof (pred_refl x); lia|].
    destruct fuel; [lia|]. cbn [split_loop]. by rewrite Z.ltb_irrefl. }
  rewrite Hloop. step.
  destruct (buf_get_in arr s) as (x & -> & Hx); [lia|]. step.
  assert (0 < fnPred x p) by (apply (Hgt s); [lia|done]).
  destruct (Z.gtb_spec (fnPred x p) 0); [|lia].
  destruct (swap_cells_spec arr s e) as (arr2 & ? & ? & -> & ? & _); [lia..|]. by exists arr2.
Qed.

End sort.

#[global] Arguments ConsistentPred {A} fnPred.
#[global] Arguments almost_sorted {A} fnPred arr lo hi.

(** ** Properties *)

(** C26: with a consistent comparison and enough fuel, [NkQuicksortPointers]
    returns on every range inside the array (the one exception: from index 0 it
    may run off the array).  It permutes the cells of the
    range, leaves every other cell alone, and any two elements of the range at
    least two cells apart are in order. *)
Theorem quicksort_correct {A} (fnPred : A → A → Z) `{!ConsistentPred fnPred} fuel arr s e :
  0 ≤ s ≤ e → e < Z.of_nat (length arr) → Z.of_nat (length arr) < SIZE_MAX - 2 →
  e - s + 1 < Z.of_nat fuel →
  (s = 0 ∧ NkQuicksortPointers fnPred fuel arr s e = Undef) ∨
  ∃ arr' ec, NkQuicksortPointers fnPred fuel arr s e = Ret (arr', ec) ∧
    permuted_within s e arr arr' ∧ almost_sorted fnPred arr' s e.
Proof. intros. apply quicksort_range; auto; lia. Qed.

Definition cmpZ (x y : Z) : Z := x - y.
#[global] Instance cmpZ_consistent : ConsistentPred cmpZ.
Proof. split; unfold cmpZ; lia. Qed.

Lemma quicksort_correct_witness :
  NkQuicksortPointers cmpZ 9 [0; 5; 3; 9; 4; 4; 1; 7] 1 7 = Ret ([0; 1; 3; 4; 4; 5; 7; 9], NkErr_Ok) ∧
  ((1 = 0 ∧ NkQuicksortPointers cmpZ 9 [0; 5; 3; 9; 4; 4; 1; 7] 1 7 = Undef) ∨
   ∃ arr' ec, NkQuicksortPointers cmpZ 9 [0; 5; 3; 9; 4; 4; 1; 7] 1 7 = Ret (arr', ec) ∧
    permuted_within 1 7 [0; 5; 3; 9; 4; 4; 1; 7] arr' ∧ almost_sorted cmpZ arr' 1 7).
Proof.
  split; [vm_compute; reflexivity|].
  apply (quicksort_correct cmpZ 9 [0; 5; 3; 9; 4; 4; 1; 7] 1 7); simpl; unfold SIZE_MAX; lia.
Defined.

(** Sorting from index 0 a range of at least three cells whose last element
    is below all the others reads outside the array: the split index is 0, and
    the left recursive call runs up to index [0 - 1 = SIZE_MAX]. *)
Theorem quicksort_last_minimum_undefined {A} (fnPred : A → A → Z) `{!ConsistentPred fnPred}
    fuel arr e p :
  2 ≤ e → e < Z.of_nat (length arr) → Z.of_nat (length arr) < SIZE_MAX - 2 →
  e + 1 < Z.of_nat fuel → arr !! Z.to_nat e = Some p →
  on_range arr 0 (e - 1) (λ x, 0 < fnPred x p) →
  NkQuicksortPointers fnPred fuel arr 0 e = Undef.
Proof.
  intros He2 He Hlen Hf Hp Hgt. destruct fuel as [|fuel]; [lia|]. cbn [NkQuicksortPointers].
  rewrite wrapN_small by (unfold is_u, SIZE_MAX in *; lia).
  destruct (Z.ltb_spec (e - 0) 2); [lia|]. destruct (Z.ltb_spec 0 e); [|lia].
  destruct (split_at_first fnPred (S fuel) arr 0 e p) as (arr' & -> & Hperm%permuted_within_length);
    [lia..|done|done|]. step.
  replace (u64 (0 - 1)) with SIZE_MAX by done. rewrite quicksort_wrapped; [done|lia..].
Qed.

Lemma quicksort_last_minimum_undefined_witness :
  NkQuicksortPointers cmpZ 4 [3; 2; 1] 0 2 = Undef.
Proof.
  apply (quicksort_last_minimum_undefined cmpZ 4 [3; 2; 1] 2 1);
    [simpl; unfold SIZE_MAX; lia..|reflexivity|].
  intros m x Hm Hx. unfold cmpZ. assert (m = 0 ∨ m = 1) as [-> | ->] by lia; simplify_eq/=; lia.
Defined.

(** A range of two elements is left as it is, in whatever order. *)
Example quicksort_pair_unsorted :
  NkQuicksortPointers cmpZ 4 [2; 1] 0 1 = Ret ([2; 1], NkErr_NoOperation).
Proof. reflexivity. Qed.
