(* ===== verification/Vector.v ===== *)
(** * [src/Noriko/dstruct/vector.c]: the dynamic array of pointers

    The buffer [mp_dataPtr] is the list of the cells the host made usable; a
    cell nobody has written is [None] and reading it is undefined.  A pointer
    is an integer.  Calls of the element destructor are returned, in order. *)
From S2P Require Import Prelude Float32 Sort.

(** ** Data *)
Record NkVectorProperties := mkVectorProperties {
  m_structSize : Z;
  m_initialCap : Z;
  m_minCap : Z;
  m_maxCap : Z;
  m_growFactor : NkFloat
}.
Record NkVector := mkVector {
  m_elemCount : Z;
  m_elemCap : Z;
  m_vecProps : NkVectorProperties;
  mp_fnDest : bool;              (* is an element destructor installed? *)
  mp_dataPtr : list (option Z)
}.

Definition set_buffer (v : NkVector) (count cap : Z) (data : list (option Z)) : NkVector :=
  mkVector count cap (m_vecProps v) (mp_fnDest v) data.

(** Reading a cell of the buffer. *)
Definition vec_cell (data : list (option Z)) (i : Z) : outcome Z :=
  c ← buf_get data i; get_or Undef c.
(** Number of pointers a [memcpy] of [n * sizeof(NkVoid ptr)] bytes moves. *)
Definition ptr_cells (n : Z) : Z := u64 (n * sizeof_ptr) / sizeof_ptr.

Definition NkVectorDefaultProperties : NkVectorProperties := {|
  m_structSize := 40;
  m_initialCap := 16;
  m_minCap := 8;
  m_maxCap := SIZE_MAX - 1;
  m_growFactor := f32_lit 3 2
|}.

(** ** Internal helpers *)
Definition VectorDefaultPred (elemPtr extraParam currIndex : Z) : bool := elemPtr =? extraParam.

Definition VectorValidateProperties (p : NkVectorProperties) : outcome bool :=
  NK_ASSERT (m_structSize p >? 0) NkErr_InParameter;;
  NK_ASSERT ((m_initialCap p >=? m_minCap p) && (m_initialCap p <=? m_maxCap p)) NkErr_InParameter;;
  NK_ASSERT ((m_minCap p >? 0) && (m_minCap p <=? m_maxCap p)) NkErr_InParameter;;
  NK_ASSERT (m_maxCap p <? SIZE_MAX - 1) NkErr_InParameter;;
  NK_ASSERT (f_gt (m_growFactor p) (f32_lit 1 1)) NkErr_InParameter;;
  Ret true.

(** The destructor loop [for (i = sInd; i <= eInd; i++)], [n] iterations. *)
Fixpoint free_loop (n : nat) (data : list (option Z)) (i : Z) : outcome (list Z) :=
  match n with
  | O => Ret []
  | S n =>
      x ← vec_cell data i;
      rest ← free_loop n data (i + 1);
      Ret (x :: rest)
  end.

(** The result carries the pointers handed to the destructor. *)
Definition VectorTryFreeRange (v : NkVector) (sInd eInd : Z) : outcome (NkErrorCode * list Z) :=
  if negb (mp_fnDest v) then Ret (NkErr_NoOperation, [])
  else
    freed ← free_loop (Z.to_nat (eInd - sInd + 1)) (mp_dataPtr v) sInd;
    Ret (NkErr_Ok, freed).

(** [NkGPRealloc] on the buffer: the common prefix of the cells is kept. *)
Definition VectorResizeBuffer (h : heap) (v : NkVector) (newCap : Z) : outcome (NkErrorCode * NkVector) :=
  let bytes := u64 (newCap * sizeof_ptr) in
  NK_ASSERT (negb (bytes =? 0)) NkErr_InParameter;;
  match h bytes with
  | None => Ret (NkErr_MemoryReallocation, v)
  | Some usable =>
      let n := Z.to_nat (usable / sizeof_ptr) in
      let kept := take n (mp_dataPtr v) in
      Ret (NkErr_Ok, set_buffer v (m_elemCount v) (m_elemCap v)
             (kept ++ replicate (n - length kept) None))
  end.

Definition VectorCopyBuffer (data : list (option Z)) (index : Z) (elemArray : list Z) (nElems : Z)
    : outcome (list (option Z)) :=
  src ← buf_read elemArray 0 (ptr_cells nElems);
  buf_write data index (Some <$> src).

(** ** Creation and destruction *)

(** [poolRes] is the result of the [NkPoolAlloc] of the parent structure. *)
Definition NkVectorCreate (h : heap) (poolRes : NkErrorCode) (props : NkVectorProperties)
    (fnElemDest : bool) : outcome (NkErrorCode * option NkVector) :=
  ok ← VectorValidateProperties props;
  NK_ASSERT ok NkErr_InParameter;;
  if negb (isOk poolRes) then Ret (poolRes, None)
  else
    let initCap := u64 (sizeof_ptr * m_initialCap props) in
    NK_ASSERT (negb (initCap =? 0)) NkErr_InParameter;;
    match h initCap with
    | None => Ret (NkErr_MemoryAllocation, None)
    | Some usable =>
        Ret (NkErr_Ok, Some (mkVector 0 (m_initialCap props) props fnElemDest
                               (replicate (Z.to_nat (usable / sizeof_ptr)) None)))
    end.

Definition NkVectorGetElementCount (v : NkVector) : Z := m_elemCount v.
Definition NkVectorGetCapacity (v : NkVector) : Z := m_elemCap v.
Definition NK_VECTOR_BEGIN (v : NkVector) : Z := 0.
Definition NK_VECTOR_END (v : NkVector) : Z := NkVectorGetElementCount v.

(** The destructor calls made by [NkVectorDestroy]; both blocks are then freed. *)
Definition NkVectorDestroy (vec : option NkVector) : outcome (list Z) :=
  match vec with
  | None => Ret []
  | Some v =>
      if m_elemCount v >? 0 then
        '(_, freed) ← VectorTryFreeRange v (NK_VECTOR_BEGIN v) (u64 (NK_VECTOR_END v - 1));
        Ret freed
      else Ret []
  end.

Definition NkVectorClear (h : heap) (v : NkVector) : outcome (NkErrorCode * NkVector * list Z) :=
  '(_, freed) ← VectorTryFreeRange v (NK_VECTOR_BEGIN v) (NK_VECTOR_END v);
  let v := set_buffer v 0 (m_minCap (m_vecProps v)) (mp_dataPtr v) in
  '(ec, v) ← VectorResizeBuffer h v (m_minCap (m_vecProps v));
  Ret (ec, v, freed).

(** ** Insertion *)
Definition VectorGrownCap (v : NkVector) (reqSize : Z) : outcome Z :=
  capAfterGrowing ← f_to_u 64 (f_ceil (f32_mul (f32_of_Z (m_elemCap v)) (m_growFactor (m_vecProps v))));
  Ret (NK_MAX (m_maxCap (m_vecProps v)) (NK_MAX reqSize capAfterGrowing)).

(** The two copies that place [nElems] elements at [index]. *)
Definition VectorPlace (v : NkVector) (index : Z) (elemArray : list Z) (nElems : Z)
    : outcome (NkErrorCode * NkVector) :=
  shifted ← buf_read elemArray 0 (ptr_cells (m_elemCount v - index));
  data ← buf_write (mp_dataPtr v) (u64 (index + nElems)) (Some <$> shifted);
  data ← VectorCopyBuffer data index elemArray nElems;
  Ret (NkErr_Ok, set_buffer v (u64 (m_elemCount v + nElems)) (m_elemCap v) data).

Definition NkVectorInsertMulti (h : heap) (v : NkVector) (index : Z) (elemArray : list Z) (nElems : Z)
    : outcome (NkErrorCode * NkVector) :=
  first ← buf_get elemArray 0;
  NK_ASSERT (negb (first =? NULL)) NkErr_InParameter;;
  NK_ASSERT (index <=? m_elemCount v) NkErr_ArrayElemOutOfBounds;;
  let reqSize := u64 (m_elemCount v + nElems) in
  if reqSize <=? m_elemCount v then Ret (NkErr_UnsignedWrapAround, v)
  else if reqSize >? m_elemCap v then
    newCap ← VectorGrownCap v reqSize;
    if newCap <? reqSize then Ret (NkErr_CapLimitExceeded, v)
    else
      '(ec, v) ← VectorResizeBuffer h v newCap;
      if negb (isOk ec) then Ret (ec, v)
      else VectorPlace (set_buffer v (m_elemCount v) newCap (mp_dataPtr v)) index elemArray nElems
  else VectorPlace v index elemArray nElems.

Definition NkVectorInsert (h : heap) (v : NkVector) (elemPtr index : Z) : outcome (NkErrorCode * NkVector) :=
  NkVectorInsertMulti h v index [elemPtr] 1.

(** ** Removal *)

(** What an erasing call did besides changing the vector: the destructor calls,
    the caller's output array, and a [memset] of [snd] bytes at address [fst]. *)
Record EraseEffects := mkEraseEffects {
  ee_freed : list Z;
  ee_out : list (option Z);
  ee_memset : option (Z * Z)
}.

(** The shift that closes the gap [sInd .. sInd + len). *)
Definition VectorCloseGap (v : NkVector) (sInd len : Z) : outcome (list (option Z)) :=
  tail ← buf_read (mp_dataPtr v) (sInd + len) (ptr_cells (m_elemCount v - sInd - len));
  buf_write (mp_dataPtr v) sInd tail.

Definition NkVectorEraseMulti (v : NkVector) (sInd maxN : Z) (elemArray : list (option Z))
    : outcome (NkErrorCode * NkVector * EraseEffects) :=
  NK_ASSERT (sInd <? m_elemCount v) NkErr_ArrayElemOutOfBounds;;
  let lenToDel := NK_MIN maxN (m_elemCount v - sInd) in
  if lenToDel >? 0 then
    '(freeState, freed) ← VectorTryFreeRange v sInd (sInd + lenToDel);
    out ← (if bool_decide (freeState = NkErr_NoOperation) then
             src ← buf_read (mp_dataPtr v) sInd (ptr_cells lenToDel);
             buf_write elemArray 0 src
           else Ret elemArray);
    data ← VectorCloseGap v sInd lenToDel;
    let v' := set_buffer v (m_elemCount v - lenToDel) (m_elemCap v) data in
    if bool_decide (freeState = NkErr_NoOperation) then
      Ret (NkErr_Ok, v', mkEraseEffects freed out None)
    else
      target ← vec_cell out 0;
      if target =? NULL then Undef
      else Ret (NkErr_Ok, v', mkEraseEffects freed out (Some (target, u64 (maxN * sizeof_ptr))))
  else Ret (NkErr_NoOperation, v, mkEraseEffects [] elemArray None).

Definition NkVectorErase (v : NkVector) (index : Z) (elemPtr : option Z)
    : outcome (NkErrorCode * NkVector * EraseEffects) :=
  NkVectorEraseMulti v index 1 [elemPtr].

(** The predicate is handed the vector itself, the user's data and the index. *)
Fixpoint erase_if_loop (fuel : nat) (v : NkVector) (sEnd i j : Z) (elemArray : list (option Z))
    (fnPred : NkVector → Z → bool) (freed : list Z) : outcome (NkVector * EraseEffects) :=
  match fuel with
  | O => OutOfFuel
  | S fuel =>
      if i <? sEnd then
        elemPtr ← vec_cell (mp_dataPtr v) i;
        if fnPred v i then
          '(freed, elemArray) ←
            (if mp_fnDest v then Ret (freed ++ [elemPtr], elemArray)
             else out ← buf_set elemArray j (Some elemPtr); Ret (freed, out));
          tail ← buf_read (mp_dataPtr v) (i + 1) (ptr_cells (u64 (m_elemCount v - i - 1)));
          data ← buf_write (mp_dataPtr v) i tail;
          let j := j + 1 in
          erase_if_loop fuel (set_buffer v (u64 (m_elemCount v - j)) (m_elemCap v) data)
            sEnd i j elemArray fnPred freed
        else
          erase_if_loop fuel (set_buffer v (u64 (m_elemCount v - j)) (m_elemCap v) (mp_dataPtr v))
            sEnd (i + 1) j elemArray fnPred freed
      else Ret (v, mkEraseEffects freed elemArray None)
  end.

Definition NkVectorEraseIf (fuel : nat) (v : NkVector) (sInd maxN : Z) (elemArray : list (option Z))
    (fnPred : NkVector → Z → bool) : outcome (NkErrorCode * NkVector * EraseEffects) :=
  let realCount := NK_MIN maxN (u64 (m_elemCount v - sInd)) in
  '(v, eff) ← erase_if_loop fuel v (u64 (sInd + realCount)) sInd 0 elemArray fnPred [];
  Ret (NkErr_Ok, v, eff).

(** ** Searching *)
Fixpoint find_loop (fuel : nat) (v : NkVector) (i endIndex : Z) (isLeftToRight : bool)
    (fnPred : Z → Z → Z → bool) (extraParam : Z) : outcome Z :=
  match fuel with
  | O => OutOfFuel
  | S fuel =>
      if (if isLeftToRight then i <? endIndex else i >? endIndex) then
        elemPtr ← vec_cell (mp_dataPtr v) i;
        if fnPred elemPtr extraParam i then Ret elemPtr
        else find_loop fuel v i endIndex isLeftToRight fnPred extraParam
      else Ret NULL
  end.

Definition NkVectorFindIf (fuel : nat) (v : NkVector) (sInd eInd : Z) (isLeftToRight : bool)
    (fnPred : Z → Z → Z → bool) (extraParam : Z) : outcome Z :=
  let startIndex := if isLeftToRight then sInd else eInd in
  let endIndex := if isLeftToRight then eInd else sInd in
  find_loop fuel v startIndex endIndex isLeftToRight fnPred extraParam.

Definition NkVectorFind (fuel : nat) (v : NkVector) (elemPtr sInd eInd : Z) (isLeftToRight : bool) : outcome Z :=
  NkVectorFindIf fuel v sInd eInd isLeftToRight VectorDefaultPred elemPtr.

(** The loop of [NkVectorFilter]: [n] further indices from [i]. *)
Fixpoint filter_loop (n : nat) (v : NkVector) (i : Z) (sub : list (option Z)) (outIndex : Z)
    (fnPred : Z → Z → bool) : outcome (list (option Z) * Z) :=
  match n with
  | O => Ret (sub, outIndex)
  | S n =>
      elemPtr ← vec_cell (mp_dataPtr v) i;
      if fnPred elemPtr i then
        sub ← buf_set sub outIndex (Some elemPtr);
        filter_loop n v (i + 1) sub (outIndex + 1) fnPred
      else filter_loop n v (i + 1) sub outIndex fnPred
  end.

Definition NkVectorFilter (v : NkVector) (sInd maxN : Z) (subVecArray : list (option Z))
    (fnPred : Z → Z → bool) : outcome (NkErrorCode * list (option Z)) :=
  NK_ASSERT (sInd <? m_elemCount v) NkErr_InParameter;;
  '(sub, outIndex) ←
    filter_loop (Z.to_nat (NK_MIN maxN (m_elemCount v) - sInd)) v sInd subVecArray 0 fnPred;
  sub ← buf_write sub outIndex (replicate (Z.to_nat (ptr_cells (u64 (maxN - outIndex)))) (Some NULL));
  Ret (NkErr_Ok, sub).

(** ** Reordering *)
Fixpoint reverse_loop (fuel : nat) (data : list (option Z)) (i j : Z) : outcome (list (option Z)) :=
  match fuel with
  | O => OutOfFuel
  | S fuel =>
      if negb (Z.lxor i j =? 0) then
        tmpPtr ← vec_cell data i;
        y ← vec_cell data j;
        data ← buf_set data i (Some y);
        data ← buf_set data j (Some tmpPtr);
        reverse_loop fuel data (u64 (i + 1)) (u64 (j - 1))
      else Ret data
  end.

Definition NkVectorReverse (fuel : nat) (v : NkVector) (sInd eInd : Z) : outcome NkVector :=
  NK_ASSERT (sInd <=? eInd) NkErr_InvalidRange;;
  NK_ASSERT (eInd <? m_elemCount v) NkErr_ArrayElemOutOfBounds;;
  data ← reverse_loop fuel (mp_dataPtr v) sInd eInd;
  Ret (set_buffer v (m_elemCount v) (m_elemCap v) data).

(** The elements must have been written for the comparison to be defined. *)
Definition NkVectorSort (fuel : nat) (v : NkVector) (sInd eInd : Z) (fnPred : Z → Z → Z) : outcome NkVector :=
  NK_ASSERT (sInd <=? eInd) NkErr_InvalidRange;;
  NK_ASSERT (eInd <? m_elemCount v) NkErr_ArrayElemOutOfBounds;;
  let n := Z.to_nat (m_elemCount v) in
  elems ← get_or Undef (mapM id (take n (mp_dataPtr v)));
  '(elems, _) ← NkQuicksortPointers fnPred fuel elems sInd eInd;
  Ret (set_buffer v (m_elemCount v) (m_elemCap v) ((Some <$> elems) ++ drop n (mp_dataPtr v))).

(** ** Access *)
Definition NkVectorAt (v : NkVector) (index : Z) : outcome Z :=
  NK_ASSERT (index <? m_elemCount v) NkErr_ArrayElemOutOfBounds;;
  vec_cell (mp_dataPtr v) index.

Definition NkVectorAtMulti (v : NkVector) (sInd maxN : Z) (subVecArray : list (option Z))
    : outcome (NkErrorCode * list (option Z)) :=
  NK_ASSERT (sInd <? m_elemCount v) NkErr_InParameter;;
  src ← buf_read (mp_dataPtr v) sInd (ptr_cells (NK_MIN (m_elemCount v - sInd) maxN));
  out ← buf_write subVecArray 0 src;
  Ret (if maxN =? 0 then NkErr_NoOperation else NkErr_Ok, out).

Section foreach.
Context {S : Type}.
(** The callback gets the element and its index and may change the user's data. *)
Fixpoint foreach_loop (n : nat) (v : NkVector) (i : Z) (fnCallback : Z → S → Z → NkErrorCode * S)
    (extraParam : S) : outcome (NkErrorCode * S) :=
  match n with
  | O => Ret (NkErr_Ok, extraParam)
  | Datatypes.S n =>
      elemPtr ← vec_cell (mp_dataPtr v) i;
      let '(ec, extraParam) := fnCallback elemPtr extraParam i in
      if negb (isOk ec) then Ret (ec, extraParam)
      else foreach_loop n v (i + 1) fnCallback extraParam
  end.

(** The loop condition is [i <= sInd + realCount]. *)
Definition NkVectorForEach (v : NkVector) (sInd maxN : Z) (fnCallback : Z → S → Z → NkErrorCode * S)
    (extraParam : S) : outcome (NkErrorCode * S) :=
  NK_ASSERT (sInd <? m_elemCount v) NkErr_InvalidRange;;
  let realCount := NK_MIN maxN (m_elemCount v - sInd) in
  foreach_loop (Z.to_nat (realCount + 1)) v sInd fnCallback extraParam.
End foreach.

(** The address of a cell, as an index into the buffer. *)
Definition NkVectorGetBuffer (v : NkVector) (sInd : Z) : outcome Z :=
  NK_ASSERT (sInd <? m_elemCap v) NkErr_ArrayOutOfBounds;;
  Ret sInd.

(** ** Abstraction and invariant *)

(** The vector stores exactly the elements [l]. *)
Record vec_repr (v : NkVector) (l : list Z) : Prop := {
  vr_count : m_elemCount v = Z.of_nat (length l);
  vr_cap : m_elemCount v ≤ m_elemCap v;
  vr_room : m_elemCap v ≤ Z.of_nat (length (mp_dataPtr v));
  vr_limit : Z.of_nat (length (mp_dataPtr v)) * sizeof_ptr ≤ INT64_MAX;
  vr_elems : take (length l) (mp_dataPtr v) = Some <$> l
}.

(** ** Lemmas *)

Lemma ptr_cells_small n : 0 ≤ n < 2 ^ 61 → ptr_cells n = n.
Proof.
  intros. unfold ptr_cells, sizeof_ptr. rewrite wrapN_small by (unfold is_u; lia).
  apply Z.div_mul. lia.
Qed.

Lemma vec_cell_lookup data i x :
  0 ≤ i → data !! Z.to_nat i = Some (Some x) → vec_cell data i = Ret x.
Proof. intros. unfold vec_cell. by rewrite (buf_get_lookup _ _ (Some x)). Qed.

Lemma vec_cell_cases data i :
  vec_cell data i = Undef ∨ ∃ x, vec_cell data i = Ret x ∧ 0 ≤ i < Z.of_nat (length data).
Proof.
  unfold vec_cell, buf_get. destruct (in_buf data i) eqn:E; [|by left].
  apply in_buf_spec in E. destruct (data !! Z.to_nat i) as [[x|]|]; simpl; eauto.
Qed.

Section repr.
Context (v : NkVector) (l : list Z) (Hv : vec_repr v l).

Lemma repr_cell i x : l !! i = Some x → vec_cell (mp_dataPtr v) (Z.of_nat i) = Ret x.
Proof using Hv.
  intros Hx. pose proof (lookup_lt_Some _ _ _ Hx) as Hi.
  apply vec_cell_lookup; [lia|]. rewrite Nat2Z.id.
  rewrite <-(lookup_take_lt _ (length l)) by done.
  rewrite (vr_elems _ _ Hv), list_lookup_fmap, Hx. done.
Qed.

Lemma repr_data : mp_dataPtr v = (Some <$> l) ++ drop (length l) (mp_dataPtr v).
Proof using Hv. rewrite <-(vr_elems _ _ Hv). by rewrite take_drop. Qed.

Lemma repr_bounds :
  m_elemCount v = Z.of_nat (length l) ∧ m_elemCount v ≤ m_elemCap v ∧
  m_elemCap v ≤ Z.of_nat (length (mp_dataPtr v)) ∧ Z.of_nat (length (mp_dataPtr v)) < 2 ^ 60.
Proof using Hv. destruct Hv as [? ? ? Hlim ?]. unfold sizeof_ptr, INT64_MAX in Hlim. lia. Qed.

(** Reading a block of initialised cells. *)
Lemma repr_read s n :
  (s + n ≤ length l)%nat →
  buf_read (mp_dataPtr v) (Z.of_nat s) (Z.of_nat n) = Ret (Some <$> take n (drop s l)).
Proof using Hv.
  intros Hn. destruct repr_bounds as (?&?&?&?).
  rewrite buf_read_in, !Nat2Z.id by lia. f_equal.
  rewrite repr_data, drop_app_le by (rewrite length_fmap; lia).
  rewrite take_app_le by (rewrite length_drop, length_fmap; lia).
  by rewrite fmap_take, fmap_drop.
Qed.
End repr.

(** Placing elements at the end of the used part. *)
(** [v], holding [l], with [xs] written behind its elements: the count grows, the
    capacity, the properties, the destructor and the cells behind stay. *)
Definition appended (v : NkVector) (l xs : list Z) : NkVector :=
  set_buffer v (m_elemCount v + Z.of_nat (length xs)) (m_elemCap v)
    ((Some <$> l ++ xs) ++ drop (length (l ++ xs)) (mp_dataPtr v)).

Lemma vector_place_end v l xs :
  vec_repr v l → (0 < length xs)%nat → m_elemCount v + Z.of_nat (length xs) ≤ m_elemCap v →
  ∃ v', VectorPlace v (m_elemCount v) xs (Z.of_nat (length xs)) = Ret (NkErr_Ok, v') ∧
    vec_repr v' (l ++ xs) ∧ v' = appended v l xs.
Proof.
  intros Hv Hxs Hfit. destruct (repr_bounds v l Hv) as (Hc & Hcap & Hroom & Hlim).
  unfold VectorPlace, VectorCopyBuffer.
  rewrite Z.sub_diag, (ptr_cells_small 0), (ptr_cells_small (Z.of_nat _)) by lia.
  change (buf_read xs 0 0) with (Ret (A:=list Z) []). cbn [mbind outcome_bind fmap list_fmap].
  change (buf_write (mp_dataPtr v) ?o []) with (Ret (mp_dataPtr v)). step.
  rewrite buf_read_in by lia. step.
  rewrite Nat2Z.id, drop_0, firstn_all.
  rewrite buf_write_in by (rewrite ?length_fmap; lia). step.
  eexists. split; [done|]. rewrite wrapN_small by (unfold is_u; lia).
  assert (Hd : ∀ data, data = (Some <$> l ++ xs) ++ drop (length (l ++ xs)) (mp_dataPtr v) →
    set_buffer v (m_elemCount v + Z.of_nat (length xs)) (m_elemCap v) data = appended v l xs) by (by intros ? ->).
  rewrite Hc, Nat2Z.id, length_fmap, (vr_elems _ _ Hv). rewrite <-Hc.
  split; [|apply Hd; by rewrite fmap_app, length_app, <-app_assoc]. clear Hd.
  split; cbn [m_elemCount m_elemCap mp_dataPtr set_buffer m_vecProps].
  - rewrite length_app. lia.
  - lia.
  - rewrite !length_app, !length_fmap, length_drop. lia.
  - rewrite !length_app, !length_fmap, length_drop. unfold sizeof_ptr, INT64_MAX. lia.
  - rewrite fmap_app, app_assoc. apply take_app_length'. by rewrite !length_app, !length_fmap.
Qed.

(** The checks at the head of [NkVectorInsertMulti], passed. *)
Lemma insert_multi_checks h v l index xs x :
  vec_repr v l → head xs = Some x → x ≠ NULL → index ≤ m_elemCount v →
  m_elemCount v + Z.of_nat (length xs) < 2 ^ 64 →
  NkVectorInsertMulti h v index xs (Z.of_nat (length xs)) =
    let reqSize := m_elemCount v + Z.of_nat (length xs) in
    if reqSize >? m_elemCap v then
      newCap ← VectorGrownCap v reqSize;
      if newCap <? reqSize then Ret (NkErr_CapLimitExceeded, v)
      else
        '(ec, v) ← VectorResizeBuffer h v newCap;
        if negb (isOk ec) then Ret (ec, v)
        else VectorPlace (set_buffer v (m_elemCount v) newCap (mp_dataPtr v)) index xs (Z.of_nat (length xs))
    else VectorPlace v index xs (Z.of_nat (length xs)).
Proof.
  intros Hv Hx Hnn Hi Hreq. destruct (repr_bounds v l Hv) as (Hc & Hcap & Hroom & Hlim).
  destruct xs as [|x' xs]; [done|]. injection Hx as ->. unfold NkVectorInsertMulti.
  rewrite (buf_get_lookup _ 0 x) by done. step.
  destruct (Z.eqb_spec x NULL); [done|]. rewrite (proj2 (Z.leb_le index _) Hi). cbn [mbind outcome_bind negb NK_ASSERT].
  rewrite wrapN_small by (unfold is_u; lia).
  simpl length in *. destruct (Z.leb_spec (m_elemCount v + Z.of_nat (S (length xs))) (m_elemCount v)); [lia|].
  done.
Qed.

(** [VectorGrownCap] is never below the requested size nor below [m_maxCap]. *)
Lemma grown_cap_ge v req c :
  VectorGrownCap v req = Ret c → req ≤ c ∧ m_maxCap (m_vecProps v) ≤ c.
Proof.
  unfold VectorGrownCap. intros H. outcome_inv. rewrite !NK_MAX_spec. lia.
Qed.

(** A successful reallocation keeps the elements. *)
Lemma resize_repr h `{!HeapLaws h} v l newCap :
  vec_repr v l → m_elemCap v ≤ newCap → 0 < newCap → newCap * sizeof_ptr ≤ INT64_MAX →
  match h (newCap * sizeof_ptr) with
  | None => VectorResizeBuffer h v newCap = Ret (NkErr_MemoryReallocation, v)
  | Some _ => ∃ v', VectorResizeBuffer h v newCap = Ret (NkErr_Ok, v') ∧
      vec_repr (set_buffer v' (m_elemCount v') newCap (mp_dataPtr v')) l ∧
      m_elemCount v' = m_elemCount v ∧ m_vecProps v' = m_vecProps v
  end.
Proof.
  intros Hv Hge Hpos Hlim. destruct (repr_bounds v l Hv) as (Hc & Hcap & Hroom & Hl).
  unfold VectorResizeBuffer. rewrite wrapN_small by (unfold is_u, sizeof_ptr, INT64_MAX in *; lia).
  destruct (Z.eqb_spec (newCap * sizeof_ptr) 0); [unfold sizeof_ptr in *; lia|].
  cbn [mbind outcome_bind negb NK_ASSERT].
  destruct (h (newCap * sizeof_ptr)) as [u|] eqn:E; [|done].
  destruct (heap_usable _ _ E) as [Hu1 Hu2].
  eexists. split; [done|]. split; [|done].
  assert (newCap ≤ u / sizeof_ptr) by (apply Z.div_le_lower_bound; unfold sizeof_ptr in *; lia).
  assert (u / sizeof_ptr * sizeof_ptr ≤ u) by (rewrite Z.mul_comm; apply Z.mul_div_le; done).
  split; cbn [m_elemCount m_elemCap mp_dataPtr set_buffer m_vecProps].
  - done.
  - lia.
  - rewrite length_app, length_replicate, length_take. lia.
  - rewrite length_app, length_replicate, length_take. unfold sizeof_ptr, INT64_MAX in *. lia.
  - rewrite take_app_le by (rewrite length_take; lia).
    rewrite take_take, Nat.min_l by lia. apply Hv.
Qed.

(** ** Properties *)

(** C25: within the capacity, inserting non-null elements at the end of a vector
    appends exactly these elements and changes nothing else: the vector is as before
    but for its count and the cells directly behind its elements, which hold the new
    ones; capacity, properties, destructor and all other cells are the same. *)
Theorem vector_append h v l xs x :
  vec_repr v l → head xs = Some x → x ≠ NULL →
  m_elemCount v + Z.of_nat (length xs) ≤ m_elemCap v →
  ∃ v', NkVectorInsertMulti h v (m_elemCount v) xs (Z.of_nat (length xs)) = Ret (NkErr_Ok, v') ∧
    vec_repr v' (l ++ xs) ∧ v' = appended v l xs.
Proof.
  intros Hv Hx Hnn Hfit. destruct (repr_bounds v l Hv) as (Hc & Hcap & Hroom & Hlim).
  rewrite (insert_multi_checks _ _ l _ _ x) by (done || lia). cbv zeta.
  destruct (Z.gtb_spec (m_elemCount v + Z.of_nat (length xs)) (m_elemCap v)); [lia|].
  destruct (vector_place_end v l xs) as (v' & -> & ? & ?); [done| |done|eauto].
  destruct xs; simpl in *; [done|lia].
Qed.

(** Appending beyond the capacity reallocates to at least [m_maxCap] cells (the
    growth factor is without effect below it) and then appends; when the host
    cannot serve that request the call fails with [NkErr_MemoryReallocation] and
    the vector is unchanged.  [NkErr_CapLimitExceeded] is never the result. *)
Theorem vector_append_grow h `{!HeapLaws h} v l xs x newCap :
  vec_repr v l → head xs = Some x → x ≠ NULL →
  m_elemCap v < m_elemCount v + Z.of_nat (length xs) →
  VectorGrownCap v (m_elemCount v + Z.of_nat (length xs)) = Ret newCap →
  newCap * sizeof_ptr ≤ INT64_MAX →
  m_maxCap (m_vecProps v) ≤ newCap ∧
  match h (newCap * sizeof_ptr) with
  | None => NkVectorInsertMulti h v (m_elemCount v) xs (Z.of_nat (length xs)) = Ret (NkErr_MemoryReallocation, v)
  | Some _ =>
      ∃ v', NkVectorInsertMulti h v (m_elemCount v) xs (Z.of_nat (length xs)) = Ret (NkErr_Ok, v') ∧
        vec_repr v' (l ++ xs) ∧ m_elemCap v' = newCap
  end.
Proof.
  intros Hv Hx Hnn Hbig Hg Hlim. destruct (repr_bounds v l Hv) as (Hc & Hcap & Hroom & Hl).
  destruct (grown_cap_ge _ _ _ Hg) as [Hreq Hmax]. split; [done|].
  rewrite (insert_multi_checks _ _ l _ _ x)
    by (done || lia || (unfold sizeof_ptr, INT64_MAX in Hlim; lia)). cbv zeta.
  destruct (Z.gtb_spec (m_elemCount v + Z.of_nat (length xs)) (m_elemCap v)); [|lia].
  rewrite Hg. step.
  destruct (Z.ltb_spec newCap (m_elemCount v + Z.of_nat (length xs))); [lia|].
  pose proof (resize_repr h v l newCap Hv) as Hr.
  assert (0 < Z.of_nat (length xs)) by (destruct xs; simpl in *; [done|lia]).
  destruct (h (newCap * sizeof_ptr)) as [u|]; [|by rewrite Hr by (done || lia)].
  destruct Hr as (v1 & -> & Hv1 & Hc1 & Hp1); [lia..|]. step. simpl negb. cbv iota.
  rewrite <-Hc1.
  destruct (vector_place_end _ l xs Hv1) as (v' & Hpl & ? & ->).
  - destruct xs; simpl in *; [done|lia].
  - cbn [m_elemCount m_elemCap set_buffer]. lia.
  - cbn [m_elemCount set_buffer] in Hpl. rewrite Hpl. eauto.
Qed.

(** A vector of three elements with room for four. *)
Definition example_props : NkVectorProperties := mkVectorProperties 40 4 2 6 (f32_lit 3 2).
Definition example_vec (dest : bool) : NkVector :=
  mkVector 3 4 example_props dest [Some 11; Some 12; Some 13; None].
Lemma example_vec_repr dest : vec_repr (example_vec dest) [11; 12; 13].
Proof. split; simpl; unfold sizeof_ptr, INT64_MAX; (reflexivity || lia). Defined.

Lemma vector_append_witness :
  ∃ v', NkVectorInsertMulti strict_heap (example_vec false) 3 [14] 1 = Ret (NkErr_Ok, v') ∧
    vec_repr v' [11; 12; 13; 14] ∧ v' = mkVector 4 4 example_props false [Some 11; Some 12; Some 13; Some 14].
Proof.
  apply (vector_append strict_heap (example_vec false) [11; 12; 13] [14] 14);
    [apply example_vec_repr|reflexivity|discriminate|simpl; lia].
Defined.

Lemma vector_append_grow_witness :
  6 ≤ 6 ∧ ∃ v', NkVectorInsertMulti strict_heap (example_vec false) 3 [14; 15] 2 = Ret (NkErr_Ok, v') ∧
    vec_repr v' [11; 12; 13; 14; 15] ∧ m_elemCap v' = 6.
Proof.
  apply (vector_append_grow strict_heap (example_vec false) [11; 12; 13] [14; 15] 14 6);
    [apply example_vec_repr|reflexivity|discriminate|simpl; lia|vm_compute; reflexivity|
     unfold sizeof_ptr, INT64_MAX; lia].
Defined.

(** Inserting before the last element (with room to spare) overwrites that
    element with a second copy of the new one, because the shift reads the
    source array instead of the buffer; inserting further left reads past the
    one-element source array. *)
Theorem vector_insert_before_end h v l index x :
  vec_repr v l → x ≠ NULL → m_elemCount v < m_elemCap v → 0 ≤ index < m_elemCount v →
  if index =? m_elemCount v - 1
  then ∃ v', NkVectorInsert h v x index = Ret (NkErr_Ok, v') ∧
             vec_repr v' (take (Z.to_nat index) l ++ [x; x])
  else NkVectorInsert h v x index = Undef.
Proof.
  intros Hv Hnn Hroom' Hi. destruct (repr_bounds v l Hv) as (Hc & Hcap & Hroom & Hlim).
  unfold NkVectorInsert. change 1 with (Z.of_nat (length [x])) at 2 3.
  rewrite (insert_multi_checks _ _ l _ _ x) by (done || (simpl; lia)). cbv zeta.
  change (Z.of_nat (length [x])) with 1.
  destruct (Z.gtb_spec (m_elemCount v + 1) (m_elemCap v)); [lia|].
  unfold VectorPlace, VectorCopyBuffer. rewrite (ptr_cells_small (m_elemCount v - index)) by lia.
  destruct (Z.eqb_spec index (m_elemCount v - 1)) as [->|Hne].
  2: { rewrite (buf_read_out [x] 0 (m_elemCount v - index)) by (simpl; lia). done. }
  replace (m_elemCount v - (m_elemCount v - 1)) with 1 by lia.
  change (buf_read [x] 0 1) with (Ret [x]). cbn [mbind outcome_bind fmap list_fmap].
  rewrite (wrapN_small 64 (m_elemCount v - 1 + 1)) by (unfold is_u; lia).
  rewrite buf_write_in by (simpl; lia). cbn [mbind outcome_bind length].
  change (ptr_cells 1) with 1. change (buf_read [x] 0 1) with (Ret [x]).
  cbn [mbind outcome_bind fmap list_fmap].
  assert (Hlen : ∀ d : list (option Z), length (take (Z.to_nat (m_elemCount v - 1 + 1)) (mp_dataPtr v) ++
    [Some x] ++ d) = (Z.to_nat (m_elemCount v) + S (length d))%nat).
  { intros d. rewrite length_app, length_take. simpl. lia. }
  rewrite buf_write_in by (rewrite ?Hlen; simpl; lia). step.
  eexists. split; [done|]. rewrite wrapN_small by (unfold is_u; lia).
  set (k := Z.to_nat (m_elemCount v - 1)). replace (Z.to_nat (m_elemCount v - 1 + 1)) with (S k) by lia.
  assert (Hk : length (take k l) = k) by (rewrite length_take; lia).
  assert (Hdata : take k (take (S k) (mp_dataPtr v) ++ [Some x] ++ drop (S k + 1) (mp_dataPtr v))
                  = Some <$> take k l).
  { rewrite take_app_le, take_take, Nat.min_l by (rewrite ?length_take; lia).
    rewrite (repr_data v l Hv), take_app_le, fmap_take by (rewrite length_fmap; lia). done. }
  set (rest := drop (S k + 1) (mp_dataPtr v)) in *.
  assert (Hsame : length ((Some <$> take k l) ++ [Some x] ++
    drop (k + 1) (take (S k) (mp_dataPtr v) ++ [Some x] ++ rest)) = length (mp_dataPtr v)).
  { unfold rest. rewrite !length_app, length_fmap, Hk, length_drop, !length_app, length_take, length_drop.
    cbn [length]. lia. }
  rewrite Hdata. split; cbn [m_elemCount m_elemCap mp_dataPtr set_buffer].
  - rewrite length_app, Hk. simpl. lia.
  - lia.
  - cbn [length]. rewrite Hsame. lia.
  - cbn [length]. rewrite Hsame. unfold sizeof_ptr, INT64_MAX. lia.
  - rewrite length_app, Hk. simpl length.
    rewrite drop_app_ge by (rewrite length_take; lia). rewrite length_take.
    replace (k + 1 - (S k `min` length (mp_dataPtr v)))%nat with 0%nat by lia. rewrite drop_0.
    rewrite take_app_ge by (rewrite length_fmap; lia). rewrite length_fmap, Hk.
    replace (k + 2 - k)%nat with 2%nat by lia. by rewrite fmap_app.
Qed.

Lemma vector_insert_before_end_witness :
  ∃ v', NkVectorInsert strict_heap (example_vec false) 14 2 = Ret (NkErr_Ok, v') ∧
    vec_repr v' [11; 12; 14; 14].
Proof.
  apply (vector_insert_before_end strict_heap (example_vec false) [11; 12; 13] 2 14);
    [apply example_vec_repr|discriminate|simpl; lia..].
Defined.

(** Closing a gap removes exactly that block of elements. *)
Lemma close_gap_repr v l (s n : nat) :
  vec_repr v l → (s + n ≤ length l)%nat →
  ∃ data, VectorCloseGap v (Z.of_nat s) (Z.of_nat n) = Ret data ∧
    vec_repr (set_buffer v (m_elemCount v - Z.of_nat n) (m_elemCap v) data)
      (take s l ++ drop (s + n) l).
Proof.
  intros Hv Hn. destruct (repr_bounds v l Hv) as (Hc & Hcap & Hroom & Hlim).
  unfold VectorCloseGap. rewrite ptr_cells_small by lia.
  replace (m_elemCount v - Z.of_nat s - Z.of_nat n) with (Z.of_nat (length l - s - n)) by lia.
  replace (Z.of_nat s + Z.of_nat n) with (Z.of_nat (s + n)) by lia.
  rewrite (repr_read v l Hv) by lia. step.
  rewrite (take_ge (drop (s + n) l)) by (rewrite length_drop; lia).
  rewrite buf_write_in by (rewrite ?length_fmap, ?length_drop; lia).
  rewrite Nat2Z.id, length_fmap, length_drop. eexists. split; [done|].
  assert (Htake : take s (mp_dataPtr v) = Some <$> take s l).
  { rewrite (repr_data v l Hv), take_app_le, fmap_take by (rewrite length_fmap; lia). done. }
  rewrite Htake. set (rest := drop _ (mp_dataPtr v)).
  assert (Hlen : length ((Some <$> take s l) ++ (Some <$> drop (s + n) l) ++ rest) =
                 length (mp_dataPtr v)).
  { unfold rest. rewrite !length_app, !length_fmap, length_take, !length_drop. lia. }
  split; cbn [m_elemCount m_elemCap mp_dataPtr set_buffer]; rewrite ?Hlen.
  - rewrite length_app, length_take, length_drop. lia.
  - lia.
  - lia.
  - unfold sizeof_ptr, INT64_MAX. lia.
  - rewrite app_assoc, <-fmap_app. apply take_app_length'. by rewrite length_fmap.
Qed.

Lemma free_loop_repr v l (s n : nat) :
  vec_repr v l → (s + n ≤ length l)%nat →
  free_loop n (mp_dataPtr v) (Z.of_nat s) = Ret (take n (drop s l)).
Proof.
  intros Hv. revert s. induction n as [|n IH]; intros s Hn; [done|]. cbn [free_loop].
  destruct (lookup_lt_is_Some_2 l s) as [x Hx]; [lia|].
  rewrite (repr_cell v l Hv s x) by done. step.
  replace (Z.of_nat s + 1) with (Z.of_nat (S s)) by lia. rewrite IH by lia.
  by rewrite (drop_S _ _ _ Hx).
Qed.

(** Erasing [n] elements from [s].  Without an element destructor the
    elements are moved to the caller's array and the others close up.  With one,
    the destructor is called for the erased elements and for the element behind
    them, which stays in the vector. *)
Theorem vector_erase v l (s n : nat) out t :
  vec_repr v l → (0 < n)%nat → (s + n < length l)%nat → (n ≤ length out)%nat →
  (mp_fnDest v = true → t ≠ NULL) → head out = Some (Some t) →
  ∃ v' eff, NkVectorEraseMulti v (Z.of_nat s) (Z.of_nat n) out = Ret (NkErr_Ok, v', eff) ∧
    vec_repr v' (take s l ++ drop (s + n) l) ∧
    if mp_fnDest v
    then ee_freed eff = take (S n) (drop s l) ∧ ee_out eff = out
    else ee_freed eff = [] ∧ ee_out eff = (Some <$> take n (drop s l)) ++ drop n out.
Proof.
  intros Hv Hn Hs Hout Ht Hhd. destruct (repr_bounds v l Hv) as (Hc & Hcap & Hroom & Hlim).
  unfold NkVectorEraseMulti. destruct (Z.ltb_spec (Z.of_nat s) (m_elemCount v)); [|lia].
  cbn [mbind outcome_bind NK_ASSERT]. rewrite NK_MIN_spec.
  replace (Z.of_nat n `min` (m_elemCount v - Z.of_nat s)) with (Z.of_nat n) by lia.
  destruct (Z.gtb_spec (Z.of_nat n) 0); [|lia]. unfold VectorTryFreeRange.
  destruct (close_gap_repr v l s n Hv) as (data & Hgap & Hdata); [lia|].
  destruct (mp_fnDest v) eqn:Hd; cbn [negb].
  - replace (Z.to_nat (Z.of_nat s + Z.of_nat n - Z.of_nat s + 1)) with (S n) by lia.
    rewrite (free_loop_repr v l s (S n) Hv) by lia. step.
    rewrite bool_decide_eq_false_2 by done. step. rewrite Hgap.
    step.
    rewrite (vec_cell_lookup out 0 t) by (first [lia | by destruct out; simplify_eq/=]).
    step. destruct (Z.eqb_spec t NULL); [by destruct (Ht eq_refl)|].
    eexists _, _. by split_and!.
  - step. rewrite bool_decide_eq_true_2 by done.
    rewrite ptr_cells_small, (repr_read v l Hv) by lia. step.
    rewrite buf_write_in by (rewrite ?length_fmap, ?length_take, ?length_drop; lia).
    rewrite length_fmap, length_take, length_drop, Nat.min_l by lia.
    step. rewrite Hgap. step.
    eexists _, _. by split_and!.
Qed.

Lemma vector_erase_witness :
  ∃ v' eff, NkVectorEraseMulti (example_vec true) 0 1 [Some 99] = Ret (NkErr_Ok, v', eff) ∧
    vec_repr v' [12; 13] ∧ ee_freed eff = [11; 12] ∧ ee_out eff = [Some 99].
Proof.
  apply (vector_erase (example_vec true) [11; 12; 13] 0 1 [Some 99] 99);
    [apply example_vec_repr|simpl; lia..|discriminate|reflexivity].
Defined.

(** ** Reversal *)

(** On a block of odd length the two indices meet. *)
Lemma reverse_loop_odd k fuel (a m c : list (option Z)) (ms : list Z) :
  m = Some <$> ms → length ms = S (2 * k) → (k < fuel)%nat →
  Z.of_nat (length a + length m + length c) < 2 ^ 60 →
  reverse_loop fuel (a ++ m ++ c) (Z.of_nat (length a)) (Z.of_nat (length a + 2 * k)) =
    Ret (a ++ reverse m ++ c).
Proof.
  revert fuel a m c ms. induction k as [|k IH]; intros fuel a m c ms -> Hms Hf Hlim;
    (destruct fuel as [|fuel]; [lia|]); cbn [reverse_loop]; rewrite lxor_zero.
  { rewrite Nat.mul_0_r, Nat.add_0_r, Z.eqb_refl.
    destruct ms as [|x [|]]; simplify_eq/=. done. }
  destruct (Z.eqb_spec (Z.of_nat (length a)) (Z.of_nat (length a + 2 * S k))); [lia|].
  cbn [negb]. destruct ms as [|x ms]; [done|].
  destruct ms as [|y ms _] using rev_ind; [simpl in *; lia|].
  assert (Hk : length ms = S (2 * k)) by (simpl in Hms; rewrite length_app in Hms; simpl in Hms; lia).
  rewrite fmap_cons, fmap_app in Hlim |- *. change (Some <$> [y]) with [Some y] in Hlim |- *.
  set (M := Some <$> ms) in *.
  assert (HM : length M = S (2 * k)) by (unfold M; by rewrite length_fmap).
  replace (a ++ (Some x :: M ++ [Some y]) ++ c) with (a ++ Some x :: M ++ Some y :: c)
    by (simpl; by rewrite <-app_assoc).
  rewrite (vec_cell_lookup _ (Z.of_nat (length a)) x)
    by (first [lia | rewrite Nat2Z.id; by rewrite list_lookup_middle]).
  step.
  rewrite (vec_cell_lookup _ (Z.of_nat (length a + 2 * S k)) y).
  2: lia.
  2: { rewrite Nat2Z.id, lookup_app_r by lia. replace (length a + 2 * S k - length a)%nat with (S (length M)) by lia.
       simpl. by rewrite list_lookup_middle. }
  step.
  rewrite buf_set_in by (rewrite !length_app; simpl; lia). step.
  rewrite Nat2Z.id, insert_middle.
  rewrite buf_set_in by (rewrite !length_app; simpl; rewrite !length_app; simpl; lia).
  step. rewrite Nat2Z.id.
  rewrite insert_app_r_alt by lia. replace (length a + 2 * S k - length a)%nat with (S (length M)) by lia.
  change (<[S (length M):=Some x]> (Some y :: M ++ Some y :: c))
    with (Some y :: <[length M:=Some x]> (M ++ Some y :: c)).
  rewrite insert_middle.
  replace (a ++ Some y :: M ++ Some x :: c) with ((a ++ [Some y]) ++ M ++ (Some x :: c))
    by (by rewrite <-app_assoc).
  cbn [length] in Hlim. rewrite !length_app in Hlim. cbn [length] in Hlim.
  rewrite !wrapN_small by (unfold is_u; lia).
  replace (Z.of_nat (length a) + 1) with (Z.of_nat (length (a ++ [Some y])))
    by (rewrite length_app; simpl; lia).
  replace (Z.of_nat (length a + 2 * S k) - 1) with (Z.of_nat (length (a ++ [Some y]) + 2 * k))
    by (rewrite length_app; simpl; lia).
  rewrite (IH _ _ _ _ ms); [|done|lia|lia|].
  - f_equal. rewrite reverse_cons, reverse_app, <-!app_assoc. done.
  - fold M. cbn [length]. rewrite !length_app. cbn [length]. lia.
Qed.

(** On a block of even length they pass each other and one runs off the buffer. *)
Lemma reverse_loop_even fuel data i j :
  0 ≤ i → 0 ≤ j < 2 ^ 64 → Z.odd (j - i) = true → Z.of_nat (length data) < 2 ^ 60 →
  Z.of_nat (length data) - i < Z.of_nat fuel → (0 < fuel)%nat → reverse_loop fuel data i j = Undef.
Proof.
  revert data i j. induction fuel as [|fuel IH]; intros data i j Hi Hj Hodd Hlim Hf Hpos; [lia|].
  cbn [reverse_loop]. rewrite lxor_zero.
  destruct (Z.eqb_spec i j) as [->|Hne]; [by rewrite Z.sub_diag in Hodd|]. cbn [negb].
  destruct (vec_cell_cases data i) as [->|(x & -> & Hxi)]; [done|]. step.
  destruct (vec_cell_cases data j) as [->|(y & -> & Hyj)]; [done|]. step.
  rewrite buf_set_in by lia. step.
  rewrite buf_set_in by (rewrite length_insert; lia). step.
  rewrite (wrapN_small 64 (i + 1)) by (unfold is_u; lia).
  apply IH; rewrite ?length_insert; [lia| | |lia..].
  - unfold wrapN. apply Z.mod_pos_bound. lia.
  - destruct (decide (j = 0)) as [->|].
    + replace (u64 (0 - 1)) with (2 ^ 64 - 1) by done.
      replace (2 ^ 64 - 1 - (i + 1)) with (2 ^ 64 - 2 + (0 - i)) by lia.
      rewrite Z.odd_add, Hodd. done.
    + rewrite wrapN_small by (unfold is_u; lia).
      replace (j - 1 - (i + 1)) with (j - i + -2) by lia. rewrite Z.odd_add, Hodd. done.
Qed.

(** [NkVectorReverse] reverses the elements [s .. e] when their number is odd,
    and nothing else; when it is even the two indices never meet and the loop
    leaves the buffer.  Fuel of the order of the buffer's size is enough. *)
Theorem vector_reverse v l (s e : nat) fuel :
  vec_repr v l → (s ≤ e < length l)%nat → (length (mp_dataPtr v) < fuel)%nat →
  if Z.even (Z.of_nat e - Z.of_nat s)
  then ∃ v', NkVectorReverse fuel v (Z.of_nat s) (Z.of_nat e) = Ret v' ∧
         vec_repr v' (take s l ++ reverse (take (e - s + 1) (drop s l)) ++ drop (e + 1) l)
  else NkVectorReverse fuel v (Z.of_nat s) (Z.of_nat e) = Undef.
Proof.
  intros Hv Hse Hf. destruct (repr_bounds v l Hv) as (Hc & Hcap & Hroom & Hlim).
  unfold NkVectorReverse. destruct (Z.leb_spec (Z.of_nat s) (Z.of_nat e)); [|lia].
  destruct (Z.ltb_spec (Z.of_nat e) (m_elemCount v)); [|lia]. cbn [mbind outcome_bind NK_ASSERT].
  replace (Z.of_nat e - Z.of_nat s) with (Z.of_nat (e - s)) in * by lia.
  destruct (Z.even (Z.of_nat (e - s))) eqn:Hpar.
  2: { rewrite reverse_loop_even; [done|lia..| |lia|lia|lia].
       replace (Z.of_nat e - Z.of_nat s) with (Z.of_nat (e - s)) by lia.
       by rewrite <-Z.negb_even, Hpar. }
  apply Z.even_spec in Hpar as [kz Hkz]. set (k := Z.to_nat kz).
  assert (Hk : e = (s + 2 * k)%nat) by lia. clearbody k. subst e.
  replace (s + 2 * k - s + 1)%nat with (S (2 * k)) in * by lia.
  set (mid := take (S (2 * k)) (drop s l)). set (rest := drop (length l) (mp_dataPtr v)).
  assert (Hl : l = take s l ++ mid ++ drop (s + 2 * k + 1) l).
  { unfold mid. replace (s + 2 * k + 1)%nat with (s + S (2 * k))%nat by lia.
    by rewrite <-drop_drop, !take_drop. }
  assert (Hs : length (take s l) = s) by (rewrite length_take; lia).
  assert (Hm : length mid = S (2 * k)) by (unfold mid; rewrite length_take, length_drop; lia).
  set (tl := drop (s + 2 * k + 1) l) in *.
  assert (Hdata : mp_dataPtr v = (Some <$> take s l) ++ (Some <$> mid) ++ ((Some <$> tl) ++ rest)).
  { rewrite (repr_data v l Hv) at 1. rewrite Hl at 1. by rewrite !fmap_app, <-!app_assoc. }
  assert (Hlen : length (mp_dataPtr v) = (s + S (2 * k) + length ((Some <$> tl) ++ rest))%nat).
  { rewrite Hdata, length_app, (length_app (Some <$> mid)), !length_fmap. lia. }
  rewrite Hdata.
  replace (Z.of_nat s) with (Z.of_nat (length (Some <$> take s l))) by (by rewrite length_fmap, Hs).
  replace (Z.of_nat (s + 2 * k)) with (Z.of_nat (length (Some <$> take s l) + 2 * k))
    by (by rewrite length_fmap, Hs).
  rewrite (reverse_loop_odd k fuel _ _ _ mid) by (rewrite ?length_fmap; done || lia).
  step. eexists. split; [done|].
  assert (Hll : length (take s l ++ reverse mid ++ tl) = length l).
  { rewrite Hl at 2. by rewrite !length_app, length_reverse. }
  split; cbn [m_elemCount m_elemCap mp_dataPtr set_buffer].
  - rewrite Hll. done.
  - done.
  - rewrite length_app, (length_app (reverse _)), length_reverse, !length_fmap. lia.
  - rewrite length_app, (length_app (reverse _)), length_reverse, !length_fmap.
    unfold sizeof_ptr, INT64_MAX. lia.
  - rewrite !app_assoc, <-fmap_reverse, <-!fmap_app. apply take_app_length'.
    by rewrite length_fmap, <-app_assoc.
Qed.

Lemma vector_reverse_witness :
  (∃ v', NkVectorReverse 5 (example_vec false) 0 2 = Ret v' ∧ vec_repr v' [13; 12; 11]) ∧
  NkVectorReverse 5 (example_vec false) 0 1 = Undef.
Proof.
  split.
  - apply (vector_reverse (example_vec false) [11; 12; 13] 0 2 5); [apply example_vec_repr|simpl; lia..].
  - apply (vector_reverse (example_vec false) [11; 12; 13] 0 1 5); [apply example_vec_repr|simpl; lia..].
Defined.

(** ** Iteration and search *)

(** Calling the callback on the elements of [l], indexed from [i], up to its
    first error. *)
Fixpoint visit {S} (l : list Z) (i : Z) (fnCallback : Z → S → Z → NkErrorCode * S) (st : S) : NkErrorCode * S :=
  match l with
  | [] => (NkErr_Ok, st)
  | x :: l =>
      let '(ec, st) := fnCallback x st i in
      if negb (isOk ec) then (ec, st) else visit l (i + 1) fnCallback st
  end.

Lemma foreach_loop_visit {S} v l (n s : nat) (f : Z → S → Z → NkErrorCode * S) st :
  vec_repr v l → (s + n ≤ length l)%nat →
  foreach_loop n v (Z.of_nat s) f st = Ret (visit (take n (drop s l)) (Z.of_nat s) f st).
Proof.
  intros Hv. revert s st. induction n as [|n IH]; intros s st Hn; [done|]. cbn [foreach_loop].
  destruct (lookup_lt_is_Some_2 l s) as [x Hx]; [lia|].
  rewrite (repr_cell v l Hv s x) by done. step.
  rewrite (drop_S _ _ _ Hx). cbn [take visit]. destruct (f x st (Z.of_nat s)) as [ec st'].
  destruct (negb (isOk ec)); [done|]. replace (Z.of_nat s + 1) with (Z.of_nat (Datatypes.S s)) by lia.
  rewrite IH by lia. done.
Qed.

Lemma foreach_loop_app {S} v (n m : nat) i (f : Z → S → Z → NkErrorCode * S) st :
  foreach_loop (n + m) v i f st =
    '(ec, st) ← foreach_loop n v i f st;
    if isOk ec then foreach_loop m v (i + Z.of_nat n) f st else Ret (ec, st).
Proof.
  revert i st. induction n as [|n IH]; intros i st; [by rewrite Z.add_0_r|].
  cbn [foreach_loop Nat.add]. rewrite bind_assoc. apply bind_ext. intros x _.
  destruct (f x st i) as [ec st']. destruct (isOk ec) eqn:Hec; cbn [negb].
  - rewrite IH. apply bind_ext. intros [ec2 st2] _. by replace (i + 1 + Z.of_nat n) with (i + Z.of_nat (Datatypes.S n)) by lia.
  - simpl. by rewrite Hec.
Qed.

(** [NkVectorForEach] over [n] elements from [s] visits [n + 1] of them.  When
    the range reaches the end of the vector, and no callback stops it, it reads
    the cell behind the last element, which is undefined unless an earlier
    element was stored there. *)
Theorem vector_foreach {S} v l (n s : nat) (f : Z → S → Z → NkErrorCode * S) st :
  vec_repr v l → (s < length l)%nat →
  if bool_decide (s + n < length l)%nat
  then NkVectorForEach v (Z.of_nat s) (Z.of_nat n) f st =
         Ret (visit (take (n + 1) (drop s l)) (Z.of_nat s) f st)
  else vec_cell (mp_dataPtr v) (m_elemCount v) = Undef →
       NkVectorForEach v (Z.of_nat s) (Z.of_nat n) f st =
         let r := visit (drop s l) (Z.of_nat s) f st in
         if isOk r.1 then Undef else Ret r.
Proof.
  intros Hv Hs. destruct (repr_bounds v l Hv) as (Hc & Hcap & Hroom & Hlim).
  unfold NkVectorForEach. destruct (Z.ltb_spec (Z.of_nat s) (m_elemCount v)); [|lia].
  cbn [mbind outcome_bind NK_ASSERT]. rewrite NK_MIN_spec. case_bool_decide as Hn.
  - replace (Z.to_nat (Z.of_nat n `min` (m_elemCount v - Z.of_nat s) + 1)) with (n + 1)%nat by lia.
    apply foreach_loop_visit; [done|lia].
  - intros Hcell.
    replace (Z.to_nat (Z.of_nat n `min` (m_elemCount v - Z.of_nat s) + 1))
      with (length l - s + 1)%nat by lia.
    rewrite foreach_loop_app, (foreach_loop_visit v l) by (done || lia). step.
    rewrite take_ge by (rewrite length_drop; lia). cbv zeta.
    destruct (visit (drop s l) (Z.of_nat s) f st) as [ec st']. cbn [fst].
    destruct (isOk ec); [|done]. cbn [foreach_loop].
    replace (Z.of_nat s + Z.of_nat (length l - s)) with (m_elemCount v) by lia. by rewrite Hcell.
Qed.

Definition sum_callback (x st i : Z) : NkErrorCode * Z := (NkErr_Ok, st + x).
Lemma vector_foreach_witness :
  NkVectorForEach (example_vec false) 0 1 sum_callback 0 = Ret (NkErr_Ok, 23) ∧
  NkVectorForEach (example_vec false) 0 3 sum_callback 0 = Undef.
Proof.
  split.
  - apply (vector_foreach (example_vec false) [11; 12; 13] 1 0 sum_callback 0);
      [apply example_vec_repr|simpl; lia].
  - apply (vector_foreach (example_vec false) [11; 12; 13] 3 0 sum_callback 0);
      [apply example_vec_repr|simpl; lia|reflexivity].
Defined.

(** The search loops have no increment: [NkVectorFind] looks at the first
    element of the range only, and does not return when it is another one. *)
Theorem vector_find_first_only v l (s e : nat) x y fuel :
  vec_repr v l → l !! s = Some x → (s < e)%nat → (0 < fuel)%nat →
  NkVectorFind fuel v y (Z.of_nat s) (Z.of_nat e) true = if x =? y then Ret x else OutOfFuel.
Proof.
  intros Hv Hx Hse Hf. unfold NkVectorFind, NkVectorFindIf.
  induction fuel as [|fuel IH]; [lia|]. cbn [find_loop].
  destruct (Z.ltb_spec (Z.of_nat s) (Z.of_nat e)); [|lia].
  rewrite (repr_cell v l Hv s x) by done. step. unfold VectorDefaultPred at 1.
  destruct (Z.eqb_spec x y); [done|]. destruct fuel; [done|]. apply IH. lia.
Qed.

Lemma vector_find_first_only_witness :
  NkVectorFind 50 (example_vec false) 13 0 3 true = OutOfFuel.
Proof.
  apply (vector_find_first_only (example_vec false) [11; 12; 13] 0 3 11 13 50);
    [apply example_vec_repr|reflexivity|lia|lia].
Defined.

(** The default properties do not pass the validation of their own module. *)
Example default_properties_rejected :
  NkVectorCreate strict_heap NkErr_Ok NkVectorDefaultProperties false = Halt NkErr_InParameter.
Proof. vm_compute. reflexivity. Qed.

(** Reading an element of a represented vector. *)
Lemma vector_at_repr v l i x :
  vec_repr v l → l !! i = Some x → NkVectorAt v (Z.of_nat i) = Ret x.
Proof.
  intros Hv Hx. unfold NkVectorAt. pose proof (lookup_lt_Some _ _ _ Hx).
  destruct (Z.ltb_spec (Z.of_nat i) (m_elemCount v)); [|rewrite (vr_count _ _ Hv) in *; lia].
  by apply (repr_cell v l Hv).
Qed.
