(* ===== verification/HTable.v ===== *)
(** * [src/Noriko/dstruct/htable.c]: the Robin-Hood hash table

    A key is the 64-bit word stored in the union [NkHashtableKey]; for the
    pointer-like key types the bytes it points to are given by [KeyMemory],
    which the tables rely on staying the same while a key is stored.  The slot
    array has exactly [m_currCap] slots.  Calls of the user's free function are
    returned, in order. *)
From S2P Require Import Prelude Float32 CStr.

(** ** Data *)
Inductive NkHashtableKeyType : Set :=
  | NkHtKeyTy_Int64 | NkHtKeyTy_Uint64 | NkHtKeyTy_String | NkHtKeyTy_StringView
  | NkHtKeyTy_Pointer | NkHtKeyTy_Uuid.
#[export] Instance NkHashtableKeyType_eq_dec : EqDecision NkHashtableKeyType.
Proof. solve_decision. Defined.

Definition keyType_num (k : NkHashtableKeyType) : Z :=
  match k with
  | NkHtKeyTy_Int64 => 0 | NkHtKeyTy_Uint64 => 1 | NkHtKeyTy_String => 2
  | NkHtKeyTy_StringView => 3 | NkHtKeyTy_Pointer => 4 | NkHtKeyTy_Uuid => 5
  end.

Record NkHashtablePair := mkPair { m_keyVal : Z; mp_valuePtr : Z }.
Record HashtableExtPair := mkExtPair {
  m_regPair : NkHashtablePair;
  m_isUsed : bool;
  m_offset : Z
}.
Record NkHashtableProperties := mkHashtableProperties {
  m_structSize : Z;
  m_initCap : Z;
  m_minCap : Z;
  m_maxCap : Z;
  m_keyType : NkHashtableKeyType;
  mp_fnElemFree : bool            (* is a free function installed? *)
}.
Record NkHashtable := mkHashtable {
  m_elemCount : Z;
  m_currCap : Z;
  m_htProps : NkHashtableProperties;
  mp_elemArray : list HashtableExtPair
}.

(** The memory keys point to. *)
Class KeyMemory := {
  key_cstr : Z → list Z;            (* the C string at an address *)
  key_sv : Z → Z * Z;               (* the view at an address: data pointer and size *)
  key_bytes : Z → Z → list Z;       (* a block: address and size *)
  key_uuid : Z → Z * Z              (* the two words of the UUID at an address *)
}.

(** An all-zero slot, as [calloc] and [memset] make it. *)
Definition empty_slot : HashtableExtPair := mkExtPair (mkPair 0 0) false 0.
Definition sizeof_ExtPair : Z := 24.

(** ** HalfSipHash *)
Definition ROTL (x b : Z) : Z := u32 (Z.lor (Z.shiftl x b) (Z.shiftr x (32 - b))).
Definition U8TO32_LE (p : list Z) : Z :=
  match p with
  | [b0; b1; b2; b3] =>
      Z.lor (Z.lor (Z.lor b0 (Z.shiftl b1 8)) (Z.shiftl b2 16)) (Z.shiftl b3 24)
  | _ => 0
  end.

Record SipState := mkSip { v0 : Z; v1 : Z; v2 : Z; v3 : Z }.
Definition SIPROUND (s : SipState) : SipState :=
  let '(mkSip v0 v1 v2 v3) := s in
  let v0 := u32 (v0 + v1) in
  let v1 := ROTL v1 5 in
  let v1 := Z.lxor v1 v0 in
  let v0 := ROTL v0 16 in
  let v2 := u32 (v2 + v3) in
  let v3 := ROTL v3 8 in
  let v3 := Z.lxor v3 v2 in
  let v0 := u32 (v0 + v3) in
  let v3 := ROTL v3 7 in
  let v3 := Z.lxor v3 v0 in
  let v2 := u32 (v2 + v1) in
  let v1 := ROTL v1 13 in
  let v1 := Z.lxor v1 v2 in
  let v2 := ROTL v2 16 in
  mkSip v0 v1 v2 v3.

(** Four bytes at a time; the result is the state and the remaining bytes. *)
Fixpoint sip_blocks (ni : list Z) (s : SipState) : SipState * list Z :=
  match ni with
  | b0 :: b1 :: b2 :: b3 :: ni =>
      let m := U8TO32_LE [b0; b1; b2; b3] in
      let s := mkSip (v0 s) (v1 s) (v2 s) (Z.lxor (v3 s) m) in
      let s := SIPROUND (SIPROUND s) in
      sip_blocks ni (mkSip (Z.lxor (v0 s) m) (v1 s) (v2 s) (v3 s))
  | rest => (s, rest)
  end.
(** The last block: the length and the remaining bytes. *)
Definition sip_last (inlen : Z) (rest : list Z) : Z :=
  let b := u32 (Z.shiftl (u32 inlen) 24) in
  match rest with
  | [n0; n1; n2] => Z.lor (Z.lor (Z.lor b (Z.shiftl n2 16)) (Z.shiftl n1 8)) n0
  | [n0; n1] => Z.lor (Z.lor b (Z.shiftl n1 8)) n0
  | [n0] => Z.lor b n0
  | _ => b
  end.

Definition siphash (seed : Z) (ni : list Z) : Z :=
  let kk := le_bytes 8 seed in
  let inlen := Z.of_nat (length ni) in
  let k0 := U8TO32_LE (take 4 kk) in
  let k1 := U8TO32_LE (drop 4 kk) in
  let s := mkSip (Z.lxor 0 k0) (Z.lxor (Z.lxor 0 k1) 0xee) (Z.lxor 0x6c796765 k0) (Z.lxor 0x74656462 k1) in
  let '(s, rest) := sip_blocks ni s in
  let b := sip_last inlen rest in
  let s := SIPROUND (SIPROUND (mkSip (v0 s) (v1 s) (v2 s) (Z.lxor (v3 s) b))) in
  let s := mkSip (Z.lxor (v0 s) b) (v1 s) (Z.lxor (v2 s) 0xee) (v3 s) in
  let s := SIPROUND (SIPROUND (SIPROUND (SIPROUND s))) in
  let lo := Z.lxor (v1 s) (v3 s) in
  let s := mkSip (v0 s) (Z.lxor (v1 s) 0xdd) (v2 s) (v3 s) in
  let s := SIPROUND (SIPROUND (SIPROUND (SIPROUND s))) in
  let hi := Z.lxor (v1 s) (v3 s) in
  let out := Z.lor lo (Z.shiftl hi 32) in
  Z.lxor (Z.land out 0xFFFFFFFF) (Z.shiftr out 32).

Section htable.
Context `{KM : KeyMemory} (gl_seed : Z).

Definition HashtableGetKeySizeInBytes (key : Z) (kType : NkHashtableKeyType) : Z :=
  match kType with
  | NkHtKeyTy_Int64 | NkHtKeyTy_Uint64 => 8
  | NkHtKeyTy_Pointer => sizeof_ptr
  | NkHtKeyTy_String => Z.of_nat (length (key_cstr key))
  | NkHtKeyTy_StringView => (key_sv key).2
  | NkHtKeyTy_Uuid => 16
  end.

(** The bytes that are hashed.  For every type but the two string types they are
    read from the key union itself; a UUID's 16 bytes run over the 8-byte union
    into [behind], the word that follows it in memory. *)
Definition key_input (key behind : Z) (kType : NkHashtableKeyType) : list Z :=
  let inlen := HashtableGetKeySizeInBytes key kType in
  match kType with
  | NkHtKeyTy_String => key_cstr key
  | NkHtKeyTy_StringView => key_bytes (key_sv key).1 inlen
  | _ => take (Z.to_nat inlen) (le_bytes 8 (u64 key) ++ le_bytes 8 (u64 behind))
  end.

Definition HashtableHash (key behind : Z) (kType : NkHashtableKeyType) (htCap : Z) : outcome Z :=
  if htCap =? 0 then Undef else Ret (siphash gl_seed (key_input key behind kType) mod htCap).

(** [NkStringViewCompare] and [NkUuidIsEqual] of [util.c], on what keys point to. *)
Definition StringViewCompare (sv1Ptr sv2Ptr : Z) : Z :=
  let '(d1, s1) := key_sv sv1Ptr in
  let '(d2, s2) := key_sv sv2Ptr in
  if (sv1Ptr =? sv2Ptr) || (s1 =? s2) then
    if d1 =? d2 then 0 else strncmp (key_bytes d1 s1) (key_bytes d2 s1)
  else 1.

Definition HashtableCompareKeys (fk sk : Z) (keyType : NkHashtableKeyType) : bool :=
  match keyType with
  | NkHtKeyTy_Int64 | NkHtKeyTy_Uint64 | NkHtKeyTy_Pointer => fk =? sk
  | NkHtKeyTy_String => strcmp (key_cstr fk) (key_cstr sk) =? 0
  | NkHtKeyTy_StringView => StringViewCompare fk sk =? 0
  | NkHtKeyTy_Uuid =>
      (fk =? sk) ||
      (((key_uuid fk).1 =? (key_uuid sk).1) && ((key_uuid fk).2 =? (key_uuid sk).2))
  end.

(** ** Internal operations *)
Definition slot_keyType (ht : NkHashtable) : NkHashtableKeyType := m_keyType (m_htProps ht).
(** [i >= m_currCap - 1 ? 0 : i + 1] on unsigned 32-bit values. *)
Definition next_slot (cap i : Z) : Z := if i >=? u32 (cap - 1) then 0 else i + 1.

(** One call of the user's free function: the key it is given ([None]: a null
    pointer) and the value. *)
Definition FreeCall : Type := option Z * Z.

Fixpoint free_elems_loop (slots : list HashtableExtPair) (j elemCount : Z) : list FreeCall :=
  match slots with
  | [] => []
  | s :: slots =>
      if j <? elemCount then
        if m_isUsed s
        then (Some (m_keyVal (m_regPair s)), mp_valuePtr (m_regPair s)) :: free_elems_loop slots (j + 1) elemCount
        else free_elems_loop slots j elemCount
      else []
  end.
Definition HashtableFreeElems (ht : NkHashtable) : list FreeCall :=
  if mp_fnElemFree (m_htProps ht)
  then free_elems_loop (mp_elemArray ht) 0 (m_elemCount ht) else [].

(** The probe loop; its counter [j] is never incremented. *)
Fixpoint robin_hood_loop (fuel : nat) (arr : list HashtableExtPair) (cap i currPsa : Z)
    (tmpPair : NkHashtablePair) (j : Z) : outcome (list HashtableExtPair * bool) :=
  match fuel with
  | O => OutOfFuel
  | S fuel =>
      if j <? cap then
        s ← buf_get arr i;
        if negb (m_isUsed s) then
          arr ← buf_set arr i (mkExtPair tmpPair true currPsa);
          Ret (arr, true)
        else if currPsa <=? m_offset s then
          robin_hood_loop fuel arr cap (next_slot cap i) (u32 (currPsa + 1)) tmpPair j
        else
          arr ← buf_set arr i (mkExtPair tmpPair true currPsa);
          robin_hood_loop fuel arr cap (next_slot cap i) (u32 (m_offset s + 1)) (m_regPair s) j
      else Ret (arr, false)
  end.

Definition set_array (ht : NkHashtable) (arr : list HashtableExtPair) : NkHashtable :=
  mkHashtable (m_elemCount ht) (m_currCap ht) (m_htProps ht) arr.

Definition HashtableRobinHoodInsertSingle (fuel : nat) (ht : NkHashtable) (pair : NkHashtablePair)
    : outcome (NkHashtable * bool) :=
  initialHash ← HashtableHash (m_keyVal pair) (mp_valuePtr pair) (slot_keyType ht) (m_currCap ht);
  '(arr, isInserted) ← robin_hood_loop fuel (mp_elemArray ht) (m_currCap ht) initialHash 0 pair 0;
  Ret (set_array ht arr, isInserted).

(** Reinsertion of the old slots into the dummy table. *)
Fixpoint rehash_loop (fuel : nat) (slots : list HashtableExtPair) (j elemCount : Z) (hTable : NkHashtable)
    : outcome (NkHashtable * bool) :=
  match slots with
  | [] => Ret (hTable, true)
  | s :: slots =>
      if j <? elemCount then
        if negb (m_isUsed s) then rehash_loop fuel slots j elemCount hTable
        else
          '(hTable, ok) ← HashtableRobinHoodInsertSingle fuel hTable (m_regPair s);
          if (ok : bool) then rehash_loop fuel slots (j + 1) elemCount hTable else Ret (hTable, false)
      else Ret (hTable, true)
  end.

Definition HashtableAdjustCapacity (h : heap) (fuel : nat) (ht : NkHashtable) (newCap : Z)
    : outcome (NkErrorCode * NkHashtable) :=
  let bytes := sizeof_ExtPair * newCap in
  NK_ASSERT (negb (bytes =? 0)) NkErr_InParameter;;
  match h bytes with
  | None => Ret (NkErr_MemoryAllocation, ht)
  | Some _ =>
      let hTable := mkHashtable (m_elemCount ht) newCap (m_htProps ht)
                      (replicate (Z.to_nat newCap) empty_slot) in
      '(hTable, ok) ← rehash_loop fuel (mp_elemArray ht) 0 (m_elemCount ht) hTable;
      if (ok : bool) then Ret (NkErr_Ok, hTable) else Ret (NkErr_CapLimitExceeded, ht)
  end.

(** The search visits [n] more slots from [i]. *)
Fixpoint loc_key_loop (n : nat) (ht : NkHashtable) (key i : Z) : outcome Z :=
  match n with
  | O => Ret UINT32_MAX
  | S n =>
      s ← buf_get (mp_elemArray ht) i;
      if m_isUsed s && HashtableCompareKeys key (m_keyVal (m_regPair s)) (slot_keyType ht)
      then Ret i
      else loc_key_loop n ht key (next_slot (m_currCap ht) i)
  end.
(** [behind] is the word that follows the key union in the caller's memory. *)
Definition HashtableLocKey (ht : NkHashtable) (key behind : Z) : outcome Z :=
  initialHash ← HashtableHash key behind (slot_keyType ht) (m_currCap ht);
  loc_key_loop (Z.to_nat (m_currCap ht)) ht key initialHash.

(** ** Public operations *)

(** The lazily initialised hash seed; [rnd] is what [NkPRNGNext] would return. *)
Definition ensure_seed (seed rnd : Z) : Z := if seed =? 0 then rnd else seed.

(** When the slot array cannot be allocated the parent structure, a pool block, is
    handed to [NkGPFree]: freeing a pointer [malloc] never returned is undefined. *)
Definition NkHashtableCreate (h : heap) (poolRes : NkErrorCode) (props : NkHashtableProperties)
    : outcome (NkErrorCode * option NkHashtable) :=
  if negb (isOk poolRes) then Ret (poolRes, None)
  else
    let bytes := sizeof_ExtPair * m_initCap props in
    NK_ASSERT (negb (bytes =? 0)) NkErr_InParameter;;
    match h bytes with
    | None => Undef
    | Some _ => Ret (NkErr_Ok, Some (mkHashtable 0 (m_initCap props) props
                                       (replicate (Z.to_nat (m_initCap props)) empty_slot)))
    end.

Definition NkHashtableDestroy (ht : option NkHashtable) : list FreeCall :=
  match ht with None => [] | Some ht => HashtableFreeElems ht end.

Definition NkHashtableClear (h : heap) (fuel : nat) (ht : NkHashtable) : outcome (NkHashtable * list FreeCall) :=
  let freed := HashtableFreeElems ht in
  '(_, ht) ← HashtableAdjustCapacity h fuel ht (m_minCap (m_htProps ht));
  Ret (mkHashtable 0 (m_currCap ht) (m_htProps ht) (replicate (Z.to_nat (m_currCap ht)) empty_slot), freed).

Definition NkHashtableContains (ht : NkHashtable) (key behind : Z) : outcome bool :=
  i ← HashtableLocKey ht key behind;
  Ret (negb (Z.lxor i UINT32_MAX =? 0)).

Fixpoint insert_loop (fuel : nat) (ht : NkHashtable) (pairs : list NkHashtablePair) (actAdded : Z)
    : outcome (NkHashtable * Z) :=
  match pairs with
  | [] => Ret (ht, actAdded)
  | p :: pairs =>
      present ← NkHashtableContains ht (m_keyVal p) (mp_valuePtr p);
      if present : bool then insert_loop fuel ht pairs actAdded
      else
        '(ht, _) ← HashtableRobinHoodInsertSingle fuel ht p;
        insert_loop fuel ht pairs (u32 (actAdded + 1))
  end.

(** The resize check: [None] when the capacity is kept. *)
Definition grown_capacity (ht : NkHashtable) (newElemCount : Z) : outcome (option Z) :=
  if f_ge (f32_div (f32_of_Z newElemCount) (f32_of_Z (m_currCap ht))) (f32_lit 3 4) then
    c ← f_to_u 32 (f_trunc (f32_div (f32_of_Z newElemCount) (f32_lit 7 20)));
    Ret (Some (NK_CLAMP c (m_minCap (m_htProps ht)) (m_maxCap (m_htProps ht))))
  else Ret None.

Definition NkHashtableInsertMulti (h : heap) (fuel : nat) (ht : NkHashtable) (pairs : list NkHashtablePair)
    : outcome (NkErrorCode * NkHashtable) :=
  let nElems := Z.of_nat (length pairs) in
  let '(ok, newElemCount) := NkCheckedUint32Add (m_elemCount ht) nElems in
  if negb ok || (newElemCount >? m_maxCap (m_htProps ht)) then Ret (NkErr_CapLimitExceeded, ht)
  else
    grow ← grown_capacity ht newElemCount;
    '(errorCode, ht) ←
      match grow with
      | Some newCap => HashtableAdjustCapacity h fuel ht newCap
      | None => Ret (NkErr_Ok, ht)
      end;
    if negb (isOk errorCode) then Ret (errorCode, ht)
    else
      '(ht, actAdded) ← insert_loop fuel ht pairs 0;
      Ret (NkErr_Ok, mkHashtable (u32 (m_elemCount ht + actAdded)) (m_currCap ht) (m_htProps ht) (mp_elemArray ht)).

Definition NkHashtableInsert (h : heap) (fuel : nat) (ht : NkHashtable) (pair : NkHashtablePair)
    : outcome (NkErrorCode * NkHashtable) :=
  NkHashtableInsertMulti h fuel ht [pair].

(** Marking slot [i] free, with one element less. *)
Definition release_slot (ht : NkHashtable) (i : Z) (s : HashtableExtPair) : outcome NkHashtable :=
  arr ← buf_set (mp_elemArray ht) i (mkExtPair (m_regPair s) false (m_offset s));
  Ret (mkHashtable (u32 (m_elemCount ht - 1)) (m_currCap ht) (m_htProps ht) arr).

Definition NkHashtableErase (ht : NkHashtable) (key behind : Z)
    : outcome (NkErrorCode * NkHashtable * list FreeCall) :=
  where2Find ← HashtableLocKey ht key behind;
  if where2Find =? UINT32_MAX then Ret (NkErr_ItemNotFound, ht, [])
  else
    s ← buf_get (mp_elemArray ht) where2Find;
    ht' ← release_slot ht where2Find s;
    let key2Pass :=
      if NK_INRANGE_INCL (keyType_num (slot_keyType ht)) (keyType_num NkHtKeyTy_String) (keyType_num NkHtKeyTy_Uuid)
      then Some (m_keyVal (m_regPair s)) else None in
    Ret (NkErr_Ok, ht',
         if mp_fnElemFree (m_htProps ht) then [(key2Pass, mp_valuePtr (m_regPair s))] else []).

(** The value found, or NULL. *)
Definition NkHashtableAt (ht : NkHashtable) (key behind : Z) : outcome (NkErrorCode * Z) :=
  where2Find ← HashtableLocKey ht key behind;
  if where2Find =? UINT32_MAX then Ret (NkErr_ItemNotFound, NULL)
  else
    s ← buf_get (mp_elemArray ht) where2Find;
    Ret (NkErr_Ok, mp_valuePtr (m_regPair s)).

Definition NkHashtableExtract (ht : NkHashtable) (key behind : Z)
    : outcome (NkErrorCode * NkHashtable * Z * list FreeCall) :=
  where2Find ← HashtableLocKey ht key behind;
  if where2Find =? UINT32_MAX then Ret (NkErr_ItemNotFound, ht, NULL, [])
  else
    s ← buf_get (mp_elemArray ht) where2Find;
    ht' ← release_slot ht where2Find s;
    Ret (NkErr_Ok, ht', mp_valuePtr (m_regPair s),
         if mp_fnElemFree (m_htProps ht) then [(Some (m_keyVal (m_regPair s)), NULL)] else []).

(** The iterator gets the pair and may change the user's state [S]. *)
Fixpoint for_each_loop {S} (slots : list HashtableExtPair) (errorCode : NkErrorCode)
    (fnIter : NkHashtablePair → S → NkErrorCode * S) (st : S) : NkErrorCode * S :=
  match slots with
  | [] => (errorCode, st)
  | s :: slots =>
      if negb (m_isUsed s) then for_each_loop slots errorCode fnIter st
      else
        let '(errorCode, st) := fnIter (m_regPair s) st in
        if negb (isOk errorCode) then (errorCode, st) else for_each_loop slots errorCode fnIter st
  end.
(** The loop is guarded by [j < m_elemCount] with [j] constantly 0. *)
Definition NkHashtableForEach {S} (ht : NkHashtable) (fnIter : NkHashtablePair → S → NkErrorCode * S)
    (st : S) : NkErrorCode * S :=
  if 0 <? m_elemCount ht then for_each_loop (mp_elemArray ht) NkErr_NoOperation fnIter st
  else (NkErr_NoOperation, st).

Definition NkHashtableCount (ht : NkHashtable) : Z := m_elemCount ht.
(** What iterating means: the pairs one after the other, each once, until the iterator
    returns something else than [NkErr_Ok]. *)
Fixpoint visit_pairs {S} (f : NkHashtablePair → S → NkErrorCode * S) (ps : list NkHashtablePair) (e : NkErrorCode) (st : S) : NkErrorCode * S :=
  match ps with
  | [] => (e, st)
  | p :: ps => let '(e, st) := f p st in if isOk e then visit_pairs f ps e st else (e, st)
  end.

(** ** Abstraction: the finite map a table stands for *)

(** Keys that compare equal are exactly the ones with the same representation. *)
Definition key_repr (kt : NkHashtableKeyType) (key : Z) : list Z :=
  match kt with
  | NkHtKeyTy_Int64 | NkHtKeyTy_Uint64 | NkHtKeyTy_Pointer => [key]
  | NkHtKeyTy_String => key_cstr key
  | NkHtKeyTy_StringView =>
      let '(d, s) := key_sv key in s :: cut_nul (key_bytes d s)
  | NkHtKeyTy_Uuid => [(key_uuid key).1; (key_uuid key).2]
  end.

Definition slot_pair (s : HashtableExtPair) : option NkHashtablePair :=
  if m_isUsed s then Some (m_regPair s) else None.
(** The pairs stored in a slot array, in slot order. *)
Definition used (arr : list HashtableExtPair) : list NkHashtablePair := omap slot_pair arr.
Definition pair_entry (kt : NkHashtableKeyType) (p : NkHashtablePair) : list Z * Z :=
  (key_repr kt (m_keyVal p), mp_valuePtr p).
Definition ht_entries (ht : NkHashtable) : list (list Z * Z) :=
  pair_entry (slot_keyType ht) <$> used (mp_elemArray ht).
Definition ht_map (ht : NkHashtable) : gmap (list Z) Z := list_to_map (ht_entries ht).

Record htable_ok (ht : NkHashtable) : Prop := {
  ok_cap : 0 < m_currCap ht < 2 ^ 32;
  ok_length : Z.of_nat (length (mp_elemArray ht)) = m_currCap ht;
  ok_count : m_elemCount ht = Z.of_nat (length (used (mp_elemArray ht)));
  ok_nodup : NoDup (ht_entries ht).*1
}.
End htable.

(** What the memory behind keys looks like. *)
Class KeyMemoryLaws `{KM : KeyMemory} : Prop := {
  key_cstr_no_nul : ∀ a, Forall (λ x, x ≠ 0) (key_cstr a);
  key_bytes_length : ∀ a n, length (key_bytes a n) = Z.to_nat n
}.

(** ** Lemmas *)

Lemma next_slot_mod cap i : 0 < cap < 2 ^ 32 → 0 ≤ i < cap → next_slot cap i = (i + 1) mod cap.
Proof.
  intros Hc Hi. unfold next_slot. rewrite wrapN_small by (unfold is_u; lia).
  destruct (Z.geb_spec i (cap - 1)).
  - replace (i + 1) with (0 + 1 * cap) by lia. by rewrite Z.mod_add, Z.mod_0_l by lia.
  - by rewrite Z.mod_small by lia.
Qed.

Section used.
Implicit Types (arr : list HashtableExtPair) (s : HashtableExtPair).

Lemma used_cons s arr : used (s :: arr) = if m_isUsed s then m_regPair s :: used arr else used arr.
Proof. unfold used. simpl. unfold slot_pair at 1. by destruct (m_isUsed s). Qed.

Lemma used_split arr i s :
  arr !! i = Some s → used arr = used (take i arr) ++ used [s] ++ used (drop (S i) arr).
Proof.
  intros Hs. unfold used. rewrite <-!omap_app. f_equal. simpl.
  symmetry. by apply take_drop_middle.
Qed.

Lemma used_insert arr i s s' :
  arr !! i = Some s → used (<[i:=s']> arr) = used (take i arr) ++ used [s'] ++ used (drop (S i) arr).
Proof.
  intros Hs. pose proof (lookup_lt_Some _ _ _ Hs).
  rewrite (used_split _ i s') by (by rewrite list_lookup_insert_eq).
  by rewrite take_insert_ge, drop_insert_lt by lia.
Qed.

(** Writing a pair into a slot: the pair is added and a pair that was there is
    displaced. *)
Lemma used_write arr i s p o :
  arr !! i = Some s →
  used [s] ++ used (<[i:=mkExtPair p true o]> arr) ≡ₚ p :: used arr.
Proof.
  intros Hs. rewrite (used_insert _ _ _ _ Hs), (used_split _ _ _ Hs).
  change (used [mkExtPair p true o]) with [p]. solve_Permutation.
Qed.

Lemma used_release arr i s p o :
  arr !! i = Some s → used [s] ++ used (<[i:=mkExtPair p false o]> arr) ≡ₚ used arr.
Proof.
  intros Hs. rewrite (used_insert _ _ _ _ Hs), (used_split _ _ _ Hs).
  change (used [mkExtPair p false o]) with (@nil NkHashtablePair). solve_Permutation.
Qed.

Lemma used_length arr : (length (used arr) ≤ length arr)%nat.
Proof.
  induction arr as [|s arr IH]; [done|]. rewrite used_cons. destruct (m_isUsed s); simpl; lia.
Qed.

Lemma used_not_full arr :
  (length (used arr) < length arr)%nat → ∃ i s, arr !! i = Some s ∧ m_isUsed s = false.
Proof.
  induction arr as [|s arr IH]; [simpl; lia|]. rewrite used_cons.
  destruct (m_isUsed s) eqn:E; simpl; intros Hlt.
  - destruct IH as (i & s' & ? & ?); [lia|]. by exists (S i), s'.
  - by exists 0%nat, s.
Qed.

Lemma used_full arr : length (used arr) = length arr → Forall (λ s, m_isUsed s = true) arr.
Proof.
  induction arr as [|s arr IH]; [done|]. rewrite used_cons. pose proof (used_length arr).
  destruct (m_isUsed s) eqn:E; simpl; intros Hlt; [|lia]. constructor; [done|]. apply IH. lia.
Qed.

Lemma used_elem arr p :
  p ∈ used arr ↔ ∃ i s, arr !! i = Some s ∧ m_isUsed s = true ∧ m_regPair s = p.
Proof.
  unfold used. rewrite list_elem_of_omap. unfold slot_pair. split.
  - intros (s & (i & Hi)%list_elem_of_lookup & Hp). exists i, s. destruct (m_isUsed s); naive_solver.
  - intros (i & s & Hi & Hu & <-). exists s. rewrite Hu. split; [|done]. by eapply list_elem_of_lookup_2.
Qed.

Lemma used_replicate_empty n : used (replicate n empty_slot) = [].
Proof. induction n; [done|]. done. Qed.

(** With a free slot [d] steps ahead the probe loop stores the pair. *)
Lemma robin_hood_loop_free fuel arr cap i psa p (d : nat) s :
  0 < cap < 2 ^ 32 → Z.of_nat (length arr) = cap → 0 ≤ i < cap →
  arr !! Z.to_nat ((i + Z.of_nat d) mod cap) = Some s → m_isUsed s = false → (d < fuel)%nat →
  ∃ arr', robin_hood_loop fuel arr cap i psa p 0 = Ret (arr', true) ∧
    used arr' ≡ₚ p :: used arr ∧ length arr' = length arr.
Proof.
  intros Hcap. revert arr i psa p d. induction fuel as [|fuel IH];
    intros arr i psa p d Hlen Hi Hs Hfree Hd; [lia|].
  cbn [robin_hood_loop]. destruct (Z.ltb_spec 0 cap); [|lia].
  destruct (buf_get_in arr i) as (si & -> & Hsi); [lia|]. step.
  destruct (m_isUsed si) eqn:Hu; cbn [negb].
  2: { rewrite buf_set_in by lia. eexists. split_and!; [done| |by rewrite length_insert].
       rewrite <-(used_write _ _ _ p psa Hsi). by rewrite used_cons, Hu. }
  destruct d as [|d].
  { rewrite Z.add_0_r, Z.mod_small in Hs by lia. congruence. }
  assert (Hstep : (i + Z.of_nat (S d)) mod cap = (next_slot cap i + Z.of_nat d) mod cap).
  { rewrite next_slot_mod by done. rewrite Zplus_mod_idemp_l. f_equal. lia. }
  assert (Hne : Z.to_nat i ≠ Z.to_nat ((i + Z.of_nat (S d)) mod cap)) by congruence.
  assert (Hni : 0 ≤ next_slot cap i < cap) by (rewrite next_slot_mod by done; apply Z.mod_pos_bound; lia).
  destruct (psa <=? m_offset si).
  - apply (IH _ _ _ _ d); [done|done|by rewrite <-Hstep|done|lia].
  - rewrite buf_set_in by lia. step.
    destruct (IH (<[Z.to_nat i:=mkExtPair p true psa]> arr) (next_slot cap i) (u32 (m_offset si + 1))
      (m_regPair si) d) as (arr' & -> & Hused & Hl).
    + by rewrite length_insert.
    + done.
    + rewrite <-Hstep. by rewrite list_lookup_insert_ne.
    + done.
    + lia.
    + exists arr'. split_and!; [done| |by rewrite Hl, length_insert]. rewrite Hused.
      rewrite <-(used_write _ _ _ p psa Hsi). by rewrite used_cons, Hu.
Qed.

(** On a full array it never returns: its iteration counter stays 0. *)
Lemma robin_hood_loop_full fuel arr cap i psa p :
  0 < cap < 2 ^ 32 → Z.of_nat (length arr) = cap → 0 ≤ i < cap →
  Forall (λ s, m_isUsed s = true) arr → robin_hood_loop fuel arr cap i psa p 0 = OutOfFuel.
Proof.
  intros Hcap. revert arr i psa p. induction fuel as [|fuel IH]; intros arr i psa p Hlen Hi Hall; [done|].
  cbn [robin_hood_loop]. destruct (Z.ltb_spec 0 cap); [|lia].
  destruct (buf_get_in arr i) as (si & -> & Hsi); [lia|]. step.
  rewrite (Forall_lookup_1 _ _ _ _ Hall Hsi). cbn [negb].
  assert (Hni : 0 ≤ next_slot cap i < cap) by (rewrite next_slot_mod by done; apply Z.mod_pos_bound; lia).
  destruct (psa <=? m_offset si); [by apply IH|].
  rewrite buf_set_in by lia. step. apply IH; [by rewrite length_insert|done|].
  by apply Forall_insert.
Qed.
End used.

Section specs.
Context `{KML : KeyMemoryLaws} (gl_seed : Z).
Implicit Types (ht : NkHashtable) (p : NkHashtablePair).

Lemma compare_keys_repr kt a b :
  HashtableCompareKeys a b kt = true ↔ key_repr kt a = key_repr kt b.
Proof.
  destruct kt; simpl.
  1,2,5: rewrite Z.eqb_eq; split; congruence.
  - rewrite Z.eqb_eq. apply strcmp_zero; apply key_cstr_no_nul.
  - unfold StringViewCompare. destruct (key_sv a) as [d1 s1] eqn:Ha, (key_sv b) as [d2 s2] eqn:Hb.
    destruct (Z.eqb_spec a b) as [->|Hab]; simpl.
    { rewrite Ha in Hb. injection Hb as -> ->. rewrite Z.eqb_refl. done. }
    destruct (Z.eqb_spec s1 s2) as [->|Hs]; [|split; [done|congruence]].
    destruct (Z.eqb_spec d1 d2) as [->|Hd]; [done|].
    rewrite Z.eqb_eq, strncmp_zero by (by rewrite !key_bytes_length). split; [by intros ->|by intros [= ->]].
  - rewrite orb_true_iff, andb_true_iff, !Z.eqb_eq. split; [|by intros [= -> ->]; auto].
    intros [->|[-> ->]]; done.
Qed.

Lemma hash_range key behind kt cap :
  0 < cap → ∃ i, HashtableHash gl_seed key behind kt cap = Ret i ∧ 0 ≤ i < cap.
Proof.
  intros. unfold HashtableHash. destruct (Z.eqb_spec cap 0); [lia|]. eexists. split; [done|].
  apply Z.mod_pos_bound. lia.
Qed.

(** One insertion into a table with a free slot. *)
Lemma insert_single_spec fuel ht p :
  0 < m_currCap ht < 2 ^ 32 → Z.of_nat (length (mp_elemArray ht)) = m_currCap ht →
  (length (used (mp_elemArray ht)) < length (mp_elemArray ht))%nat → m_currCap ht ≤ Z.of_nat fuel →
  ∃ arr', HashtableRobinHoodInsertSingle gl_seed fuel ht p = Ret (set_array ht arr', true) ∧
    used arr' ≡ₚ p :: used (mp_elemArray ht) ∧ length arr' = length (mp_elemArray ht).
Proof.
  intros Hcap Hlen Hroom Hf. unfold HashtableRobinHoodInsertSingle.
  destruct (hash_range (m_keyVal p) (mp_valuePtr p) (slot_keyType ht) (m_currCap ht)) as (i & -> & Hi); [lia|].
  step.
  destruct (used_not_full (mp_elemArray ht)) as (i0 & s & Hs & Hfree); [done|].
  pose proof (lookup_lt_Some _ _ _ Hs).
  destruct (robin_hood_loop_free fuel (mp_elemArray ht) (m_currCap ht) i 0 p
    (Z.to_nat ((Z.of_nat i0 - i) mod m_currCap ht)) s) as (arr' & -> & ? & ?).
  - done.
  - done.
  - done.
  - rewrite Z2Nat.id by (apply Z.mod_pos_bound; lia). rewrite Zplus_mod_idemp_r.
    replace (i + (Z.of_nat i0 - i)) with (Z.of_nat i0) by lia.
    rewrite Z.mod_small, Nat2Z.id by lia. done.
  - done.
  - pose proof (Z.mod_pos_bound (Z.of_nat i0 - i) (m_currCap ht)). lia.
  - by exists arr'.
Qed.

(** The search loop looks at [n] consecutive slots. *)
Lemma loc_key_loop_spec ht key n i :
  0 < m_currCap ht < 2 ^ 32 → Z.of_nat (length (mp_elemArray ht)) = m_currCap ht → 0 ≤ i < m_currCap ht →
  (loc_key_loop n ht key i = Ret UINT32_MAX ∧
   ∀ d s, (d < n)%nat → mp_elemArray ht !! Z.to_nat ((i + Z.of_nat d) mod m_currCap ht) = Some s →
     m_isUsed s = true → key_repr (slot_keyType ht) (m_keyVal (m_regPair s)) ≠ key_repr (slot_keyType ht) key) ∨
  ∃ r s, loc_key_loop n ht key i = Ret r ∧ 0 ≤ r < m_currCap ht ∧ mp_elemArray ht !! Z.to_nat r = Some s ∧
    m_isUsed s = true ∧ key_repr (slot_keyType ht) (m_keyVal (m_regPair s)) = key_repr (slot_keyType ht) key.
Proof.
  intros Hcap Hlen. revert i. induction n as [|n IH]; intros i Hi.
  { left. split; [done|]. intros; lia. }
  cbn [loc_key_loop]. destruct (buf_get_in (mp_elemArray ht) i) as (s & -> & Hs); [lia|]. step.
  destruct (m_isUsed s && HashtableCompareKeys key (m_keyVal (m_regPair s)) (slot_keyType ht)) eqn:E.
  { right. apply andb_true_iff in E as [Hu Hc%compare_keys_repr]. by exists i, s. }
  assert (Hni : 0 ≤ next_slot (m_currCap ht) i < m_currCap ht)
    by (rewrite next_slot_mod by done; apply Z.mod_pos_bound; lia).
  destruct (IH _ Hni) as [[Hr Hn]|?]; [left|by right]. split; [done|].
  intros d s' Hd Hs' Hu. destruct d as [|d].
  - rewrite Z.add_0_r, Z.mod_small in Hs' by lia. assert (s' = s) as -> by congruence.
    rewrite Hu in E. simpl in E. intros Heq. symmetry in Heq. apply compare_keys_repr in Heq. congruence.
  - apply (Hn d); [lia| |done]. rewrite next_slot_mod, Zplus_mod_idemp_l by done.
    by replace (i + 1 + Z.of_nat d) with (i + Z.of_nat (S d)) by lia.
Qed.

Lemma ht_map_lookup ht p :
  htable_ok ht → p ∈ used (mp_elemArray ht) →
  ht_map ht !! key_repr (slot_keyType ht) (m_keyVal p) = Some (mp_valuePtr p).
Proof.
  intros Hok Hp. apply elem_of_list_to_map; [apply Hok|].
  unfold ht_entries. apply list_elem_of_fmap. exists p. done.
Qed.

Lemma ht_map_absent ht k :
  (∀ p, p ∈ used (mp_elemArray ht) → key_repr (slot_keyType ht) (m_keyVal p) ≠ k) → ht_map ht !! k = None.
Proof.
  intros Hn. apply not_elem_of_list_to_map. unfold ht_entries.
  rewrite <-list_fmap_compose, list_elem_of_fmap. intros (p & -> & Hp). by apply (Hn p).
Qed.

(** What the key lookup finds, whatever word follows the key in memory. *)
Lemma loc_key_spec ht key behind :
  htable_ok ht →
  ∃ r, HashtableLocKey gl_seed ht key behind = Ret r ∧
    ((r = UINT32_MAX ∧ ht_map ht !! key_repr (slot_keyType ht) key = None) ∨
     (∃ s, 0 ≤ r < m_currCap ht ∧ mp_elemArray ht !! Z.to_nat r = Some s ∧ m_isUsed s = true ∧
       key_repr (slot_keyType ht) (m_keyVal (m_regPair s)) = key_repr (slot_keyType ht) key ∧
       ht_map ht !! key_repr (slot_keyType ht) key = Some (mp_valuePtr (m_regPair s)))).
Proof.
  intros Hok. pose proof Hok as [Hcap Hlen _ _]. unfold HashtableLocKey.
  destruct (hash_range key behind (slot_keyType ht) (m_currCap ht)) as (i & -> & Hi); [lia|].
  step.
  destruct (loc_key_loop_spec ht key (Z.to_nat (m_currCap ht)) i Hcap Hlen Hi) as
    [[-> Hn]|(r & s & -> & ? & Hs & Hu & Hk)]; eexists; (split; [done|]); [left|right].
  - split; [done|]. apply ht_map_absent. intros p (i0 & s & Hs & Hu & <-)%used_elem.
    pose proof (lookup_lt_Some _ _ _ Hs).
    apply (Hn (Z.to_nat ((Z.of_nat i0 - i) mod m_currCap ht)) s); [| |done].
    + pose proof (Z.mod_pos_bound (Z.of_nat i0 - i) (m_currCap ht)). lia.
    + rewrite Z2Nat.id by (apply Z.mod_pos_bound; lia). rewrite Zplus_mod_idemp_r.
      replace (i + (Z.of_nat i0 - i)) with (Z.of_nat i0) by lia.
      rewrite Z.mod_small, Nat2Z.id by lia. done.
  - exists s. split_and!; try done; [lia|lia|]. rewrite <-Hk. apply ht_map_lookup; [done|].
    apply used_elem. by exists (Z.to_nat r), s.
Qed.

Lemma rehash_loop_spec fuel slots j elemCount hT :
  0 < m_currCap hT < 2 ^ 32 → Z.of_nat (length (mp_elemArray hT)) = m_currCap hT →
  (length (used slots) + length (used (mp_elemArray hT)) ≤ length (mp_elemArray hT))%nat →
  m_currCap hT ≤ Z.of_nat fuel → j + Z.of_nat (length (used slots)) = elemCount →
  ∃ arr', rehash_loop gl_seed fuel slots j elemCount hT = Ret (set_array hT arr', true) ∧
    used arr' ≡ₚ used slots ++ used (mp_elemArray hT) ∧ length arr' = length (mp_elemArray hT).
Proof.
  revert j hT. induction slots as [|s slots IH]; intros j hT Hcap Hlen Hroom Hf Hj; cbn [rehash_loop].
  { exists (mp_elemArray hT). split_and!; [by destruct hT|done|done]. }
  rewrite used_cons in *. destruct (Z.ltb_spec j elemCount) as [Hlt|Hge].
  2: { destruct (m_isUsed s); simpl in Hj; [lia|]. assert (used slots = []) as -> by (apply nil_length_inv; lia).
       exists (mp_elemArray hT). split_and!; [by destruct hT|done|done]. }
  destruct (m_isUsed s); cbn [negb]; [|by apply IH].
  simpl in Hroom, Hj. destruct (insert_single_spec fuel hT (m_regPair s)) as (arr1 & -> & Hu1 & Hl1); [done|done|lia|done|].
  step. pose proof (Permutation_length Hu1) as Hul. simpl in Hul.
  destruct (IH (j + 1) (set_array hT arr1)) as (arr' & -> & Hu & Hl).
  - done.
  - simpl. lia.
  - simpl. lia.
  - done.
  - lia.
  - exists arr'. simpl in Hu, Hl. split_and!; [done| |lia]. rewrite Hu, Hu1. solve_Permutation.
Qed.

(** More elements than slots: the last insertion never returns. *)
Lemma rehash_loop_overflow fuel slots j elemCount hT :
  0 < m_currCap hT < 2 ^ 32 → Z.of_nat (length (mp_elemArray hT)) = m_currCap hT →
  (length (mp_elemArray hT) < length (used slots) + length (used (mp_elemArray hT)))%nat →
  m_currCap hT ≤ Z.of_nat fuel → j + Z.of_nat (length (used slots)) = elemCount →
  rehash_loop gl_seed fuel slots j elemCount hT = OutOfFuel.
Proof.
  revert j hT. induction slots as [|s slots IH]; intros j hT Hcap Hlen Hover Hf Hj; cbn [rehash_loop];
    pose proof (used_length (mp_elemArray hT)) as Hub; [simpl in Hover; lia|].
  rewrite used_cons in *. destruct (Z.ltb_spec j elemCount) as [Hlt|Hge].
  2: { destruct (m_isUsed s); simpl in Hj, Hover; lia. }
  destruct (m_isUsed s); cbn [negb]; [|by apply IH]. simpl in Hover, Hj.
  destruct (decide (length (used (mp_elemArray hT)) = length (mp_elemArray hT))) as [Hfull|Hnf].
  - unfold HashtableRobinHoodInsertSingle.
    destruct (hash_range (m_keyVal (m_regPair s)) (mp_valuePtr (m_regPair s)) (slot_keyType hT) (m_currCap hT))
      as (i & -> & Hi); [lia|]. step.
    rewrite robin_hood_loop_full; [done|done|done|done|by apply used_full].
  - destruct (insert_single_spec fuel hT (m_regPair s)) as (arr1 & -> & Hu1 & Hl1); [done|done|lia|done|].
    step. pose proof (Permutation_length Hu1) as Hul. simpl in Hul.
    apply IH; simpl; try done; lia.
Qed.

Lemma perm_ok ht ht' :
  0 < m_currCap ht' < 2 ^ 32 → Z.of_nat (length (mp_elemArray ht')) = m_currCap ht' →
  m_elemCount ht' = Z.of_nat (length (used (mp_elemArray ht'))) →
  NoDup (ht_entries ht).*1 → ht_entries ht' ≡ₚ ht_entries ht →
  htable_ok ht' ∧ ht_map ht' = ht_map ht.
Proof.
  intros Hc Hl Hn Hd Hp. assert (Hd' : NoDup (ht_entries ht').*1) by (by rewrite Hp).
  split; [by split|]. by apply list_to_map_proper.
Qed.

Lemma adjust_capacity_spec h fuel ht newCap :
  htable_ok ht → 0 < newCap < 2 ^ 32 → m_elemCount ht ≤ newCap → newCap ≤ Z.of_nat fuel →
  match h (sizeof_ExtPair * newCap) with
  | None => HashtableAdjustCapacity gl_seed h fuel ht newCap = Ret (NkErr_MemoryAllocation, ht)
  | Some _ => ∃ ht', HashtableAdjustCapacity gl_seed h fuel ht newCap = Ret (NkErr_Ok, ht') ∧
      htable_ok ht' ∧ ht_map ht' = ht_map ht ∧ m_currCap ht' = newCap ∧
      m_elemCount ht' = m_elemCount ht ∧ m_htProps ht' = m_htProps ht
  end.
Proof.
  intros Hok Hcap Hfit Hf. pose proof Hok as [_ _ Hcnt Hnd]. unfold HashtableAdjustCapacity, sizeof_ExtPair.
  destruct (Z.eqb_spec (24 * newCap) 0); [lia|]. cbn [mbind outcome_bind NK_ASSERT negb].
  destruct (h (24 * newCap)); [|done].
  set (hT := mkHashtable (m_elemCount ht) newCap (m_htProps ht) (replicate (Z.to_nat newCap) empty_slot)).
  destruct (rehash_loop_spec fuel (mp_elemArray ht) 0 (m_elemCount ht) hT) as (arr' & -> & Hu & Hl);
    unfold hT; simpl; rewrite ?length_replicate, ?used_replicate_empty; [lia|lia|simpl; lia|lia|lia|].
  unfold hT in Hu, Hl; simpl in Hu, Hl. rewrite used_replicate_empty, app_nil_r in Hu. rewrite length_replicate in Hl.
  step. eexists. split; [done|].
  match goal with |- htable_ok ?t ∧ _ => destruct (perm_ok ht t) as [Hok' Hmap]; [simpl..|] end.
  - lia.
  - lia.
  - by rewrite Hu.
  - done.
  - unfold ht_entries. simpl. by rewrite Hu.
  - by split_and!.
Qed.

Lemma contains_spec ht key behind :
  htable_ok ht →
  NkHashtableContains gl_seed ht key behind =
    Ret (bool_decide (is_Some (ht_map ht !! key_repr (slot_keyType ht) key))).
Proof.
  intros Hok. pose proof Hok as [Hcap _ _ _]. unfold NkHashtableContains.
  destruct (loc_key_spec ht key behind Hok) as (r & -> & Hr). step.
  rewrite lxor_zero. f_equal. destruct Hr as [[-> ->]|(s & Hr & _ & _ & _ & ->)].
  - rewrite Z.eqb_refl. symmetry. apply bool_decide_eq_false. by intros [].
  - destruct (Z.eqb_spec r UINT32_MAX); [unfold UINT32_MAX in *; lia|].
    symmetry. by apply bool_decide_eq_true.
Qed.

(** Adding an absent key to a well-formed table with room. *)
Lemma insert_absent fuel ht p :
  htable_ok ht → m_elemCount ht < m_currCap ht → m_currCap ht ≤ Z.of_nat fuel →
  ht_map ht !! key_repr (slot_keyType ht) (m_keyVal p) = None →
  ∃ ht1, HashtableRobinHoodInsertSingle gl_seed fuel ht p = Ret (ht1, true) ∧
    m_elemCount ht1 = m_elemCount ht ∧ m_currCap ht1 = m_currCap ht ∧ m_htProps ht1 = m_htProps ht ∧
    let ht2 := mkHashtable (u32 (m_elemCount ht1 + 1)) (m_currCap ht1) (m_htProps ht1) (mp_elemArray ht1) in
    htable_ok ht2 ∧
    ht_map ht2 = <[key_repr (slot_keyType ht) (m_keyVal p) := mp_valuePtr p]> (ht_map ht).
Proof.
  intros Hok Hroom Hf Habs. pose proof Hok as [Hcap Hlen Hcnt Hnd].
  destruct (insert_single_spec fuel ht p) as (arr' & -> & Hu & Hl); [done|done|lia|done|].
  eexists. split; [done|]. cbn [set_array m_elemCount m_currCap m_htProps mp_elemArray].
  do 3 (split; [done|]). cbv zeta.
  set (ht2 := mkHashtable _ _ _ _).
  assert (He : ht_entries ht2 ≡ₚ pair_entry (slot_keyType ht) p :: ht_entries ht).
  { unfold ht_entries, ht2. simpl. by rewrite Hu. }
  assert (Hd2 : NoDup (pair_entry (slot_keyType ht) p :: ht_entries ht).*1).
  { simpl. constructor; [|done]. by apply not_elem_of_list_to_map. }
  split.
  - split; unfold ht2; simpl; [done|lia| |].
    + rewrite wrapN_small by (unfold is_u; lia). rewrite Hu. simpl. lia.
    + fold ht2. by rewrite He.
  - assert (Hd1 : NoDup (ht_entries ht2).*1) by (by rewrite He).
    unfold ht_map. rewrite (list_to_map_proper _ _ Hd1 He). done.
Qed.

(** Removing the pair of slot [r]. *)
Lemma release_slot_spec ht r s :
  htable_ok ht → 0 ≤ r → mp_elemArray ht !! Z.to_nat r = Some s → m_isUsed s = true →
  ∃ ht', release_slot ht r s = Ret ht' ∧ htable_ok ht' ∧ m_elemCount ht' = m_elemCount ht - 1 ∧
    ht_map ht' = delete (key_repr (slot_keyType ht) (m_keyVal (m_regPair s))) (ht_map ht) ∧
    m_currCap ht' = m_currCap ht ∧ m_htProps ht' = m_htProps ht.
Proof.
  intros Hok Hr Hs Hu. pose proof Hok as [Hcap Hlen Hcnt Hnd].
  pose proof (lookup_lt_Some _ _ _ Hs). unfold release_slot.
  rewrite buf_set_in by lia. step. eexists. split; [done|].
  pose proof (used_release _ _ _ (m_regPair s) (m_offset s) Hs) as Hp. rewrite used_cons, Hu in Hp.
  change (used []) with (@nil NkHashtablePair) in Hp.
  set (arr' := <[_:=_]> _) in *. set (ht' := mkHashtable _ _ _ _).
  pose proof (Permutation_length Hp) as Hpl. simpl in Hpl.
  assert (He : pair_entry (slot_keyType ht) (m_regPair s) :: ht_entries ht' ≡ₚ ht_entries ht).
  { unfold ht_entries, ht'. simpl. rewrite <-Hp. done. }
  assert (Hnd2 : NoDup (pair_entry (slot_keyType ht) (m_regPair s) :: ht_entries ht').*1) by (by rewrite He).
  simpl in Hnd2. inversion Hnd2 as [|? ? Hnin Hnd'].
  assert (Hc' : m_elemCount ht' = m_elemCount ht - 1).
  { unfold ht'. cbn [m_elemCount]. pose proof (used_length (mp_elemArray ht)). rewrite wrapN_small by (unfold is_u; lia). done. }
  split_and!; [|done| |done|done].
  - split; [done| |rewrite Hc'; simpl; lia|done].
    unfold ht', arr'. simpl. by rewrite length_insert.
  - assert (Hd1 : NoDup (pair_entry (slot_keyType ht) (m_regPair s) :: ht_entries ht').*1) by (by rewrite He).
    unfold ht_map. rewrite <-(list_to_map_proper _ _ Hd1 He). simpl.
    rewrite delete_insert_id; [done|]. by apply not_elem_of_list_to_map.
Qed.

(** One insertion through the public operation. *)
Lemma insert_spec h fuel ht p grow :
  htable_ok ht → m_elemCount ht + 1 ≤ m_maxCap (m_htProps ht) < 2 ^ 32 →
  grown_capacity ht (m_elemCount ht + 1) = Ret grow →
  m_elemCount ht < default (m_currCap ht) grow < 2 ^ 32 →
  default (m_currCap ht) grow ≤ Z.of_nat fuel →
  (∀ c, grow = Some c → is_Some (h (sizeof_ExtPair * c))) →
  ∃ ht', NkHashtableInsert gl_seed h fuel ht p = Ret (NkErr_Ok, ht') ∧ htable_ok ht' ∧
    m_currCap ht' = default (m_currCap ht) grow ∧ m_htProps ht' = m_htProps ht ∧
    m_elemCount ht ≤ m_elemCount ht' ≤ m_elemCount ht + 1 ∧
    ht_map ht' =
      match ht_map ht !! key_repr (slot_keyType ht) (m_keyVal p) with
      | Some _ => ht_map ht
      | None => <[key_repr (slot_keyType ht) (m_keyVal p) := mp_valuePtr p]> (ht_map ht)
      end.
Proof.
  intros Hok Hmax Hg Hroom Hf Hh. pose proof Hok as [Hcap Hlen Hcnt _].
  unfold NkHashtableInsert, NkHashtableInsertMulti, NkCheckedUint32Add. simpl length.
  change (Z.of_nat 1) with 1. rewrite wrapN_small by (unfold is_u; lia).
  destruct (Z.geb_spec (UINT32_MAX - m_elemCount ht) 1); [|unfold UINT32_MAX in *; lia].
  destruct (Z.gtb_spec (m_elemCount ht + 1) (m_maxCap (m_htProps ht))); [lia|]. cbn [negb orb].
  rewrite Hg. step.
  assert (Hgrown : ∃ ht1, match grow with
      | Some newCap => HashtableAdjustCapacity gl_seed h fuel ht newCap
      | None => Ret (NkErr_Ok, ht) end = Ret (NkErr_Ok, ht1) ∧ htable_ok ht1 ∧ ht_map ht1 = ht_map ht ∧
      m_currCap ht1 = default (m_currCap ht) grow ∧ m_elemCount ht1 = m_elemCount ht ∧
      m_htProps ht1 = m_htProps ht).
  { destruct grow as [c|]; simpl in *; [|by exists ht].
    pose proof (adjust_capacity_spec h fuel ht c Hok) as Hadj.
    destruct (Hh c eq_refl) as [u Hu]. rewrite Hu in Hadj. apply Hadj; lia. }
  destruct Hgrown as (ht1 & -> & Hok1 & Hmap1 & Hcap1 & Hcnt1 & Hp1). step.
  change (isOk NkErr_Ok) with true. cbn [negb insert_loop].
  assert (Hkt : slot_keyType ht1 = slot_keyType ht) by (unfold slot_keyType; by rewrite Hp1).
  rewrite (contains_spec ht1) by done. step. rewrite Hkt, Hmap1.
  destruct (ht_map ht !! key_repr (slot_keyType ht) (m_keyVal p)) as [v|] eqn:Hk.
  - rewrite bool_decide_eq_true_2 by done. step. eexists. split; [done|].
    rewrite Z.add_0_r, wrapN_small by (unfold is_u; lia). split_and!; [by destruct ht1|done|done|simpl; lia|simpl; lia|done].
  - rewrite bool_decide_eq_false_2 by (by intros []).
    rewrite <-Hmap1, <-Hkt in Hk. rewrite <-Hcnt1, <-Hcap1 in Hroom. rewrite <-Hcap1 in Hf.
    destruct (insert_absent fuel ht1 p Hok1 ltac:(lia) Hf Hk) as (ht2 & -> & Hc2 & Hcap2 & Hp2 & Hok2 & Hm2).
    step. change (u32 (0 + 1)) with 1. eexists. split; [done|].
    rewrite Hkt, Hmap1 in Hm2. split_and!; [done|simpl; congruence|simpl; congruence|..|done];
      cbn [m_elemCount]; rewrite wrapN_small by (unfold is_u, UINT32_MAX in *; lia); lia.
Qed.

Lemma at_spec ht key behind :
  htable_ok ht →
  NkHashtableAt gl_seed ht key behind =
    Ret (match ht_map ht !! key_repr (slot_keyType ht) key with
         | Some v => (NkErr_Ok, v)
         | None => (NkErr_ItemNotFound, NULL)
         end).
Proof.
  intros Hok. pose proof Hok as [Hcap _ _ _]. unfold NkHashtableAt.
  destruct (loc_key_spec ht key behind Hok) as (r & -> & Hr). step.
  destruct Hr as [[-> ->]|(s & Hr & Hs & _ & _ & ->)]; [by rewrite Z.eqb_refl|].
  destruct (Z.eqb_spec r UINT32_MAX); [unfold UINT32_MAX in *; lia|].
  by rewrite (buf_get_lookup _ _ s) by (done || lia).
Qed.

Lemma remove_spec ht key behind :
  htable_ok ht →
  match ht_map ht !! key_repr (slot_keyType ht) key with
  | None =>
      NkHashtableErase gl_seed ht key behind = Ret (NkErr_ItemNotFound, ht, []) ∧
      NkHashtableExtract gl_seed ht key behind = Ret (NkErr_ItemNotFound, ht, NULL, [])
  | Some v =>
      ∃ ht' e1 e2, htable_ok ht' ∧ ht_map ht' = delete (key_repr (slot_keyType ht) key) (ht_map ht) ∧
        m_elemCount ht' = m_elemCount ht - 1 ∧ m_currCap ht' = m_currCap ht ∧ m_htProps ht' = m_htProps ht ∧
        (mp_fnElemFree (m_htProps ht) = true → slot_keyType ht = NkHtKeyTy_Uuid → ∃ k', e1 = [(Some k', v)]) ∧
        NkHashtableErase gl_seed ht key behind = Ret (NkErr_Ok, ht', e1) ∧
        NkHashtableExtract gl_seed ht key behind = Ret (NkErr_Ok, ht', v, e2)
  end.
Proof.
  intros Hok. pose proof Hok as [Hcap _ _ _]. unfold NkHashtableErase, NkHashtableExtract.
  destruct (loc_key_spec ht key behind Hok) as (r & -> & Hr). step.
  destruct Hr as [[-> ->]|(s & Hr & Hs & Hu & Hk & ->)]; [by rewrite Z.eqb_refl|].
  destruct (Z.eqb_spec r UINT32_MAX); [unfold UINT32_MAX in *; lia|].
  rewrite (buf_get_lookup _ _ s) by (done || lia). step.
  destruct (release_slot_spec ht r s Hok ltac:(lia) Hs Hu) as (ht' & -> & ? & ? & Hm & ? & ?).
  step. rewrite Hk in Hm. eexists _, _, _.
  split_and!; try done. intros -> ->. by eexists.
Qed.

(** The destructor calls of a whole table, and whether a walk visits anything. *)
Lemma free_elems_loop_spec slots j n :
  j + Z.of_nat (length (used slots)) = n →
  free_elems_loop slots j n = (λ p, (Some (m_keyVal p), mp_valuePtr p)) <$> used slots.
Proof.
  revert j. induction slots as [|s slots IH]; intros j Hj; cbn [free_elems_loop]; [done|].
  rewrite used_cons in *. destruct (Z.ltb_spec j n).
  - destruct (m_isUsed s); simpl in *; [by rewrite IH by lia|by apply IH].
  - destruct (m_isUsed s); simpl in *; [lia|]. assert (used slots = []) as -> by (apply nil_length_inv; lia). done.
Qed.

Lemma free_elems_spec ht :
  htable_ok ht → free_elems_loop (mp_elemArray ht) 0 (m_elemCount ht) =
    (λ p, (Some (m_keyVal p), mp_valuePtr p)) <$> used (mp_elemArray ht).
Proof. intros [_ _ Hc _]. apply free_elems_loop_spec. lia. Qed.

Lemma for_each_loop_visits {S} (f : NkHashtablePair → S → NkErrorCode * S) slots e st :
  for_each_loop slots e f st = visit_pairs f (used slots) e st.
Proof.
  revert e st. induction slots as [|s slots IH]; intros e st; [done|]. cbn [for_each_loop]. rewrite used_cons.
  destruct (m_isUsed s); cbn [negb visit_pairs]; [|apply IH]. destruct (f _ _) as [e' st']. destruct (isOk e'); [apply IH|done].
Qed.
Lemma for_each_visits {S} (f : NkHashtablePair → S → NkErrorCode * S) ht st :
  htable_ok ht → NkHashtableForEach ht f st = visit_pairs f (used (mp_elemArray ht)) NkErr_NoOperation st.
Proof.
  intros [_ _ Hc _]. unfold NkHashtableForEach. destruct (Z.ltb_spec 0 (m_elemCount ht)); [apply for_each_loop_visits|].
  by assert (used (mp_elemArray ht) = []) as -> by (apply nil_length_inv; lia).
Qed.
End specs.

(** ** Properties *)
Section properties.
Context `{KML : KeyMemoryLaws} (gl_seed : Z).

(** C1: inserting a pair into a well-formed table whose (possibly enlarged)
    capacity leaves room returns [NkErr_Ok] and a well-formed table for the map
    with that entry added; a key already present keeps its old value. *)
Theorem htable_insert h fuel ht p grow :
  htable_ok ht → m_elemCount ht + 1 ≤ m_maxCap (m_htProps ht) < 2 ^ 32 →
  grown_capacity ht (m_elemCount ht + 1) = Ret grow →
  m_elemCount ht < default (m_currCap ht) grow < 2 ^ 32 →
  default (m_currCap ht) grow ≤ Z.of_nat fuel →
  (∀ c, grow = Some c → is_Some (h (sizeof_ExtPair * c))) →
  ∃ ht', NkHashtableInsert gl_seed h fuel ht p = Ret (NkErr_Ok, ht') ∧ htable_ok ht' ∧
    m_currCap ht' = default (m_currCap ht) grow ∧
    ht_map ht' =
      match ht_map ht !! key_repr (slot_keyType ht) (m_keyVal p) with
      | Some _ => ht_map ht
      | None => <[key_repr (slot_keyType ht) (m_keyVal p) := mp_valuePtr p]> (ht_map ht)
      end.
Proof.
  intros. destruct (insert_spec gl_seed h fuel ht p grow) as (ht' & ? & ? & ? & _ & _ & ?); try done. exists ht'. by split_and!.
Qed.

(** C2: [NkHashtableAt] returns exactly what the map holds under the key, whatever
    word follows the key object in memory (it only influences the hash of UUID
    keys, and the probe visits every slot). *)
Theorem htable_at ht key behind :
  htable_ok ht →
  NkHashtableAt gl_seed ht key behind =
    Ret (match ht_map ht !! key_repr (slot_keyType ht) key with
         | Some v => (NkErr_Ok, v)
         | None => (NkErr_ItemNotFound, NULL)
         end).
Proof. apply at_spec. Qed.

(** C3: [NkHashtableErase] and [NkHashtableExtract] remove the key's entry and
    nothing else, keep the table well formed, and report a missing key without
    changing anything; [Extract] hands out the value it removed. *)
Theorem htable_remove ht key behind :
  htable_ok ht →
  match ht_map ht !! key_repr (slot_keyType ht) key with
  | None =>
      NkHashtableErase gl_seed ht key behind = Ret (NkErr_ItemNotFound, ht, []) ∧
      NkHashtableExtract gl_seed ht key behind = Ret (NkErr_ItemNotFound, ht, NULL, [])
  | Some v =>
      ∃ ht' e1 e2, htable_ok ht' ∧ ht_map ht' = delete (key_repr (slot_keyType ht) key) (ht_map ht) ∧
        m_elemCount ht' = m_elemCount ht - 1 ∧
        NkHashtableErase gl_seed ht key behind = Ret (NkErr_Ok, ht', e1) ∧
        NkHashtableExtract gl_seed ht key behind = Ret (NkErr_Ok, ht', v, e2)
  end.
Proof.
  intros Hok. pose proof (remove_spec gl_seed ht key behind Hok) as H. destruct (ht_map ht !! _); [|done].
  destruct H as (ht' & e1 & e2 & ? & ? & ? & _ & _ & _ & ? & ?). by exists ht', e1, e2.
Qed.


(** [NkHashtableClear] empties the table when its elements fit into the
    minimum capacity it shrinks to first.  With more elements than that, it
    never returns: reinserting them fills the new array and the probe loop has no
    counter that could stop it. *)
Theorem htable_clear h fuel ht :
  htable_ok ht → 0 < m_minCap (m_htProps ht) < 2 ^ 32 → m_minCap (m_htProps ht) ≤ Z.of_nat fuel →
  is_Some (h (sizeof_ExtPair * m_minCap (m_htProps ht))) →
  if bool_decide (m_elemCount ht ≤ m_minCap (m_htProps ht))
  then ∃ ht', NkHashtableClear gl_seed h fuel ht = Ret (ht', HashtableFreeElems ht) ∧
         htable_ok ht' ∧ ht_map ht' = ∅ ∧ m_currCap ht' = m_minCap (m_htProps ht)
  else NkHashtableClear gl_seed h fuel ht = OutOfFuel.
Proof.
  intros Hok Hmin Hf [u Hu]. pose proof Hok as [Hcap Hlen Hcnt _]. unfold NkHashtableClear.
  case_bool_decide as Hfit.
  - pose proof (adjust_capacity_spec gl_seed h fuel ht _ Hok Hmin Hfit Hf) as Hadj. rewrite Hu in Hadj.
    destruct Hadj as (ht' & -> & Hok' & _ & Hc & _ & _). step.
    eexists. split; [done|]. rewrite Hc. split_and!; [|by unfold ht_map, ht_entries; simpl; rewrite used_replicate_empty|done].
    split; unfold ht_entries; simpl; rewrite ?length_replicate, ?used_replicate_empty; [lia|lia|done|constructor].
  - unfold HashtableAdjustCapacity, sizeof_ExtPair in *.
    destruct (Z.eqb_spec (24 * m_minCap (m_htProps ht)) 0); [lia|]. cbn [mbind outcome_bind NK_ASSERT negb].
    rewrite Hu, rehash_loop_overflow; simpl; rewrite ?length_replicate, ?used_replicate_empty; try done; simpl; lia.
Qed.
End properties.

(** ** Witnesses: a table of integer keys with room for four *)
#[export] Instance no_key_memory : KeyMemory :=
  { key_cstr := λ _, []; key_sv := λ _, (0, 0); key_bytes := λ _ n, replicate (Z.to_nat n) 1; key_uuid := λ _, (0, 0) }.
#[export] Instance no_key_memory_laws : KeyMemoryLaws.
Proof. split; [done|]. intros. apply length_replicate. Defined.

Definition example_htProps : NkHashtableProperties :=
  mkHashtableProperties 24 4 1 64 NkHtKeyTy_Uint64 false.
Definition example_table : NkHashtable :=
  mkHashtable 2 4 example_htProps
    [mkExtPair (mkPair 5 50) true 0; empty_slot; mkExtPair (mkPair 6 60) true 1; empty_slot].
Lemma example_table_ok : htable_ok example_table.
Proof.
  split; [simpl; lia|reflexivity|reflexivity|].
  apply (bool_decide_unpack _). vm_compute. exact I.
Defined.

Lemma htable_insert_witness :
  ∃ ht', NkHashtableInsert 77 strict_heap 8 example_table (mkPair 7 70) = Ret (NkErr_Ok, ht') ∧ htable_ok ht' ∧
    m_currCap ht' = 8 ∧ ht_map ht' = <[[7] := 70]> (ht_map example_table).
Proof.
  apply (htable_insert 77 strict_heap 8 example_table (mkPair 7 70) (Some 8)).
  - apply example_table_ok.
  - simpl. lia.
  - vm_compute. reflexivity.
  - simpl. lia.
  - simpl. lia.
  - intros c [= <-]. by eexists.
Defined.

Lemma htable_at_witness : NkHashtableAt 77 example_table 6 0 = Ret (NkErr_Ok, 60).
Proof. apply (htable_at 77 example_table 6 0), example_table_ok. Defined.

Lemma htable_remove_witness :
  ∃ ht' e1 e2, htable_ok ht' ∧ ht_map ht' = delete [5] (ht_map example_table) ∧
    m_elemCount ht' = 1 ∧ NkHashtableErase 77 example_table 5 0 = Ret (NkErr_Ok, ht', e1) ∧
    NkHashtableExtract 77 example_table 5 0 = Ret (NkErr_Ok, ht', 50, e2).
Proof. apply (htable_remove 77 example_table 5 0), example_table_ok. Defined.

Lemma htable_clear_witness : NkHashtableClear 77 strict_heap 100 example_table = OutOfFuel.
Proof.
  apply (htable_clear 77 strict_heap 100 example_table);
    [apply example_table_ok|simpl; lia|simpl; lia|by eexists].
Defined.

(** HalfSipHash-2-4 with a 64-bit result, folded: the empty message under the key
    00 01 .. 07 hashes to 21 8d 1f 59 b9 b8 3c c8. *)
Example siphash_vector :
  siphash 0x0706050403020100 [] = Z.lxor 0x591f8d21 0xc83cb8b9.
Proof. vm_compute. reflexivity. Qed.
