(* ===== verification/Util.v ===== *)
(** * [src/Noriko/util.c]: random numbers, UUIDs, variants, raw strings

    One section per group of utilities, and the window modes and viewport alignments
    of the headers, which several components share.  The lock of the random-number context
    is taken around each call; the calls are modelled as atomic. *)
From S2P Require Import Prelude CStr.

(** ** Pseudo-random numbers (xoshiro256+) *)

(** The 32 bytes of [m_seedArr], read as four 64-bit words. *)
Record RngContext := mkRng { s0 : Z; s1 : Z; s2 : Z; s3 : Z }.

Definition PRNGXoshiro256 (c : RngContext) : Z * RngContext :=
  let '(mkRng s0 s1 s2 s3) := c in
  let dst := u64 (s0 + s3) in
  let t := u64 (Z.shiftl s1 17) in
  let s2 := Z.lxor s2 s0 in
  let s3 := Z.lxor s3 s1 in
  let s1 := Z.lxor s1 s2 in
  let s0 := Z.lxor s0 s3 in
  let s2 := Z.lxor s2 t in
  let s3 := Z.lor (u64 (Z.shiftl s3 45)) (Z.shiftr s3 (64 - 45)) in
  (dst, mkRng s0 s1 s2 s3).
Definition PRNGNextNoLock (c : RngContext) : Z * RngContext := PRNGXoshiro256 c.
Definition NkPRNGNext (c : RngContext) : NkErrorCode * Z * RngContext :=
  let '(dst, c) := PRNGNextNoLock c in (NkErr_Ok, dst, c).

(** [seed] is the result of [__NkVirt_PRNG_GenerateSeed]: its code and 32 bytes. *)
Definition PRNG_Startup (seed : NkErrorCode * list Z) : NkErrorCode * RngContext :=
  let '(ec, b) := seed in
  let word n := le_value (take 8 (drop (8 * n) b)) in
  (ec, mkRng (word 0%nat) (word 1%nat) (word 2%nat) (word 3%nat)).
Definition PRNG_Shutdown (c : RngContext) : NkErrorCode := NkErr_Ok.

(** ** UUIDs, as their 16 bytes in memory order *)
Definition NkUuid := list Z.

Definition NkUuidGenerate (c : RngContext) : NkUuid * RngContext :=
  let '(a, c) := PRNGNextNoLock c in
  let '(b, c) := PRNGNextNoLock c in
  let u := le_bytes 8 a ++ le_bytes 8 b in
  let u := <[6%nat := Z.lor (Z.shiftl 4 4) (Z.land (nth 6 u 0) 0x0F)]> u in
  let u := <[8%nat := Z.lor (Z.shiftl 2 6) (Z.land (nth 8 u 0) 0x3F)]> u in
  (u, c).

(** Comparison of the two 64-bit halves. *)
Definition NkUuidIsEqual (f s : NkUuid) : bool :=
  (le_value (take 8 f) =? le_value (take 8 s)) && (le_value (drop 8 f) =? le_value (drop 8 s)).
Definition NkUuidCopy (src : NkUuid) : NkUuid := src.

(** [gl_c_NibbleTable]: characters not listed map to 0; the index is a signed [char]. *)
Definition nibble_table (ch : Z) : Z :=
  if (48 <=? ch) && (ch <=? 57) then ch - 48
  else if (97 <=? ch) && (ch <=? 102) then ch - 87
  else if (65 <=? ch) && (ch <=? 70) then ch - 55
  else 0.
Definition nibble (ch : Z) : outcome Z :=
  if (0 <=? ch) && (ch <? 128) then Ret (nibble_table ch) else Undef.

(** The parse loop.  [str] is what is left of the C string, its NUL included; an
    empty [str] means the pointer has left the string.  [n] bytes are still to be
    filled, [i] counts the digits. *)
Fixpoint uuid_parse_loop (n : nat) (str : list Z) (i : Z) (acc : list Z) : outcome (list Z * Z) :=
  match n with
  | O => Ret (acc, i)
  | S n =>
      match str with
      | [] => Undef
      | ch :: _ =>
          if negb (Z.lxor ch 0 =? 0) then
            let str := if ch =? 45 then tail str else str in
            match str with
            | c1 :: c2 :: str =>
                hi ← nibble c1;
                lo ← nibble c2;
                uuid_parse_loop n str (i + 2) (acc ++ [u8 (Z.lor (Z.shiftl hi 4) lo)])
            | _ => Undef
            end
          else Ret (acc, i)
      end
  end.
Definition NkUuidFromString (uuidAsStr : list Z) : outcome (NkErrorCode * NkUuid) :=
  '(b, i) ← uuid_parse_loop 16 (uuidAsStr ++ [0]) 0 [];
  if negb (i =? 32) then Ret (NkErr_InParameter, replicate 16 0) else Ret (NkErr_Ok, b).

(** ["0123456789abcdef"[d]]. *)
Definition hex_digit (d : Z) : Z := if d <? 10 then 48 + d else 87 + d.
Fixpoint uuid_print_loop (i : Z) (bytes : list Z) : list Z :=
  match bytes with
  | [] => []
  | b :: bytes =>
      (if (i =? 4) || (i =? 6) || (i =? 8) || (i =? 10) then [45] else []) ++
      [hex_digit (Z.shiftr b 4); hex_digit (Z.land b 0x0F)] ++ uuid_print_loop (i + 1) bytes
  end.
Definition NkUuidToString (u : NkUuid) : list Z := uuid_print_loop 0 u.

(** ** Variants *)
Inductive NkVariantType : Set :=
  | NkVarTy_None | NkVarTy_Boolean | NkVarTy_Char | NkVarTy_Int8 | NkVarTy_Int16 | NkVarTy_Int32
  | NkVarTy_Int64 | NkVarTy_Uint8 | NkVarTy_Uint16 | NkVarTy_Uint32 | NkVarTy_Uint64 | NkVarTy_Float
  | NkVarTy_Double | NkVarTy_ErrorCode | NkVarTy_StringView | NkVarTy_BufferView | NkVarTy_Uuid
  | NkVarTy_Pointer | NkVarTy_Vector | NkVarTy_Hashtable | NkVarTy_Timer | NkVarTy_NkOMObject.
#[export] Instance NkVariantType_eq_dec : EqDecision NkVariantType.
Proof. solve_decision. Defined.

(** The type ID and the 16 bytes of the value union. *)
Record Variant := mkVariant { m_type : NkVariantType; m_val : list Z }.

Definition VariantGetTypeSize (t : NkVariantType) : nat :=
  match t with
  | NkVarTy_None => 0
  | NkVarTy_Boolean | NkVarTy_Char | NkVarTy_Int8 | NkVarTy_Uint8 => 1
  | NkVarTy_Int16 | NkVarTy_Uint16 => 2
  | NkVarTy_Int32 | NkVarTy_Uint32 | NkVarTy_Float | NkVarTy_ErrorCode => 4
  | NkVarTy_Int64 | NkVarTy_Uint64 | NkVarTy_Double | NkVarTy_Pointer | NkVarTy_Vector
  | NkVarTy_Hashtable | NkVarTy_Timer | NkVarTy_NkOMObject => 8
  | NkVarTy_StringView | NkVarTy_BufferView | NkVarTy_Uuid => 16
  end%nat.

(** What the caller passes: the value itself (a pointer, an integer, or the bits of
    the [double] that every floating argument is promoted to), or the bytes of the
    object it points to. *)
Inductive VariantArg :=
  | ArgWord (z : Z)
  | ArgMem (bytes : list Z).

(** Number of bytes [NkVariantSet] stores. *)
Definition variant_store_size (t : NkVariantType) : nat :=
  match t with
  | NkVarTy_None => 16
  | NkVarTy_Float | NkVarTy_Double => 8
  | _ => VariantGetTypeSize t
  end.
Definition variant_arg_bytes (t : NkVariantType) (a : VariantArg) : list Z :=
  match t, a with
  | NkVarTy_None, _ => replicate 16 0
  | (NkVarTy_StringView | NkVarTy_BufferView | NkVarTy_Uuid), ArgMem b => take 16 b
  | (NkVarTy_StringView | NkVarTy_BufferView | NkVarTy_Uuid), ArgWord _ => []
  | NkVarTy_Boolean, ArgWord z => [if z =? 0 then 0 else 1]
  | _, ArgWord z => le_bytes (variant_store_size t) z
  | _, ArgMem _ => []
  end.
(** An argument of the wrong kind is undefined behaviour of [va_arg]. *)
Definition NkVariantSet (v : Variant) (t : NkVariantType) (a : VariantArg) : outcome Variant :=
  let b := variant_arg_bytes t a in
  if (length b =? variant_store_size t)%nat then
    m ← buf_write (m_val v) 0 b;
    Ret (mkVariant t m)
  else Undef.
Definition NkVariantGet (v : Variant) : NkVariantType * list Z :=
  (m_type v, take (VariantGetTypeSize (m_type v)) (m_val v)).
Definition NkVariantCopy (src : option Variant) : outcome Variant :=
  match src with Some v => Ret v | None => Halt NkErr_InParameter end.
Definition NkVariantIsNull (v : Variant) : bool := bool_decide (m_type v = NkVarTy_None).

Definition NkVariantQueryTypeStr (t : NkVariantType) : string :=
  match t with
  | NkVarTy_None => "NkVarTy_None" | NkVarTy_Boolean => "NkVarTy_Boolean"
  | NkVarTy_Char => "NkVarTy_Char" | NkVarTy_Int8 => "NkVarTy_Int8"
  | NkVarTy_Int16 => "NkVarTy_Int16" | NkVarTy_Int32 => "NkVarTy_Int32"
  | NkVarTy_Int64 => "NkVarTy_Int64" | NkVarTy_Uint8 => "NkVarTy_Uint8"
  | NkVarTy_Uint16 => "NkVarTy_Uint16" | NkVarTy_Uint32 => "NkVarTy_Uint32"
  | NkVarTy_Uint64 => "NkVarTy_Uint64" | NkVarTy_Float => "NkVarTy_Float"
  | NkVarTy_Double => "NkVarTy_Double" | NkVarTy_ErrorCode => "NkVarTy_ErrorCode"
  | NkVarTy_StringView => "NkVarTy_StringView" | NkVarTy_BufferView => "NkVarTy_BufferView"
  | NkVarTy_Uuid => "NkVarTy_Uuid" | NkVarTy_Pointer => "NkVarTy_Pointer"
  | NkVarTy_Vector => "NkVarTy_Vector" | NkVarTy_Hashtable => "NkVarTy_Hashtable"
  | NkVarTy_Timer => "NkVarTy_Timer" | NkVarTy_NkOMObject => "NkVarTy_NkOMObject"
  end.

(** ** Raw strings

    A C string is its bytes without the NUL; pointers into it are offsets. *)
Definition char_at (s : list Z) (i : Z) : outcome Z := buf_get (s ++ [0]) i.
(** Offset of the first character of [s] that is in [set], if any. *)
Fixpoint strpbrk (s set : list Z) : option Z :=
  match s with
  | [] => None
  | c :: s => if bool_decide (c ∈ set) then Some 0 else (λ i, i + 1) <$> strpbrk s set
  end.
(** A view: offset of its data and size. *)
Record NkStringView := mkView { mp_dataPtr : Z; m_sizeInBytes : Z }.

Definition NkStringViewSet (s : list Z) : NkStringView := mkView 0 (Z.of_nat (length s)).
Definition NkStringViewCopy (v : NkStringView) : NkStringView := v.

(** [while (strpbrk(ptr, key) == ptr) ++ptr], from the start of [s]. *)
Fixpoint skip_leading (s key : list Z) : Z :=
  match s with
  | [] => 0
  | c :: s => if bool_decide (c ∈ key) then 1 + skip_leading s key else 0
  end.
(** The trailing loop: [endPtr] moves left while the character it points at is one
    of the key's. *)
Fixpoint trim_trailing (fuel : nat) (s key : list Z) (dataPtr endPtr : Z) : outcome Z :=
  match fuel with
  | O => OutOfFuel
  | S fuel =>
      if endPtr >=? dataPtr then
        c ← char_at s endPtr;
        if bool_decide (c ∈ key) then trim_trailing fuel s key dataPtr (endPtr - 1) else Ret endPtr
      else Ret endPtr
  end.
Definition NkRawStringTrim (s : list Z) (maxChars : Z) (key : list Z) : outcome NkStringView :=
  let dataPtr := NK_MIN (skip_leading s key) maxChars in
  let endPtr := NK_MIN (Z.of_nat (length s)) maxChars in
  endPtr ← trim_trailing (length s + 2) s key dataPtr endPtr;
  Ret (mkView dataPtr (u64 (endPtr - dataPtr))).

Definition NkRawStringSplit (s ctrlChs : list Z) : NkStringView * NkStringView :=
  let strSz := Z.of_nat (length s) in
  let endPtr := NK_CLAMP strSz 0 (0 + strSz) in
  let delimPos := default endPtr (strpbrk s ctrlChs) in
  (mkView 0 (NK_MAX delimPos 0 - 0),
   mkView (NK_MIN (delimPos + 1) endPtr) (endPtr - NK_MIN (delimPos + 1) endPtr)).

(** [NkStringViewCompare] on two views of the strings [a] and [b]. *)
Definition NkStringViewCompare (sameView sameData : bool) (a b : list Z) : Z :=
  if sameView || (length a =? length b)%nat then
    if sameData then 0 else strncmp a b
  else 1.

(** ** Arrays and viewports *)

(** Number of pointers before the first null one. *)
Fixpoint NkArrayGetDynCount (ptrArray : list Z) : outcome Z :=
  match ptrArray with
  | [] => Undef
  | p :: ptrArray => if p =? NULL then Ret 0 else n ← NkArrayGetDynCount ptrArray; Ret (n + 1)
  end.

Record NkSize2D := mkSize2D { m_width : Z; m_height : Z }.
(** [include/Noriko/window.h]: window modes, viewport alignments. *)
Definition NkWndMode_Unknown : Z := 0.
Definition NkWndMode_Minimized : Z := 1.
Definition NkWndMode_Maximized : Z := 2.
Definition NkWndMode_Fullscreen : Z := 4.
Definition NkWndMode_Normal : Z := 8.
Definition NkWndMode_Visible : Z := 16.
Definition NkWndMode_Hidden : Z := 32.
Definition NkWndMode_Default : Z := Z.lor NkWndMode_Normal NkWndMode_Visible.
Definition NkWndMode_All : Z := 63.
Definition NkWndMode_Count : Z := 64.
Definition NkVpAlign_Top : Z := 1.
Definition NkVpAlign_VCenter : Z := 2.
Definition NkVpAlign_Bottom : Z := 4.
Definition NkVpAlign_Left : Z := 8.
Definition NkVpAlign_HCenter : Z := 16.
Definition NkVpAlign_Right : Z := 32.
Definition has_flag (flags bit : Z) : bool := negb (Z.land flags bit =? 0).

(** The extents are [NkUint64]: a client area smaller than the viewport wraps. *)
Definition NkCalculateViewportOrigin (vpAlign : Z) (vpExtents tileSize clExtents : NkSize2D) : Z * Z :=
  let vpW := u64 (m_width vpExtents * m_width tileSize) in
  let vpH := u64 (m_height vpExtents * m_height tileSize) in
  (i64 (if has_flag vpAlign NkVpAlign_Left then 0
        else u64 (m_width clExtents - vpW) / (if has_flag vpAlign NkVpAlign_Right then 1 else 2)),
   i64 (if has_flag vpAlign NkVpAlign_Top then 0
        else u64 (m_height clExtents - vpH) / (if has_flag vpAlign NkVpAlign_Bottom then 1 else 2))).

(** ** Lemmas: random numbers *)
Definition rng_ok (c : RngContext) : Prop :=
  is_u 64 (s0 c) ∧ is_u 64 (s1 c) ∧ is_u 64 (s2 c) ∧ is_u 64 (s3 c).

Lemma is_u_bits w z : 0 ≤ w → is_u w z ↔ 0 ≤ z ∧ ∀ n, w ≤ n → Z.testbit z n = false.
Proof.
  intros Hw. split.
  - intros Hz. split; [apply Hz|]. intros n Hn. rewrite <-(Z.mod_small z (2 ^ w)) by apply Hz.
    apply Z.mod_pow2_bits_high. lia.
  - intros [Hz Hb]. enough (z = z mod 2 ^ w) as -> by (apply Z.mod_pos_bound; lia).
    apply Z.bits_inj'. intros n Hn. destruct (Z.lt_ge_cases n w).
    + by rewrite Z.mod_pow2_bits_low.
    + rewrite Z.mod_pow2_bits_high by lia. by apply Hb.
Qed.

Lemma is_u_lxor w a b : 0 ≤ w → is_u w a → is_u w b → is_u w (Z.lxor a b).
Proof.
  intros Hw [Ha Hab]%is_u_bits [Hb Hbb]%is_u_bits; [|done..]. apply is_u_bits; [done|].
  split; [by apply Z.lxor_nonneg|]. intros n Hn. by rewrite Z.lxor_spec, Hab, Hbb.
Qed.

(** Rotation by 45 bits. *)
Definition rotl45 (x : Z) : Z := Z.lor (u64 (Z.shiftl x 45)) (Z.shiftr x (64 - 45)).

Lemma rotl45_testbit x n :
  is_u 64 x → 0 ≤ n →
  Z.testbit (rotl45 x) n = if n <? 45 then Z.testbit x (n + 19) else if n <? 64 then Z.testbit x (n - 45) else false.
Proof.
  intros [Hx Hb]%is_u_bits Hn; [|done]. unfold rotl45, wrapN.
  rewrite Z.lor_spec, Z.shiftr_spec by done. change (64 - 45) with 19.
  destruct (Z.ltb_spec n 45).
  - rewrite Z.mod_pow2_bits_low, Z.shiftl_spec, (Z.testbit_neg_r x (n - 45)) by lia. done.
  - destruct (Z.ltb_spec n 64).
    + rewrite Z.mod_pow2_bits_low, Z.shiftl_spec, (Hb (n + 19)) by lia. by rewrite orb_false_r.
    + rewrite Z.mod_pow2_bits_high, (Hb (n + 19)) by lia. done.
Qed.

Lemma rotl45_is_u x : is_u 64 x → is_u 64 (rotl45 x).
Proof.
  intros Hx. apply is_u_bits; [done|]. split.
  - unfold rotl45. apply Z.lor_nonneg. split; [|apply Z.shiftr_nonneg, Hx].
    unfold wrapN. apply Z.mod_pos_bound. lia.
  - intros n Hn. rewrite rotl45_testbit by (done || lia).
    destruct (Z.ltb_spec n 45); [lia|]. destruct (Z.ltb_spec n 64); [lia|done].
Qed.

Lemma rotl45_inj x y : is_u 64 x → is_u 64 y → rotl45 x = rotl45 y → x = y.
Proof.
  intros Hx Hy He. pose proof Hx as [_ Hbx]%is_u_bits; [|done]. pose proof Hy as [_ Hby]%is_u_bits; [|done].
  apply Z.bits_inj'. intros n Hn. destruct (Z.lt_ge_cases n 64); [|by rewrite Hbx, Hby].
  destruct (Z.lt_ge_cases n 19).
  - pose proof (f_equal (λ z, Z.testbit z (n + 45)) He) as Hb. simpl in Hb.
    rewrite !rotl45_testbit in Hb by (done || lia).
    destruct (Z.ltb_spec (n + 45) 45); [lia|]. destruct (Z.ltb_spec (n + 45) 64); [|lia].
    by replace (n + 45 - 45) with n in Hb by lia.
  - pose proof (f_equal (λ z, Z.testbit z (n - 19)) He) as Hb. simpl in Hb.
    rewrite !rotl45_testbit in Hb by (done || lia).
    destruct (Z.ltb_spec (n - 19) 45); [|lia]. by replace (n - 19 + 19) with n in Hb by lia.
Qed.

(** [x ^ (x << 17)] on 64 bits determines [x]. *)
Lemma xorshift17_inj x y :
  is_u 64 x → is_u 64 y →
  Z.lxor x (u64 (Z.shiftl x 17)) = Z.lxor y (u64 (Z.shiftl y 17)) → x = y.
Proof.
  intros Hx Hy He. pose proof Hx as [_ Hbx]%is_u_bits; [|done]. pose proof Hy as [_ Hby]%is_u_bits; [|done].
  apply Z.bits_inj'. intros n Hn. destruct (Z.lt_ge_cases n 64); [|by rewrite Hbx, Hby].
  assert (Hstep : ∀ m, 0 ≤ m < 64 → xorb (Z.testbit x m) (Z.testbit x (m - 17)) = xorb (Z.testbit y m) (Z.testbit y (m - 17))).
  { intros m Hm. pose proof (f_equal (λ z, Z.testbit z m) He) as Hb. simpl in Hb. unfold wrapN in Hb.
    by rewrite !Z.lxor_spec, !Z.mod_pow2_bits_low, !Z.shiftl_spec in Hb by lia. }
  revert n Hn H. refine (Zlt_0_ind _ _). intros n IH Hn Hlt. specialize (Hstep n ltac:(lia)).
  destruct (Z.lt_ge_cases n 17).
  - rewrite !(Z.testbit_neg_r _ (n - 17)) in Hstep by lia. by rewrite !xorb_false_r in Hstep.
  - rewrite (IH (n - 17)) in Hstep by lia. by destruct (Z.testbit x n), (Z.testbit y n), (Z.testbit y (n - 17)).
Qed.

Lemma lxor_cancel_r x y z : Z.lxor x z = Z.lxor y z → x = y.
Proof.
  intros H. by rewrite <-(Z.lxor_0_r x), <-(Z.lxor_nilpotent z), <-Z.lxor_assoc, H, Z.lxor_assoc,
    Z.lxor_nilpotent, Z.lxor_0_r.
Qed.
Lemma lxor_swap x y t : Z.lxor (Z.lxor x y) (Z.lxor y t) = Z.lxor x t.
Proof. by rewrite Z.lxor_assoc, <-(Z.lxor_assoc y y t), Z.lxor_nilpotent, Z.lxor_0_l. Qed.

(** One step of the generator maps 64-bit states to 64-bit states, one to one:
    no two states ever merge, and only the zero state leads to the zero state. *)
Lemma xoshiro_state_injective c c' :
  rng_ok c → rng_ok c' →
  rng_ok (PRNGXoshiro256 c).2 ∧ ((PRNGXoshiro256 c).2 = (PRNGXoshiro256 c').2 → c = c').
Proof.
  destruct c as [a0 a1 a2 a3], c' as [b0 b1 b2 b3].
  intros (Ha0 & Ha1 & Ha2 & Ha3) (Hb0 & Hb1 & Hb2 & Hb3); simpl in *. split.
  - assert (is_u 64 (u64 (Z.shiftl a1 17))) by (apply wrapN_range; lia).
    split_and!; simpl; first [apply rotl45_is_u|idtac]; auto 6 using is_u_lxor with lia.
  - intros [= H0 H1 H2 H3].
    fold (rotl45 (Z.lxor a3 a1)) in H3. fold (rotl45 (Z.lxor b3 b1)) in H3.
    apply rotl45_inj in H3; [|by apply is_u_lxor..].
    rewrite H3 in H0. apply lxor_cancel_r in H0 as ->.
    assert (a1 = b1) as ->.
    { apply xorshift17_inj; [done..|].
      rewrite <-(lxor_swap a1 (Z.lxor a2 b0)), <-(lxor_swap b1 (Z.lxor b2 b0)). by rewrite H1, H2. }
    assert (a2 = b2) as ->.
    { rewrite !(Z.lxor_comm b1) in H1. by do 2 apply lxor_cancel_r in H1. }
    by apply lxor_cancel_r in H3 as ->.
Qed.

Lemma xoshiro_state_injective_witness :
  rng_ok (PRNGXoshiro256 (mkRng 1 2 3 4)).2 ∧
  ((PRNGXoshiro256 (mkRng 1 2 3 4)).2 = (PRNGXoshiro256 (mkRng 1 2 3 4)).2 → mkRng 1 2 3 4 = mkRng 1 2 3 4).
Proof. apply (xoshiro_state_injective (mkRng 1 2 3 4) (mkRng 1 2 3 4)); unfold rng_ok, is_u; simpl; lia. Defined.

(** ** Lemmas: UUIDs *)
Lemma nibble_hex_digit d : 0 ≤ d < 16 → nibble (hex_digit d) = Ret d ∧ hex_digit d ≠ 45 ∧ hex_digit d ≠ 0.
Proof.
  intros Hd. apply (zrange_all (λ d, nibble (hex_digit d) = Ret d ∧ hex_digit d ≠ 45 ∧ hex_digit d ≠ 0) 0 16);
    [|lia]. by repeat constructor.
Qed.

Lemma byte_nibbles b : is_byte b → 0 ≤ Z.shiftr b 4 < 16 ∧ 0 ≤ Z.land b 0x0F < 16 ∧
  u8 (Z.lor (Z.shiftl (Z.shiftr b 4) 4) (Z.land b 0x0F)) = b.
Proof.
  intros Hb. unfold is_byte in Hb.
  apply (zrange_all (λ b, 0 ≤ Z.shiftr b 4 < 16 ∧ 0 ≤ Z.land b 0x0F < 16 ∧
    u8 (Z.lor (Z.shiftl (Z.shiftr b 4) 4) (Z.land b 0x0F)) = b) 0 256); [|lia].
  apply (bool_decide_unpack _). vm_compute. exact I.
Qed.

(** Reading back what [uuid_print_loop] wrote, whatever bytes were read before. *)
Lemma uuid_parse_print bytes tl i pos acc :
  Forall is_byte bytes →
  uuid_parse_loop (length bytes) (uuid_print_loop pos bytes ++ tl) i acc =
    Ret (acc ++ bytes, i + 2 * Z.of_nat (length bytes)).
Proof.
  intros Hb. revert i pos acc. induction Hb as [|b bytes Hb Hbs IH]; intros i pos acc.
  { simpl. by rewrite app_nil_r, Z.add_0_r. }
  destruct (byte_nibbles b Hb) as (Hhi & Hlo & Hrec).
  destruct (nibble_hex_digit _ Hhi) as (Hnh & Hh1 & Hh2), (nibble_hex_digit _ Hlo) as (Hnl & _ & _).
  cbn [length uuid_parse_loop uuid_print_loop].
  assert (Hgo : ∀ rest, (hi ← nibble (hex_digit (Z.shiftr b 4)); lo ← nibble (hex_digit (Z.land b 0x0F));
      uuid_parse_loop (length bytes) (uuid_print_loop (pos + 1) bytes ++ rest) (i + 2)
        (acc ++ [u8 (Z.lor (Z.shiftl hi 4) lo)])) =
      Ret (acc ++ b :: bytes, i + 2 + 2 * Z.of_nat (length bytes)) ∨ rest ≠ tl).
  { intros rest. destruct (decide (rest = tl)) as [->|]; [left|by right].
    rewrite Hnh, Hnl. step. rewrite Hrec, IH, <-app_assoc. done. }
  destruct (Hgo tl) as [Hgo'|]; [|done].
  replace (i + 2 * Z.of_nat (S (length bytes))) with (i + 2 + 2 * Z.of_nat (length bytes)) by lia.
  destruct ((pos =? 4) || _ || _ || _); simpl app; cbn [tail].
  - exact Hgo'.
  - rewrite lxor_zero, (proj2 (Z.eqb_neq _ _) Hh2), (proj2 (Z.eqb_neq _ _) Hh1). exact Hgo'.
Qed.

(** ** Properties *)

(** Printing a UUID and parsing the text gives the UUID back; the text has 36
    characters. *)
Theorem uuid_roundtrip (u : NkUuid) :
  length u = 16%nat → Forall is_byte u →
  NkUuidFromString (NkUuidToString u) = Ret (NkErr_Ok, u) ∧ length (NkUuidToString u) = 36%nat.
Proof.
  intros Hlen Hb. split.
  - unfold NkUuidFromString, NkUuidToString. pose proof (uuid_parse_print u [0] 0 0 [] Hb) as Hp.
    rewrite Hlen in Hp. rewrite Hp. done.
  - do 17 (destruct u as [|? u]; [try done|]); done.
Qed.

Lemma uuid_roundtrip_witness :
  NkUuidFromString (NkUuidToString (zrange 240 16)) = Ret (NkErr_Ok, zrange 240 16) ∧
  length (NkUuidToString (zrange 240 16)) = 36%nat.
Proof.
  apply (uuid_roundtrip (zrange 240 16)); [reflexivity|].
  apply (bool_decide_unpack _). vm_compute. exact I.
Defined.

Lemma version_bits b :
  is_byte b →
  let v := Z.lor (Z.shiftl 4 4) (Z.land b 0x0F) in let w := Z.lor (Z.shiftl 2 6) (Z.land b 0x3F) in
  Z.shiftr v 4 = 4 ∧ Z.land v 0x0F = Z.land b 0x0F ∧ Z.shiftr w 6 = 2 ∧ Z.land w 0x3F = Z.land b 0x3F.
Proof.
  intros Hb. unfold is_byte in Hb. cbv zeta.
  apply (zrange_all (λ b, Z.shiftr (Z.lor (Z.shiftl 4 4) (Z.land b 0x0F)) 4 = 4 ∧
    Z.land (Z.lor (Z.shiftl 4 4) (Z.land b 0x0F)) 0x0F = Z.land b 0x0F ∧
    Z.shiftr (Z.lor (Z.shiftl 2 6) (Z.land b 0x3F)) 6 = 2 ∧
    Z.land (Z.lor (Z.shiftl 2 6) (Z.land b 0x3F)) 0x3F = Z.land b 0x3F) 0 256); [|lia].
  apply (bool_decide_unpack _). vm_compute. exact I.
Qed.

Lemma nth_insert_ne (l : list Z) i j x : i ≠ j → nth i (<[j:=x]> l) 0 = nth i l 0.
Proof. intros. by rewrite !nth_lookup, list_lookup_insert_ne. Qed.
Lemma nth_insert_eq (l : list Z) i x : (i < length l)%nat → nth i (<[i:=x]> l) 0 = x.
Proof. intros. by rewrite nth_lookup, list_lookup_insert_eq. Qed.

(** A generated UUID has 16 bytes, the version nibble 4 and the variant bits
    10, and its other bits are those of two successive random numbers. *)
Theorem uuid_generate_v4 c :
  let u := (NkUuidGenerate c).1 in
  let c1 := (PRNGNextNoLock c).2 in
  let raw := le_bytes 8 (PRNGNextNoLock c).1 ++ le_bytes 8 (PRNGNextNoLock c1).1 in
  length u = 16%nat ∧ Z.shiftr (nth 6 u 0) 4 = 4 ∧ Z.shiftr (nth 8 u 0) 6 = 2 ∧
  Z.land (nth 6 u 0) 0x0F = Z.land (nth 6 raw 0) 0x0F ∧ Z.land (nth 8 u 0) 0x3F = Z.land (nth 8 raw 0) 0x3F ∧
  (∀ i, i ≠ 6%nat → i ≠ 8%nat → nth i u 0 = nth i raw 0) ∧ (NkUuidGenerate c).2 = (PRNGNextNoLock c1).2.
Proof.
  cbv zeta. unfold NkUuidGenerate. destruct (PRNGNextNoLock c) as [a c1]. cbn [fst snd].
  destruct (PRNGNextNoLock c1) as [b c2]. cbn [fst snd].
  set (raw := le_bytes 8 a ++ le_bytes 8 b).
  assert (Hlen : length raw = 16%nat) by (unfold raw; by rewrite length_app, !length_le_bytes).
  assert (Hraw : Forall is_byte raw) by (apply Forall_app; split; apply le_bytes_is_byte).
  assert (Hbyte : ∀ i, (i < 16)%nat → is_byte (nth i raw 0)).
  { intros i Hi. rewrite nth_lookup. destruct (lookup_lt_is_Some_2 raw i) as [x Hx]; [lia|].
    rewrite Hx. by apply (Forall_lookup_1 _ _ _ _ Hraw Hx). }
  destruct (version_bits _ (Hbyte 6%nat ltac:(lia))) as (H1 & H2 & _ & _).
  destruct (version_bits _ (Hbyte 8%nat ltac:(lia))) as (_ & _ & H3 & H4).
  split_and!.
  - by rewrite !length_insert.
  - rewrite nth_insert_ne, nth_insert_eq by lia. exact H1.
  - rewrite nth_insert_eq, nth_insert_ne by (rewrite ?length_insert; lia). exact H3.
  - rewrite nth_insert_ne, nth_insert_eq by lia. exact H2.
  - rewrite nth_insert_eq, nth_insert_ne by (rewrite ?length_insert; lia). exact H4.
  - intros i H6 H8. by rewrite !nth_insert_ne.
  - done.
Qed.

Lemma variant_set_spec v t a :
  length (m_val v) = 16%nat → length (variant_arg_bytes t a) = variant_store_size t →
  ∃ v', NkVariantSet v t a = Ret v' ∧ length (m_val v') = 16%nat ∧ NkVariantIsNull v' = bool_decide (t = NkVarTy_None) ∧
    NkVariantGet v' =
      (t, if bool_decide (t = NkVarTy_Float) then take 4 (variant_arg_bytes t a)
          else take (VariantGetTypeSize t) (variant_arg_bytes t a)) ∧
    (t ≠ NkVarTy_Float → t ≠ NkVarTy_None → NkVariantGet v' = (t, variant_arg_bytes t a)).
Proof.
  intros Hv Ha. unfold NkVariantSet. rewrite Ha, Nat.eqb_refl.
  assert (Hsz : (VariantGetTypeSize t ≤ variant_store_size t ≤ 16)%nat) by (destruct t; simpl; lia).
  rewrite buf_write_in by lia. step. change (Z.to_nat 0) with 0%nat.
  eexists. split; [done|].
  assert (Hget : ∀ n, (n ≤ variant_store_size t)%nat →
    take n (take 0 (m_val v) ++ variant_arg_bytes t a ++ drop (0 + length (variant_arg_bytes t a)) (m_val v)) =
    take n (variant_arg_bytes t a)).
  { intros n Hn. simpl. by rewrite take_app_le by lia. }
  split_and!.
  - simpl. rewrite length_app, length_drop. lia.
  - done.
  - unfold NkVariantGet. cbn [m_type m_val]. rewrite Hget by lia. case_bool_decide as Hf; [by rewrite Hf|done].
  - intros Hf Hn. unfold NkVariantGet. cbn [m_type m_val]. rewrite Hget by lia.
    rewrite take_ge; [done|]. destruct t; simpl in *; lia || done.
Qed.

(** What [NkVariantGet] copies out after [NkVariantSet] is the value that was
    stored, for every type but one: for [NkVarTy_Float] the value is stored as a
    64-bit [double], and [Get] hands out its low four bytes. *)
Theorem variant_roundtrip v t a :
  length (m_val v) = 16%nat → length (variant_arg_bytes t a) = variant_store_size t →
  ∃ v', NkVariantSet v t a = Ret v' ∧ length (m_val v') = 16%nat ∧ NkVariantIsNull v' = bool_decide (t = NkVarTy_None) ∧
    NkVariantGet v' =
      (t, if bool_decide (t = NkVarTy_Float) then take 4 (variant_arg_bytes t a)
          else take (VariantGetTypeSize t) (variant_arg_bytes t a)) ∧
    (t ≠ NkVarTy_Float → t ≠ NkVarTy_None → NkVariantGet v' = (t, variant_arg_bytes t a)).
Proof. apply variant_set_spec. Qed.

(** The float 1.5 comes back as 0. *)
Lemma variant_roundtrip_witness :
  ∃ v', NkVariantSet (mkVariant NkVarTy_None (replicate 16 0)) NkVarTy_Float (ArgWord 0x3FF8000000000000) = Ret v' ∧
    length (m_val v') = 16%nat ∧ NkVariantIsNull v' = false ∧
    NkVariantGet v' = (NkVarTy_Float, [0; 0; 0; 0]) ∧
    (NkVarTy_Float ≠ NkVarTy_Float → NkVarTy_Float ≠ NkVarTy_None →
     NkVariantGet v' = (NkVarTy_Float, variant_arg_bytes NkVarTy_Float (ArgWord 0x3FF8000000000000))).
Proof.
  apply (variant_roundtrip (mkVariant NkVarTy_None (replicate 16 0)) NkVarTy_Float (ArgWord 0x3FF8000000000000));
    reflexivity.
Defined.

Lemma strpbrk_app name c value ctrl :
  Forall (λ x, x ∉ ctrl) name → c ∈ ctrl → strpbrk (name ++ c :: value) ctrl = Some (Z.of_nat (length name)).
Proof.
  intros Hn Hc. induction Hn as [|x name Hx Hn IH]; simpl.
  - by rewrite bool_decide_eq_true_2.
  - rewrite bool_decide_eq_false_2 by done. rewrite IH. simpl. f_equal. lia.
Qed.
Lemma strpbrk_none s ctrl : Forall (λ x, x ∉ ctrl) s → strpbrk s ctrl = None.
Proof. induction 1 as [|x s Hx Hs IH]; simpl; [done|]. by rewrite bool_decide_eq_false_2, IH. Qed.

Lemma raw_split_spec name ctrl :
  Forall (λ x, x ∉ ctrl) name →
  NkRawStringSplit name ctrl = (mkView 0 (Z.of_nat (length name)), mkView (Z.of_nat (length name)) 0) ∧
  ∀ c value, c ∈ ctrl →
    NkRawStringSplit (name ++ c :: value) ctrl =
      (mkView 0 (Z.of_nat (length name)), mkView (Z.of_nat (length name) + 1) (Z.of_nat (length value))).
Proof.
  intros Hn. unfold NkRawStringSplit. split.
  - rewrite strpbrk_none by done. simpl default. rewrite !NK_CLAMP_spec, !NK_MAX_spec, !NK_MIN_spec.
    repeat (f_equal; try lia).
  - intros c value Hc. rewrite strpbrk_app by done. simpl default.
    rewrite !NK_CLAMP_spec, !NK_MAX_spec, !NK_MIN_spec, length_app. simpl length. repeat (f_equal; try lia).
Qed.

(** [NkRawStringSplit] cuts a string at its first control character: the first
    view is what comes before it, the second what comes after; without a control
    character the first view is the whole string and the second is empty. *)
Theorem raw_string_split name ctrl :
  Forall (λ x, x ∉ ctrl) name →
  NkRawStringSplit name ctrl = (mkView 0 (Z.of_nat (length name)), mkView (Z.of_nat (length name)) 0) ∧
  ∀ c value, c ∈ ctrl →
    NkRawStringSplit (name ++ c :: value) ctrl =
      (mkView 0 (Z.of_nat (length name)), mkView (Z.of_nat (length name) + 1) (Z.of_nat (length value))).
Proof. apply raw_split_spec. Qed.

Lemma raw_string_split_witness :
  NkRawStringSplit [107; 101; 121] [61; 58] = (mkView 0 3, mkView 3 0) ∧
  ∀ c value, c ∈ [61; 58] →
    NkRawStringSplit ([107; 101; 121] ++ c :: value) [61; 58] = (mkView 0 3, mkView (3 + 1) (Z.of_nat (length value))).
Proof.
  apply (raw_string_split [107; 101; 121] [61; 58]). apply (bool_decide_unpack _). vm_compute. exact I.
Defined.

Lemma skip_leading_app pre body key :
  Forall (λ x, x ∈ key) pre → (∀ x, head body = Some x → x ∉ key) →
  skip_leading (pre ++ body) key = Z.of_nat (length pre).
Proof.
  intros Hp Hb. induction Hp as [|x pre Hx Hp IH].
  - destruct body as [|x body]; simpl; [done|]. rewrite bool_decide_eq_false_2; [done|]. by apply Hb.
  - cbn [app skip_leading]. rewrite bool_decide_eq_true_2, IH by done. simpl length. lia.
Qed.

(** The general case: the view ends at [maxChars], before the character that follows. *)
Lemma raw_trim_spec pre body rest key :
  Forall (λ x, x ∈ key) pre → (∀ x, head (body ++ rest) = Some x → x ∉ key) →
  default 0 (head rest) ∉ key → Z.of_nat (length (pre ++ body)) < 2 ^ 63 →
  NkRawStringTrim (pre ++ body ++ rest) (Z.of_nat (length (pre ++ body))) key =
    Ret (mkView (Z.of_nat (length pre)) (Z.of_nat (length body))).
Proof.
  intros Hp Hb H0 Hlen. unfold NkRawStringTrim. rewrite skip_leading_app by done.
  rewrite !length_app in *. rewrite !NK_MIN_spec, (Z.min_l (Z.of_nat (length pre))), Z.min_r by lia.
  rewrite Nat.add_succ_r. cbn [trim_trailing].
  destruct (Z.geb_spec (Z.of_nat (length pre + length body)) (Z.of_nat (length pre))); [|lia].
  unfold char_at. rewrite (buf_get_lookup _ _ (default 0 (head rest))).
  - step. rewrite bool_decide_eq_false_2 by done. step.
    f_equal. f_equal. rewrite wrapN_small by (unfold is_u; lia). lia.
  - lia.
  - rewrite Nat2Z.id, (assoc_L (++)), <-(assoc_L (++)). rewrite <-length_app.
    destruct rest as [|x rest]; simpl; by apply list_lookup_middle.
Qed.

(** [NkRawStringTrim] over a whole string removes the leading key characters
    and nothing else: the search for trailing ones starts at the terminating NUL,
    which is never a key character, and stops there. *)
Theorem raw_string_trim pre body key maxChars :
  Forall (λ x, x ∈ key) pre → (∀ x, head body = Some x → x ∉ key) → 0 ∉ key →
  Z.of_nat (length (pre ++ body)) ≤ maxChars → Z.of_nat (length (pre ++ body)) < 2 ^ 63 →
  NkRawStringTrim (pre ++ body) maxChars key =
    Ret (mkView (Z.of_nat (length pre)) (Z.of_nat (length body))).
Proof.
  intros Hp Hb H0 Hmax Hlen. pose proof (raw_trim_spec pre body [] key) as H. rewrite app_nil_r in H.
  rewrite <-H by done. unfold NkRawStringTrim. rewrite !NK_MIN_spec, skip_leading_app by done.
  rewrite length_app in *. by rewrite !Z.min_l by lia.
Qed.

(** ["  a "] becomes ["a "]. *)
Lemma raw_string_trim_witness : NkRawStringTrim [32; 32; 97; 32] 4 [32] = Ret (mkView 2 2).
Proof.
  apply (raw_string_trim [32; 32] [97; 32] [32] 4); [| |set_solver|simpl; lia..].
  - repeat constructor; set_solver.
  - intros x [= <-]. set_solver.
Defined.

(** A client area one tile smaller than the viewport: the difference wraps before it
    is halved, and the origin is far off the screen. *)
Example viewport_origin_wraps :
  NkCalculateViewportOrigin (NkVpAlign_HCenter + NkVpAlign_Top) (mkSize2D 16 16) (mkSize2D 32 32) (mkSize2D 480 512)
  = (2 ^ 63 - 16, 0).
Proof. vm_compute. reflexivity. Qed.
