(* ===== verification/Alloc.v ===== *)
(** * [src/Noriko/alloc.c]: the pool allocator

    A pool is one block of host memory: an array of 8-byte block headers,
    padding, then the blocks.  The model keeps the headers as a list and the
    addresses as integers; touching a header behind the last one, which in
    memory would hit the user's blocks, is undefined.  The lock is taken and
    released by every operation, so operations are atomic; the two queries report
    when they return without releasing it. *)
From S2P Require Import Prelude Util.
From Stdlib Require Import Znumtheory Zpow_facts.

(** ** Data *)
Definition NkIntAllocTy_Single : Z := 1.
Definition NkIntAllocTy_StartOfMulti : Z := 2.
Definition NkIntAllocTy_PartOfMulti : Z := 4.

Record BlockHead := mkHead { m_blockFlags : Z; m_nMultiBlock : Z }.
Record MemoryPool := mkPool {
  m_blockSize : Z;
  m_blockCount : Z;
  m_nAllocBlocks : Z;
  m_fFreeInd : Z;
  mp_blockPtr : Z;
  heads : list BlockHead
}.
Definition free_head : BlockHead := mkHead 0 0.
Definition empty_pool : MemoryPool := mkPool 0 0 0 0 NULL [].

Record PoolAllocContext := mkCxt {
  m_nAllocPools : Z;
  m_firstFreePool : Z;
  m_memPools : list MemoryPool
}.
Definition gl_MaxPools : Z := 8192.
Definition gl_BlockAlign : Z := 16.
Definition gl_DefBlockCount : Z := 128.
Definition gl_PageSize : Z := 4096.
Definition sizeof_BlockHead : Z := 8.
(** The zero-initialised global. *)
Definition gl_PoolAllocCxt : PoolAllocContext :=
  mkCxt 0 0 (replicate (Z.to_nat gl_MaxPools) empty_pool).

(** ** General-purpose allocation

    [galloc n] is the address [malloc]/[calloc] return for [n] bytes, or [None]. *)
Definition NkGPAlloc (galloc : Z → option Z) (sizeInBytes alignInBytes : Z) : outcome (NkErrorCode * Z) :=
  NK_ASSERT (negb (sizeInBytes =? 0)) NkErr_InParameter;;
  NK_ASSERT (alignInBytes =? 0) NkErr_NotImplemented;;
  Ret (match galloc sizeInBytes with Some p => (NkErr_Ok, p) | None => (NkErr_MemoryAllocation, NULL) end).

Definition NkGPRealloc (grealloc : Z → Z → option Z) (newSizeInBytes memPtr : Z) : outcome (NkErrorCode * Z) :=
  NK_ASSERT (negb (memPtr =? NULL)) NkErr_InptrParameter;;
  NK_ASSERT (negb (newSizeInBytes =? 0)) NkErr_InParameter;;
  Ret (match grealloc memPtr newSizeInBytes with
       | Some p => (NkErr_Ok, p) | None => (NkErr_MemoryReallocation, memPtr) end).

Lemma gp_alloc_some galloc n a :
  n ≠ 0 → galloc n = Some a → NkGPAlloc galloc n 0 = Ret (NkErr_Ok, a).
Proof. intros Hn Ha. unfold NkGPAlloc. rewrite (proj2 (Z.eqb_neq n 0)) by done. by rewrite Ha. Qed.

Lemma gp_alloc_none galloc n :
  n ≠ 0 → galloc n = None → NkGPAlloc galloc n 0 = Ret (NkErr_MemoryAllocation, NULL).
Proof. intros Hn Ha. unfold NkGPAlloc. rewrite (proj2 (Z.eqb_neq n 0)) by done. by rewrite Ha. Qed.

(** ** Pool geometry *)
Definition CalcPoolHeadSize (blockCount blAlign : Z) : Z :=
  let poolHeadSize := u32 (blockCount * sizeof_BlockHead) in
  u32 (poolHeadSize + poolHeadSize mod blAlign).

Definition CalcPoolSize (blockCount blockSize blAlign : Z) : outcome Z :=
  NK_ASSERT (negb (blAlign =? 0) && NK_ISBITFLAG blAlign) NkErr_MemoryAlignment;;
  let poolSize := CalcPoolHeadSize blockCount blAlign in
  Ret (u32 (poolSize + u32 (blockSize * blockCount))).

(** The adjusted block count and pool size. *)
Definition AdjustPoolMetrics (blockSize poolSize : Z) : Z * Z :=
  let poolSize :=
    u32 (poolSize + (if negb (poolSize mod gl_PageSize =? 0) then gl_PageSize - poolSize mod gl_PageSize else 0)) in
  (u32 (poolSize / (blockSize + sizeof_BlockHead)), poolSize).

(** ** The pool table *)

(** Index of the first unused pool record from [i] on. *)
Fixpoint free_pool_from (pools : list MemoryPool) (i : Z) : option Z :=
  match pools with
  | [] => None
  | p :: pools => if m_blockSize p =? 0 then Some i else free_pool_from pools (i + 1)
  end.
Definition put_pool (cxt : PoolAllocContext) (i : Z) (p : MemoryPool) : outcome PoolAllocContext :=
  pools ← buf_set (m_memPools cxt) i p;
  Ret (mkCxt (m_nAllocPools cxt) (m_firstFreePool cxt) pools).

(** The result carries the index of the new pool. *)
Definition RequestNewPool (galloc : Z → option Z) (cxt : PoolAllocContext) (blockCount blockSize : Z)
    : outcome (NkErrorCode * PoolAllocContext * Z) :=
  if m_firstFreePool cxt =? UINT32_MAX then Ret (NkErr_MemoryAllocation, cxt, 0)
  else
    defPoolSize ← CalcPoolSize blockCount blockSize gl_BlockAlign;
    let '(blockCount, defPoolSize) := AdjustPoolMetrics blockSize defPoolSize in
    '(errorCode, blockPtr) ← NkGPAlloc galloc defPoolSize 0;
    if negb (isOk errorCode) then Ret (NkErr_MemoryAllocation, cxt, 0)
    else
      let ind := m_firstFreePool cxt in
      cxt ← put_pool cxt ind
              (mkPool blockSize blockCount 0 0 blockPtr (replicate (Z.to_nat blockCount) free_head));
      let nAlloc := u32 (m_nAllocPools cxt + 1) in
      let firstFree :=
        if nAlloc =? gl_MaxPools then UINT32_MAX
        else default (m_firstFreePool cxt)
               (free_pool_from (drop (Z.to_nat (m_firstFreePool cxt)) (m_memPools cxt)) (m_firstFreePool cxt)) in
      Ret (NkErr_Ok, mkCxt nAlloc firstFree (m_memPools cxt), ind).

Definition IsInsidePool (memPtr : Z) (p : MemoryPool) : outcome bool :=
  poolSz ← CalcPoolSize (m_blockCount p) (m_blockSize p) gl_BlockAlign;
  Ret ((memPtr >=? mp_blockPtr p) && (u64 (memPtr - mp_blockPtr p) <? poolSz)).

(** [pools] is the part of the table from index [i] on; [j] pools were seen. *)
Fixpoint locate_block_loop (pools : list MemoryPool) (i j nAllocPools memPtr : Z) : outcome Z :=
  match pools with
  | [] => Ret UINT32_MAX
  | p :: pools =>
      if j <? nAllocPools then
        if m_blockSize p =? 0 then locate_block_loop pools (i + 1) j nAllocPools memPtr
        else
          inside ← IsInsidePool memPtr p;
          if inside : bool then Ret i else locate_block_loop pools (i + 1) (j + 1) nAllocPools memPtr
      else Ret UINT32_MAX
  end.
Definition LocateBlock (cxt : PoolAllocContext) (memPtr : Z) : outcome Z :=
  locate_block_loop (m_memPools cxt) 0 0 (m_nAllocPools cxt) memPtr.

(** Back to the start of a multi-block allocation. *)
Fixpoint start_of_multi (k : nat) (hs : list BlockHead) : outcome Z :=
  h ← buf_get hs (Z.of_nat k);
  match k with
  | O => Ret 0
  | S k' =>
      if has_flag (m_blockFlags h) NkIntAllocTy_PartOfMulti then
        if has_flag (m_blockFlags h) NkIntAllocTy_StartOfMulti then Ret (Z.of_nat k)
        else start_of_multi k' hs
      else Ret (Z.of_nat k)
  end.

(** The pool index and the header index of the allocation [memPtr] belongs to. *)
Definition GetHeaderForBlock (cxt : PoolAllocContext) (memPtr : Z) : outcome (option (Z * Z)) :=
  poolInd ← LocateBlock cxt memPtr;
  if poolInd =? UINT32_MAX then Ret None
  else
    p ← buf_get (m_memPools cxt) poolInd;
    let headSize := CalcPoolHeadSize (m_blockCount p) gl_BlockAlign in
    let blStart := mp_blockPtr p + headSize in
    let blIndex := Z.quot (memPtr - blStart) (m_blockSize p) in
    if in_buf (heads p) blIndex then
      k ← start_of_multi (Z.to_nat blIndex) (heads p);
      h ← buf_get (heads p) k;
      NK_ASSERT (has_flag (m_blockFlags h) NkIntAllocTy_StartOfMulti || (k >=? 0)) NkErr_ComponentState;;
      Ret (Some (poolInd, k))
    else Undef.

(** The scan of [blockCount] headers from [k]: the first used one, if any. *)
Fixpoint scan_range (n : nat) (hs : list BlockHead) (k : Z) : outcome (option Z) :=
  match n with
  | O => Ret None
  | S n =>
      h ← buf_get hs k;
      if negb (m_blockFlags h =? 0) then Ret (Some k) else scan_range n hs (k + 1)
  end.
(** [lbl_FINDNEXT] tests the same header over and over: [startIndex] runs to the end
    of the pool. *)
Fixpoint find_range (fuel : nat) (p : MemoryPool) (startIndex blockCount : Z) : outcome Z :=
  match fuel with
  | O => OutOfFuel
  | S fuel =>
      if u32 (m_blockCount p - startIndex) <? blockCount then Ret UINT32_MAX
      else
        r ← scan_range (Z.to_nat blockCount) (heads p) startIndex;
        match r with
        | None => Ret startIndex
        | Some k => find_range fuel p (Z.max k (m_blockCount p)) blockCount
        end
  end.
Definition FindRangeInPool (p : MemoryPool) (blockCount : Z) : outcome Z :=
  if m_fFreeInd p =? UINT32_MAX then Ret UINT32_MAX else find_range 2 p (m_fFreeInd p) blockCount.

(** ** Allocation *)

(** The search over the pools; the result is a pool index and a block index. *)
Fixpoint find_pool_loop (pools : list MemoryPool) (i j nAllocPools blockSize blockCount : Z)
    : outcome (option (Z * Z)) :=
  match pools with
  | [] => Ret None
  | p :: pools =>
      if j <? nAllocPools then
        if m_blockSize p =? 0 then find_pool_loop pools (i + 1) j nAllocPools blockSize blockCount
        else if m_blockSize p =? blockSize then
          blockIndex ← FindRangeInPool p blockCount;
          if negb (blockIndex =? UINT32_MAX) then Ret (Some (i, blockIndex))
          else find_pool_loop pools (i + 1) (j + 1) nAllocPools blockSize blockCount
        else find_pool_loop pools (i + 1) (j + 1) nAllocPools blockSize blockCount
      else Ret None
  end.

Definition or_flag (h : BlockHead) (f : Z) : BlockHead := mkHead (Z.lor (m_blockFlags h) f) (m_nMultiBlock h).
(** Setting the 'part of' flag on [n] headers from [i]. *)
Fixpoint mark_part (n : nat) (hs : list BlockHead) (i : Z) : outcome (list BlockHead) :=
  match n with
  | O => Ret hs
  | S n =>
      h ← buf_get hs i;
      hs ← buf_set hs i (or_flag h NkIntAllocTy_PartOfMulti);
      mark_part n hs (i + 1)
  end.
Definition mark_allocated (hs : list BlockHead) (blockIndex blockCount : Z) : outcome (list BlockHead) :=
  h ← buf_get hs blockIndex;
  let h := or_flag h (if negb (Z.lxor blockCount 1 =? 0) then NkIntAllocTy_StartOfMulti else NkIntAllocTy_Single) in
  if blockCount >? 1 then
    hs ← buf_set hs blockIndex (mkHead (m_blockFlags h) blockCount);
    mark_part (Z.to_nat blockCount) hs blockIndex
  else buf_set hs blockIndex h.

(** The next free header from [i] on. *)
Fixpoint next_free (hs : list BlockHead) (i : Z) : option Z :=
  match hs with
  | [] => None
  | h :: hs => if m_blockFlags h =? 0 then Some i else next_free hs (i + 1)
  end.

(** Address of block [i] of a pool. *)
Definition block_address (p : MemoryPool) (i : Z) : Z :=
  mp_blockPtr p + sizeof_BlockHead * m_blockCount p +
  (m_blockCount p * sizeof_BlockHead) mod gl_BlockAlign + m_blockSize p * i.

(** The part of [NkPoolAlloc] behind [lbl_ALLOCBLOCK]. *)
Definition alloc_block (p : MemoryPool) (blockIndex blockCount : Z) : outcome (MemoryPool * Z) :=
  hs ← mark_allocated (heads p) blockIndex blockCount;
  let fFreeInd :=
    if blockIndex =? m_fFreeInd p
    then default UINT32_MAX (next_free (drop (Z.to_nat (m_fFreeInd p)) hs) (m_fFreeInd p))
    else m_fFreeInd p in
  let p := mkPool (m_blockSize p) (m_blockCount p) (u32 (m_nAllocBlocks p + blockCount)) fFreeInd (mp_blockPtr p) hs in
  Ret (p, block_address p blockIndex).

Definition NkPoolAlloc (galloc : Z → option Z) (cxt : PoolAllocContext) (blockSize blockCount : Z)
    : outcome (NkErrorCode * PoolAllocContext * Z) :=
  NK_ASSERT (negb (blockSize =? 0) && (blockSize mod 8 =? 0)) NkErr_InParameter;;
  NK_ASSERT (negb (blockCount =? 0)) NkErr_InParameter;;
  found ← find_pool_loop (m_memPools cxt) 0 0 (m_nAllocPools cxt) blockSize blockCount;
  '(errorCode, cxt, poolInd, blockIndex) ←
    match found with
    | Some (poolInd, blockIndex) => Ret (NkErr_Ok, cxt, poolInd, blockIndex)
    | None =>
        '(errorCode, cxt, poolInd) ← RequestNewPool galloc cxt gl_DefBlockCount blockSize;
        Ret (errorCode, cxt, poolInd, 0)
    end;
  if negb (isOk errorCode) then Ret (errorCode, cxt, NULL)
  else
    p ← buf_get (m_memPools cxt) poolInd;
    '(p, memPtr) ← alloc_block p blockIndex blockCount;
    cxt ← put_pool cxt poolInd p;
    Ret (NkErr_Ok, cxt, memPtr).

Definition NkPoolReserve (galloc : Z → option Z) (cxt : PoolAllocContext) (blockSize blockCount : Z)
    : outcome (NkErrorCode * PoolAllocContext) :=
  NK_ASSERT (negb (blockSize =? 0)) NkErr_InParameter;;
  NK_ASSERT (negb (blockCount =? 0)) NkErr_InParameter;;
  '(errorCode, cxt, _) ← RequestNewPool galloc cxt blockCount blockSize;
  Ret (errorCode, cxt).

(** ** Release *)
Fixpoint clear_heads (n : nat) (hs : list BlockHead) (i : Z) : outcome (list BlockHead) :=
  match n with
  | O => Ret hs
  | S n =>
      hs ← buf_set hs i free_head;
      clear_heads n hs (i + 1)
  end.
(** The loop over the pool records that has no [break]: the last unused index. *)
Fixpoint last_free_pool (pools : list MemoryPool) (i acc : Z) : Z :=
  match pools with
  | [] => acc
  | p :: pools => last_free_pool pools (i + 1) (if m_blockSize p =? 0 then i else acc)
  end.

Definition NkPoolFree (cxt : PoolAllocContext) (memPtr : Z) : outcome PoolAllocContext :=
  if memPtr =? NULL then Ret cxt
  else
    found ← GetHeaderForBlock cxt memPtr;
    match found with
    | None => Ret cxt
    | Some (poolIndex, blockIndex) =>
        p ← buf_get (m_memPools cxt) poolIndex;
        h ← buf_get (heads p) blockIndex;
        let blockCount := if has_flag (m_blockFlags h) NkIntAllocTy_Single then 1 else m_nMultiBlock h in
        hs ← clear_heads (Z.to_nat blockCount) (heads p) blockIndex;
        let nAlloc := u32 (m_nAllocBlocks p - blockCount) in
        if nAlloc >? 0 then
          let fFree := if m_fFreeInd p >? blockIndex then blockIndex else m_fFreeInd p in
          put_pool cxt poolIndex (mkPool (m_blockSize p) (m_blockCount p) nAlloc fFree (mp_blockPtr p) hs)
        else
          let firstFree :=
            last_free_pool (drop (Z.to_nat poolIndex) (m_memPools cxt)) poolIndex (m_firstFreePool cxt) in
          cxt ← put_pool cxt poolIndex empty_pool;
          Ret (mkCxt (u32 (m_nAllocPools cxt - 1)) firstFree (m_memPools cxt))
    end.

(** ** Queries; the second component says whether the lock is still held on return *)
Definition NkPoolGetBlockSize (cxt : PoolAllocContext) (memPtr : Z) : outcome (Z * bool) :=
  NK_ASSERT (negb (memPtr =? NULL)) NkErr_InParameter;;
  poolInd ← LocateBlock cxt memPtr;
  if poolInd =? UINT32_MAX then Ret (0, true)
  else p ← buf_get (m_memPools cxt) poolInd; Ret (m_blockSize p, false).

Definition NkPoolGetAllocSize (cxt : PoolAllocContext) (memPtr : Z) : outcome (Z * bool) :=
  NK_ASSERT (negb (memPtr =? NULL)) NkErr_InParameter;;
  found ← GetHeaderForBlock cxt memPtr;
  match found with
  | None => Ret (0, true)
  | Some (poolInd, k) =>
      p ← buf_get (m_memPools cxt) poolInd;
      h ← buf_get (heads p) k;
      Ret (u32 (m_blockSize p * (if has_flag (m_blockFlags h) NkIntAllocTy_Single then 1 else m_nMultiBlock h)), false)
  end.

(** Startup leaves the zeroed context; shutdown frees the memory of every pool in use. *)
Definition Allocators_Startup (cxt : PoolAllocContext) : NkErrorCode * PoolAllocContext := (NkErr_Ok, cxt).
Fixpoint shutdown_loop (pools : list MemoryPool) (j nAllocPools : Z) : list Z :=
  match pools with
  | [] => []
  | p :: pools =>
      if j <? nAllocPools then
        if m_blockSize p =? 0 then shutdown_loop pools j nAllocPools
        else mp_blockPtr p :: shutdown_loop pools (j + 1) nAllocPools
      else []
  end.
Definition Allocators_Shutdown (cxt : PoolAllocContext) : list Z :=
  shutdown_loop (m_memPools cxt) 0 (m_nAllocPools cxt).

(** ** Geometry *)

Lemma head_size_spec n : 0 ≤ n → 8 * n + 8 < 2 ^ 32 →
  CalcPoolHeadSize n gl_BlockAlign = 8 * n + 8 * (n mod 2).
Proof.
  intros Hn Hlt. unfold CalcPoolHeadSize, sizeof_BlockHead, gl_BlockAlign.
  rewrite (wrapN_small 32 (n * 8)) by (unfold is_u; lia).
  replace ((n * 8) mod 16) with (8 * (n mod 2)).
  - pose proof (Z.mod_pos_bound n 2). rewrite wrapN_small by (unfold is_u; lia). lia.
  - rewrite (Z.mul_comm n 8). change 16 with (8 * 2). by rewrite Z.mul_mod_distr_l.
Qed.

Lemma calc_pool_size_spec n bs : 0 ≤ n → 0 ≤ bs → 8 * n + 8 + bs * n < 2 ^ 32 →
  CalcPoolSize n bs gl_BlockAlign = Ret (8 * n + 8 * (n mod 2) + bs * n).
Proof.
  intros Hn Hb Hlt. unfold CalcPoolSize. simpl negb. cbn [mbind outcome_bind NK_ASSERT andb].
  change (NK_ISBITFLAG gl_BlockAlign) with true. cbn [mbind outcome_bind NK_ASSERT].
  assert (0 ≤ bs * n) by nia. pose proof (Z.mod_pos_bound n 2).
  rewrite head_size_spec by lia. rewrite (wrapN_small 32 (bs * n)) by (unfold is_u; lia).
  rewrite wrapN_small by (unfold is_u; lia). done.
Qed.

(** An odd number of blocks never fills the rounded-up pool exactly. *)
Lemma odd_count_not_exact n0 n bs sz :
  0 < n0 → 0 < bs →
  sz = (let s := 8 * n0 + 8 * (n0 mod 2) + bs * n0 in s + (if negb (s mod 4096 =? 0) then 4096 - s mod 4096 else 0)) →
  n mod 2 = 1 → sz = n * (bs + 8) → False.
Proof.
  intros Hn0 Hbs Hsz Hodd Hex. cbv zeta in Hsz. set (s := 8 * n0 + 8 * (n0 mod 2) + bs * n0) in *.
  assert (Hmul : (4096 | sz)).
  { apply Z.mod_divide; [lia|]. rewrite Hsz. destruct (Z.eqb_spec (s mod 4096) 0) as [E|E]; cbn [negb].
    - by rewrite Z.add_0_r.
    - replace (s + (4096 - s mod 4096)) with ((s / 4096 + 1) * 4096) by (pose proof (Z.div_mod s 4096); lia).
      by rewrite Z.mod_mul. }
  assert (Hb : (4096 | bs + 8)).
  { apply (Z.gauss _ n); [by rewrite <-Hex|]. change 4096 with (2 ^ 12).
    assert (Hg : Z.gcd 2 n = 1).
    { rewrite <-Z.gcd_mod, Hodd by lia. done. }
    by apply Z.coprime_pow_l. }
  destruct Hb as [m Hm].
  assert (Hcase : n0 mod 2 = 0 ∨ n0 mod 2 = 1) by (pose proof (Z.mod_pos_bound n0 2); lia).
  destruct Hcase as [E|E].
  - assert (s mod 4096 = 0) as E0.
    { unfold s. rewrite E. replace (8 * n0 + 8 * 0 + bs * n0) with ((n0 * m) * 4096) by nia. by rewrite Z.mod_mul. }
    rewrite E0 in Hsz. simpl in Hsz. assert (n0 * (bs + 8) = n * (bs + 8)) by (unfold s in Hsz; nia).
    assert (n0 = n) by nia. congruence.
  - assert (s mod 4096 = 8) as E8.
    { unfold s. rewrite E. replace (8 * n0 + 8 * 1 + bs * n0) with (8 + (n0 * m) * 4096) by nia. by rewrite Z.mod_add. }
    rewrite E8 in Hsz. simpl in Hsz.
    assert (Hd : (n - n0) * m = 1) by (unfold s in Hsz; nia).
    assert (n - n0 = 1) by nia. assert (n = n0 + 1) as -> by lia.
    rewrite Z.add_mod, E in Hodd by lia. done.
Qed.

(** Rounding a new pool up to whole pages never takes blocks away, and the
    blocks, their headers and the alignment padding of the enlarged pool still
    fit into its memory. *)
Theorem pool_metrics n0 bs n sz :
  0 < n0 → 0 < bs → bs mod 8 = 0 → 8 * n0 + 8 + bs * n0 + 2 * gl_PageSize < 2 ^ 32 →
  (s ← CalcPoolSize n0 bs gl_BlockAlign; Ret (AdjustPoolMetrics bs s)) = Ret (n, sz) →
  n0 ≤ n ∧ sz mod gl_PageSize = 0 ∧ CalcPoolHeadSize n gl_BlockAlign + n * bs ≤ sz ∧
  CalcPoolSize n bs gl_BlockAlign = Ret (CalcPoolHeadSize n gl_BlockAlign + n * bs).
Proof.
  intros Hn0 Hbs Hb8 Hlim. unfold gl_PageSize in *. rewrite calc_pool_size_spec by lia. step.
  unfold AdjustPoolMetrics, gl_PageSize, sizeof_BlockHead.
  set (s := 8 * n0 + 8 * (n0 mod 2) + bs * n0). set (r := s + (if negb (s mod 4096 =? 0) then 4096 - s mod 4096 else 0)).
  pose proof (Z.mod_pos_bound n0 2) as Hp2. pose proof (Z.mod_pos_bound s 4096) as Hs4.
  assert (Hr : s ≤ r < s + 4096 ∧ r mod 4096 = 0).
  { unfold r. destruct (Z.eqb_spec (s mod 4096) 0) as [E|E]; cbn [negb]; [rewrite Z.add_0_r; lia|].
    split; [lia|]. replace (s + (4096 - s mod 4096)) with ((s / 4096 + 1) * 4096) by (pose proof (Z.div_mod s 4096); lia).
    by rewrite Z.mod_mul. }
  assert (0 ≤ bs * n0) by nia. assert (0 < s < 2 ^ 32 - 4096) by (unfold s; lia).
  rewrite (wrapN_small 32 r) by (unfold is_u; lia). intros [= <- <-].
  pose proof (Z.div_mod r (bs + 8) ltac:(lia)) as Hdm. pose proof (Z.mod_pos_bound r (bs + 8) ltac:(lia)) as Hmb.
  set (q := r / (bs + 8)) in *.
  assert (Hq : n0 ≤ q) by (apply Z.div_le_lower_bound; unfold s in *; nia).
  assert (q * 8 ≤ r) by nia. rewrite wrapN_small by (unfold is_u; lia).
  assert (Hfit : 8 * q + 8 * (q mod 2) + bs * q ≤ r).
  { pose proof (Z.mod_pos_bound q 2). destruct (decide (q mod 2 = 1)) as [E|]; [|nia].
    rewrite E. destruct (decide (r = q * (bs + 8))) as [Hex|Hne].
    - exfalso. by apply (odd_count_not_exact n0 q bs r).
    - assert (Hd8 : (r - q * (bs + 8)) mod 8 = 0).
      { apply Z.mod_divide; [lia|]. apply Z.divide_sub_r.
        - apply (Z.divide_trans _ 4096); [by exists 512|]. apply Z.mod_divide; [lia|apply Hr].
        - apply Z.divide_mul_r, Z.divide_add_r; [apply Z.mod_divide; [lia|done]|by exists 1]. }
      pose proof (Z.div_mod (r - q * (bs + 8)) 8). nia. }
  assert (8 * q + 8 + bs * q < 2 ^ 32) by (pose proof (Z.mod_pos_bound q 2); lia).
  rewrite head_size_spec by (pose proof (Z.mod_pos_bound q 2); nia).
  split_and!; [done|apply Hr|lia|]. rewrite calc_pool_size_spec by lia. f_equal. lia.
Qed.

(** ** Block headers *)
Definition is_used (h : BlockHead) : bool := negb (m_blockFlags h =? 0).
Definition count_used (hs : list BlockHead) : nat := length (List.filter is_used hs).
(** The headers of an allocation of [n] blocks. *)
Definition alloc_run (n : nat) : list BlockHead :=
  if (n =? 1)%nat then [mkHead NkIntAllocTy_Single 0]
  else mkHead (Z.lor NkIntAllocTy_StartOfMulti NkIntAllocTy_PartOfMulti) (Z.of_nat n)
       :: replicate (n - 1) (mkHead NkIntAllocTy_PartOfMulti 0).

Lemma buf_get_middle {A} (pre post : list A) x : buf_get (pre ++ x :: post) (Z.of_nat (length pre)) = Ret x.
Proof. apply buf_get_lookup; [lia|]. rewrite Nat2Z.id. by apply list_lookup_middle. Qed.
Lemma buf_set_middle {A} (pre post : list A) x y :
  buf_set (pre ++ x :: post) (Z.of_nat (length pre)) y = Ret (pre ++ y :: post).
Proof. rewrite buf_set_in by (rewrite length_app; simpl; lia). by rewrite Nat2Z.id, insert_middle. Qed.

Lemma clear_heads_spec (pre mid post : list BlockHead) :
  clear_heads (length mid) (pre ++ mid ++ post) (Z.of_nat (length pre)) =
    Ret (pre ++ replicate (length mid) free_head ++ post).
Proof.
  revert pre. induction mid as [|x mid IH]; intros pre; [done|]. cbn [length clear_heads app replicate].
  rewrite buf_set_middle. step.
  replace (Z.of_nat (length pre) + 1) with (Z.of_nat (length (pre ++ [free_head]))) by (rewrite length_app; simpl; lia).
  replace (pre ++ free_head :: mid ++ post) with ((pre ++ [free_head]) ++ mid ++ post) by (by rewrite <-app_assoc).
  rewrite IH. by rewrite <-app_assoc.
Qed.

Lemma mark_part_spec (pre mid post : list BlockHead) :
  mark_part (length mid) (pre ++ mid ++ post) (Z.of_nat (length pre)) =
    Ret (pre ++ ((λ h, or_flag h NkIntAllocTy_PartOfMulti) <$> mid) ++ post).
Proof.
  revert pre. induction mid as [|x mid IH]; intros pre; [done|]. cbn [length mark_part app fmap list_fmap].
  rewrite buf_get_middle. step. rewrite buf_set_middle. step.
  set (y := or_flag x NkIntAllocTy_PartOfMulti).
  replace (Z.of_nat (length pre) + 1) with (Z.of_nat (length (pre ++ [y]))) by (rewrite length_app; simpl; lia).
  replace (pre ++ y :: mid ++ post) with ((pre ++ [y]) ++ mid ++ post) by (by rewrite <-app_assoc).
  rewrite IH. by rewrite <-app_assoc.
Qed.

Lemma mark_allocated_spec (pre post : list BlockHead) (n : nat) :
  (0 < n)%nat →
  mark_allocated (pre ++ replicate n free_head ++ post) (Z.of_nat (length pre)) (Z.of_nat n) =
    Ret (pre ++ alloc_run n ++ post).
Proof.
  intros Hn. destruct n as [|n]; [lia|]. unfold mark_allocated. cbn [replicate app].
  rewrite buf_get_middle. step. rewrite lxor_zero. unfold alloc_run.
  destruct n as [|n].
  - change (Z.of_nat 1 =? 1) with true. change (Z.of_nat 1 >? 1) with false. cbn [negb Nat.eqb].
    rewrite buf_set_middle. done.
  - destruct (Z.eqb_spec (Z.of_nat (S (S n))) 1); [lia|]. destruct (Z.gtb_spec (Z.of_nat (S (S n))) 1); [|lia].
    cbn [negb Nat.eqb]. rewrite buf_set_middle. step. rewrite Nat2Z.id.
    set (x := mkHead _ _).
    pose proof (mark_part_spec pre (x :: replicate (S n) free_head) post) as Hm.
    cbn [length app] in Hm. rewrite length_replicate in Hm. rewrite Hm. f_equal. f_equal.
    rewrite fmap_cons, fmap_replicate. done.
Qed.

Lemma count_used_app a b : count_used (a ++ b) = (count_used a + count_used b)%nat.
Proof. unfold count_used. by rewrite List.filter_app, length_app. Qed.
Lemma count_used_free n : count_used (replicate n free_head) = 0%nat.
Proof. induction n; [done|]. unfold count_used in *. simpl. done. Qed.
Lemma count_used_run n : (0 < n)%nat → count_used (alloc_run n) = n.
Proof.
  intros Hn. unfold alloc_run. destruct n as [|[|n]]; [lia|done|]. cbn [Nat.eqb].
  change (mkHead ?a ?b :: ?l) with ([mkHead a b] ++ l). rewrite count_used_app.
  replace (S (S n) - 1)%nat with (S n) by lia.
  enough (∀ m, count_used (replicate m (mkHead NkIntAllocTy_PartOfMulti 0)) = m) as -> by done.
  induction m as [|m IH]; [done|]. unfold count_used in *. simpl. by rewrite IH.
Qed.
Lemma length_alloc_run n : (0 < n)%nat → length (alloc_run n) = n.
Proof.
  intros Hn. unfold alloc_run. destruct n as [|[|n]]; [lia|done|]. cbn [Nat.eqb length].
  rewrite length_replicate. lia.
Qed.
Lemma alloc_run_used n : (0 < n)%nat → Forall (λ h, is_used h = true) (alloc_run n).
Proof.
  intros Hn. unfold alloc_run. destruct n as [|[|n]]; [lia|by repeat constructor|]. cbn [Nat.eqb].
  constructor; [done|]. by apply Forall_replicate.
Qed.

(** [hs] has its first free header at [f]. *)
Definition first_free (hs : list BlockHead) (f : Z) : Prop :=
  (f = UINT32_MAX ∧ Forall (λ h, is_used h = true) hs) ∨
  ∃ pre post, hs = pre ++ free_head :: post ∧ f = Z.of_nat (length pre) ∧ Forall (λ h, is_used h = true) pre.
(** Free headers are all zero. *)
Definition clean (hs : list BlockHead) : Prop := Forall (λ h, is_used h = true ∨ h = free_head) hs.

Lemma next_free_spec hs i :
  clean hs →
  match next_free hs i with
  | None => Forall (λ h, is_used h = true) hs
  | Some k => ∃ pre post, hs = pre ++ free_head :: post ∧ k = i + Z.of_nat (length pre) ∧ Forall (λ h, is_used h = true) pre
  end.
Proof.
  intros Hc. revert i. induction Hc as [|h hs Hh Hc IH]; intros i; cbn [next_free]; [done|].
  destruct (Z.eqb_spec (m_blockFlags h) 0) as [E|E].
  - exists [], hs. destruct Hh as [Hu| ->]; [unfold is_used in Hu; by rewrite E in Hu|].
    split_and!; [done|simpl; lia|constructor].
  - assert (Hu : is_used h = true) by (unfold is_used; by rewrite (proj2 (Z.eqb_neq _ _) E)).
    specialize (IH (i + 1)). destruct (next_free hs (i + 1)) as [k|].
    + destruct IH as (pre & post & -> & -> & Hp). exists (h :: pre), post.
      split_and!; [done|simpl; lia|by constructor].
    + by constructor.
Qed.

Lemma scan_range_free (pre post : list BlockHead) n :
  scan_range n (pre ++ replicate n free_head ++ post) (Z.of_nat (length pre)) = Ret None.
Proof.
  revert pre. induction n as [|n IH]; intros pre; [done|]. cbn [scan_range replicate app].
  rewrite buf_get_middle. step. cbn [free_head m_blockFlags]. change (negb (0 =? 0)) with false. cbv iota.
  replace (Z.of_nat (length pre) + 1) with (Z.of_nat (length (pre ++ [free_head]))) by (rewrite length_app; simpl; lia).
  replace (pre ++ free_head :: replicate n free_head ++ post) with ((pre ++ [free_head]) ++ replicate n free_head ++ post)
    by (by rewrite <-app_assoc).
  apply IH.
Qed.

(** Either the next [n] headers are free, or the scan stops at a used one. *)
Lemma scan_range_cases (pre rest : list BlockHead) n :
  clean rest → (n ≤ length rest)%nat →
  (∃ post, rest = replicate n free_head ++ post) ∨
  (∃ k, scan_range n (pre ++ rest) (Z.of_nat (length pre)) = Ret (Some k) ∧ k < Z.of_nat (length (pre ++ rest)) ∧
     ∀ post, rest ≠ replicate n free_head ++ post).
Proof.
  revert pre rest. induction n as [|n IH]; intros pre rest Hc Hn; [left; by exists rest|].
  destruct rest as [|h rest]; [simpl in Hn; lia|]. inversion Hc as [|? ? Hh Hc']; subst.
  cbn [scan_range]. rewrite buf_get_middle. step.
  destruct (Z.eqb_spec (m_blockFlags h) 0) as [E|E]; cbn [negb].
  - destruct Hh as [Hu| ->]; [unfold is_used in Hu; by rewrite E in Hu|].
    destruct (IH (pre ++ [free_head]) rest Hc') as [[post ->]|(k & Hk & Hlt & Hno)]; [simpl in Hn; lia|left; by exists post|].
    right. exists k. rewrite <-app_assoc in Hk, Hlt. simpl in Hk, Hlt.
    replace (Z.of_nat (length pre) + 1) with (Z.of_nat (length (pre ++ [free_head]))) by (rewrite length_app; simpl; lia).
    split_and!; [done|done|]. intros post [= He]. by apply (Hno post).
  - right. eexists. split_and!; [done|rewrite length_app; simpl; lia|].
    intros post [= -> _]. done.
Qed.

(** ** Pools *)
Record pool_ok (p : MemoryPool) : Prop := {
  pk_size : 0 < m_blockSize p;
  pk_count : 0 < m_blockCount p;
  pk_fit : 8 * m_blockCount p + 8 + m_blockSize p * m_blockCount p < 2 ^ 32;
  pk_heads : Z.of_nat (length (heads p)) = m_blockCount p;
  pk_alloc : m_nAllocBlocks p = Z.of_nat (count_used (heads p));
  pk_first : first_free (heads p) (m_fFreeInd p);
  pk_clean : clean (heads p)
}.

Lemma count_used_length hs : (count_used hs ≤ length hs)%nat.
Proof. unfold count_used. apply List.filter_length_le. Qed.

Lemma pool_count_lt p : pool_ok p → m_blockCount p < 2 ^ 28 * 2.
Proof. intros [? ? ? _ _ _ _]. nia. Qed.

Lemma clean_app a b : clean (a ++ b) ↔ clean a ∧ clean b.
Proof. apply Forall_app. Qed.

(** What the range search finds. *)
Lemma find_range_cases p (n : nat) :
  pool_ok p → (0 < n)%nat →
  (∃ pre post, heads p = pre ++ replicate n free_head ++ post ∧ m_fFreeInd p = Z.of_nat (length pre) ∧
     FindRangeInPool p (Z.of_nat n) = Ret (Z.of_nat (length pre))) ∨
  (FindRangeInPool p (Z.of_nat n) = Ret UINT32_MAX ∧
     ∀ pre post, heads p = pre ++ replicate n free_head ++ post → m_fFreeInd p ≠ Z.of_nat (length pre)).
Proof.
  intros Hok Hn. pose proof (pool_count_lt _ Hok) as Hlt. destruct Hok as [_ Hcnt _ Hlen _ Hff Hcl].
  unfold FindRangeInPool. destruct Hff as [[Hf Hall]|(pre & post & Hh & Hf & _)].
  { right. rewrite Hf, Z.eqb_refl. split; [done|]. intros pre post Hh He.
    rewrite Hh in Hlen. rewrite !length_app, length_replicate in Hlen. unfold UINT32_MAX in He. lia. }
  destruct (Z.eqb_spec (m_fFreeInd p) UINT32_MAX) as [E|_].
  { rewrite Hh, length_app in Hlen. simpl in Hlen. unfold UINT32_MAX in E. lia. }
  assert (Hbound : Z.of_nat (length pre) < m_blockCount p) by (rewrite Hh, length_app in Hlen; simpl in Hlen; lia).
  cbn [find_range]. rewrite Hf, Nat2Z.id, wrapN_small by (unfold is_u; lia).
  set (rest := free_head :: post) in *.
  destruct (Z.ltb_spec (m_blockCount p - Z.of_nat (length pre)) (Z.of_nat n)) as [Hshort|Hroom].
  { right. split; [done|]. intros pre' post' Hh' He. apply Nat2Z.inj in He.
    rewrite Hh' in Hlen. rewrite !length_app, length_replicate in Hlen. lia. }
  rewrite Hh in Hcl. apply clean_app in Hcl as [_ Hcl].
  destruct (scan_range_cases pre rest n Hcl) as [[post' Hrest]|(k & Hscan & Hk & Hno)].
  - rewrite Hh, length_app in Hlen. lia.
  - left. exists pre, post'. rewrite Hh, Hrest. split_and!; [done|done|].
    by rewrite scan_range_free.
  - right. rewrite Hh, Hscan. step.
    rewrite Z.max_r by (rewrite <-Hlen, Hh; lia). rewrite Z.sub_diag.
    change (u32 0) with 0. destruct (Z.ltb_spec 0 (Z.of_nat n)); [|lia]. split; [done|].
    intros pre' post' Hh' He. apply Nat2Z.inj in He.
    apply app_inj_1 in Hh' as [_ ?]; [by eapply Hno|done].
Qed.

(** Allocating [n] free blocks: the pool stays well formed and just their headers change. *)
Lemma alloc_block_spec p (pre post : list BlockHead) (n : nat) :
  pool_ok p → (0 < n)%nat → heads p = pre ++ replicate n free_head ++ post → m_fFreeInd p = Z.of_nat (length pre) →
  ∃ p', alloc_block p (Z.of_nat (length pre)) (Z.of_nat n) = Ret (p', block_address p (Z.of_nat (length pre))) ∧
    pool_ok p' ∧ heads p' = pre ++ alloc_run n ++ post ∧ m_blockSize p' = m_blockSize p ∧
    m_blockCount p' = m_blockCount p ∧ mp_blockPtr p' = mp_blockPtr p ∧
    m_nAllocBlocks p' = m_nAllocBlocks p + Z.of_nat n ∧ Z.of_nat (length pre) < m_fFreeInd p'.
Proof.
  intros Hok Hn Hh Hf. pose proof (pool_count_lt _ Hok) as Hlt. destruct Hok as [Hbs Hcnt Hfit Hlen Hal Hff Hcl].
  unfold alloc_block. rewrite Hh, mark_allocated_spec by done. step.
  rewrite Hf, Z.eqb_refl, Nat2Z.id, drop_app_length.
  rewrite Hh in Hlen, Hal, Hcl. rewrite !length_app, length_replicate in Hlen.
  rewrite !count_used_app, count_used_free in Hal. pose proof (count_used_length pre). pose proof (count_used_length post).
  apply clean_app in Hcl as [Hcl1 Hcl2]. apply clean_app in Hcl2 as [_ Hcl2].
  assert (Hpre : Forall (λ h, is_used h = true) pre).
  { destruct Hff as [[Hm _]|(pre' & post' & Hh' & Hf' & Hp')].
    - rewrite Hf in Hm. unfold UINT32_MAX in Hm. lia.
    - rewrite Hf in Hf'. apply Nat2Z.inj in Hf'. rewrite Hh in Hh'. by apply app_inj_1 in Hh' as [-> _]. }
  assert (Hcr : clean (alloc_run n ++ post)).
  { apply clean_app. split; [|done]. eapply List.Forall_impl; [|apply alloc_run_used, Hn]. by left. }
  pose proof (next_free_spec _ (Z.of_nat (length pre)) Hcr) as Hnf.
  eexists. split; [done|]. cbn [heads m_blockSize m_blockCount mp_blockPtr m_nAllocBlocks m_fFreeInd].
  rewrite wrapN_small by (unfold is_u; lia).
  assert (Hnew : Z.of_nat (length pre) < default UINT32_MAX (next_free (alloc_run n ++ post) (Z.of_nat (length pre))) ∧
    first_free (pre ++ alloc_run n ++ post) (default UINT32_MAX (next_free (alloc_run n ++ post) (Z.of_nat (length pre))))).
  { destruct (next_free (alloc_run n ++ post) (Z.of_nat (length pre))) as [k|]; simpl default.
    - destruct Hnf as (pre' & post' & He & -> & Hu). split.
      + destruct pre' as [|h pre']; [|simpl; lia]. exfalso. pose proof (alloc_run_used n Hn) as Hr.
        pose proof (length_alloc_run n Hn). destruct (alloc_run n) as [|h r]; [simpl in *; lia|].
        simpl in He. injection He as -> _. by inversion Hr.
      + right. exists (pre ++ pre'), post'. rewrite He, <-app_assoc. split_and!; [done|rewrite length_app; lia|].
        by apply Forall_app.
    - split; [unfold UINT32_MAX; lia|]. left. split; [done|]. by apply Forall_app. }
  split_and!; try done; [|apply Hnew].
  split; cbn [heads m_blockSize m_blockCount mp_blockPtr m_nAllocBlocks m_fFreeInd]; try done.
  - rewrite !length_app, length_alloc_run by done. lia.
  - rewrite !count_used_app, count_used_run by done. lia.
  - apply Hnew.
  - apply clean_app. by split.
Qed.

#[export] Instance BlockHead_eq_dec : EqDecision BlockHead.
Proof. solve_decision. Defined.

(** ** Locating a block *)
Definition pool_span (p : MemoryPool) : Z :=
  8 * m_blockCount p + 8 * (m_blockCount p mod 2) + m_blockSize p * m_blockCount p.
Definition in_pool (p : MemoryPool) (a : Z) : Prop := mp_blockPtr p ≤ a < mp_blockPtr p + pool_span p.
Definition pool_used (p : MemoryPool) : bool := negb (m_blockSize p =? 0).
Definition pools_used (pools : list MemoryPool) : Z := Z.of_nat (length (List.filter pool_used pools)).

(** The pools in use are well formed and occupy disjoint ranges of addresses. *)
Record cxt_ok (cxt : PoolAllocContext) : Prop := {
  ck_length : Z.of_nat (length (m_memPools cxt)) = gl_MaxPools;
  ck_pools : ∀ i p, m_memPools cxt !! i = Some p → pool_used p = true →
    pool_ok p ∧ 0 < mp_blockPtr p ∧ mp_blockPtr p + pool_span p ≤ 2 ^ 64;
  ck_count : m_nAllocPools cxt = pools_used (m_memPools cxt);
  ck_disjoint : ∀ i j p q a, m_memPools cxt !! i = Some p → m_memPools cxt !! j = Some q →
    pool_used p = true → pool_used q = true → in_pool p a → in_pool q a → i = j
}.

Lemma is_inside_pool_spec p a :
  pool_ok p → 0 < mp_blockPtr p → mp_blockPtr p + pool_span p ≤ 2 ^ 64 → 0 ≤ a < 2 ^ 64 →
  IsInsidePool a p = Ret (bool_decide (in_pool p a)).
Proof.
  intros [Hbs Hc Hfit _ _ _ _] Hbase Hend Ha. unfold IsInsidePool.
  rewrite calc_pool_size_spec by lia. step. f_equal. unfold in_pool, pool_span in *.
  destruct (Z.geb_spec a (mp_blockPtr p)); simpl.
  - rewrite wrapN_small by (unfold is_u; lia). destruct (Z.ltb_spec (a - mp_blockPtr p)
      (8 * m_blockCount p + 8 * (m_blockCount p mod 2) + m_blockSize p * m_blockCount p)); symmetry;
      [apply bool_decide_eq_true|apply bool_decide_eq_false]; lia.
  - symmetry. apply bool_decide_eq_false. lia.
Qed.

Lemma pools_used_cons p pools : pools_used (p :: pools) = (if pool_used p then 1 else 0) + pools_used pools.
Proof. unfold pools_used. simpl. destruct (pool_used p); simpl length; lia. Qed.
Lemma pools_used_nonneg pools : 0 ≤ pools_used pools.
Proof. unfold pools_used. lia. Qed.

Lemma locate_block_loop_spec pools off j nAlloc a k p :
  j + pools_used pools = nAlloc → pools !! k = Some p → pool_used p = true → in_pool p a → 0 ≤ a < 2 ^ 64 →
  (∀ i q, pools !! i = Some q → pool_used q = true →
     pool_ok q ∧ 0 < mp_blockPtr q ∧ mp_blockPtr q + pool_span q ≤ 2 ^ 64) →
  (∀ i q, (i < k)%nat → pools !! i = Some q → pool_used q = true → ¬ in_pool q a) →
  locate_block_loop pools off j nAlloc a = Ret (off + Z.of_nat k).
Proof.
  intros Hn Hk Hu Hin Ha Hok Hno. revert off j k Hn Hk Hno.
  induction pools as [|q pools IH]; intros off j k Hn Hk Hno; [done|].
  cbn [locate_block_loop]. rewrite pools_used_cons in Hn. pose proof (pools_used_nonneg pools) as Hnn.
  assert (Hj : j < nAlloc).
  { destruct k as [|k]; simpl in Hk; [injection Hk as ->; rewrite Hu in Hn; lia|].
    assert (0 < pools_used pools); [|destruct (pool_used q); lia].
    clear -Hk Hu. revert k Hk. induction pools as [|r pools IHp]; intros k Hk; [done|]. rewrite pools_used_cons.
    pose proof (pools_used_nonneg pools). destruct k as [|k]; simpl in Hk; [injection Hk as ->; rewrite Hu; lia|].
    specialize (IHp _ Hk). destruct (pool_used r); lia. }
  rewrite (proj2 (Z.ltb_lt _ _) Hj).
  assert (Hok' : ∀ i q, pools !! i = Some q → pool_used q = true →
     pool_ok q ∧ 0 < mp_blockPtr q ∧ mp_blockPtr q + pool_span q ≤ 2 ^ 64).
  { intros i q' Hi. by apply (Hok (S i)). }
  specialize (IH Hok').
  unfold pool_used at 1 in Hn. destruct (m_blockSize q =? 0) eqn:E; cbn [negb] in Hn.
  - destruct k as [|k]; simpl in Hk; [injection Hk as ->; unfold pool_used in Hu; by rewrite E in Hu|].
    rewrite (IH (off + 1) j k); [f_equal; lia|lia|done|]. intros i q' Hi. apply (Hno (S i)). lia.
  - assert (Huq : pool_used q = true) by (unfold pool_used; by rewrite E).
    destruct (Hok 0%nat q eq_refl Huq) as (Hq & Hb & Hend). rewrite is_inside_pool_spec by done. step.
    destruct k as [|k]; simpl in Hk.
    + injection Hk as ->. rewrite bool_decide_eq_true_2 by done. f_equal. lia.
    + rewrite bool_decide_eq_false_2 by (apply (Hno 0%nat); [lia|done..]).
      rewrite (IH (off + 1) (j + 1) k); [f_equal; lia|lia|done|]. intros i q' Hi. apply (Hno (S i)). lia.
Qed.

Lemma find_pool_loop_Some pools off j nAlloc bs bc i k :
  find_pool_loop pools off j nAlloc bs bc = Ret (Some (i, k)) →
  ∃ d p, i = off + Z.of_nat d ∧ pools !! d = Some p ∧ m_blockSize p = bs ∧ bs ≠ 0 ∧
    FindRangeInPool p bc = Ret k ∧ k ≠ UINT32_MAX.
Proof.
  revert off j. induction pools as [|q pools IH]; intros off j; cbn [find_pool_loop]; [done|].
  assert (Hrec : ∀ j', find_pool_loop pools (off + 1) j' nAlloc bs bc = Ret (Some (i, k)) →
    ∃ d p, i = off + Z.of_nat d ∧ (q :: pools) !! d = Some p ∧ m_blockSize p = bs ∧ bs ≠ 0 ∧
      FindRangeInPool p bc = Ret k ∧ k ≠ UINT32_MAX).
  { intros j' (d & p & -> & ? & ? & ? & ? & ?)%IH. exists (S d), p. split_and!; try done. lia. }
  destruct (j <? nAlloc); [|done]. destruct (Z.eqb_spec (m_blockSize q) 0); [apply Hrec|].
  destruct (Z.eqb_spec (m_blockSize q) bs) as [<-|]; [|apply Hrec].
  destruct (FindRangeInPool q bc) as [b| | |] eqn:E; try done. step.
  destruct (Z.eqb_spec b UINT32_MAX); cbn [negb]; [apply Hrec|]. intros [= <- <-].
  exists 0%nat, q. split_and!; try done. lia.
Qed.

(** The address of a block lies inside its pool and leads back to its header. *)
Lemma block_address_in p k :
  pool_ok p → 0 ≤ k < m_blockCount p → in_pool p (block_address p k).
Proof.
  intros [Hbs Hc Hfit _ _ _ _] Hk. unfold in_pool, block_address, pool_span, sizeof_BlockHead, gl_BlockAlign.
  replace ((m_blockCount p * 8) mod 16) with (8 * (m_blockCount p mod 2))
    by (rewrite (Z.mul_comm _ 8); change 16 with (8 * 2); by rewrite Z.mul_mod_distr_l).
  pose proof (Z.mod_pos_bound (m_blockCount p) 2). nia.
Qed.

Lemma start_of_multi_run (pre post : list BlockHead) n :
  (0 < n)%nat → start_of_multi (length pre) (pre ++ alloc_run n ++ post) = Ret (Z.of_nat (length pre)).
Proof.
  intros Hn. assert (∃ h t, alloc_run n = h :: t ∧ (m_blockFlags h = 1 ∨ m_blockFlags h = 6)) as (h & t & -> & Hh).
  { unfold alloc_run. destruct (n =? 1)%nat; eexists _, _; (split; [done|]); [by left|by right]. }
  simpl app. destruct (length pre) as [|k] eqn:E.
  - cbn [start_of_multi]. rewrite <-E at 1. by rewrite buf_get_middle.
  - cbn [start_of_multi]. rewrite <-E at 1. rewrite buf_get_middle. step.
    by destruct Hh as [-> | ->].
Qed.

Lemma get_header_spec cxt i p (pre post : list BlockHead) n :
  cxt_ok cxt → m_memPools cxt !! i = Some p → pool_used p = true → (0 < n)%nat →
  heads p = pre ++ alloc_run n ++ post →
  GetHeaderForBlock cxt (block_address p (Z.of_nat (length pre))) = Ret (Some (Z.of_nat i, Z.of_nat (length pre))).
Proof.
  intros [Hmax Hok Hcnt Hdis] Hi Hu Hn Hh. destruct (Hok i p Hi Hu) as (Hp & Hb & Hend).
  pose proof Hp as [Hbs Hc Hfit Hlen _ _ _]. pose proof (lookup_lt_Some _ _ _ Hi).
  assert (Hk : 0 ≤ Z.of_nat (length pre) < m_blockCount p).
  { rewrite Hh, !length_app, length_alloc_run in Hlen by done. lia. }
  pose proof (block_address_in p _ Hp Hk) as Hin. pose proof Hin as [Hlo Hhi].
  unfold GetHeaderForBlock, LocateBlock.
  rewrite (locate_block_loop_spec _ 0 0 _ _ i p); [|rewrite Hcnt; lia|done|done|done|lia|exact Hok|].
  2: { intros i' q Hlt Hq Huq Hinq. assert (i' = i) by (by eapply (Hdis i' i q p)). lia. }
  step. rewrite Z.add_0_l. unfold gl_MaxPools in Hmax.
  destruct (Z.eqb_spec (Z.of_nat i) UINT32_MAX) as [E|_]; [unfold UINT32_MAX in E; lia|].
  rewrite (buf_get_lookup _ _ p) by (first [lia|by rewrite Nat2Z.id]). step.
  rewrite head_size_spec by nia.
  replace (Z.quot _ (m_blockSize p)) with (Z.of_nat (length pre)).
  2: { unfold block_address, sizeof_BlockHead, gl_BlockAlign.
       replace ((m_blockCount p * 8) mod 16) with (8 * (m_blockCount p mod 2))
         by (rewrite (Z.mul_comm _ 8); change 16 with (8 * 2); by rewrite Z.mul_mod_distr_l).
       symmetry. match goal with |- Z.quot ?x _ = _ =>
         replace x with (Z.of_nat (length pre) * m_blockSize p) by lia end. apply Z.quot_mul. lia. }
  assert (Hbuf : in_buf (heads p) (Z.of_nat (length pre)) = true) by (apply in_buf_spec; lia).
  rewrite Hbuf, Nat2Z.id, Hh, start_of_multi_run by done. step.
  assert (∃ h t, alloc_run n = h :: t) as (h & t & ->).
  { unfold alloc_run. destruct (n =? 1)%nat; by eexists _, _. }
  simpl app. rewrite buf_get_middle. step.
  destruct (Z.geb_spec (Z.of_nat (length pre)) 0); [|lia]. by rewrite orb_true_r.
Qed.

Lemma alloc_run_head n : (0 < n)%nat → ∃ h t, alloc_run n = h :: t ∧
  (if has_flag (m_blockFlags h) NkIntAllocTy_Single then 1 else m_nMultiBlock h) = Z.of_nat n.
Proof.
  intros Hn. unfold alloc_run. destruct (Nat.eqb_spec n 1) as [->|]; eexists _, _; (split; [done|]); done.
Qed.

(** Replacing one pool record by another at the same address. *)
Lemma cxt_ok_update cxt i p p' :
  cxt_ok cxt → m_memPools cxt !! i = Some p → pool_used p = true → pool_ok p' →
  m_blockSize p' = m_blockSize p → m_blockCount p' = m_blockCount p → mp_blockPtr p' = mp_blockPtr p →
  cxt_ok (mkCxt (m_nAllocPools cxt) (m_firstFreePool cxt) (<[i:=p']> (m_memPools cxt))).
Proof.
  intros [Hmax Hok Hcnt Hdis] Hi Hu Hp' Hbs Hbc Hb. pose proof (lookup_lt_Some _ _ _ Hi).
  assert (Hu' : pool_used p' = true) by (unfold pool_used in *; by rewrite Hbs).
  assert (Hspan : pool_span p' = pool_span p) by (unfold pool_span; by rewrite Hbs, Hbc).
  assert (Hin : ∀ a, in_pool p' a ↔ in_pool p a) by (intros a; unfold in_pool; by rewrite Hb, Hspan).
  assert (Hlook : ∀ j q, <[i:=p']> (m_memPools cxt) !! j = Some q → pool_used q = true →
    ∃ q0, m_memPools cxt !! j = Some q0 ∧ pool_used q0 = true ∧ (∀ a, in_pool q a ↔ in_pool q0 a)).
  { intros j q Hq Huq. destruct (decide (i = j)) as [<-|Hne].
    - rewrite list_lookup_insert_eq in Hq by done. injection Hq as <-. by exists p.
    - rewrite list_lookup_insert_ne in Hq by done. by exists q. }
  split; cbn [m_memPools m_nAllocPools].
  - by rewrite length_insert.
  - intros j q Hq Huq. destruct (decide (i = j)) as [<-|Hne].
    + rewrite list_lookup_insert_eq in Hq by done. injection Hq as <-.
      destruct (Hok i p Hi Hu) as (_ & ? & ?). by rewrite Hb, Hspan.
    + rewrite list_lookup_insert_ne in Hq by done. by apply (Hok j).
  - rewrite Hcnt. unfold pools_used. f_equal.
    rewrite <-(take_drop_middle _ _ _ Hi) at 1. rewrite insert_take_drop by done.
    rewrite !List.filter_app, !length_app. simpl. by rewrite Hu, Hu'.
  - intros j1 j2 q1 q2 a H1 H2 Hu1 Hu2 Ha1 Ha2.
    destruct (Hlook j1 q1 H1 Hu1) as (r1 & Hr1 & Hur1 & Hi1), (Hlook j2 q2 H2 Hu2) as (r2 & Hr2 & Hur2 & Hi2).
    apply (Hdis j1 j2 r1 r2 a); try done; [by apply Hi1|by apply Hi2].
Qed.

(** ** Properties *)

(** The range search only ever tries the [n] blocks that start at the pool's
    first free block: it returns their index when all of them exist and are free,
    and gives up otherwise, even if the pool has such a range further on. *)
Theorem find_range_first p (n : nat) :
  pool_ok p → (0 < n)%nat →
  FindRangeInPool p (Z.of_nat n) =
    Ret (if bool_decide (take n (drop (Z.to_nat (m_fFreeInd p)) (heads p)) = replicate n free_head)
         then m_fFreeInd p else UINT32_MAX).
Proof.
  intros Hok Hn. destruct (find_range_cases p n Hok Hn) as [(pre & post & Hh & Hf & ->)|[-> Hno]].
  - rewrite bool_decide_eq_true_2; [by rewrite Hf|].
    rewrite Hf, Nat2Z.id, Hh, drop_app_length, take_app_length'; [done|by rewrite length_replicate].
  - rewrite bool_decide_eq_false_2; [done|]. intros He.
    apply (Hno (take (Z.to_nat (m_fFreeInd p)) (heads p)) (drop n (drop (Z.to_nat (m_fFreeInd p)) (heads p)))).
    + by rewrite <-He, !take_drop.
    + assert (Hl : length (take n (drop (Z.to_nat (m_fFreeInd p)) (heads p))) = n) by (by rewrite He, length_replicate).
      rewrite length_take, length_drop in Hl. rewrite length_take.
      assert (0 ≤ m_fFreeInd p); [|lia].
      destruct (pk_first _ Hok) as [[-> _]|(? & ? & _ & -> & _)]; [done|lia].
Qed.

(** C24: freeing is the inverse of allocating.  When an existing pool that already
    holds allocations serves a request for [n] blocks, the context stays well
    formed, and handing the address back to [NkPoolFree] restores the context
    exactly: headers, counters and the first-free index. *)
Theorem pool_alloc_free galloc cxt bs (n : nat) i k p :
  cxt_ok cxt → bs mod 8 = 0 → (0 < n)%nat →
  find_pool_loop (m_memPools cxt) 0 0 (m_nAllocPools cxt) bs (Z.of_nat n) = Ret (Some (i, k)) →
  m_memPools cxt !! Z.to_nat i = Some p → 0 < m_nAllocBlocks p →
  ∃ cxt' a, NkPoolAlloc galloc cxt bs (Z.of_nat n) = Ret (NkErr_Ok, cxt', a) ∧ cxt_ok cxt' ∧
    a ≠ NULL ∧ NkPoolFree cxt' a = Ret cxt.
Proof.
  intros Hcx Hb8 Hn Hfind Hp Hbusy. pose proof Hcx as [Hmax Hpools _ _].
  destruct (find_pool_loop_Some _ _ _ _ _ _ _ _ Hfind) as (d & p0 & -> & Hd & Hbs & Hbs0 & Hfr & Hkm).
  rewrite Z.add_0_l, Nat2Z.id in *. assert (p0 = p) as -> by congruence.
  assert (Hu : pool_used p = true) by (unfold pool_used; destruct (Z.eqb_spec (m_blockSize p) 0); [congruence|done]).
  destruct (Hpools d p Hd Hu) as (Hpk & Hbase & _). pose proof (lookup_lt_Some _ _ _ Hd).
  destruct (find_range_cases p n Hpk Hn) as [(pre & post & Hh & Hf & Hfr')|[Hfr' _]]; [|congruence].
  assert (k = Z.of_nat (length pre)) as -> by congruence.
  destruct (alloc_block_spec p pre post n Hpk Hn Hh Hf) as (p' & Hall & Hpk' & Hh' & Hbs' & Hbc' & Hbp' & Hna' & Hff').
  pose proof (cxt_ok_update cxt d p p' Hcx Hd Hu Hpk' Hbs' Hbc' Hbp') as Hcx'.
  set (cxt' := mkCxt _ _ _) in *. assert (Haddr : block_address p' (Z.of_nat (length pre)) = block_address p (Z.of_nat (length pre)))
    by (unfold block_address; by rewrite Hbs', Hbc', Hbp').
  assert (Hd' : m_memPools cxt' !! d = Some p') by (unfold cxt'; simpl; by rewrite list_lookup_insert_eq).
  assert (Hu' : pool_used p' = true) by (unfold pool_used in *; by rewrite Hbs').
  assert (Hk : 0 ≤ Z.of_nat (length pre) < m_blockCount p).
  { pose proof (pk_heads _ Hpk) as Hl. rewrite Hh, !length_app, length_replicate in Hl. lia. }
  exists cxt', (block_address p (Z.of_nat (length pre))).
  assert (Hnn : block_address p (Z.of_nat (length pre)) ≠ NULL).
  { pose proof (block_address_in p _ Hpk Hk) as [? _]. unfold NULL. lia. }
  split_and!; [|done|done|].
  - unfold NkPoolAlloc. destruct (Z.eqb_spec bs 0); [done|]. rewrite Hb8. cbn [negb andb].
    change (0 =? 0) with true. destruct (Z.eqb_spec (Z.of_nat n) 0); [lia|]. cbn [mbind outcome_bind NK_ASSERT negb].
    rewrite Hfind. step. ok_step.
    rewrite (buf_get_lookup _ _ p) by (first [lia|by rewrite Nat2Z.id]). step.
    rewrite Hall. step. unfold put_pool.
    rewrite buf_set_in by lia. step. by rewrite Nat2Z.id.
  - unfold NkPoolFree. rewrite (proj2 (Z.eqb_neq _ _) Hnn), <-Haddr, (get_header_spec cxt' d p' pre post n) by done.
    step. rewrite (buf_get_lookup _ _ p') by (first [lia|by rewrite Nat2Z.id]). step.
    rewrite Hh'. destruct (alloc_run_head n Hn) as (h & t & Hrun & Hcnt).
    assert (Hget : buf_get (pre ++ alloc_run n ++ post) (Z.of_nat (length pre)) = Ret h)
      by (rewrite Hrun; apply buf_get_middle).
    rewrite Hget. step. rewrite Hcnt, (Nat2Z.id n).
    pose proof (clear_heads_spec pre (alloc_run n) post) as Hcl. rewrite length_alloc_run in Hcl by done. rewrite Hcl.
    step. rewrite Hna', wrapN_small.
    2: { pose proof (pk_alloc _ Hpk) as Ha. pose proof (count_used_length (heads p)). pose proof (pk_heads _ Hpk).
         pose proof (pool_count_lt _ Hpk). unfold is_u. lia. }
    destruct (Z.gtb_spec (m_nAllocBlocks p + Z.of_nat n - Z.of_nat n) 0); [|lia].
    destruct (Z.gtb_spec (m_fFreeInd p') (Z.of_nat (length pre))); [|lia].
    unfold put_pool. rewrite buf_set_in by (unfold cxt'; simpl; rewrite length_insert; lia). step.
    rewrite Nat2Z.id. unfold cxt'. cbn [m_memPools m_nAllocPools m_firstFreePool]. rewrite list_insert_insert_eq.
    rewrite <-Hh, <-Hf, Hbs', Hbc', Hbp'. replace (m_nAllocBlocks p + Z.of_nat n - Z.of_nat n) with (m_nAllocBlocks p) by lia.
    rewrite list_insert_id; [by destruct cxt|]. rewrite Hd. by destruct p.
Qed.

Lemma mark_part_overrun n hs i :
  (0 < n)%nat → 0 ≤ i → Z.of_nat (length hs) < i + Z.of_nat n → mark_part n hs i = Undef.
Proof.
  revert hs i. induction n as [|n IH]; intros hs i Hn Hi Hlen; [lia|]. cbn [mark_part].
  destruct (decide (i < Z.of_nat (length hs))) as [Hin|Hout]; [|rewrite buf_get_out by lia; done].
  destruct (buf_get_in hs i) as (h & -> & _); [lia|]. step.
  rewrite buf_set_in by lia. step. apply IH; rewrite ?length_insert; lia.
Qed.

(** A request for more blocks than a fresh default pool holds is not refused:
    the allocator takes a new pool of the default size and marks headers behind
    its last one, overwriting memory that belongs to the blocks. *)
Theorem pool_alloc_oversized galloc cxt bs (n : nat) cxt' i p :
  bs ≠ 0 → bs mod 8 = 0 → (1 < n)%nat →
  find_pool_loop (m_memPools cxt) 0 0 (m_nAllocPools cxt) bs (Z.of_nat n) = Ret None →
  RequestNewPool galloc cxt gl_DefBlockCount bs = Ret (NkErr_Ok, cxt', i) →
  buf_get (m_memPools cxt') i = Ret p → (length (heads p) < n)%nat →
  NkPoolAlloc galloc cxt bs (Z.of_nat n) = Undef.
Proof.
  intros Hbs Hb8 Hn Hfind Hreq Hp Hlen. unfold NkPoolAlloc. rewrite (proj2 (Z.eqb_neq _ _) Hbs), Hb8.
  change (0 =? 0) with true. destruct (Z.eqb_spec (Z.of_nat n) 0); [lia|]. cbn [mbind outcome_bind NK_ASSERT negb andb].
  rewrite Hfind. step. rewrite Hreq. step.
  ok_step. rewrite Hp. step.
  unfold alloc_block, mark_allocated. destruct (heads p) as [|h hs] eqn:Hh; [done|].
  change (buf_get (h :: hs) 0) with (Ret h). step.
  destruct (Z.gtb_spec (Z.of_nat n) 1); [|lia].
  rewrite buf_set_in by (simpl; lia). step.
  by rewrite mark_part_overrun by (rewrite ?length_insert, ?Nat2Z.id; lia).
Qed.

(** Where a new pool goes, and which record is the next free one. *)
Lemma request_new_pool_Ok galloc cxt bc bs cxt' i :
  RequestNewPool galloc cxt bc bs = Ret (NkErr_Ok, cxt', i) →
  i = m_firstFreePool cxt ∧ m_nAllocPools cxt' = u32 (m_nAllocPools cxt + 1) ∧
  (∃ p, m_memPools cxt' = <[Z.to_nat i := p]> (m_memPools cxt) ∧ m_blockSize p = bs) ∧
  0 ≤ i < Z.of_nat (length (m_memPools cxt)) ∧
  (m_nAllocPools cxt' ≠ gl_MaxPools → m_firstFreePool cxt' =
     default i (free_pool_from (drop (Z.to_nat i) (m_memPools cxt')) i)).
Proof.
  unfold RequestNewPool. destruct (m_firstFreePool cxt =? UINT32_MAX); [done|]. intros H.
  apply bind_Ret_inv in H as (sz & _ & H). destruct (AdjustPoolMetrics bs sz) as [n sz'].
  apply bind_Ret_inv in H as ([ec a] & _ & H). destruct (isOk ec); cbn [negb] in H; [|done].
  apply bind_Ret_inv in H as (c1 & Hput & H). injection H as <- <-.
  unfold put_pool in Hput. apply bind_Ret_inv in Hput as (pools & Hset & Hput). injection Hput as <-.
  apply buf_set_Ret in Hset as [Hr ->]. cbn [m_memPools m_nAllocPools m_firstFreePool].
  split_and!; [done|done|by eexists|lia|lia|].
  intros Hne. by rewrite (proj2 (Z.eqb_neq _ _) Hne).
Qed.

(** Once the first-free record is the last one of the table (which is where
    [NkPoolFree] leaves it whenever it releases a pool), two new pools in a row are
    both stored in that record: the first one's memory and allocations are lost,
    while the pool counter counts both. *)
Theorem pool_record_overwritten galloc cxt bc1 bs1 bc2 bs2 cxt1 i1 cxt2 i2 :
  Z.of_nat (length (m_memPools cxt)) = gl_MaxPools → m_firstFreePool cxt = gl_MaxPools - 1 →
  0 ≤ m_nAllocPools cxt → m_nAllocPools cxt + 1 < gl_MaxPools → bs1 ≠ 0 →
  RequestNewPool galloc cxt bc1 bs1 = Ret (NkErr_Ok, cxt1, i1) →
  RequestNewPool galloc cxt1 bc2 bs2 = Ret (NkErr_Ok, cxt2, i2) →
  i1 = i2 ∧ m_nAllocPools cxt2 = m_nAllocPools cxt + 2 ∧
  ∃ p2, m_memPools cxt2 = <[Z.to_nat i1 := p2]> (m_memPools cxt) ∧ m_blockSize p2 = bs2.
Proof.
  intros Hlen Hff Hn0 Hn Hbs H1 H2.
  destruct (request_new_pool_Ok _ _ _ _ _ _ H1) as (-> & Hn1 & (p1 & Hm1 & Hb1) & Hr1 & Hf1).
  destruct (request_new_pool_Ok _ _ _ _ _ _ H2) as (-> & Hn2 & (p2 & Hm2 & Hb2) & _ & _).
  unfold gl_MaxPools in *. rewrite wrapN_small in Hn1 by (unfold is_u; lia).
  assert (Hsame : m_firstFreePool cxt1 = m_firstFreePool cxt).
  { rewrite Hf1 by lia. rewrite Hm1, Hff.
    replace (drop (Z.to_nat (8192 - 1)) (<[Z.to_nat (8192 - 1):=p1]> (m_memPools cxt))) with [p1].
    - simpl. by rewrite Hb1, (proj2 (Z.eqb_neq _ _) Hbs).
    - rewrite insert_take_drop by lia. rewrite drop_app_length' by (rewrite length_take; lia).
      f_equal. symmetry. apply drop_ge. lia. }
  rewrite Hsame in *. split_and!; [done| |].
  - rewrite Hn2, Hn1, wrapN_small by (unfold is_u; lia). lia.
  - exists p2. split; [|done]. by rewrite Hm2, Hm1, list_insert_insert_eq.
Qed.

(** ** Witnesses *)
Definition bump (n : Z) : option Z := if n <? 2 ^ 31 then Some (n * 1048576) else None.
Definition example_pool : MemoryPool :=
  mkPool 8 4 1 1 4096 [mkHead NkIntAllocTy_Single 0; free_head; free_head; free_head].
Definition example_cxt : PoolAllocContext := mkCxt 1 1 (example_pool :: replicate (Z.to_nat 8191) empty_pool).

Lemma example_pool_ok : pool_ok example_pool.
Proof.
  split; simpl; [lia|lia|lia|reflexivity|reflexivity| |].
  - right. exists [mkHead NkIntAllocTy_Single 0], [free_head; free_head]. split_and!; [reflexivity|reflexivity|].
    by repeat constructor.
  - constructor; [by left|]. by repeat (constructor; [by right|]).
Defined.
Lemma replicate_unused n i q : replicate n empty_pool !! i = Some q → pool_used q = true → False.
Proof. by intros [-> _]%lookup_replicate. Qed.
Lemma one_pool_cxt_ok p n :
  pool_ok p → pool_used p = true → 0 < mp_blockPtr p → mp_blockPtr p + pool_span p ≤ 2 ^ 64 →
  1 + Z.of_nat n = gl_MaxPools → cxt_ok (mkCxt 1 1 (p :: replicate n empty_pool)).
Proof.
  intros Hp Hup Hb He Hn. split; cbn [m_memPools m_nAllocPools].
  - cbn [length]. rewrite length_replicate. lia.
  - intros [|i] q Hq Hu; simpl in Hq; [|by destruct (replicate_unused _ _ _ Hq Hu)]. by injection Hq as <-.
  - rewrite pools_used_cons, Hup. enough (∀ m, pools_used (replicate m empty_pool) = 0) as -> by done.
    induction m as [|m IH]; [done|]. cbn [replicate]. by rewrite pools_used_cons, IH.
  - intros [|i] [|j] q r a Hq Hr Hu1 Hu2 _ _; simpl in Hq, Hr; [done|..];
      [by destruct (replicate_unused _ _ _ Hr Hu2)|by destruct (replicate_unused _ _ _ Hq Hu1)|
       by destruct (replicate_unused _ _ _ Hq Hu1)].
Qed.
Lemma example_cxt_ok : cxt_ok example_cxt.
Proof.
  apply one_pool_cxt_ok; [apply example_pool_ok|reflexivity|simpl; lia|vm_compute; discriminate|reflexivity].
Qed.

Lemma pool_metrics_witness :
  128 ≤ 170 ∧ 4096 mod gl_PageSize = 0 ∧ CalcPoolHeadSize 170 gl_BlockAlign + 170 * 16 ≤ 4096 ∧
  CalcPoolSize 170 16 gl_BlockAlign = Ret (CalcPoolHeadSize 170 gl_BlockAlign + 170 * 16).
Proof. apply (pool_metrics 128 16 170 4096); [lia|lia|reflexivity|unfold gl_PageSize; lia|reflexivity]. Defined.

Lemma find_range_first_witness : FindRangeInPool example_pool (Z.of_nat 2) = Ret 1.
Proof. apply (find_range_first example_pool 2); [apply example_pool_ok|lia]. Defined.

Lemma pool_alloc_free_witness :
  ∃ cxt' a, NkPoolAlloc bump example_cxt 8 (Z.of_nat 2) = Ret (NkErr_Ok, cxt', a) ∧ cxt_ok cxt' ∧
    a ≠ NULL ∧ NkPoolFree cxt' a = Ret example_cxt.
Proof.
  apply (pool_alloc_free bump example_cxt 8 2 0 1 example_pool);
    [apply example_cxt_ok|reflexivity|lia|reflexivity|reflexivity|simpl; lia].
Defined.

Lemma pool_alloc_oversized_witness : NkPoolAlloc bump gl_PoolAllocCxt 16 (Z.of_nat 200) = Undef.
Proof.
  eapply (pool_alloc_oversized bump gl_PoolAllocCxt 16 200); [lia|reflexivity|lia|vm_compute; reflexivity|
    vm_compute; reflexivity|vm_compute; reflexivity|].
  vm_compute. lia.
Defined.

(** The context after its last pool was released: no pool, first-free index 8191. *)
Definition released_cxt : PoolAllocContext := mkCxt 0 8191 (m_memPools gl_PoolAllocCxt).
Example released_cxt_reached :
  ('(_, cxt, a) ← NkPoolAlloc bump gl_PoolAllocCxt 8 1; NkPoolFree cxt a) = Ret released_cxt.
Proof. vm_compute. reflexivity. Qed.

Definition new_pool_result (cxt : PoolAllocContext) (bs : Z) : PoolAllocContext * Z :=
  match RequestNewPool bump cxt gl_DefBlockCount bs with Ret (_, c, i) => (c, i) | _ => (cxt, 0) end.
Lemma pool_record_overwritten_witness :
  let '(cxt1, i1) := new_pool_result released_cxt 8 in
  let '(cxt2, i2) := new_pool_result cxt1 16 in
  i1 = i2 ∧ m_nAllocPools cxt2 = 0 + 2 ∧
  ∃ p2, m_memPools cxt2 = <[Z.to_nat i1 := p2]> (m_memPools released_cxt) ∧ m_blockSize p2 = 16.
Proof.
  apply (pool_record_overwritten bump released_cxt gl_DefBlockCount 8 gl_DefBlockCount 16
    (new_pool_result released_cxt 8).1 (new_pool_result released_cxt 8).2
    (new_pool_result (new_pool_result released_cxt 8).1 16).1 (new_pool_result (new_pool_result released_cxt 8).1 16).2);
    [vm_compute; reflexivity|reflexivity|discriminate|reflexivity|discriminate|vm_compute; reflexivity|vm_compute; reflexivity].
Defined.
