(* ===== verification/Layer.v ===== *)
(** * [src/Noriko/layer.c]: the layer stack

    The stack is a vector of layer references.  A layer's methods may call back
    into the engine, so they act on the whole state [LayerStack] (the vector and
    whatever else they can reach); the lock is released around every such call,
    as in the source.  The event type is a parameter (see Event.v). *)
From S2P Require Import Prelude Float32 Vector.

Definition NK_AS_OVERLAY : Z := 0.
Definition NK_AS_NORMAL : Z := SIZE_MAX.

Section layer.
Context {Ev User : Type}.

(** [gl_LayerStack] together with the state the layers can reach. *)
Record LayerStack := mkLayerStack { mp_layerStack : option NkVector; user : User }.

(** The virtual table of [NkILayer]; the first argument is the layer itself. *)
Record NkILayer := mkILayer {
  AddRef : Z → LayerStack → LayerStack;
  OnPush : Z → Z → Z → Z → LayerStack → outcome (NkErrorCode * LayerStack);
  OnEvent : Z → Ev → LayerStack → outcome (NkErrorCode * LayerStack);
  OnUpdate : Z → NkFloat → LayerStack → outcome (NkErrorCode * LayerStack);
  OnRender : Z → NkFloat → LayerStack → outcome (NkErrorCode * LayerStack)
}.
Context (VT : NkILayer).

(** The vector, which every operation but [NkLayerstackQueryIndex] requires to exist. *)
Definition the_stack (st : LayerStack) : outcome NkVector :=
  match mp_layerStack st with Some v => Ret v | None => Halt NkErr_ComponentState end.
Definition set_stack (st : LayerStack) (v : NkVector) : LayerStack := mkLayerStack (Some v) (user st).

(** ** Component startup and shutdown *)
Definition layer_vec_props : NkVectorProperties :=
  mkVectorProperties 40 8 8 (SIZE_MAX - 2) (f32_lit 3 2).

(** [poolRes] is the result of the pool allocation inside [NkVectorCreate];
    [lockOk] says whether the lock could be created. *)
Definition Layerstack_Startup (h : heap) (poolRes : NkErrorCode) (lockOk : bool) (st : LayerStack)
    : outcome (NkErrorCode * LayerStack) :=
  NK_ASSERT (match mp_layerStack st with None => true | Some _ => false end) NkErr_ComponentState;;
  '(errCode, vec) ← NkVectorCreate h poolRes layer_vec_props false;
  if negb (isOk errCode) then Ret (errCode, mkLayerStack vec (user st))
  else if negb lockOk then
    _ ← NkVectorDestroy vec;
    Ret (NkErr_SynchInit, mkLayerStack None (user st))
  else Ret (NkErr_Ok, mkLayerStack vec (user st)).

Definition Layerstack_Shutdown (st : LayerStack) : outcome (NkErrorCode * LayerStack) :=
  v ← the_stack st;
  _ ← NkVectorDestroy (Some v);
  Ret (NkErr_Ok, mkLayerStack None (user st)).

(** ** Pushing and popping *)
Definition NkLayerstackPush (h : heap) (layerRef whereInd : Z) (st : LayerStack)
    : outcome (NkErrorCode * LayerStack) :=
  NK_ASSERT (negb (layerRef =? NULL)) NkErr_InOutParameter;;
  v ← the_stack st;
  let count := NkVectorGetElementCount v in
  beforeRef ← (if (count =? 0) || (whereInd =? 0) then Ret NULL else NkVectorAt v (u64 (whereInd - 1)));
  afterRef ← (if (count =? 0) || (u64 (whereInd + 1) >=? count) then Ret NULL
              else NkVectorAt v (u64 (whereInd + 1)));
  '(errCode, st) ← OnPush VT layerRef beforeRef afterRef whereInd st;
  if negb (isOk errCode) then Ret (errCode, st)
  else
    v ← get_or Undef (mp_layerStack st);
    '(errCode, v) ← NkVectorInsert h v layerRef
        (if negb (whereInd =? NK_AS_NORMAL) then whereInd else NkVectorGetElementCount v);
    let st := set_stack st v in
    Ret (errCode, if isOk errCode then AddRef VT layerRef st else st).

(** The local [layerRef] is not initialised; its value is returned whatever the
    erasure did. *)
Definition NkLayerstackPop (whereInd : Z) (st : LayerStack) : outcome (option Z * LayerStack) :=
  v ← the_stack st;
  '(_, v, eff) ← NkVectorErase v whereInd None;
  Ret (default None (head (ee_out eff)), set_stack st v).

(** ** Propagation *)

(** [n] further layers from index [i]; the vector is looked up again every time. *)
Fixpoint on_event_loop (n : nat) (i : Z) (evPtr : Ev) (st : LayerStack) : outcome (NkErrorCode * LayerStack) :=
  match n with
  | O => Ret (NkErr_NoOperation, st)
  | S n =>
      v ← get_or Undef (mp_layerStack st);
      currLayer ← NkVectorAt v i;
      NK_ASSERT (negb (currLayer =? NULL)) NkErr_ObjectState;;
      '(ec, st) ← OnEvent VT currLayer evPtr st;
      if isOk ec then Ret (NkErr_Ok, st) else on_event_loop n (i + 1) evPtr st
  end.
Definition NkLayerstackOnEvent (evPtr : Ev) (st : LayerStack) : outcome (NkErrorCode * LayerStack) :=
  v ← the_stack st;
  on_event_loop (Z.to_nat (NkVectorGetElementCount v)) 0 evPtr st.

Fixpoint on_update_loop (n : nat) (i : Z) (updTime : NkFloat) (st : LayerStack) : outcome (NkErrorCode * LayerStack) :=
  match n with
  | O => Ret (NkErr_Ok, st)
  | S n =>
      v ← get_or Undef (mp_layerStack st);
      currLayer ← NkVectorAt v i;
      NK_ASSERT (negb (currLayer =? NULL)) NkErr_ObjectState;;
      '(_, st) ← OnUpdate VT currLayer updTime st;
      on_update_loop n (i + 1) updTime st
  end.
Definition NkLayerstackOnUpdate (updTime : NkFloat) (st : LayerStack) : outcome (NkErrorCode * LayerStack) :=
  v ← the_stack st;
  on_update_loop (Z.to_nat (NkVectorGetElementCount v)) 0 updTime st.

(** From index [n - 1] down to 0. *)
Fixpoint on_render_loop (n : nat) (aheadBy : NkFloat) (st : LayerStack) : outcome (NkErrorCode * LayerStack) :=
  match n with
  | O => Ret (NkErr_Ok, st)
  | S n =>
      v ← get_or Undef (mp_layerStack st);
      currLayer ← NkVectorAt v (Z.of_nat n);
      NK_ASSERT (negb (currLayer =? NULL)) NkErr_ObjectState;;
      '(_, st) ← OnRender VT currLayer aheadBy st;
      on_render_loop n aheadBy st
  end.
Definition NkLayerstackOnRender (aheadBy : NkFloat) (st : LayerStack) : outcome (NkErrorCode * LayerStack) :=
  v ← the_stack st;
  let layerCount := NkVectorGetElementCount v in
  if layerCount =? 0 then Ret (NkErr_NoOperation, st)
  else on_render_loop (Z.to_nat layerCount) aheadBy st.

Fixpoint query_index_loop (n : nat) (i : Z) (layerRef : Z) (v : NkVector) : outcome Z :=
  match n with
  | O => Ret SIZE_MAX
  | S n =>
      x ← NkVectorAt v i;
      if x =? layerRef then Ret i else query_index_loop n (i + 1) layerRef v
  end.
Definition NkLayerstackQueryIndex (layerRef : Z) (st : LayerStack) : outcome Z :=
  NK_ASSERT (negb (layerRef =? NULL)) NkErr_InOutParameter;;
  match mp_layerStack st with
  | None => Halt NkErr_InParameter
  | Some v => query_index_loop (Z.to_nat (NkVectorGetElementCount v)) 0 layerRef v
  end.

(** ** What the stack promises *)

(** Offering an event to the layers of [l] in turn. *)
Fixpoint offer (l : list Z) (ev : Ev) (st : LayerStack) : outcome (NkErrorCode * LayerStack) :=
  match l with
  | [] => Ret (NkErr_NoOperation, st)
  | x :: l =>
      '(ec, st) ← OnEvent VT x ev st;
      if isOk ec then Ret (NkErr_Ok, st) else offer l ev st
  end.
(** Calling a method on every layer of [l] in turn. *)
Fixpoint call_all (f : Z → LayerStack → outcome (NkErrorCode * LayerStack)) (l : list Z) (st : LayerStack)
    : outcome (NkErrorCode * LayerStack) :=
  match l with
  | [] => Ret (NkErr_Ok, st)
  | x :: l => '(_, st) ← f x st; call_all f l st
  end.

Definition stack_repr (st : LayerStack) (l : list Z) : Prop :=
  ∃ v, mp_layerStack st = Some v ∧ vec_repr v l ∧ Forall (λ x, x ≠ NULL) l.
(** A method that, when it answers with a code in [P], has left the layers where they were;
    it may have pushed layers behind them.  (The lock is free while it runs, and layer.h
    forbids nothing.) *)
Definition keeps_layers (P : NkErrorCode → bool) (f : Z → LayerStack → outcome (NkErrorCode * LayerStack)) : Prop :=
  ∀ x st l ec st', stack_repr st l → f x st = Ret (ec, st') → P ec = true → ∃ l', stack_repr st' (l ++ l').
Definition declines (ec : NkErrorCode) : bool := negb (isOk ec).
Definition any_code (ec : NkErrorCode) : bool := true.
End layer.
#[global] Arguments LayerStack User : clear implicits.
#[global] Arguments NkILayer Ev User : clear implicits.

Section proofs.
Context {Ev User : Type} (VT : NkILayer Ev User).
Implicit Types (st : LayerStack User) (l : list Z).

(** ** Lemmas *)

Lemma stack_at st l v i x :
  mp_layerStack st = Some v → vec_repr v l → Forall (λ x, x ≠ NULL) l → l !! i = Some x →
  NkVectorAt v (Z.of_nat i) = Ret x ∧ NK_ASSERT (negb (x =? NULL)) NkErr_ObjectState = Ret tt.
Proof.
  intros _ Hv Hnn Hx. split; [by eapply vector_at_repr|].
  pose proof (Forall_lookup_1 _ _ _ _ Hnn Hx) as Hne. simpl in Hne. by rewrite (proj2 (Z.eqb_neq _ _) Hne).
Qed.

Lemma stack_repr_next P f x st l l' ec st' :
  keeps_layers P f → stack_repr st (l ++ l') → f x st = Ret (ec, st') → P ec = true → ∃ l'', stack_repr st' (l ++ l'').
Proof. intros Hk Hst E HP. destruct (Hk x st _ ec st' Hst E HP) as [l2 H2]. exists (l' ++ l2). by rewrite (assoc_L (++)). Qed.
(** The layer at an index of the part in front. *)
Lemma stack_front st l l' i x : stack_repr st (l ++ l') → l !! i = Some x →
  ∃ v, mp_layerStack st = Some v ∧ NkVectorAt v (Z.of_nat i) = Ret x ∧ NK_ASSERT (negb (x =? NULL)) NkErr_ObjectState = Ret tt.
Proof.
  intros (v & Hv & Hr & Hnn) Hx. exists v. split; [done|]. apply (stack_at st (l ++ l')); [done..|].
  rewrite lookup_app_l; [done|by eapply lookup_lt_Some].
Qed.

Lemma on_event_loop_offer n s ev st l l' :
  keeps_layers declines (λ y, OnEvent VT y ev) → stack_repr st (l ++ l') → (s + n)%nat = length l →
  on_event_loop VT n (Z.of_nat s) ev st = offer VT (drop s l) ev st.
Proof.
  intros Hk. revert s st l'. induction n as [|n IH]; intros s st l' Hst Hn.
  { rewrite drop_ge by lia. done. }
  destruct (lookup_lt_is_Some_2 l s) as [x Hx]; [lia|]. rewrite (drop_S _ _ _ Hx). cbn [on_event_loop offer].
  destruct (stack_front st l l' s x Hst Hx) as (v & -> & Hat & Ha). cbn [mbind outcome_bind get_or]. rewrite Hat. step. rewrite Ha. step.
  apply bind_ext. intros [ec st'] He. destruct (isOk ec) eqn:Hec; [done|].
  destruct (stack_repr_next _ _ x st l l' ec st' Hk Hst He) as [l2 H2]; [unfold declines; by rewrite Hec|].
  replace (Z.of_nat s + 1) with (Z.of_nat (S s)) by lia. eapply IH; [exact H2|lia].
Qed.

Lemma on_update_loop_all n s t st l l' :
  keeps_layers any_code (λ y, OnUpdate VT y t) → stack_repr st (l ++ l') → (s + n)%nat = length l →
  on_update_loop VT n (Z.of_nat s) t st = call_all (λ y, OnUpdate VT y t) (drop s l) st.
Proof.
  intros Hk. revert s st l'. induction n as [|n IH]; intros s st l' Hst Hn.
  { rewrite drop_ge by lia. done. }
  destruct (lookup_lt_is_Some_2 l s) as [x Hx]; [lia|]. rewrite (drop_S _ _ _ Hx). cbn [on_update_loop call_all].
  destruct (stack_front st l l' s x Hst Hx) as (v & -> & Hat & Ha). cbn [mbind outcome_bind get_or]. rewrite Hat. step. rewrite Ha. step.
  apply bind_ext. intros [ec st'] He. destruct (stack_repr_next _ _ x st l l' ec st' Hk Hst He) as [l2 H2]; [done|].
  replace (Z.of_nat s + 1) with (Z.of_nat (S s)) by lia. eapply IH; [exact H2|lia].
Qed.

Lemma on_render_loop_all n t st l l' :
  keeps_layers any_code (λ y, OnRender VT y t) → stack_repr st (l ++ l') → (n ≤ length l)%nat →
  on_render_loop VT n t st = call_all (λ y, OnRender VT y t) (reverse (take n l)) st.
Proof.
  intros Hk. revert st l'. induction n as [|n IH]; intros st l' Hst Hn; [done|].
  destruct (lookup_lt_is_Some_2 l n) as [x Hx]; [lia|].
  rewrite (take_S_r _ _ _ Hx), reverse_snoc. cbn [on_render_loop call_all].
  destruct (stack_front st l l' n x Hst Hx) as (v & -> & Hat & Ha). cbn [mbind outcome_bind get_or]. rewrite Hat. step. rewrite Ha. step.
  apply bind_ext. intros [ec st'] He. destruct (stack_repr_next _ _ x st l l' ec st' Hk Hst He) as [l2 H2]; [done|].
  eapply IH; [exact H2|lia].
Qed.

Lemma query_index_loop_spec n s layerRef v l :
  vec_repr v l → (s + n)%nat = length l →
  query_index_loop n (Z.of_nat s) layerRef v =
    Ret (match list_find (λ x, x = layerRef) (drop s l) with
         | Some (d, _) => Z.of_nat (s + d) | None => SIZE_MAX end).
Proof.
  intros Hv. revert s. induction n as [|n IH]; intros s Hn.
  { rewrite drop_ge by lia. done. }
  destruct (lookup_lt_is_Some_2 l s) as [x Hx]; [lia|]. rewrite (drop_S _ _ _ Hx). cbn [query_index_loop list_find].
  rewrite (vector_at_repr v l s x) by done. step.
  destruct (Z.eqb_spec x layerRef) as [->|Hne].
  - rewrite decide_True by done. by rewrite Nat.add_0_r.
  - rewrite decide_False by done. replace (Z.of_nat s + 1) with (Z.of_nat (S s)) by lia. rewrite IH by lia.
    destruct (list_find _ _) as [[d y]|]; simpl; [|done]. do 2 f_equal. lia.
Qed.

(** What a pass over the stack comes to. *)
Lemma stack_event ev st l :
  keeps_layers declines (λ y, OnEvent VT y ev) → stack_repr st l → NkLayerstackOnEvent VT ev st = offer VT l ev st.
Proof.
  intros Hk Hst. unfold NkLayerstackOnEvent, the_stack. pose proof Hst as (v & Hv & Hr & _).
  rewrite Hv. step. unfold NkVectorGetElementCount. rewrite (vr_count _ _ Hr), Nat2Z.id.
  apply (on_event_loop_offer (length l) 0 ev st l [] Hk); [by rewrite app_nil_r|done].
Qed.
Lemma stack_update t st l :
  keeps_layers any_code (λ y, OnUpdate VT y t) → stack_repr st l → NkLayerstackOnUpdate VT t st = call_all (λ y, OnUpdate VT y t) l st.
Proof.
  intros Hk Hst. unfold NkLayerstackOnUpdate, the_stack. pose proof Hst as (v & Hv & Hr & _).
  rewrite Hv. step. unfold NkVectorGetElementCount. rewrite (vr_count _ _ Hr), Nat2Z.id.
  apply (on_update_loop_all (length l) 0 t st l [] Hk); [by rewrite app_nil_r|done].
Qed.
Lemma stack_render t st l :
  keeps_layers any_code (λ y, OnRender VT y t) → stack_repr st l →
  NkLayerstackOnRender VT t st = (if bool_decide (l = []) then Ret (NkErr_NoOperation, st) else call_all (λ y, OnRender VT y t) (reverse l) st).
Proof.
  intros Hk Hst. unfold NkLayerstackOnRender, the_stack. pose proof Hst as (v & Hv & Hr & _).
  rewrite Hv. step. unfold NkVectorGetElementCount. rewrite (vr_count _ _ Hr), Nat2Z.id.
  case_bool_decide as Hl; [by rewrite Hl|].
  destruct (Z.eqb_spec (Z.of_nat (length l)) 0); [destruct l; simpl in *; lia || done|].
  rewrite (on_render_loop_all (length l) t st l []) by (rewrite ?app_nil_r; done). by rewrite firstn_all.
Qed.

(** ** Properties *)

(** C32: an event is offered to the layers from the first to the last and stops at
    the first handler that returns [NkErr_Ok]; the result is [NkErr_Ok] then and
    [NkErr_NoOperation] when no layer takes it.  The handlers run without the lock and
    may change the stack: the one that takes the event as it likes, the ones that
    decline it by pushing layers behind those that are there, which are not asked.  (One
    that declines and removes a layer makes the pass skip layers and fail its bounds
    assertion, [pop_in_handler].) *)
Theorem layerstack_event ev st l :
  keeps_layers declines (λ y, OnEvent VT y ev) → stack_repr st l →
  NkLayerstackOnEvent VT ev st = offer VT l ev st.
Proof. apply stack_event. Qed.

(** Updates run through the layers from the first to the last, rendering from
    the last to the first; rendering an empty stack does nothing and says so. *)
Theorem layerstack_update_render t st l :
  keeps_layers any_code (λ y, OnUpdate VT y t) → keeps_layers any_code (λ y, OnRender VT y t) → stack_repr st l →
  NkLayerstackOnUpdate VT t st = call_all (λ y, OnUpdate VT y t) l st ∧
  NkLayerstackOnRender VT t st =
    (if bool_decide (l = []) then Ret (NkErr_NoOperation, st)
     else call_all (λ y, OnRender VT y t) (reverse l) st).
Proof. intros Hu Hn Hst. split; [by apply stack_update|by apply stack_render].
Qed.

(** Pushing a layer at the index one past the last layer appends it, with one
    more reference, provided its [OnPush] accepts and the vector has room. *)
Theorem layerstack_push_append h st l layerRef st1 :
  stack_repr st l → layerRef ≠ NULL → Z.of_nat (length l) < SIZE_MAX →
  (∀ v, mp_layerStack st = Some v → m_elemCount v < m_elemCap v) →
  (∀ before, OnPush VT layerRef before NULL (Z.of_nat (length l)) st = Ret (NkErr_Ok, st1)) →
  mp_layerStack st1 = mp_layerStack st →
  ∃ st2, NkLayerstackPush VT h layerRef (Z.of_nat (length l)) st = Ret (NkErr_Ok, AddRef VT layerRef st2) ∧
    stack_repr st2 (l ++ [layerRef]) ∧ user st2 = user st1.
Proof.
  intros (v & Hv & Hr & Hnn) Href Hlen Hroom Hpush Hkeep. unfold NkLayerstackPush, the_stack.
  rewrite (proj2 (Z.eqb_neq _ _) Href), Hv. cbn [mbind outcome_bind NK_ASSERT negb]. unfold NkVectorGetElementCount.
  destruct (repr_bounds v l Hr) as (Hc & Hcap & Hrm & Hlim). rewrite Hc.
  rewrite (wrapN_small 64 (Z.of_nat (length l) + 1)) by (unfold is_u, SIZE_MAX in *; lia).
  assert (Hb : ∃ b, (if (Z.of_nat (length l) =? 0) || (Z.of_nat (length l) =? 0) then Ret NULL
                     else NkVectorAt v (u64 (Z.of_nat (length l) - 1))) = Ret b).
  { destruct (Z.eqb_spec (Z.of_nat (length l)) 0); [by eexists|]. cbn [orb].
    rewrite wrapN_small by (unfold is_u, SIZE_MAX in *; lia).
    destruct (lookup_lt_is_Some_2 l (length l - 1)) as [x Hx]; [lia|]. exists x.
    replace (Z.of_nat (length l) - 1) with (Z.of_nat (length l - 1)) by lia. by eapply vector_at_repr. }
  destruct Hb as [b ->]. step.
  destruct (Z.geb_spec (Z.of_nat (length l) + 1) (Z.of_nat (length l))); [|lia]. rewrite orb_true_r.
  step. rewrite Hpush. step. ok_step.
  rewrite Hkeep, Hv. cbn [mbind outcome_bind get_or].
  destruct (Z.eqb_spec (Z.of_nat (length l)) NK_AS_NORMAL); [unfold NK_AS_NORMAL in *; lia|]. cbn [negb].
  specialize (Hroom v Hv). unfold NkVectorInsert. change 1 with (Z.of_nat (length [layerRef])).
  rewrite (insert_multi_checks _ _ l _ _ layerRef) by (done || (simpl; lia)). cbv zeta.
  destruct (Z.gtb_spec (m_elemCount v + Z.of_nat (length [layerRef])) (m_elemCap v)); [simpl in *; lia|].
  rewrite <-Hc. destruct (vector_place_end v l [layerRef] Hr) as (v' & -> & Hr' & _); [simpl; lia|simpl; lia|].
  step. change (isOk NkErr_Ok) with true. cbv iota. eexists. split; [done|].
  split; [|done]. exists v'. split_and!; [done|done|]. apply Forall_app. by split; [|constructor].
Qed.

(** The documented way to append, [NK_AS_NORMAL], only works on an empty stack:
    on any other the look-up of the neighbour fails its bounds assertion. *)
Theorem layerstack_push_normal h st l layerRef :
  stack_repr st l → layerRef ≠ NULL → l ≠ [] → Z.of_nat (length l) < SIZE_MAX - 1 →
  NkLayerstackPush VT h layerRef NK_AS_NORMAL st = Halt NkErr_ArrayElemOutOfBounds.
Proof.
  intros (v & Hv & Hr & _) Href Hl Hlen. unfold NkLayerstackPush, the_stack.
  rewrite (proj2 (Z.eqb_neq _ _) Href), Hv. cbn [mbind outcome_bind NK_ASSERT negb]. unfold NkVectorGetElementCount.
  rewrite (vr_count _ _ Hr). destruct (Z.eqb_spec (Z.of_nat (length l)) 0); [destruct l; simpl in *; lia || done|].
  unfold NkVectorAt. change (u64 (NK_AS_NORMAL - 1)) with (SIZE_MAX - 1).
  cbn [orb]. change (NK_AS_NORMAL =? 0) with false. cbv iota.
  rewrite (vr_count _ _ Hr). destruct (Z.ltb_spec (SIZE_MAX - 1) (Z.of_nat (length l))); [lia|done].
Qed.
End proofs.

(** ** Witnesses: two layers; layer 12 handles every event; calls are logged *)
Definition log_stack : Type := LayerStack (list Z).
Definition logged (x : Z) (st : log_stack) : log_stack := mkLayerStack (mp_layerStack st) (user st ++ [x]).
Definition example_VT : NkILayer Z (list Z) := {|
  AddRef := λ x st, logged (1000 + x) st;
  OnPush := λ x before after whereInd st, Ret (NkErr_Ok, logged (2000 + x) st);
  OnEvent := λ x ev st, Ret (if x =? 12 then NkErr_Ok else NkErr_NoOperation, logged x st);
  OnUpdate := λ x t st, Ret (NkErr_Ok, logged x st);
  OnRender := λ x t st, Ret (NkErr_Ok, logged x st)
|}.
Definition example_stack : log_stack := mkLayerStack (Some (example_vec false)) [].
Lemma example_stack_repr : stack_repr example_stack [11; 12; 13].
Proof. exists (example_vec false). split_and!; [reflexivity|apply example_vec_repr|by repeat constructor]. Qed.

Lemma logged_keeps P (f : Z → log_stack → outcome (NkErrorCode * log_stack)) :
  (∀ x st, ∃ ec, f x st = Ret (ec, logged x st)) → keeps_layers P f.
Proof.
  intros Hf x st l ec st' Hst E _. destruct (Hf x st) as [e Ee]. rewrite Ee in E. injection E as _ <-.
  exists []. rewrite app_nil_r. destruct Hst as (v & Hv & Hr). by exists v.
Defined.
(** Layer 12 removes itself when it takes the event. *)
Definition leaving_VT : NkILayer Z (list Z) := {|
  AddRef := AddRef example_VT;
  OnPush := OnPush example_VT;
  OnEvent := λ x ev st, if x =? 12 then '(_, st) ← NkLayerstackPop 1 (logged x st); Ret (NkErr_Ok, st)
                        else Ret (NkErr_NoOperation, logged x st);
  OnUpdate := OnUpdate example_VT;
  OnRender := OnRender example_VT
|}.
Lemma layerstack_event_witness :
  NkLayerstackOnEvent example_VT 7 example_stack = Ret (NkErr_Ok, mkLayerStack (Some (example_vec false)) [11; 12]) ∧
  ∃ st, NkLayerstackOnEvent leaving_VT 7 example_stack = Ret (NkErr_Ok, st) ∧ stack_repr st [11; 13] ∧ user st = [11; 12].
Proof.
  split.
  - apply (layerstack_event example_VT 7 example_stack [11; 12; 13]); [|apply example_stack_repr].
    apply logged_keeps. intros x st. by eexists.
  - eexists. split.
    + rewrite (layerstack_event leaving_VT 7 example_stack [11; 12; 13]); [vm_compute; reflexivity| |apply example_stack_repr].
      intros x st l ec st' Hst E HP. cbn [OnEvent leaving_VT] in E. destruct (x =? 12).
      { apply bind_Ret_inv in E as ([o st1] & _ & E). by injection E as <- <-. }
      injection E as <- <-. exists []. rewrite app_nil_r. destruct Hst as (v & Hv & Hr). by exists v.
    + split; [|done]. eexists. split; [done|]. split; [|by repeat constructor].
      split; simpl; unfold sizeof_ptr, INT64_MAX; (reflexivity || lia).
Defined.
(** A handler that removes a layer and declines: layer 12 is skipped, and the third layer is not there. *)
Definition popping_VT : NkILayer Z (list Z) := {|
  AddRef := AddRef example_VT;
  OnPush := OnPush example_VT;
  OnEvent := λ x ev st, if x =? 11 then '(_, st) ← NkLayerstackPop 0 (logged x st); Ret (NkErr_NoOperation, st)
                        else Ret (NkErr_NoOperation, logged x st);
  OnUpdate := OnUpdate example_VT;
  OnRender := OnRender example_VT
|}.
Example pop_in_handler : NkLayerstackOnEvent popping_VT 7 example_stack = Halt NkErr_ArrayElemOutOfBounds.
Proof. by vm_compute. Qed.
Lemma layerstack_update_render_witness :
  NkLayerstackOnUpdate example_VT (S754_zero false) example_stack =
    Ret (NkErr_Ok, mkLayerStack (Some (example_vec false)) [11; 12; 13]) ∧
  NkLayerstackOnRender example_VT (S754_zero false) example_stack =
    Ret (NkErr_Ok, mkLayerStack (Some (example_vec false)) [13; 12; 11]).
Proof.
  apply (layerstack_update_render example_VT (S754_zero false) example_stack [11; 12; 13]);
    [apply logged_keeps; intros x st; by eexists..|apply example_stack_repr].
Defined.
Lemma layerstack_push_append_witness :
  ∃ st2, NkLayerstackPush example_VT strict_heap 14 3 example_stack = Ret (NkErr_Ok, logged 1014 st2) ∧
    stack_repr st2 [11; 12; 13; 14] ∧ user st2 = [2014].
Proof.
  apply (layerstack_push_append example_VT strict_heap example_stack [11; 12; 13] 14 (logged 2014 example_stack));
    [apply example_stack_repr|discriminate|reflexivity|intros v [= <-]; reflexivity|reflexivity|reflexivity].
Defined.
Lemma layerstack_push_normal_witness :
  NkLayerstackPush example_VT strict_heap 14 NK_AS_NORMAL example_stack = Halt NkErr_ArrayElemOutOfBounds.
Proof.
  apply (layerstack_push_normal example_VT strict_heap example_stack [11; 12; 13] 14);
    [apply example_stack_repr|discriminate|discriminate|reflexivity].
Defined.
