(* ===== verification/Event.v ===== *)
(** * [src/Noriko/event.c]: events and their dispatch

    An event carries the bytes of its data union.  The virtual timer
    ([__NkVirt_Timer_GetCurrentTicks]) is a parameter: the tick count it returns. *)
From S2P Require Import Prelude Float32 Vector Layer.

(** ** Data *)
Inductive NkEventType : Set :=
  | NkEv_None | NkEv_WindowOpened | NkEv_WindowClosed | NkEv_WindowGotFocus | NkEv_WindowLostFocus
  | NkEv_WindowResized | NkEv_WindowMinimized | NkEv_WindowMaximized | NkEv_WindowRestored
  | NkEv_WindowMoved | NkEv_WindowFullscreen | NkEv_WindowShown | NkEv_WindowHidden
  | NkEv_KeyboardKeyDown | NkEv_KeyboardKeyUp | NkEv_KeyboardKeyRepeated
  | NkEv_MouseButtonDown | NkEv_MouseButtonUp | NkEv_MouseMoved | NkEv_MouseScrollUp
  | NkEv_MouseScrollDown.
#[export] Instance NkEventType_eq_dec : EqDecision NkEventType.
Proof. solve_decision. Defined.

(** The enumeration in order: an event type's number is its position. *)
Definition all_event_types : list NkEventType :=
  [NkEv_None; NkEv_WindowOpened; NkEv_WindowClosed; NkEv_WindowGotFocus; NkEv_WindowLostFocus;
   NkEv_WindowResized; NkEv_WindowMinimized; NkEv_WindowMaximized; NkEv_WindowRestored;
   NkEv_WindowMoved; NkEv_WindowFullscreen; NkEv_WindowShown; NkEv_WindowHidden;
   NkEv_KeyboardKeyDown; NkEv_KeyboardKeyUp; NkEv_KeyboardKeyRepeated;
   NkEv_MouseButtonDown; NkEv_MouseButtonUp; NkEv_MouseMoved; NkEv_MouseScrollUp;
   NkEv_MouseScrollDown].
Definition NkEv_Count : Z := 21.

(** Category bits. *)
Definition NkEvCat_None : Z := 0.
Definition NkEvCat_Application : Z := 1.
Definition NkEvCat_Window : Z := 2.
Definition NkEvCat_Input : Z := 4.
Definition NkEvCat_Keyboard : Z := 8.
Definition NkEvCat_Mouse : Z := 16.
Definition NkEvCat_User : Z := 32.
Definition NkEvCat_Count : Z := 33.

Definition sizeof_NkWindowEvent : Z := 64.
Definition sizeof_NkKeyboardEvent : Z := 16.
Definition sizeof_NkMouseEvent : Z := 40.

Record EventTypeInfo := mkInfo { m_evType : NkEventType; m_evCat : Z; m_dataSize : Z; m_expectData : bool }.
Record NkEvent := mkEvent { ev_type : NkEventType; ev_cat : Z; ev_timestamp : Z; ev_data : list Z }.

Definition gl_c_EvTypeTbl : list EventTypeInfo := [
  mkInfo NkEv_None NkEvCat_None 0 false;
  mkInfo NkEv_WindowOpened NkEvCat_Window sizeof_NkWindowEvent true;
  mkInfo NkEv_WindowClosed NkEvCat_Window sizeof_NkWindowEvent true;
  mkInfo NkEv_WindowGotFocus NkEvCat_Window sizeof_NkWindowEvent true;
  mkInfo NkEv_WindowLostFocus NkEvCat_Window sizeof_NkWindowEvent true;
  mkInfo NkEv_WindowResized NkEvCat_Window sizeof_NkWindowEvent true;
  mkInfo NkEv_WindowMinimized NkEvCat_Window sizeof_NkWindowEvent true;
  mkInfo NkEv_WindowMaximized NkEvCat_Window sizeof_NkWindowEvent true;
  mkInfo NkEv_WindowRestored NkEvCat_Window sizeof_NkWindowEvent true;
  mkInfo NkEv_WindowMoved NkEvCat_Window sizeof_NkWindowEvent true;
  mkInfo NkEv_WindowFullscreen NkEvCat_Window sizeof_NkWindowEvent true;
  mkInfo NkEv_WindowShown NkEvCat_Window sizeof_NkWindowEvent true;
  mkInfo NkEv_WindowHidden NkEvCat_Window sizeof_NkWindowEvent true;
  mkInfo NkEv_KeyboardKeyDown (Z.lor NkEvCat_Input NkEvCat_Keyboard) sizeof_NkKeyboardEvent true;
  mkInfo NkEv_KeyboardKeyUp (Z.lor NkEvCat_Input NkEvCat_Keyboard) sizeof_NkKeyboardEvent true;
  mkInfo NkEv_KeyboardKeyRepeated (Z.lor NkEvCat_Input NkEvCat_Keyboard) sizeof_NkKeyboardEvent true;
  mkInfo NkEv_MouseButtonDown (Z.lor NkEvCat_Input NkEvCat_Mouse) sizeof_NkMouseEvent true;
  mkInfo NkEv_MouseButtonUp (Z.lor NkEvCat_Input NkEvCat_Mouse) sizeof_NkMouseEvent true;
  mkInfo NkEv_MouseMoved (Z.lor NkEvCat_Input NkEvCat_Mouse) sizeof_NkMouseEvent true;
  mkInfo NkEv_MouseScrollUp (Z.lor NkEvCat_Input NkEvCat_Mouse) sizeof_NkMouseEvent true;
  mkInfo NkEv_MouseScrollDown (Z.lor NkEvCat_Input NkEvCat_Mouse) sizeof_NkMouseEvent true
].

(** ** Operations; an event type arrives as a number *)
Section event.
Context {User : Type} (VT : NkILayer NkEvent User).

(** [arg] is the memory the variadic pointer argument points to. *)
Definition build_event (evType ticks : Z) (arg : list Z) : outcome NkEvent :=
  NK_ASSERT ((evType >? 0) && (evType <? NkEv_Count)) NkErr_InParameter;;
  info ← buf_get gl_c_EvTypeTbl evType;
  ty ← buf_get all_event_types evType;
  data ← (if m_expectData info then buf_read arg 0 (m_dataSize info) else Ret []);
  Ret (mkEvent ty (m_evCat info) ticks (data ++ replicate (64 - length data) 0)).

Definition NkEventDispatch (evType ticks : Z) (arg : list Z) (st : LayerStack User)
    : outcome (NkErrorCode * LayerStack User) :=
  specEvent ← build_event evType ticks arg;
  NkLayerstackOnEvent VT specEvent st.
End event.

Definition NkEventCopy (src : NkEvent) : NkEvent := src.

Definition gl_c_EventTypeStrings : list string := [
  "NkEv_None";
  "NkEv_WindowOpened"; "NkEv_WindowClosed"; "NkEv_WindowGotFocus"; "NkEv_WindowLostFocus";
  "NkEv_WindowResized"; "NkEv_WindowMinimized"; "NkEv_WindowMaximized"; "NkEv_WindowRestored";
  "NkEv_WindowMoved"; "NkEv_WindowFullscreen"; "NkEv_WindowShown"; "NkEv_WindowHidden";
  "NkEv_KeyboardKeyDown"; "NkEv_KeyboardKeyUp"; "NkEv_KeyboardKeyRepeated";
  "NkEv_MouseButtonDown"; "NkEv_MouseButtonUp"; "NkEv_MouseMoved"; "NkEv_MouseScrollUp";
  "NkEv_MouseScrollDown"]%string.
Definition NkEventQueryTypeString (evType : Z) : outcome string := buf_get gl_c_EventTypeStrings evType.

(** The string table is indexed by the category bit; entries in between are null views. *)
Definition gl_c_EventCategoryStrings (evCat : Z) : option string :=
  match evCat with
  | 0 => Some "NkEvCat_None" | 1 => Some "NkEvCat_Application" | 2 => Some "NkEvCat_Window"
  | 4 => Some "NkEvCat_Input" | 8 => Some "NkEvCat_Keyboard" | 16 => Some "NkEvCat_Mouse"
  | 32 => Some "NkEvCat_User" | _ => None
  end%string.
Definition NkEventQueryCategoryString (evCat : Z) : outcome (option string) :=
  NK_ASSERT ((evCat >=? 0) && NK_ISBITFLAG evCat && (evCat <? NkEvCat_Count)) NkErr_InParameter;;
  Ret (gl_c_EventCategoryStrings evCat).

Definition NkEventQueryCategories (evType : Z) : outcome Z :=
  NK_ASSERT ((evType >? 0) && (evType <? NkEv_Count)) NkErr_InParameter;;
  info ← buf_get gl_c_EvTypeTbl evType;
  Ret (m_evCat info).

(** ** Properties *)

(** The data every event of a type carries, by category. *)
Definition category_size (cat : Z) : Z :=
  if negb (Z.land cat NkEvCat_Window =? 0) then sizeof_NkWindowEvent
  else if negb (Z.land cat NkEvCat_Keyboard =? 0) then sizeof_NkKeyboardEvent
  else sizeof_NkMouseEvent.

Lemma event_table_row i :
  0 < i < NkEv_Count →
  ∃ info, buf_get gl_c_EvTypeTbl i = Ret info ∧ buf_get all_event_types i = Ret (m_evType info) ∧
    m_expectData info = true ∧ m_dataSize info = category_size (m_evCat info) ∧ 0 < m_dataSize info ≤ 64 ∧
    NkEventQueryCategories i = Ret (m_evCat info).
Proof.
  intros Hi. unfold NkEv_Count in Hi.
  apply (zrange_all (λ i, ∃ info, buf_get gl_c_EvTypeTbl i = Ret info ∧ buf_get all_event_types i = Ret (m_evType info) ∧
    m_expectData info = true ∧ m_dataSize info = category_size (m_evCat info) ∧ 0 < m_dataSize info ≤ 64 ∧
    NkEventQueryCategories i = Ret (m_evCat info)) 1 20); [|simpl; lia].
  repeat (constructor; [eexists; (split; [vm_compute; reflexivity|]); vm_compute; by split_and!|]). constructor.
Qed.

(** Dispatching an event type in range builds an event of exactly that type
    (row [i] of the table describes type [i]) with its category, the timestamp and
    a copy of the data of the size its category prescribes, and hands it to the
    layers; any other type number fails the assertion. *)
Theorem event_dispatch {User} (VT : NkILayer NkEvent User) i ticks arg st :
  64 ≤ Z.of_nat (length arg) →
  if (0 <? i) && (i <? NkEv_Count)
  then ∃ ty cat, all_event_types !! Z.to_nat i = Some ty ∧ NkEventQueryCategories i = Ret cat ∧
    NkEventDispatch VT i ticks arg st =
      let n := Z.to_nat (category_size cat) in
      NkLayerstackOnEvent VT (mkEvent ty cat ticks (take n arg ++ replicate (64 - n) 0)) st
  else NkEventDispatch VT i ticks arg st = Halt NkErr_InParameter.
Proof.
  intros Harg. unfold NkEventDispatch, build_event. rewrite Z.gtb_ltb.
  destruct ((0 <? i) && (i <? NkEv_Count)) eqn:E; [|done]. cbn [mbind outcome_bind NK_ASSERT].
  apply andb_true_iff in E as [E1%Z.ltb_lt E2%Z.ltb_lt].
  destruct (event_table_row i (conj E1 E2)) as (info & Hrow & Hty & Hd & Hsz & Hle & Hcat).
  exists (m_evType info), (m_evCat info). split; [by apply buf_get_Ret in Hty as [_ ?]|]. split; [done|].
  rewrite Hrow. step. rewrite Hty. step. rewrite Hd.
  rewrite buf_read_in by lia. step. change (Z.to_nat 0) with 0%nat. rewrite drop_0, Hsz. cbv zeta.
  rewrite length_take, Nat.min_l by lia. done.
Qed.

Definition event_VT : NkILayer NkEvent (list Z) := {|
  AddRef := λ x st, st;
  OnPush := λ x before after whereInd st, Ret (NkErr_Ok, st);
  OnEvent := λ x ev st, Ret (if x =? 12 then NkErr_Ok else NkErr_NoOperation,
                             mkLayerStack (mp_layerStack st) (user st ++ [ev_cat ev]));
  OnUpdate := λ x t st, Ret (NkErr_Ok, st);
  OnRender := λ x t st, Ret (NkErr_Ok, st)
|}.
(** A key press: type 13, categories Input and Keyboard. *)
Lemma event_dispatch_witness :
  ∃ ty cat, all_event_types !! 13%nat = Some ty ∧ NkEventQueryCategories 13 = Ret cat ∧
    NkEventDispatch event_VT 13 99 (zrange 0 64) (mkLayerStack (Some (example_vec false)) []) =
      let n := Z.to_nat (category_size cat) in
      NkLayerstackOnEvent event_VT (mkEvent ty cat 99 (take n (zrange 0 64) ++ replicate (64 - n) 0))
        (mkLayerStack (Some (example_vec false)) []).
Proof.
  apply (event_dispatch event_VT 13 99 (zrange 0 64) (mkLayerStack (Some (example_vec false)) [])).
  rewrite length_zrange. lia.
Defined.

(** The categories of an event type are the ones its name says. *)
Example key_event_categories : NkEventQueryCategories 13 = Ret (Z.lor NkEvCat_Input NkEvCat_Keyboard).
Proof. reflexivity. Qed.
