(* ===== verification/Timer.v ===== *)
(** * [src/Noriko/timer.c] and [wintimer.c]: timing devices

    The native counter is a parameter: every operation that reads it takes the
    tick count [now] it would get; the overhead measurement takes the stream of
    its readings. *)
From S2P Require Import Prelude Float32.

(** ** Data *)
Definition NkTiType_Elapsed : Z := 0.
Definition NkTiType_Count : Z := 1.

Record NkTimer := mkTimer {
  m_type : Z;
  m_isRunning : bool;
  m_startTime : Z;
  m_endTime : Z
}.
Record TimingDeviceContext := mkTd { m_timerFrequency : Z; m_globalBias : Z }.
(** The zero-initialised global. *)
Definition gl_tdContext : TimingDeviceContext := mkTd 0 0.

Inductive NkTimerPrecision : Set :=
  | NkTiPrec_Nanoseconds | NkTiPrec_Microseconds | NkTiPrec_Milliseconds | NkTiPrec_Seconds.
Definition prec_num (p : NkTimerPrecision) : Z :=
  match p with
  | NkTiPrec_Nanoseconds => 1000000000 | NkTiPrec_Microseconds => 1000000
  | NkTiPrec_Milliseconds => 1000 | NkTiPrec_Seconds => 1
  end.

(** ** The context *)

(** [n] more measurements; the readings of measurement [i] are [ticks (2i)] and
    [ticks (2i + 1)]. *)
Fixpoint overhead_loop (n : nat) (i : Z) (ticks : Z → Z) (diffSum : Z) : Z :=
  match n with
  | O => diffSum
  | S n => overhead_loop n (i + 1) ticks (u64 (diffSum + u64 (ticks (2 * i + 1) - ticks (2 * i))))
  end.
Definition gl_TimerBiasIterCount : Z := 1000.
Definition Timer_GetOverhead (ticks : Z → Z) : Z :=
  overhead_loop (Z.to_nat gl_TimerBiasIterCount) 0 ticks 0 / gl_TimerBiasIterCount.

Definition Timer_InitializeStaticContext (ticks : Z → Z) (cxt : TimingDeviceContext)
    : NkErrorCode * TimingDeviceContext :=
  (NkErr_Ok, mkTd (m_timerFrequency cxt) (Timer_GetOverhead ticks)).
Definition TimingDevCxt_Startup (ticks : Z → Z) (cxt : TimingDeviceContext) : NkErrorCode * TimingDeviceContext :=
  Timer_InitializeStaticContext ticks cxt.
Definition TimingDevCxt_Shutdown (cxt : TimingDeviceContext) : NkErrorCode := NkErr_Ok.

(** The native counter, as an unsigned 64-bit value. *)
Definition Virt_Timer_GetCurrentTicks (quadPart : Z) : Z := u64 quadPart.
Definition Virt_Timer_GetFrequency (quadPart : Z) : Z := u64 quadPart.
Definition NkTimerGetCurrentTicks (quadPart : Z) : Z := Virt_Timer_GetCurrentTicks quadPart.
Definition NkTimerGetFrequency (quadPart : Z) : Z := Virt_Timer_GetFrequency quadPart.

(** ** Operations *)
Definition NkTimerStart (now : Z) (t : NkTimer) : outcome NkTimer :=
  NK_ASSERT (negb (m_isRunning t)) NkErr_ObjectState;;
  let start := if m_type t =? NkTiType_Elapsed then NkTimerGetCurrentTicks now else m_startTime t in
  Ret (mkTimer (m_type t) true start (m_endTime t)).

Definition NkTimerStop (now : Z) (t : NkTimer) : outcome NkTimer :=
  NK_ASSERT (m_isRunning t) NkErr_ObjectState;;
  let stop := if m_type t =? NkTiType_Elapsed then NkTimerGetCurrentTicks now else m_endTime t in
  Ret (mkTimer (m_type t) false (m_startTime t) stop).

Definition NkTimerRestart (now1 now2 : Z) (t : NkTimer) : outcome NkTimer :=
  NK_ASSERT (m_isRunning t) NkErr_ObjectState;;
  t ← NkTimerStop now1 t;
  NkTimerStart now2 t.

Definition NkTimerCreate (tiType : Z) (isAutoStart : bool) (now : Z) : outcome (NkErrorCode * NkTimer) :=
  NK_ASSERT (NK_INRANGE_INCL tiType 0 (NkTiType_Count - 1)) NkErr_InParameter;;
  let t := mkTimer tiType false 0 0 in
  if negb (tiType =? NkTiType_Elapsed) then Ret (NkErr_NotImplemented, t)
  else if isAutoStart then t ← NkTimerStart now t; Ret (NkErr_Ok, t)
  else Ret (NkErr_Ok, t).

Definition NkTimerDestroy (now : Z) (t : option NkTimer) : outcome (option NkTimer) :=
  match t with
  | None => Ret None
  | Some t => if m_isRunning t then t ← NkTimerStop now t; Ret (Some t) else Ret (Some t)
  end.

(** The measured ticks. *)
Definition elapsed_ticks (cxt : TimingDeviceContext) (now : Z) (t : NkTimer) : Z :=
  let endTime := if m_isRunning t then NkTimerGetCurrentTicks now else m_endTime t in
  u64 (endTime - m_startTime t - m_globalBias cxt).
Definition NkElapsedTimerGetAs (cxt : TimingDeviceContext) (now : Z) (t : NkTimer) (precId : NkTimerPrecision)
    : outcome NkDouble :=
  NK_ASSERT (m_type t =? NkTiType_Elapsed) NkErr_ObjectType;;
  Ret (f64_div (f64_of_Z (elapsed_ticks cxt now t))
         (f64_div (f64_of_Z (m_timerFrequency cxt)) (f64_of_Z (prec_num precId)))).

(** ** The timer as a state machine *)
Inductive timer_step : NkTimer → NkTimer → Prop :=
  | step_start now t t' : NkTimerStart now t = Ret t' → timer_step t t'
  | step_stop now t t' : NkTimerStop now t = Ret t' → timer_step t t'
  | step_restart now1 now2 t t' : NkTimerRestart now1 now2 t = Ret t' → timer_step t t'.

Lemma timer_step_type t t' : timer_step t t' → m_type t' = m_type t ∧ is_u 64 (m_startTime t) ∧ is_u 64 (m_endTime t) →
  is_u 64 (m_startTime t') ∧ is_u 64 (m_endTime t').
Proof.
  assert (Hu : ∀ z, is_u 64 (NkTimerGetCurrentTicks z)) by (intros; apply wrapN_range; lia).
  intros Hs (Ht & H1 & H2). destruct Hs as [now t t' H|now t t' H|now1 now2 t t' H];
    unfold NkTimerRestart, NkTimerStart, NkTimerStop in H; outcome_inv; simpl in *;
    repeat case_match; simplify_eq/=; auto.
Qed.

(** ** Properties *)

(** A timer created stopped, started at tick [t0] and stopped at [t1] measures
    the ticks between the two less the calibrated overhead (modulo [2^64], so an
    interval shorter than the overhead reads as a huge one); each transition is
    refused in the other state, and the reading stays the same after the stop. *)
Theorem timer_measures cxt t0 t1 later now :
  is_u 64 t0 → is_u 64 t1 →
  ∃ c r s, NkTimerCreate NkTiType_Elapsed false now = Ret (NkErr_Ok, c) ∧
    NkTimerStop t1 c = Halt NkErr_ObjectState ∧
    NkTimerStart t0 c = Ret r ∧ NkTimerStart t1 r = Halt NkErr_ObjectState ∧
    NkTimerStop t1 r = Ret s ∧ NkTimerStop t1 s = Halt NkErr_ObjectState ∧
    elapsed_ticks cxt later s = u64 (t1 - t0 - m_globalBias cxt) ∧
    elapsed_ticks cxt t1 r = elapsed_ticks cxt later s.
Proof.
  intros H0 H1. do 3 eexists. split; [reflexivity|]. split; [reflexivity|]. split; [reflexivity|].
  split; [reflexivity|]. split; [reflexivity|]. split; [reflexivity|].
  unfold elapsed_ticks, NkTimerGetCurrentTicks, Virt_Timer_GetCurrentTicks; simpl.
  by rewrite !(wrapN_small 64 t0), !(wrapN_small 64 t1).
Qed.
Lemma timer_measures_witness :
  ∃ c r s, NkTimerCreate NkTiType_Elapsed false 0 = Ret (NkErr_Ok, c) ∧
    NkTimerStop 150 c = Halt NkErr_ObjectState ∧
    NkTimerStart 100 c = Ret r ∧ NkTimerStart 150 r = Halt NkErr_ObjectState ∧
    NkTimerStop 150 r = Ret s ∧ NkTimerStop 150 s = Halt NkErr_ObjectState ∧
    elapsed_ticks (mkTd 0 3) 999 s = u64 (150 - 100 - 3) ∧
    elapsed_ticks (mkTd 0 3) 150 r = elapsed_ticks (mkTd 0 3) 999 s.
Proof. apply (timer_measures (mkTd 0 3) 100 150 999 0); unfold is_u; lia. Defined.

Lemma div_by_zero_not_finite x s : match f64_div x (S754_zero s) with S754_infinity _ | S754_nan => True | _ => False end.
Proof. by destruct x as [| | |sx m e]. Qed.

(** After the component's startup no reading in any unit is a finite number:
    the startup calibrates the overhead but never stores the counter frequency, so
    every conversion divides by zero. *)
Theorem timer_reading_not_finite ticks t now p d :
  NkElapsedTimerGetAs (TimingDevCxt_Startup ticks gl_tdContext).2 now t p = Ret d →
  match d with S754_infinity _ | S754_nan => True | _ => False end.
Proof.
  unfold NkElapsedTimerGetAs. intros H. outcome_inv.
  destruct p; apply div_by_zero_not_finite.
Qed.
Lemma timer_reading_not_finite_witness :
  NkElapsedTimerGetAs (TimingDevCxt_Startup (λ i, 0) gl_tdContext).2 0 (mkTimer 0 false 0 1000000) NkTiPrec_Seconds
    = Ret (S754_infinity false) ∧
  match S754_infinity false with S754_infinity _ | S754_nan => True | _ => False end.
Proof.
  assert (H : NkElapsedTimerGetAs (TimingDevCxt_Startup (λ i, 0) gl_tdContext).2 0 (mkTimer 0 false 0 1000000) NkTiPrec_Seconds
    = Ret (S754_infinity false)) by (vm_compute; reflexivity).
  split; [exact H|]. exact (timer_reading_not_finite (λ i, 0) _ _ _ _ H).
Defined.
