(* ===== verification/Registry.v ===== *)
(** * The UUID registry interface

    [nkom.c] (class registry) and [application.c] (component registry) keep their
    entries in a hash table with UUID keys, 16 slots at first and a free function.
    [Registry] lists the table operations the two use, [RegistryLaws] what they
    rely on; [ht_registry] is the hash table of [HTable.v] seen through the
    interface, and [ht_registry_laws] discharges the laws for it. *)
From S2P Require Import Prelude Float32 CStr HTable.

(** ** The interface *)
Class Registry (R : Type) := {
  reg_create : NkHashtableProperties → outcome (NkErrorCode * option R);
  reg_at : R → Z → outcome (NkErrorCode * Z);
  reg_insert : R → NkHashtablePair → outcome (NkErrorCode * R);
  reg_erase : R → Z → outcome (NkErrorCode * R * list FreeCall);
  reg_destroy : option R → list FreeCall;
  reg_foreach {S : Type} : R → (NkHashtablePair → S → NkErrorCode * S) → S → NkErrorCode * S;
  reg_key : Z → list Z;             (* the UUID a key pointer stands for *)
  reg_map : R → gmap (list Z) Z;    (* the entries *)
  reg_room : R → nat → Prop         (* well formed, and [n] more entries fit *)
}.

Definition small_props (kt : NkHashtableKeyType) (props : NkHashtableProperties) : Prop :=
  m_initCap props = 16 ∧ m_minCap props = 16 ∧ 1024 ≤ m_maxCap props < 2 ^ 32 ∧
  m_keyType props = kt ∧ mp_fnElemFree props = true.
Definition registry_props : NkHashtableProperties → Prop := small_props NkHtKeyTy_Uuid.

(** What a registry promises: the operations act as the ones of a finite map, a
    removed or destroyed entry's value goes to the free function exactly once, and an
    iterator with any state of its own sees every entry exactly once, unless it stops. *)
Class RegistryLaws (R : Type) `{Registry R} : Prop := {
  reg_create_spec props : registry_props props →
    ∃ r, reg_create props = Ret (NkErr_Ok, Some r) ∧ reg_room r 256 ∧ reg_map r = ∅;
  reg_room_le r n m : (m ≤ n)%nat → reg_room r n → reg_room r m;
  reg_at_spec r k n : reg_room r n →
    reg_at r k = Ret (match reg_map r !! reg_key k with
                      | Some v => (NkErr_Ok, v)
                      | None => (NkErr_ItemNotFound, NULL)
                      end);
  reg_insert_spec r p n : reg_room r (S n) →
    ∃ r', reg_insert r p = Ret (NkErr_Ok, r') ∧ reg_room r' n ∧
      reg_map r' = match reg_map r !! reg_key (m_keyVal p) with
                   | Some _ => reg_map r
                   | None => <[reg_key (m_keyVal p) := mp_valuePtr p]> (reg_map r)
                   end;
  reg_erase_spec r k n : reg_room r n →
    match reg_map r !! reg_key k with
    | None => reg_erase r k = Ret (NkErr_ItemNotFound, r, [])
    | Some v => ∃ r' k', reg_erase r k = Ret (NkErr_Ok, r', [(Some k', v)]) ∧
        reg_room r' n ∧ reg_map r' = delete (reg_key k) (reg_map r)
    end;
  reg_destroy_spec r n : reg_room r n →
    (reg_destroy (Some r)).*2 ≡ₚ (map_to_list (reg_map r)).*2 ∧ Forall (λ c, is_Some c.1) (reg_destroy (Some r));
  reg_foreach_spec r n : reg_room r n →
    ∃ ps, (λ p, (reg_key (m_keyVal p), mp_valuePtr p)) <$> ps ≡ₚ map_to_list (reg_map r) ∧
      ∀ S (f : NkHashtablePair → S → NkErrorCode * S) st, reg_foreach r f st = visit_pairs f ps NkErr_NoOperation st
}.

(** ** The growth of a small table *)

(** The capacity before clamping, or [None] when the table is not resized. *)
Definition raw_growth (cap n : Z) : outcome (option Z) :=
  if f_ge (f32_div (f32_of_Z n) (f32_of_Z cap)) (f32_lit 3 4)
  then c ← f_to_u 32 (f_trunc (f32_div (f32_of_Z n) (f32_lit 7 20))); Ret (Some c)
  else Ret None.

Lemma grown_capacity_raw ht n :
  grown_capacity ht n =
    (g ← raw_growth (m_currCap ht) n;
     Ret (option_map (λ c, NK_CLAMP c (m_minCap (m_htProps ht)) (m_maxCap (m_htProps ht))) g)).
Proof. unfold grown_capacity, raw_growth. destruct (f_ge _ _); [by destruct (f_to_u _ _)|done]. Qed.

(** A full table is resized, and every resize makes at least twice the room. *)
Lemma full_grows n : 1 ≤ n < 1 + 512 → f_ge (f32_div (f32_of_Z n) (f32_of_Z n)) (f32_lit 3 4) = true.
Proof.
  apply (zrange_all (λ n, f_ge (f32_div (f32_of_Z n) (f32_of_Z n)) (f32_lit 3 4) = true) 1 512).
  apply (bool_decide_unpack _). vm_compute. exact I.
Qed.

Definition growth_target (n : Z) : outcome Z := f_to_u 32 (f_trunc (f32_div (f32_of_Z n) (f32_lit 7 20))).
Definition good_target (n : Z) : bool :=
  match growth_target n with Ret c => (n * 2 <=? c) && (c <=? 1024) | _ => false end.
Lemma growth_target_range n : 1 ≤ n < 1 + 256 → good_target n = true.
Proof.
  apply (zrange_all (λ n, good_target n = true) 1 256).
  apply (bool_decide_unpack _). vm_compute. exact I.
Qed.

Lemma growth_small cap n :
  1 ≤ n ≤ 256 → n ≤ cap →
  (raw_growth cap n = Ret None ∧ n < cap) ∨ ∃ c, raw_growth cap n = Ret (Some c) ∧ n < c ≤ 1024.
Proof.
  intros Hn Hcap. unfold raw_growth.
  destruct (f_ge (f32_div (f32_of_Z n) (f32_of_Z cap)) (f32_lit 3 4)) eqn:E.
  - right. pose proof (growth_target_range n ltac:(lia)) as Hg. unfold good_target, growth_target in Hg.
    destruct (f_to_u _ _) as [c| | |]; try done. apply andb_true_iff in Hg as [?%Z.leb_le ?%Z.leb_le].
    exists c. split; [done|lia].
  - left. split; [done|]. destruct (decide (n = cap)) as [->|]; [|lia].
    by rewrite full_grows in E by lia.
Qed.

(** ** The hash table as a registry *)
Section ht_registry.
Context `{KML : KeyMemoryLaws} (gl_seed : Z) (h : heap) (fuel : nat) (behind : Z → Z).
Hypothesis heap_enough : ∀ c, 16 ≤ c ≤ 1024 → is_Some (h (sizeof_ExtPair * c)).
Hypothesis fuel_enough : 1024 ≤ Z.of_nat fuel.

(** Well formed, created with 16 slots and a free function, at most 256 entries. *)
Record small_table (kt : NkHashtableKeyType) (ht : NkHashtable) (n : nat) : Prop := {
  st_ok : htable_ok ht;
  st_props : small_props kt (m_htProps ht);
  st_cap : m_elemCount ht < m_currCap ht ≤ 1024;
  st_count : 0 ≤ m_elemCount ht ∧ m_elemCount ht + Z.of_nat n ≤ 256
}.

Definition ht_create (props : NkHashtableProperties) : outcome (NkErrorCode * option NkHashtable) :=
  NkHashtableCreate h NkErr_Ok props.
#[local] Instance ht_registry : Registry NkHashtable := {
  reg_create := ht_create;
  reg_at := λ ht k, NkHashtableAt gl_seed ht k (behind k);
  reg_insert := NkHashtableInsert gl_seed h fuel;
  reg_erase := λ ht k, NkHashtableErase gl_seed ht k (behind k);
  reg_destroy := NkHashtableDestroy;
  reg_foreach := λ S, NkHashtableForEach;
  reg_key := key_repr NkHtKeyTy_Uuid;
  reg_map := ht_map;
  reg_room := small_table NkHtKeyTy_Uuid
}.

Lemma empty_table_ok kt props : small_props kt props →
  let ht := mkHashtable 0 (m_initCap props) props (replicate (Z.to_nat (m_initCap props)) empty_slot) in
  htable_ok ht ∧ ht_map ht = ∅.
Proof.
  intros (Hi & _) ht. assert (He : ht_entries ht = []).
  { unfold ht_entries, ht. simpl. by rewrite used_replicate_empty. }
  split; [|by unfold ht_map; rewrite He]. split; simpl.
  - rewrite Hi. lia.
  - rewrite length_replicate. lia.
  - by rewrite used_replicate_empty.
  - rewrite He. constructor.
Qed.

Lemma small_insert kt ht p n : small_table kt ht (S n) →
  ∃ ht', NkHashtableInsert gl_seed h fuel ht p = Ret (NkErr_Ok, ht') ∧ small_table kt ht' n ∧
    ht_map ht' = match ht_map ht !! key_repr kt (m_keyVal p) with
                 | Some _ => ht_map ht
                 | None => <[key_repr kt (m_keyVal p) := mp_valuePtr p]> (ht_map ht)
                 end.
Proof.
  intros [Hok Hp Hcap Hcnt]. pose proof Hp as (Hi & Hm & HM & Hk & Hf).
  assert (Hgrow : ∃ g, grown_capacity ht (m_elemCount ht + 1) = Ret g ∧
    m_elemCount ht + 1 < default (m_currCap ht) g ≤ 1024 ∧ (∀ c, g = Some c → 16 ≤ c ≤ 1024)).
  { rewrite grown_capacity_raw.
    destruct (growth_small (m_currCap ht) (m_elemCount ht + 1)) as [[-> ?]|(c & -> & ?)]; [lia|lia|..];
      step; eexists; (split; [done|]); simpl.
    - split; [lia|done].
    - rewrite NK_CLAMP_spec, Hm. split; [lia|]. intros ? [= <-]. lia. }
  destruct Hgrow as (g & Hg & Hroom & Hh).
  destruct (insert_spec gl_seed h fuel ht p g Hok) as (ht' & -> & Hok' & Hc' & Hp' & Hn' & Hmap);
    [lia|done|lia|lia|intros; by apply heap_enough, Hh|].
  exists ht'. split; [done|]. assert (slot_keyType ht = kt) as E by done. rewrite E in Hmap.
  split; [|done]. split; rewrite ?Hp'; try done; lia.
Qed.

(** A new table. *)
Lemma small_create kt props : small_props kt props → ∃ ht, ht_create props = Ret (NkErr_Ok, Some ht) ∧ small_table kt ht 256 ∧ ht_map ht = ∅.
Proof.
  intros Hp. pose proof Hp as (Hi & _). destruct (empty_table_ok kt props Hp) as [Hok Hm].
  unfold ht_create, NkHashtableCreate. ok_step.
  rewrite Hi in *. cbn [Z.eqb Z.mul sizeof_ExtPair Pos.mul NK_ASSERT negb mbind outcome_bind].
  destruct (heap_enough 16 ltac:(lia)) as [u Hu]. change (sizeof_ExtPair * 16) with 384 in *. rewrite Hu.
  eexists. split; [done|]. split; [|done]. split; simpl; [done|done|lia|lia].
Qed.

#[local] Instance ht_registry_laws : RegistryLaws NkHashtable.
Proof.
  split; simpl.
  - apply small_create.
  - intros ht n m Hle [? ? ? ?]. split; [done|done|done|lia].
  - intros ht k n [Hok Hp _ _]. rewrite (at_spec gl_seed ht k (behind k) Hok).
    by assert (slot_keyType ht = NkHtKeyTy_Uuid) as -> by apply Hp.
  - intros ht p n. apply small_insert.
  - intros ht k n [Hok Hp Hc Hn]. pose proof (remove_spec gl_seed ht k (behind k) Hok) as H.
    assert (slot_keyType ht = NkHtKeyTy_Uuid) as E by apply Hp. rewrite E in H.
    destruct (ht_map ht !! _); [|by destruct H].
    destruct H as (ht' & e1 & e2 & Hok' & Hm & Hcnt & Hcap & Hp' & Hfree & -> & _).
    destruct Hfree as [k' ->]; [apply Hp|done|]. exists ht', k'. split_and!; [done| |done].
    pose proof (ok_count _ Hok'). split; rewrite ?Hp'; try done; lia.
  - intros ht n [Hok Hp _ _]. unfold HashtableFreeElems.
    assert (mp_fnElemFree (m_htProps ht) = true) as -> by apply Hp.
    unfold ht_map. rewrite map_to_list_to_map by apply Hok.
    rewrite (free_elems_spec ht Hok). split; [unfold ht_entries; by rewrite <-!list_fmap_compose|].
    apply Forall_fmap, Forall_true. intros q. by eexists.
  - intros ht n [Hok Hp _ _]. exists (used (mp_elemArray ht)). split; [|by intros S f st; apply for_each_visits].
    unfold ht_map. rewrite map_to_list_to_map by apply Hok. unfold ht_entries.
    by assert (slot_keyType ht = NkHtKeyTy_Uuid) as -> by apply Hp.
Qed.
End ht_registry.

(** ** The refinement *)

(** C4: the hash table implements the registry: created with the properties of the
    class or component registry it starts empty with room for 256 entries, and as
    long as there is room, insertion, lookup, removal, iteration and destruction act
    as on a finite map and free every dropped value once, through all the resizing;
    an iterator sees every entry exactly once, until it stops. *)
Theorem registry_refinement `{KML : KeyMemoryLaws} gl_seed h fuel behind :
  (∀ c, 16 ≤ c ≤ 1024 → is_Some (h (sizeof_ExtPair * c))) → 1024 ≤ Z.of_nat fuel →
  @RegistryLaws NkHashtable (ht_registry gl_seed h fuel behind).
Proof. apply ht_registry_laws. Qed.

(** ** A concrete registry: UUID pointers 1, 2, ... stand for the UUIDs (1, 0), (2, 0), ... *)
Definition uuid_memory : KeyMemory :=
  {| key_cstr := λ _, []; key_sv := λ _, (0, 0); key_bytes := λ _ n, replicate (Z.to_nat n) 1;
     key_uuid := λ a, (a, 0) |}.
Lemma uuid_memory_laws : @KeyMemoryLaws uuid_memory.
Proof. split; [done|]. intros. apply length_replicate. Defined.
Definition example_registry : Registry NkHashtable := @ht_registry uuid_memory 77 strict_heap 1024 (λ _, 0).
Lemma example_registry_laws : @RegistryLaws NkHashtable example_registry.
Proof.
  apply (@ht_registry_laws uuid_memory uuid_memory_laws); [|lia].
  intros c Hc. unfold strict_heap, sizeof_ExtPair.
  destruct (Z.leb_spec (24 * c) INT64_MAX); [by eexists|unfold INT64_MAX in *; lia].
Defined.
Lemma registry_refinement_witness : @RegistryLaws NkHashtable example_registry.
Proof.
  apply (@registry_refinement uuid_memory uuid_memory_laws); [|lia].
  intros c Hc. unfold strict_heap, sizeof_ExtPair.
  destruct (Z.leb_spec (24 * c) INT64_MAX); [by eexists|unfold INT64_MAX in *; lia].
Defined.
Definition example_empty : NkHashtable :=
  mkHashtable 0 16 (mkHashtableProperties 32 16 16 UINT32_MAX NkHtKeyTy_Uuid true) (replicate 16 empty_slot).
(** The classes 1 and 2 registered with the value 100. *)
Definition example_classes : NkHashtable :=
  match @reg_insert _ example_registry example_empty (mkPair 1 100) with
  | Ret (_, r) => match @reg_insert _ example_registry r (mkPair 2 100) with Ret (_, r) => r | _ => example_empty end
  | _ => example_empty
  end.

Lemma small_table_check (KM : KeyMemory) (ht : NkHashtable) n :
  @htable_ok KM ht →
  bool_decide (m_initCap (m_htProps ht) = 16) && bool_decide (m_minCap (m_htProps ht) = 16) &&
  (1024 <=? m_maxCap (m_htProps ht)) && (m_maxCap (m_htProps ht) <? 2 ^ 32) &&
  bool_decide (m_keyType (m_htProps ht) = NkHtKeyTy_Uuid) && mp_fnElemFree (m_htProps ht) &&
  (m_elemCount ht <? m_currCap ht) && (m_currCap ht <=? 1024) &&
  (0 <=? m_elemCount ht) && (m_elemCount ht + Z.of_nat n <=? 256) = true → @small_table KM NkHtKeyTy_Uuid ht n.
Proof.
  intros Hok H. repeat (apply andb_true_iff in H; destruct H as [H ?]).
  repeat match goal with
  | H : bool_decide _ = true |- _ => apply bool_decide_eq_true_1 in H
  | H : (_ <=? _) = true |- _ => apply Z.leb_le in H
  | H : (_ <? _) = true |- _ => apply Z.ltb_lt in H
  end.
  split; [done|by split_and!|lia|lia].
Defined.
Lemma example_room ht n : ht = example_empty ∨ ht = example_classes → (n ≤ 200)%nat →
  @reg_room _ example_registry ht n.
Proof.
  intros Hht Hn. apply (@reg_room_le _ _ example_registry_laws ht 200 n Hn).
  destruct Hht as [-> | ->]; (apply small_table_check; [split|vm_compute; reflexivity]).
  1,5: vm_compute; done.
  1,4: vm_compute; reflexivity.
  1,3: vm_compute; reflexivity.
  all: apply (bool_decide_unpack _); vm_compute; exact I.
Defined.
