(* ===== verification/NkOM.v ===== *)
(** * [src/Noriko/nkom.c]: the object model

    Objects are reached through interface pointers; what they do is a class of
    methods acting on a world [W] ([NkObjects]).  [RefCount] and [NkObjectLaws]
    state the reference-counting contract of [include/Noriko/nkom.h].  The class
    registry is any [Registry]; the methods do not change it. *)
From S2P Require Import Prelude HTable Util Registry.

(** ** Interface IDs *)
Definition mk_uuid (fBlock sBlock tBlock ffBlock : Z) : NkUuid :=
  le_bytes 4 fBlock ++ le_bytes 2 sBlock ++ le_bytes 2 tBlock ++ le_bytes 8 ffBlock.
Definition NkINull_IID : NkUuid := mk_uuid 0 0 0 0.
Definition NkIBase_IID : NkUuid := mk_uuid 0xa2c6d745 0xf05f 0x4053 0xbb39907baaea6e6d.
Definition NkIInitializable_IID : NkUuid := mk_uuid 0xa30aaf35 0xb95d 0x422b 0xbb1bb76a0d6f6ede.
Definition NkIClassFactory_IID : NkUuid := mk_uuid 0x5fac13c3 0xad8e 0x4830 0x8fdc998823aafd44.

(** ** Objects *)

(** The methods, by interface pointer; [QueryInstantiableClasses] gives the CLSID
    pointers before the terminating null. *)
Class NkObjects (W : Type) := {
  QueryInterface : Z → NkUuid → W → outcome (NkErrorCode * Z * W);
  AddRef : Z → W → outcome W;
  Release : Z → W → outcome W;
  Initialize : Z → Z → W → outcome (NkErrorCode * W);
  QueryInstantiableClasses : Z → list Z;
  CreateInstance : Z → Z → Z → W → outcome (NkErrorCode * Z * W)
}.

(** The object behind an interface pointer, the number of its references, and
    whether it is a static object, for which [AddRef] and [Release] count nothing
    (nkom.h 331-333); [refs] of a static object only says that it can be used. *)
Class RefCount (W : Type) := { object_of : Z → Z; refs : W → Z → Z; is_static : Z → bool }.
(** What [AddRef] adds to the count of [o]. *)
Definition one `{RefCount W} (o : Z) : Z := if is_static o then 0 else 1.
(** The object has just the reference of its owner, and that one has been given up. *)
Definition only_ref `{RefCount W} (w : W) (o : Z) : Prop := if is_static o then 0 < refs w o else refs w o = 1.
Definition given_up `{RefCount W} (w : W) (o : Z) : Prop := is_static o = false → refs w o = 0.

(** Exactly the count of [o] changes, by [d]. *)
Definition counts `{RefCount W} (w w' : W) (o d : Z) : Prop :=
  refs w' o = refs w o + d ∧ ∀ o', o' ≠ o → refs w' o' = refs w o'.
(** No live object loses references. *)
Definition keeps_refs `{RefCount W} (w w' : W) : Prop := ∀ o, 0 < refs w o → refs w o ≤ refs w' o.

(** The contract of [nkom.h]. *)
Class NkObjectLaws (W : Type) `{NkObjects W} `{RefCount W} : Prop := {
  AddRef_spec p w : 0 < refs w (object_of p) →
    ∃ w', AddRef p w = Ret w' ∧ counts w w' (object_of p) (one (object_of p));
  Release_spec p w : 0 < refs w (object_of p) - one (object_of p) →
    ∃ w', Release p w = Ret w' ∧ counts w w' (object_of p) (- one (object_of p));
  Release_last p w : is_static (object_of p) = false → refs w (object_of p) = 1 →
    ∃ w', Release p w = Ret w' ∧ refs w' (object_of p) = 0;
  Release_dead p w : refs w (object_of p) ≤ 0 → Release p w = Undef;
  QueryInterface_spec p i w : 0 < refs w (object_of p) →
    ∃ e r w', QueryInterface p i w = Ret (e, r, w') ∧
      if isOk e then object_of r = object_of p ∧ counts w w' (object_of p) (one (object_of p))
      else counts w w' (object_of p) 0;
  Initialize_spec p a w : 0 < refs w (object_of p) →
    ∃ e w', Initialize p a w = Ret (e, w') ∧ refs w' (object_of p) = refs w (object_of p) ∧ keeps_refs w w';
  CreateInstance_spec p c a w : 0 < refs w (object_of p) →
    ∃ e r w', CreateInstance p c a w = Ret (e, r, w') ∧ keeps_refs w w' ∧
      (isOk e = true → only_ref w' (object_of r) ∧ object_of r ≠ object_of p)
}.

Section nkom.
Context {R W : Type} `{Registry R} `{NkObjects W}.

(** [gl_NkOMContext] and the world the objects live in. *)
Record NkOMState := mkNkOM {
  m_isInitialized : bool;
  m_isDebugEnabled : bool;
  mp_classReg : option R;
  world : W
}.
Definition set_reg (st : NkOMState) (r : option R) : NkOMState :=
  mkNkOM (m_isInitialized st) (m_isDebugEnabled st) r (world st).
Definition set_world (st : NkOMState) (w : W) : NkOMState :=
  mkNkOM (m_isInitialized st) (m_isDebugEnabled st) (mp_classReg st) w.
(** The registry; the hash-table operations assert that it exists, with code [e]. *)
Definition the_reg (e : NkErrorCode) (st : NkOMState) : outcome R :=
  match mp_classReg st with Some r => Ret r | None => Halt e end.

(** ** Startup and shutdown *)

(** The free function of the registry, run for every entry that is dropped. *)
Definition OM_DestroyClsFacFn (valPtr : Z) (w : W) : outcome W :=
  if negb (valPtr =? NULL) then Release valPtr w else Ret w.
Fixpoint run_frees (frees : list FreeCall) (w : W) : outcome W :=
  match frees with
  | [] => Ret w
  | (_, v) :: frees => w ← OM_DestroyClsFacFn v w; run_frees frees w
  end.

Definition class_reg_props : NkHashtableProperties :=
  mkHashtableProperties 32 16 16 UINT32_MAX NkHtKeyTy_Uuid true.

(** [enableDbgTools] is the flag of the application specification. *)
Definition NkOM_Startup (enableDbgTools : bool) (st : NkOMState) : outcome (NkErrorCode * NkOMState) :=
  if negb (m_isInitialized st) then
    '(errCode, reg) ← reg_create class_reg_props;
    let st := mkNkOM true enableDbgTools reg (world st) in
    if negb (isOk errCode) then Ret (errCode, mkNkOM false enableDbgTools reg (world st))
    else Ret (NkErr_Ok, st)
  else Ret (NkErr_NoOperation, mkNkOM true (m_isDebugEnabled st) (mp_classReg st) (world st)).

Definition NkOM_Shutdown (st : NkOMState) : outcome (NkErrorCode * NkOMState) :=
  if m_isInitialized st then
    w ← run_frees (reg_destroy (mp_classReg st)) (world st);
    Ret (NkErr_Ok, mkNkOM false (m_isDebugEnabled st) None w)
  else Ret (NkErr_NoOperation, st).

(** ** Class factories *)
Definition NkOMQueryFactoryForClass (clsidPtr : Z) (st : NkOMState) : outcome (NkErrorCode * Z * NkOMState) :=
  NK_ASSERT (m_isInitialized st) NkErr_ComponentState;;
  NK_ASSERT (negb (clsidPtr =? NULL)) NkErr_InParameter;;
  r ← the_reg NkErr_InParameter st;
  '(errCode, clsFac) ← reg_at r clsidPtr;
  if isOk errCode then
    w ← AddRef clsFac (world st);
    Ret (NkErr_Ok, clsFac, set_world st w)
  else Ret (NkErr_ClassNotReg, clsFac, st).

(** The classes of a factory, one after the other. *)
Fixpoint uninstall_loop (clsFac : Z) (clsids : list Z) (st : NkOMState) : outcome NkOMState :=
  match clsids with
  | [] => Ret st
  | k :: clsids =>
      r ← the_reg NkErr_InOutParameter st;
      '(_, r, frees) ← reg_erase r k;
      w ← run_frees frees (world st);
      w ← Release clsFac w;
      uninstall_loop clsFac clsids (set_world (set_reg st (Some r)) w)
  end.
Definition NkOMUninstallClassFactory (clsFac : Z) (st : NkOMState) : outcome (NkErrorCode * NkOMState) :=
  NK_ASSERT (m_isInitialized st) NkErr_ComponentState;;
  NK_ASSERT (negb (clsFac =? NULL)) NkErr_InOutParameter;;
  st ← uninstall_loop clsFac (QueryInstantiableClasses clsFac) st;
  w ← Release clsFac (world st);
  Ret (NkErr_Ok, set_world st w).

Fixpoint install_loop (clsFac : Z) (clsids : list Z) (i : Z) (st : NkOMState)
    : outcome (NkErrorCode * NkOMState) :=
  match clsids with
  | [] => Ret (NkErr_Ok, st)
  | k :: clsids =>
      r ← the_reg NkErr_InOutParameter st;
      '(errCode, r) ← reg_insert r (mkPair k clsFac);
      let st := set_reg st (Some r) in
      if negb (isOk errCode) then
        if i >? 0 then '(_, st) ← NkOMUninstallClassFactory clsFac st; Ret (errCode, st)
        else Ret (errCode, st)
      else
        w ← AddRef clsFac (world st);
        install_loop clsFac clsids (i + 1) (set_world st w)
  end.
Definition NkOMInstallClassFactory (clsFac : Z) (st : NkOMState) : outcome (NkErrorCode * NkOMState) :=
  NK_ASSERT (m_isInitialized st) NkErr_ComponentState;;
  NK_ASSERT (negb (clsFac =? NULL)) NkErr_InOutParameter;;
  install_loop clsFac (QueryInstantiableClasses clsFac) 0 st.

(** ** Instances *)

(** Running the constructor of an object that has one. *)
Definition run_initializer (tmpRes initParam : Z) (w : W) : outcome (NkErrorCode * W) :=
  '(e, initRef, w) ← QueryInterface tmpRes NkIInitializable_IID w;
  if isOk e then
    '(errCode, w) ← Initialize initRef initParam w;
    w ← (if negb (isOk errCode) then Release initRef w else Ret w);
    w ← Release tmpRes w;
    Ret (errCode, w)
  else Ret (NkErr_Ok, w).

Definition NkOMCreateInstance (clsId ctrlInst : Z) (iId : NkUuid) (initParam : Z) (st : NkOMState)
    : outcome (NkErrorCode * Z * NkOMState) :=
  NK_ASSERT (m_isInitialized st) NkErr_ComponentState;;
  NK_ASSERT (negb (clsId =? NULL)) NkErr_InParameter;;
  '(errCode, reqClsFac, st) ← NkOMQueryFactoryForClass clsId st;
  if negb (isOk errCode) then Ret (errCode, NULL, st)
  else
    '(errCode, tmpRes, w) ← CreateInstance reqClsFac clsId ctrlInst (world st);
    w ← Release reqClsFac w;
    if negb (isOk errCode) then Ret (errCode, NULL, set_world st w)
    else
      '(errCode, w) ← run_initializer tmpRes initParam w;
      if negb (isOk errCode) then Ret (errCode, NULL, set_world st w)
      else
        '(errCode, res, w) ← QueryInterface tmpRes iId w;
        if negb (isOk errCode) then
          w ← Release tmpRes w;
          Ret (errCode, NULL, set_world st w)
        else
          w ← Release res w;
          Ret (errCode, res, set_world st w).

(** ** Queries *)
Definition NkOMIsPureVirtual (iId : NkUuid) : bool := NkUuidIsEqual iId NkINull_IID.

(** The table of implementations: its UUIDs, [None] being the terminating null. *)
Fixpoint query_index_loop (infos : list (option NkUuid)) (uuid : NkUuid) (currInd : Z) : outcome Z :=
  match infos with
  | [] => Undef
  | None :: _ => Ret SIZE_MAX
  | Some u :: infos =>
      if NkUuidIsEqual uuid u then Ret currInd else query_index_loop infos uuid (u64 (currInd + 1))
  end.
Definition NkOMQueryImplementationIndex (infos : list (option NkUuid)) (uuid : NkUuid) : outcome Z :=
  query_index_loop infos uuid 0.
End nkom.
Arguments NkOMState : clear implicits.

(** ** Lemmas *)
Section proofs.
Context {R W : Type} `{RegistryLaws R} `{NkObjectLaws W}.
Implicit Types (st : NkOMState R W) (w : W).

Lemma counts_trans w1 w2 w3 o d1 d2 : counts w1 w2 o d1 → counts w2 w3 o d2 → counts w1 w3 o (d1 + d2).
Proof. intros [Ha Hb] [Hc Hd]. split; [lia|]. intros. rewrite Hd, Hb; done. Qed.
Lemma keeps_refs_trans w1 w2 w3 : keeps_refs w1 w2 → keeps_refs w2 w3 → keeps_refs w1 w3.
Proof. intros Ha Hb o Ho. pose proof (Ha o Ho). pose proof (Hb o ltac:(lia)). lia. Qed.
Lemma counts_keeps w w' o d : 0 ≤ d → counts w w' o d → keeps_refs w w'.
Proof. intros Hd [Ha Hb] o' Ho'. destruct (decide (o' = o)) as [->|]; [lia|]. by rewrite Hb. Qed.

Lemma one_bound o : 0 ≤ one o ≤ 1.
Proof. unfold one. destruct (is_static o); lia. Qed.
Lemma only_ref_live w o : only_ref w o → 0 < refs w o.
Proof. unfold only_ref. destruct (is_static o); lia. Qed.
(** One more reference, and it can be released again. *)
Lemma only_ref_more w w' o : only_ref w o → counts w w' o (one o) → 0 < refs w' o - one o.
Proof. intros Hw%only_ref_live [-> _]. lia. Qed.
Lemma only_ref_back w w1 w' o : only_ref w o → counts w w1 o (one o) → refs w' o = refs w1 o - one o → only_ref w' o.
Proof. unfold only_ref. intros Hw [Hc _] E. destruct (is_static o); lia. Qed.
Lemma only_ref_same w w' o : only_ref w o → refs w' o = refs w o → only_ref w' o.
Proof. unfold only_ref. intros Hw ->. done. Qed.
(** The owner of the only reference gives it up. *)
Lemma release_only w p : only_ref w (object_of p) → ∃ w', Release p w = Ret w' ∧ given_up w' (object_of p).
Proof.
  unfold only_ref, given_up. intros Hw. destruct (is_static (object_of p)) eqn:Hs.
  - destruct (Release_spec p w) as (w' & -> & _); [unfold one; rewrite Hs; lia|by exists w'].
  - destruct (Release_last p w Hs Hw) as (w' & -> & ?). by exists w'.
Qed.

Lemma query_factory_spec k st r n fac :
  m_isInitialized st = true → mp_classReg st = Some r → reg_room r n → k ≠ NULL →
  reg_map r !! reg_key k = Some fac → 0 < refs (world st) (object_of fac) →
  ∃ w, AddRef fac (world st) = Ret w ∧ counts (world st) w (object_of fac) (one (object_of fac)) ∧
    NkOMQueryFactoryForClass k st = Ret (NkErr_Ok, fac, set_world st w).
Proof.
  intros Hi Hr Hroom Hk Hm Hf. unfold NkOMQueryFactoryForClass, the_reg. rewrite Hi, Hr.
  rewrite (proj2 (Z.eqb_neq _ _) Hk). cbn [NK_ASSERT negb mbind outcome_bind].
  rewrite (reg_at_spec r k n Hroom), Hm. step. change (isOk NkErr_Ok) with true. cbv iota.
  destruct (AddRef_spec fac (world st) Hf) as (w & -> & Hw). by exists w.
Qed.

(** The constructor leaves a live object with its owner's reference, or gives the
    object up as the last thing. *)
Lemma run_initializer_spec x a w :
  only_ref w (object_of x) →
  ∃ e w', run_initializer x a w = Ret (e, w') ∧
    if isOk e then only_ref w' (object_of x) ∧ keeps_refs w w'
    else ∃ wl, only_ref wl (object_of x) ∧ keeps_refs w wl ∧ Release x wl = Ret w' ∧ given_up w' (object_of x).
Proof.
  intros Hx. unfold run_initializer. pose proof (only_ref_live _ _ Hx) as Hlive. pose proof (one_bound (object_of x)).
  destruct (QueryInterface_spec x NkIInitializable_IID w Hlive) as (e & i & w1 & -> & Hq).
  step. destruct (isOk e) eqn:He.
  2: { exists NkErr_Ok, w1. split; [done|]. change (isOk NkErr_Ok) with true. cbv iota.
       split; [eapply only_ref_same; [done|destruct Hq; lia]|]. by eapply counts_keeps; [|exact Hq]. }
  destruct Hq as [Hi Hq]. pose proof (only_ref_more _ _ _ Hx Hq) as Hr1.
  destruct (Initialize_spec i a w1) as (e2 & w2 & -> & Hr2 & Hk2); [rewrite Hi; lia|]. rewrite Hi in Hr2.
  assert (Hback : ∀ p w3, object_of p = object_of x → counts w2 w3 (object_of x) (- one (object_of x)) →
    only_ref w3 (object_of x) ∧ keeps_refs w w3).
  { intros p w3 _ Hw3. split; [eapply only_ref_back; [done..|destruct Hw3; lia]|].
    intros o Ho. destruct (decide (o = object_of x)) as [->|Hne]; [destruct Hw3, Hq; lia|].
    destruct Hw3 as [_ Hw3], Hq as [_ Hq]. rewrite (Hw3 o Hne), <-(Hq o Hne). apply Hk2. by rewrite (Hq o Hne). }
  step. destruct (isOk e2) eqn:He2; cbn [negb mbind outcome_bind].
  - destruct (Release_spec x w2) as (w3 & -> & Hw3); [lia|]. step.
    exists e2, w3. split; [done|]. rewrite He2. by apply (Hback x).
  - destruct (Release_spec i w2) as (w3 & -> & Hw3); [rewrite Hi; lia|]. rewrite Hi in Hw3. step.
    destruct (Hback i w3 Hi Hw3) as [Ho3 Hk3].
    destruct (release_only w3 x Ho3) as (w4 & Hw4 & Hg). rewrite Hw4. step.
    exists e2, w4. split; [done|]. rewrite He2. by exists w3.
Qed.

(** From the created object to the interface handed out. *)
Lemma hand_out_spec x iId w :
  only_ref w (object_of x) →
  ∃ e res w2 w3, QueryInterface x iId w = Ret (e, res, w2) ∧
    (if isOk e then Release res w2 = Ret w3 ∧ object_of res = object_of x ∧
       only_ref w3 (object_of x) ∧ keeps_refs w w3
     else only_ref w2 (object_of x) ∧ keeps_refs w w2 ∧ Release x w2 = Ret w3 ∧ given_up w3 (object_of x)).
Proof.
  intros Hx. pose proof (only_ref_live _ _ Hx) as Hlive.
  destruct (QueryInterface_spec x iId w Hlive) as (e & res & w2 & -> & Hq).
  destruct (isOk e) eqn:He.
  - destruct Hq as [Ho Hq]. pose proof (only_ref_more _ _ _ Hx Hq).
    destruct (Release_spec res w2) as (w3 & HR & Hw3); [rewrite Ho; lia|].
    rewrite Ho in Hw3. exists e, res, w2, w3. rewrite He.
    split_and!; try done; [eapply only_ref_back; [done..|destruct Hw3; lia]|].
    eapply (counts_keeps _ _ (object_of x) (one (object_of x) + - one (object_of x))); [lia|]. by eapply counts_trans.
  - assert (Ho : only_ref w2 (object_of x)) by (eapply only_ref_same; [done|destruct Hq; lia]).
    destruct (release_only w2 x Ho) as (w3 & HR & Hw3).
    exists e, res, w2, w3. rewrite He. split_and!; try done. by eapply counts_keeps; [|exact Hq].
Qed.

Lemma install_loop_spec fac ks i st r :
  mp_classReg st = Some r → reg_room r (length ks) → 0 < refs (world st) (object_of fac) →
  ∃ r' w', install_loop fac ks i st = Ret (NkErr_Ok, set_world (set_reg st (Some r')) w') ∧ reg_room r' 0 ∧
    counts (world st) w' (object_of fac) (one (object_of fac) * Z.of_nat (length ks)) ∧
    ∀ k, reg_map r' !! k = match reg_map r !! k with
                           | Some g => Some g
                           | None => if bool_decide (k ∈ reg_key <$> ks) then Some fac else None
                           end.
Proof.
  revert i st r. induction ks as [|k0 ks IH]; intros i st r Hr Hroom Hf; cbn [install_loop].
  { exists r, (world st). destruct st; simpl in *; subst. split_and!; [done|done|split; [lia|done]|].
    intros k. destruct (reg_map r !! k); done. }
  unfold the_reg. rewrite Hr. step.
  destruct (reg_insert_spec r (mkPair k0 fac) (length ks) Hroom) as (r1 & -> & Hroom1 & Hm1).
  cbn [mbind outcome_bind m_keyVal mp_valuePtr] in *. ok_step.
  destruct (AddRef_spec fac (world st) Hf) as (w1 & Ha & Hw1). cbn [set_reg world]. rewrite Ha. step.
  destruct (IH (i + 1) (set_world (set_reg st (Some r1)) w1) r1) as (r' & w' & -> & Hroom' & Hw' & Hm');
    [done|done|destruct Hw1; pose proof (one_bound (object_of fac)); simpl; lia|].
  exists r', w'. split_and!; [by destruct st|done| |].
  - replace (one (object_of fac) * Z.of_nat (length (k0 :: ks)))
      with (one (object_of fac) + one (object_of fac) * Z.of_nat (length ks)) by (simpl length; lia).
    by eapply counts_trans.
  - intros k. rewrite Hm', Hm1.
    assert (Hin : k ∈ reg_key <$> k0 :: ks ↔ k = reg_key k0 ∨ k ∈ reg_key <$> ks) by (by rewrite fmap_cons, elem_of_cons).
    destruct (reg_map r !! reg_key k0) as [g|] eqn:E0.
    + destruct (reg_map r !! k) eqn:Ek; [done|]. repeat case_bool_decide; naive_solver.
    + destruct (decide (k = reg_key k0)) as [->|Hne].
      * rewrite lookup_insert_eq, E0. by rewrite bool_decide_eq_true_2 by (rewrite Hin; by left).
      * rewrite lookup_insert_ne by done. destruct (reg_map r !! k); [done|]. repeat case_bool_decide; naive_solver.
Qed.

(** ** Removing classes *)

(** One class less: two releases of the factory. *)
Lemma uninstall_step fac k ks st r n :
  mp_classReg st = Some r → reg_room r n → reg_map r !! reg_key k = Some fac → fac ≠ NULL →
  ∃ r', reg_room r' n ∧ reg_map r' = delete (reg_key k) (reg_map r) ∧
    uninstall_loop fac (k :: ks) st =
      (w ← Release fac (world st); w ← Release fac w; uninstall_loop fac ks (set_world (set_reg st (Some r')) w)).
Proof.
  intros Hr Hroom Hk Hnull. cbn [uninstall_loop]. unfold the_reg. rewrite Hr. step.
  pose proof (reg_erase_spec r k n Hroom) as He. rewrite Hk in He. destruct He as (r' & k' & -> & Hroom' & Hm').
  exists r'. split; [done|]. split; [done|]. step.
  cbn [run_frees]. unfold OM_DestroyClsFacFn. rewrite (proj2 (Z.eqb_neq _ _) Hnull). cbn [negb].
  by destruct (Release fac (world st)).
Qed.

Definition registered_all (r : R) (fac : Z) (ks : list Z) : Prop :=
  NoDup (reg_key <$> ks) ∧ Forall (λ k, reg_map r !! reg_key k = Some fac) ks.
Lemma registered_all_cons r r' fac k ks :
  registered_all r fac (k :: ks) → reg_map r' = delete (reg_key k) (reg_map r) →
  reg_map r !! reg_key k = Some fac ∧ registered_all r' fac ks.
Proof.
  intros [Hnd Hall] Hm. inversion Hnd as [|? ? Hnin Hnd']. inversion Hall as [|? ? Hk Hall']. split; [done|].
  split; [done|]. apply Forall_lookup_2. intros i k' Hi. rewrite Hm, lookup_delete_ne.
  - by apply (Forall_lookup_1 _ _ _ _ Hall' Hi).
  - intros E. apply Hnin. rewrite E. by apply list_elem_of_fmap_2, (list_elem_of_lookup_2 _ i).
Qed.

Lemma uninstall_loop_spec fac ks st r n c :
  mp_classReg st = Some r → reg_room r n → registered_all r fac ks → fac ≠ NULL →
  is_static (object_of fac) = false → refs (world st) (object_of fac) = c →
  (c ≤ 2 * Z.of_nat (length ks) ∧ (st' ← uninstall_loop fac ks st; Release fac (world st')) = Undef) ∨
  (2 * Z.of_nat (length ks) < c ∧ ∃ r' w', uninstall_loop fac ks st = Ret (set_world (set_reg st (Some r')) w') ∧
     refs w' (object_of fac) = c - 2 * Z.of_nat (length ks) ∧ 
     ∀ k, reg_map r' !! k = if bool_decide (k ∈ reg_key <$> ks) then None else reg_map r !! k).
Proof.
  intros Hr Hroom Hreg Hnull Hs. assert (Hone : one (object_of fac) = 1) by (unfold one; by rewrite Hs).
  revert st r c Hr Hroom Hreg. induction ks as [|k ks IH]; intros st r c Hr Hroom Hreg Hc.
  { cbn [uninstall_loop mbind outcome_bind length]. destruct (Z.le_gt_cases c 0).
    - left. split; [lia|]. apply Release_dead. lia.
    - right. split; [lia|]. exists r, (world st). destruct st; simpl in *; subst. split_and!; [done|lia|].
      done. }
  pose proof Hreg as [_ Hall]. inversion Hall as [|? ? Hk0 _].
  destruct (uninstall_step fac k ks st r n Hr Hroom) as (r1 & Hroom1 & Hm1 & Hstep);
    [done|done|]. rewrite Hstep. clear Hstep.
  destruct (registered_all_cons _ r1 _ _ _ Hreg Hm1) as [Hk Hreg1]. cbn [length]. rewrite Nat2Z.inj_succ.
  destruct (Z.le_gt_cases c 0); [left; split; [lia|by rewrite Release_dead by lia]|].
  destruct (decide (c = 1)) as [->|].
  { left. split; [lia|]. destruct (Release_last fac (world st) Hs Hc) as (w1 & -> & Hw1). step.
    by rewrite Release_dead by lia. }
  destruct (Release_spec fac (world st)) as (w1 & -> & [Hw1 _]); [lia|]. step.
  assert (∃ w2, Release fac w1 = Ret w2 ∧ refs w2 (object_of fac) = c - 2) as (w2 & -> & Hw2).
  { destruct (decide (c = 2)) as [->|].
    - destruct (Release_last fac w1) as (w2 & ? & ?); [done|lia|]. exists w2. split; [done|lia].
    - destruct (Release_spec fac w1) as (w2 & ? & [? _]); [lia|]. exists w2. split; [done|lia]. }
  step.
  destruct (IH (set_world (set_reg st (Some r1)) w2) r1 (c - 2)) as [[Hle Hu]|(Hgt & r' & w' & -> & Hw' & Hm')];
    [done|done|done|done|..].
  - left. split; [lia|]. by rewrite Hu.
  - right. split; [lia|]. exists r', w'. split; [by destruct st|]. split; [lia|].
    intros k'. rewrite Hm', Hm1.
    assert (Hin : k' ∈ reg_key <$> k :: ks ↔ k' = reg_key k ∨ k' ∈ reg_key <$> ks) by (by rewrite fmap_cons, elem_of_cons).
    destruct (decide (k' = reg_key k)) as [->|Hne].
    + rewrite lookup_delete_eq. repeat case_bool_decide; naive_solver.
    + rewrite lookup_delete_ne by done. repeat case_bool_decide; naive_solver.
Qed.
End proofs.

(** ** A concrete world: pointers are objects, the state is their reference counts *)
Section example.
Definition example_live (w : gmap Z Z) (p : Z) : outcome Z :=
  if 0 <? default 0 (w !! p) then Ret (default 0 (w !! p)) else Undef.
(** Every interface is implemented; the constructor wants a parameter. *)
Definition example_objects (classes : list Z) : NkObjects (gmap Z Z) := {|
  QueryInterface := λ p i w, c ← example_live w p; Ret (NkErr_Ok, p, <[p := c + 1]> w);
  AddRef := λ p w, c ← example_live w p; Ret (<[p := c + 1]> w);
  Release := λ p w, c ← example_live w p; Ret (<[p := c - 1]> w);
  Initialize := λ p a w, Ret (if a =? NULL then NkErr_InParameter else NkErr_Ok, w);
  QueryInstantiableClasses := λ _, classes;
  CreateInstance := λ p c a w, let x := fresh (dom w) in Ret (NkErr_Ok, x, <[x := 1]> w)
|}.
Definition example_refs : RefCount (gmap Z Z) :=
  {| object_of := λ p, p; refs := λ w o, default 0 (w !! o); is_static := λ _, false |}.

Lemma example_counts (w : gmap Z Z) p d :
  @counts _ example_refs w (<[p := default 0 (w !! p) + d]> w) p d.
Proof.
  split; simpl; [by rewrite lookup_insert_eq|]. intros. by rewrite lookup_insert_ne.
Defined.
Lemma example_live_spec w p : 0 < default 0 (w !! p) → example_live w p = Ret (default 0 (w !! p)).
Proof. intros. unfold example_live. by rewrite (proj2 (Z.ltb_lt _ _)). Defined.

Lemma example_object_laws classes : @NkObjectLaws _ (example_objects classes) example_refs.
Proof.
  split; simpl; intros.
  - rewrite example_live_spec by done. eexists. split; [done|]. apply example_counts.
  - rewrite example_live_spec by (unfold one in *; simpl in *; lia). eexists. split; [done|]. apply (example_counts w p (-1)).
  - rewrite example_live_spec by lia. eexists. split; [done|]. simpl. rewrite lookup_insert_eq. simpl. lia.
  - unfold example_live. by rewrite (proj2 (Z.ltb_ge _ _)).
  - rewrite example_live_spec by done. do 3 eexists. split; [done|]. split; [done|]. apply example_counts.
  - do 2 eexists. split; [done|]. split; [done|]. by intros o Ho.
  - assert (Hf : ∀ o, 0 < default 0 (w !! o) → o ≠ fresh (dom w)).
    { intros o Ho ->. pose proof (is_fresh (dom w)) as Hn. apply not_elem_of_dom in Hn. by rewrite Hn in Ho. }
    do 3 eexists. split; [done|]. split.
    + intros o Ho. simpl in *. by rewrite lookup_insert_ne by (by apply not_eq_sym, Hf).
    + intros _. unfold only_ref. simpl. rewrite lookup_insert_eq. split; [done|]. by apply not_eq_sym, Hf.
Defined.
End example.

(** ** Properties *)
Section properties.
Context {R W : Type} `{RegistryLaws R} `{NkObjectLaws W}.

(** C9: creating an instance of a registered class runs the factory's
    [CreateInstance] holding a reference to the factory, which is given back right
    after it, so that the factory ends with at least the references it had. When
    [CreateInstance] fails, its code is returned with a null pointer and nothing else
    happens; on success the caller gets an interface of the created object holding
    its only reference; on any failure after the creation (constructor or interface
    query) it gets a null pointer, and giving up the object is the last thing done,
    up to which the factory has lost nothing.  Objects may be static, that is not
    count their references. *)
Theorem om_create_instance (st : NkOMState R W) r n k ctrlInst iId initParam fac :
  m_isInitialized st = true → mp_classReg st = Some r → reg_room r n → k ≠ NULL →
  reg_map r !! reg_key k = Some fac → 0 < refs (world st) (object_of fac) →
  ∃ w0 ec x w1 w2 e res w',
    AddRef fac (world st) = Ret w0 ∧ CreateInstance fac k ctrlInst w0 = Ret (ec, x, w1) ∧
    Release fac w1 = Ret w2 ∧ counts w1 w2 (object_of fac) (- one (object_of fac)) ∧
    refs (world st) (object_of fac) ≤ refs w2 (object_of fac) ∧
    NkOMCreateInstance k ctrlInst iId initParam st = Ret (e, res, set_world st w') ∧
    if isOk ec then
      if isOk e
      then object_of res = object_of x ∧ only_ref w' (object_of x) ∧
           refs (world st) (object_of fac) ≤ refs w' (object_of fac)
      else res = NULL ∧ ∃ wl, only_ref wl (object_of x) ∧
           refs (world st) (object_of fac) ≤ refs wl (object_of fac) ∧
           Release x wl = Ret w' ∧ given_up w' (object_of x)
    else e = ec ∧ res = NULL ∧ w' = w2.
Proof.
  intros Hi Hr Hroom Hk Hm Hf. unfold NkOMCreateInstance. rewrite Hi, (proj2 (Z.eqb_neq _ _) Hk).
  destruct (query_factory_spec k st r n fac) as (w0 & Ha & Hc0 & ->); [done..|].
  cbn [NK_ASSERT negb mbind outcome_bind world set_world]. ok_step.
  pose proof (one_bound (object_of fac)).
  destruct (CreateInstance_spec fac k ctrlInst w0) as (ec & x & w1 & Hcr & Hk1 & Hx); [destruct Hc0; lia|].
  rewrite Hcr. step.
  assert (H01 : refs (world st) (object_of fac) + one (object_of fac) ≤ refs w1 (object_of fac)).
  { destruct Hc0 as [Hc0 _]. rewrite <-Hc0. apply Hk1. lia. }
  destruct (Release_spec fac w1) as (w2 & HR & Hw2); [lia|]. rewrite HR. step.
  assert (H02 : refs (world st) (object_of fac) ≤ refs w2 (object_of fac)) by (destruct Hw2; lia).
  destruct (isOk ec) eqn:Hec; cbn [negb].
  2: { exists w0, ec, x, w1, w2, ec, NULL, w2. rewrite Hec. by split_and!. }
  destruct (Hx eq_refl) as [Hx1 Hne].
  assert (Hx2 : only_ref w2 (object_of x)) by (eapply only_ref_same; [done|by apply Hw2]).
  destruct (run_initializer_spec x initParam w2 Hx2) as (e3 & w3 & -> & H3'). step.
  destruct (isOk e3) eqn:He3; cbn [negb].
  2: { destruct H3' as (wl & Hl & Hkl & HRl & Hg). exists w0, ec, x, w1, w2, e3, NULL, w3. rewrite Hec, He3.
       split_and!; try done. exists wl. split_and!; try done. etrans; [exact H02|]. apply Hkl. lia. }
  destruct H3' as [Hx3 Hk3]. assert (H03 : refs w2 (object_of fac) ≤ refs w3 (object_of fac)) by (apply Hk3; lia).
  destruct (hand_out_spec x iId w3 Hx3) as (e & res & w4 & w5 & -> & H5). step.
  destruct (isOk e) eqn:He; cbn [negb].
  - destruct H5 as (-> & ? & ? & Hk5). assert (refs w3 (object_of fac) ≤ refs w5 (object_of fac)) by (apply Hk5; lia).
    exists w0, ec, x, w1, w2, e, res, w5. rewrite Hec, He. split_and!; try done. lia.
  - destruct H5 as (Ho4 & Hk4 & HR4 & ?). rewrite HR4.
    exists w0, ec, x, w1, w2, e, NULL, w5. rewrite Hec, He. split_and!; try done.
    exists w4. split_and!; try done. etrans; [exact H02|]. etrans; [exact H03|]. apply Hk4. lia.
Qed.

(** Installing a factory registers it for each of its classes that has no
    factory yet, leaves the classes that have one with theirs, and takes one
    reference per class of the factory in either case (none when it is static); a class that was free is
    then found by [NkOMQueryFactoryForClass]. *)
Theorem om_install (st : NkOMState R W) r fac :
  m_isInitialized st = true → mp_classReg st = Some r → fac ≠ NULL →
  reg_room r (length (QueryInstantiableClasses fac)) → 0 < refs (world st) (object_of fac) →
  ∃ r' w', NkOMInstallClassFactory fac st = Ret (NkErr_Ok, set_world (set_reg st (Some r')) w') ∧
    refs w' (object_of fac) =
      refs (world st) (object_of fac) + one (object_of fac) * Z.of_nat (length (QueryInstantiableClasses fac)) ∧
    (∀ k, reg_map r' !! k = match reg_map r !! k with
                            | Some g => Some g
                            | None => if bool_decide (k ∈ reg_key <$> QueryInstantiableClasses fac)
                                      then Some fac else None
                            end) ∧
    ∀ k, k ∈ QueryInstantiableClasses fac → k ≠ NULL → reg_map r !! reg_key k = None →
      ∃ st'', NkOMQueryFactoryForClass k (set_world (set_reg st (Some r')) w') = Ret (NkErr_Ok, fac, st'').
Proof.
  intros Hi Hr Hnull Hroom Hf. unfold NkOMInstallClassFactory. rewrite Hi, (proj2 (Z.eqb_neq _ _) Hnull).
  cbn [NK_ASSERT negb mbind outcome_bind].
  destruct (install_loop_spec fac (QueryInstantiableClasses fac) 0 st r) as (r' & w' & -> & Hroom' & Hw' & Hm'); [done..|].
  exists r', w'. split; [done|]. split; [apply Hw'|]. split; [done|]. intros k Hk Hknull Hfree.
  destruct (query_factory_spec k (set_world (set_reg st (Some r')) w') r' 0 fac) as (w2 & _ & _ & ->);
    [done|done|done|done| |destruct Hw'; pose proof (one_bound (object_of fac)); simpl; nia|by eexists].
  rewrite Hm', Hfree. by rewrite bool_decide_eq_true_2 by (by apply list_elem_of_fmap_2).
Qed.

(** Uninstalling a factory that counts its references drops two references per class (one when the
    registry entry is freed, one explicitly) and one more, although installing took
    one per class.  With [2n] references or fewer, as the [1 + n] left by the
    installation for its owner, it uses the factory after it was destroyed. *)
Theorem om_uninstall (st : NkOMState R W) r n fac :
  m_isInitialized st = true → mp_classReg st = Some r → fac ≠ NULL → reg_room r n →
  registered_all r fac (QueryInstantiableClasses fac) → is_static (object_of fac) = false →
  if bool_decide (refs (world st) (object_of fac) ≤ 2 * Z.of_nat (length (QueryInstantiableClasses fac)))
  then NkOMUninstallClassFactory fac st = Undef
  else ∃ r' w', NkOMUninstallClassFactory fac st = Ret (NkErr_Ok, set_world (set_reg st (Some r')) w') ∧
    refs w' (object_of fac) =
      refs (world st) (object_of fac) - 2 * Z.of_nat (length (QueryInstantiableClasses fac)) - 1 ∧
    ∀ k, k ∈ QueryInstantiableClasses fac → reg_map r' !! reg_key k = None.
Proof.
  intros Hi Hr Hnull Hroom Hreg Hs. assert (Hone : one (object_of fac) = 1) by (unfold one; by rewrite Hs).
  unfold NkOMUninstallClassFactory. rewrite Hi, (proj2 (Z.eqb_neq _ _) Hnull).
  cbn [NK_ASSERT negb mbind outcome_bind].
  destruct (uninstall_loop_spec fac (QueryInstantiableClasses fac) st r n _ Hr Hroom Hreg Hnull Hs eq_refl)
    as [[Hle Hu]|(Hgt & r' & w' & -> & Hw' & Hm')].
  - rewrite bool_decide_eq_true_2 by done. destruct (uninstall_loop _ _ st) as [st1| | |]; try done.
    cbn [mbind outcome_bind] in *. by rewrite Hu.
  - rewrite bool_decide_eq_false_2 by lia. cbn [mbind outcome_bind world set_world].
    assert (∃ w2, Release fac w' = Ret w2 ∧ refs w2 (object_of fac) = refs w' (object_of fac) - 1) as (w2 & -> & Hw2).
    { destruct (decide (refs w' (object_of fac) = 1)) as [E|].
      - destruct (Release_last fac w' Hs E) as (w2 & ? & ?). exists w2. split; [done|lia].
      - destruct (Release_spec fac w') as (w2 & ? & [? _]); [lia|]. exists w2. split; [done|lia]. }
    exists r', w2. split; [done|]. split; [lia|]. intros k Hk. rewrite Hm'.
    by rewrite bool_decide_eq_true_2 by (by apply list_elem_of_fmap_2).
Qed.
End properties.

(** ** Witnesses: the hash table as class registry, factory 100 with the classes 1 and 2 *)
Definition example_state (r : NkHashtable) (count : Z) : NkOMState NkHashtable (gmap Z Z) :=
  mkNkOM true false (Some r) {[100 := count]}.

Lemma om_create_instance_witness : let initParam := NULL in
  ∃ w0 ec x w1 w2 e res w',
    @AddRef _ (example_objects [1; 2]) 100 {[100 := 3]} = Ret w0 ∧
    @CreateInstance _ (example_objects [1; 2]) 100 1 NULL w0 = Ret (ec, x, w1) ∧
    @Release _ (example_objects [1; 2]) 100 w1 = Ret w2 ∧ @counts _ example_refs w1 w2 100 (-1) ∧
    3 ≤ default 0 (w2 !! 100) ∧
    @NkOMCreateInstance _ _ example_registry (example_objects [1; 2]) 1 NULL NkIBase_IID initParam (example_state example_classes 3) =
      Ret (e, res, set_world (example_state example_classes 3) w') ∧
    if isOk ec then
      if isOk e
      then res = x ∧ default 0 (w' !! x) = 1 ∧ 3 ≤ default 0 (w' !! 100)
      else res = NULL ∧ ∃ wl, default 0 (wl !! x) = 1 ∧ 3 ≤ default 0 (wl !! 100) ∧
           @Release _ (example_objects [1; 2]) x wl = Ret w' ∧ @given_up _ example_refs w' x
    else e = ec ∧ res = NULL ∧ w' = w2.
Proof.
  intros initParam. apply (@om_create_instance _ _ example_registry example_registry_laws (example_objects [1; 2]) example_refs
    (example_object_laws _) (example_state example_classes 3) example_classes 0 1 NULL NkIBase_IID initParam 100).
  - done.
  - done.
  - apply example_room; [by right|lia].
  - done.
  - vm_compute. reflexivity.
  - vm_compute. reflexivity.
Defined.

Lemma om_install_witness :
  ∃ r' w', @NkOMInstallClassFactory _ _ example_registry (example_objects [1; 2]) 100 (example_state example_empty 1) =
      Ret (NkErr_Ok, set_world (set_reg (example_state example_empty 1) (Some r')) w') ∧
    default 0 (w' !! 100) = 1 + 2 ∧
    (∀ k, @reg_map _ example_registry r' !! k =
       match @reg_map _ example_registry example_empty !! k with
       | Some g => Some g
       | None => if bool_decide (k ∈ [[1; 0]; [2; 0]]) then Some 100 else None
       end) ∧
    ∀ k, k ∈ [1; 2] → k ≠ NULL → @reg_map _ example_registry example_empty !! @reg_key _ example_registry k = None →
      ∃ st'', @NkOMQueryFactoryForClass _ _ example_registry (example_objects [1; 2]) k
        (set_world (set_reg (example_state example_empty 1) (Some r')) w') = Ret (NkErr_Ok, 100, st'').
Proof.
  apply (@om_install _ _ example_registry example_registry_laws (example_objects [1; 2]) example_refs
    (example_object_laws _) (example_state example_empty 1) example_empty 100).
  - done.
  - done.
  - done.
  - apply example_room; [by left|simpl; lia].
  - vm_compute. reflexivity.
Defined.

Lemma om_uninstall_witness :
  @NkOMUninstallClassFactory _ _ example_registry (example_objects [1; 2]) 100 (example_state example_classes 3) = Undef.
Proof.
  apply (@om_uninstall _ _ example_registry example_registry_laws (example_objects [1; 2]) example_refs
    (example_object_laws _) (example_state example_classes 3) example_classes 0 100).
  - done.
  - done.
  - done.
  - apply example_room; [by right|lia].
  - split.
    + apply (bool_decide_unpack _). vm_compute. exact I.
    + repeat constructor; vm_compute; reflexivity.
  - done.
Defined.
