(* ===== verification/App.v ===== *)
(** * [src/Noriko/application.c] and [winloop.c]: startup, shutdown, main loop

    The application state is [gl_Application], the world the components and the
    objects live in, and the log of the stages that were run ([NK_LOG_INFO] in
    [__NkInt_Application_InvokeCompCallback]).  The components' own startup and
    shutdown functions are parameters acting on the world; the three internal
    callbacks (command line, NkOM) are modelled.  The component registry is any
    [Registry]. *)
From S2P Require Import Prelude Float32 HTable Util Registry NkOM.

(** ** Data *)
Definition NkCompCb_PreStartup : Z := 0.
Definition NkCompCb_Startup : Z := 1.
Definition NkCompCb_PostStartup : Z := 2.
Definition NkCompCb_PreShutdown : Z := 3.
Definition NkCompCb_Shutdown : Z := 4.
Definition NkCompCb_PostShutdown : Z := 5.
Definition NkCompCb_Count : Z := 6.

(** The fields of the specification this file reads. *)
Record NkApplicationSpecification := mkSpec {
  m_enableDbgTools : bool;
  m_allowedWndModes : Z;
  m_argc : Z;
  mp_argv : Z
}.

Section app.
Context {R W : Type} `{Registry R} `{NkObjects W}.

(** [gl_Application].  [m_compSucc] is the array of three flags followed by the
    bytes the shutdown stages reach behind it (see [Application_InvokeCompCallback]). *)
Record Application := mkApp {
  m_appSpecs : NkApplicationSpecification;
  mp_compReg : option R;
  m_isStandalone : bool;
  m_compIndex : Z;
  m_compSucc : list bool;
  stage_log : list (Z * Z * bool);
  app_world : W
}.
Definition with_world (st : Application) (w : W) : Application :=
  mkApp (m_appSpecs st) (mp_compReg st) (m_isStandalone st) (m_compIndex st) (m_compSucc st) (stage_log st) w.
Definition with_reg (st : Application) (r : option R) : Application :=
  mkApp (m_appSpecs st) r (m_isStandalone st) (m_compIndex st) (m_compSucc st) (stage_log st) (app_world st).
Definition with_standalone (st : Application) (b : bool) : Application :=
  mkApp (m_appSpecs st) (mp_compReg st) b (m_compIndex st) (m_compSucc st) (stage_log st) (app_world st).
Definition with_init_info (st : Application) (i : Z) (succ : list bool) : Application :=
  mkApp (m_appSpecs st) (mp_compReg st) (m_isStandalone st) i succ (stage_log st) (app_world st).
Definition log_stage (st : Application) (e : Z * Z * bool) : Application :=
  mkApp (m_appSpecs st) (mp_compReg st) (m_isStandalone st) (m_compIndex st) (m_compSucc st)
    (stage_log st ++ [e]) (app_world st).

Definition Callback : Type := Application → outcome (NkErrorCode * Application).
Record NkComponent := mkComponent {
  m_compIdent : string;
  mp_clsId : Z;
  m_isNkOM : bool;
  mp_fnQueryInst : option (W → outcome (Z * W));
  mp_fnStartup : option Callback;
  mp_fnShutdown : option Callback
}.
Record ExtComponent := mkExtComponent {
  mp_compInfo : NkComponent;
  mp_preStFn : option Callback;
  mp_postStFn : option Callback;
  mp_preShFn : option Callback;
  mp_postShFn : option Callback
}.

(** ** The component registry *)
Definition the_compReg (e : NkErrorCode) (st : Application) : outcome R :=
  match mp_compReg st with Some r => Ret r | None => Halt e end.

(** [__NkInt_NkOM_CompRegDestFn] for every entry that is dropped. *)
Definition NkOM_CompRegDestFn (c : FreeCall) (w : W) : outcome W :=
  NK_ASSERT (match c.1 with Some _ => true | None => false end) NkErr_InOutParameter;;
  if negb (c.2 =? NULL) then Release c.2 w else Ret w.
Fixpoint comp_frees (frees : list FreeCall) (w : W) : outcome W :=
  match frees with
  | [] => Ret w
  | c :: frees => w ← NkOM_CompRegDestFn c w; comp_frees frees w
  end.

(** The answer of [NkHashtableAt] is not looked at unless it is [NkErr_Ok]. *)
Definition NkApplicationQueryInstance (clsId : Z) (st : Application) : outcome (Z * Application) :=
  NK_ASSERT (negb (clsId =? NULL)) NkErr_InParameter;;
  r ← the_compReg NkErr_InParameter st;
  '(errCode, res) ← reg_at r clsId;
  if negb (isOk errCode) then Ret (NULL, st)
  else
    w ← AddRef res (app_world st);
    Ret (res, with_world st w).

Definition NkApplicationReplaceInstance (clsId newCompRef : Z) (st : Application) : outcome Application :=
  NK_ASSERT (negb (clsId =? NULL)) NkErr_InParameter;;
  r ← the_compReg NkErr_InOutParameter st;
  '(_, r, frees) ← reg_erase r clsId;
  w ← comp_frees frees (app_world st);
  let st := with_world (with_reg st (Some r)) w in
  if negb (newCompRef =? NULL) then
    '(_, r) ← reg_insert r (mkPair clsId newCompRef);
    w ← AddRef newCompRef w;
    Ret (with_world (with_reg st (Some r)) w)
  else Ret st.

Definition comp_reg_props : NkHashtableProperties := mkHashtableProperties 32 16 16 1024 NkHtKeyTy_Uuid true.

Definition NkOM_PostStartup : Callback := λ st,
  '(errCode, reg) ← reg_create comp_reg_props;
  Ret (errCode, with_reg st reg).
(** The iterator [__NkInt_NkOM_CompRegIterFn] reads the registered object as if it
    were an entry of the component table: a visit to any entry is undefined. *)
Definition NkOM_PreShutdown : Callback := λ st,
  r ← the_compReg NkErr_InParameter st;
  if (reg_foreach r (λ _ _, (NkErr_Ok, true)) false).2 : bool then Undef
  else
    w ← comp_frees (reg_destroy (Some r)) (app_world st);
    Ret (NkErr_Ok, with_world (with_reg st None) w).

(** ** The component table *)

(** The functions of the components (by table index), the class IDs and instances of
    the four that are NkOM objects, and what the command line says. *)
Record Components := mkComponents {
  comp_startup : Z → W → outcome (NkErrorCode * W);
  comp_shutdown : Z → W → outcome (NkErrorCode * W);
  comp_clsId : Z → Z;
  comp_instance : Z → W → outcome (Z * W);
  env_attached : W → outcome NkErrorCode     (* [NkEnvGetValue("attached", ...)] *)
}.
Context (C : Components).

Definition lift (f : W → outcome (NkErrorCode * W)) : Callback := λ st,
  '(e, w) ← f (app_world st); Ret (e, with_world st w).
Definition Env_PostStartup : Callback := λ st,
  e ← env_attached C (app_world st);
  Ret (NkErr_Ok, with_standalone st (negb (isOk e))).

Definition plain (i : Z) (ident : string) : NkComponent :=
  mkComponent ident NULL false None (Some (lift (comp_startup C i))) (Some (lift (comp_shutdown C i))).
Definition object (i : Z) (ident : string) : NkComponent :=
  mkComponent ident (comp_clsId C i) true (Some (comp_instance C i))
    (Some (lift (comp_startup C i))) (Some (lift (comp_shutdown C i))).
Definition entry (c : NkComponent) : ExtComponent := mkExtComponent c None None None None.

Definition gl_c_CompInitTable : list ExtComponent := [
  entry (plain 0 "logging");
  entry (plain 1 "allocators");
  entry (plain 2 "PRNG");
  entry (plain 3 "timing device context");
  mkExtComponent (plain 4 "command-line") None (Some Env_PostStartup) None None;
  mkExtComponent (plain 5 "Noriko Object Model (NkOM)") None (Some NkOM_PostStartup) (Some NkOM_PreShutdown) None;
  entry (plain 6 "path services");
  entry (object 7 "I/O services");
  entry (object 8 "input abstraction layer (IAL)");
  entry (plain 9 "renderer factory");
  entry (plain 10 "layerstack");
  entry (object 11 "window");
  entry (plain 12 "sqlite3 database services");
  entry (object 13 "asset manager");
  entry (plain 14 "world layer")
].
Definition gl_c_CompInitTblSize : Z := Z.of_nat (length gl_c_CompInitTable).

(** ** Stages *)

(** Later failures overwrite earlier ones. *)
Definition ValidateAppSpecification (specs : NkApplicationSpecification) : NkErrorCode :=
  let errCode := NkErr_Ok in
  let errCode := if m_argc specs >? 0 then errCode else NkErr_InParameter in
  let errCode := if negb (mp_argv specs =? NULL) then errCode else NkErr_InptrParameter in
  if negb (Z.land (m_allowedWndModes specs) NkWndMode_Normal =? 0) then errCode else NkErr_InParameter.

Definition callback_of (comp : ExtComponent) (cbIndex : Z) : option Callback :=
  match cbIndex with
  | 0 => mp_preStFn comp
  | 1 => mp_fnStartup (mp_compInfo comp)
  | 2 => mp_postStFn comp
  | 3 => mp_preShFn comp
  | 4 => mp_fnShutdown (mp_compInfo comp)
  | _ => mp_postShFn comp
  end.
Definition QueryCompCallback (index cbIndex : Z) : outcome (option Callback) :=
  NK_ASSERT (NK_INRANGE_INCL index 0 (gl_c_CompInitTblSize - 1)) NkErr_InParameter;;
  NK_ASSERT (NK_INRANGE_INCL cbIndex 0 (NkCompCb_Count - 1)) NkErr_InParameter;;
  comp ← buf_get gl_c_CompInitTable index;
  Ret (callback_of comp cbIndex).

Definition QueryOppositeCbIndex (cb : Z) : outcome Z :=
  NK_ASSERT (NK_INRANGE_INCL cb 0 (NkCompCb_Count - 1)) NkErr_InParameter;;
  buf_get [NkCompCb_PostShutdown; NkCompCb_Shutdown; NkCompCb_PreShutdown;
           NkCompCb_PostStartup; NkCompCb_Startup; NkCompCb_PreStartup] cb.

(** The result of every stage is stored at [m_compSucc[cbIndex]], the shutdown
    stages' at the indices 3 to 5 of an array of three. *)
Definition Application_InvokeCompCallback (index cbIndex : Z) (st : Application)
    : outcome (NkErrorCode * Application) :=
  compCb ← QueryCompCallback index cbIndex;
  let st := log_stage st (index, cbIndex, match compCb with Some _ => true | None => false end) in
  '(errCode, st) ← match compCb with Some f => f st | None => Ret (NkErr_Ok, st) end;
  succ ← buf_set (m_compSucc st) cbIndex (isOk errCode);
  Ret (errCode, with_init_info st index succ).

(** ** Startup and shutdown *)
Definition startup_stages (i : Z) (st : Application) : outcome (NkErrorCode * Application) :=
  '(errCode, st) ← Application_InvokeCompCallback i NkCompCb_PreStartup st;
  if negb (isOk errCode) then Ret (errCode, st)
  else
    '(errCode, st) ← Application_InvokeCompCallback i NkCompCb_Startup st;
    if negb (isOk errCode) then Ret (errCode, st)
    else Application_InvokeCompCallback i NkCompCb_PostStartup st.

Definition register_component (comp : NkComponent) (st : Application) : outcome Application :=
  if m_isNkOM comp then
    match mp_fnQueryInst comp with
    | Some f => '(inst, w) ← f (app_world st); NkApplicationReplaceInstance (mp_clsId comp) inst (with_world st w)
    | None => Undef
    end
  else Ret st.

Fixpoint startup_loop (n : nat) (i : Z) (st : Application) : outcome (NkErrorCode * Application) :=
  match n with
  | O => Ret (NkErr_Ok, st)
  | S n =>
      comp ← buf_get gl_c_CompInitTable i;
      '(errCode, st) ← startup_stages i st;
      if negb (isOk errCode) then Ret (errCode, st)
      else st ← register_component (mp_compInfo comp) st; startup_loop n (i + 1) st
  end.

(** [tail] is the number of bytes behind the three flags that can be written. *)
Definition NkApplicationStartup (tail : nat) (specs : NkApplicationSpecification) (st : Application)
    : outcome (NkErrorCode * Application) :=
  let errCode := ValidateAppSpecification specs in
  if negb (isOk errCode) then Ret (errCode, st)
  else startup_loop (Z.to_nat gl_c_CompInitTblSize) 0
         (mkApp specs None false 0 (replicate (3 + tail) false) (stage_log st) (app_world st)).

(** The stages [j], [j - 1], ..., 0 of component [i]. *)
Fixpoint shutdown_stages (n : nat) (i : Z) (st : Application) : outcome (NkErrorCode * Application) :=
  match n with
  | O => Ret (NkErr_Ok, st)
  | S n =>
      let j := Z.of_nat n in
      succ ← buf_get (m_compSucc st) j;
      if negb succ then shutdown_stages n i st
      else
        cb ← QueryOppositeCbIndex j;
        '(errCode, st) ← Application_InvokeCompCallback i cb st;
        if negb (isOk errCode) then Ret (errCode, st) else shutdown_stages n i st
  end.

Fixpoint shutdown_loop (n : nat) (st : Application) : outcome (NkErrorCode * Application) :=
  match n with
  | O => Ret (NkErr_Ok, st)
  | S n =>
      let i := Z.of_nat n in
      comp ← buf_get gl_c_CompInitTable i;
      st ← (if m_isNkOM (mp_compInfo comp)
            then NkApplicationReplaceInstance (mp_clsId (mp_compInfo comp)) NULL st else Ret st);
      '(errCode, st) ← shutdown_stages 3 i st;
      if negb (isOk errCode) then Ret (errCode, st) else shutdown_loop n st
  end.
Definition NkApplicationShutdown (st : Application) : outcome (NkErrorCode * Application) :=
  if m_compIndex st =? 0 then Ret (NkErr_Ok, st)
  else shutdown_loop (Z.to_nat (m_compIndex st + 1)) st.

Definition NkApplicationQuerySpecification (st : Application) : NkApplicationSpecification := m_appSpecs st.
Definition NkApplicationIsStandalone (st : Application) : bool := m_isStandalone st.
End app.
Arguments Application : clear implicits.
Arguments Components : clear implicits.

(** ** The main loop

    The window, the renderer, the message queue, the counter and the layer stack
    are reached through the world. *)
Section run.
Context {W : Type}.

Record RunEnv := mkRunEnv {
  acquire_renderer : W → outcome W;                (* query the main window, get its renderer *)
  timer_ticks : W → Z * W;                         (* [NkTimerGetCurrentTicks] *)
  peek_message : W → option (bool * Z) * W;        (* [PeekMessage]: is it WM_QUIT, and its wParam *)
  dispatch_message : bool * Z → W → outcome W;
  on_update : NkFloat → W → outcome W;             (* [NkLayerstackOnUpdate] *)
  on_render : NkFloat → W → outcome W;             (* [NkLayerstackOnRender] *)
  begin_draw : W → outcome W;
  end_draw : W → outcome W;
  release_all : W → outcome W;                     (* the renderer, then the window *)
  post_quit_message : Z → W → W                    (* [PostQuitMessage] *)
}.
Context (E : RunEnv).

(** [__NkInt_Application_PlatformLoop]: the flag [isLeave] and the exit code. *)
Fixpoint PlatformLoop (fuel : nat) (w : W) : outcome (bool * Z * W) :=
  match fuel with
  | O => OutOfFuel
  | S fuel =>
      match peek_message E w with
      | (None, w) => Ret (false, 0, w)
      | (Some (true, wParam), w) => Ret (true, i32 wParam, w)     (* an [NkErrorCode] *)
      | (Some m, w) => w ← dispatch_message E m w; PlatformLoop fuel w
      end
  end.

Definition NkApplicationExit (errCode : Z) (w : W) : W := post_quit_message E errCode w.

Definition ticksPerUpdate (tiFreq : NkFloat) : NkFloat :=
  f32_mul (f32_div (f32_lit 8333 1000) (f32_of_Z 1000)) tiFreq.
Definition maxElapsed (tiFreq : NkFloat) : outcome Z := f_to_u 64 (f_trunc (f32_mul (f32_lit 16 1000) tiFreq)).

(** One pass of [while (currLag > ticksPerUpdate)]: the lag after it. *)
Definition lag_step (tpu : NkFloat) (currLag : Z) : outcome (option Z) :=
  if f_gt (f32_of_Z currLag) tpu then
    d ← f_to_u 64 (f_trunc tpu); Ret (Some (u64 (currLag - d)))
  else Ret None.
Fixpoint update_loop (fuel : nat) (tiFreq tpu : NkFloat) (currLag : Z) (w : W) : outcome (Z * W) :=
  match fuel with
  | O => OutOfFuel
  | S fuel =>
      next ← lag_step tpu currLag;
      match next with
      | None => Ret (currLag, w)
      | Some lag => w ← on_update E (f32_div tpu tiFreq) w; update_loop fuel tiFreq tpu lag w
      end
  end.

Fixpoint run_loop (fuel : nat) (tiFreq tpu : NkFloat) (maxEl prevTime currLag : Z) (w : W) : outcome (Z * W) :=
  match fuel with
  | O => OutOfFuel
  | S fuel' =>
      let '(currTime, w) := timer_ticks E w in
      let elapsedTime := NK_MIN (u64 (currTime - prevTime)) maxEl in
      let currLag := u64 (currLag + elapsedTime) in
      '(isLeave, errCode, w) ← PlatformLoop fuel w;
      if isLeave : bool then w ← release_all E w; Ret (errCode, w)
      else
        '(currLag, w) ← update_loop fuel tiFreq tpu currLag w;
        w ← begin_draw E w;
        w ← on_render E (f32_div (f32_of_Z currLag) tpu) w;
        w ← end_draw E w;
        run_loop fuel' tiFreq tpu maxEl currTime currLag w
  end.
(** [freq] is the result of [NkTimerGetFrequency]. *)
Definition NkApplicationRun (fuel : nat) (freq : Z) (w : W) : outcome (Z * W) :=
  let tiFreq := f32_of_Z freq in
  w ← acquire_renderer E w;
  maxEl ← maxElapsed tiFreq;
  let '(prevTime, w) := timer_ticks E w in
  run_loop fuel tiFreq (ticksPerUpdate tiFreq) maxEl prevTime 0 w.
End run.

(** ** Lemmas: what a stage leaves alone *)
Section proofs.
Context {R W : Type} `{Registry R} `{NkObjects W} (C : Components W).
Notation Application := (Application R W).
Implicit Types (st : Application) (i cb : Z).

Definition keeps st st' : Prop :=
  stage_log st' = stage_log st ∧ m_compSucc st' = m_compSucc st ∧ m_compIndex st' = m_compIndex st.
#[local] Instance keeps_preorder : PreOrder keeps.
Proof. split; [done|]. intros a b c (?&?&?) (?&?&?). split_and!; congruence. Qed.

Definition good_callback (o : option (@Callback R W)) : Prop :=
  match o with Some f => ∀ st e st', f st = Ret (e, st') → keeps st st' | None => True end.
Definition good_component (comp : @ExtComponent R W) : Prop := ∀ cb, good_callback (callback_of comp cb).

Lemma lift_good f : good_callback (Some (lift f)).
Proof. intros st e st' Hf. unfold lift in Hf. outcome_inv. destruct r. by simplify_eq. Qed.
Lemma Env_PostStartup_good : good_callback (Some (Env_PostStartup C)).
Proof. intros st e st' Hf. unfold Env_PostStartup in Hf. by outcome_inv. Qed.
Lemma NkOM_PostStartup_good : good_callback (Some NkOM_PostStartup).
Proof. intros st e st' Hf. unfold NkOM_PostStartup in Hf. outcome_inv. destruct r. by simplify_eq. Qed.
Lemma NkOM_PreShutdown_good : good_callback (Some NkOM_PreShutdown).
Proof. intros st e st' Hf. unfold NkOM_PreShutdown in Hf. outcome_inv. case_match; [done|]. by outcome_inv. Qed.

Lemma component_good comp :
  good_callback (mp_preStFn comp) → good_callback (mp_fnStartup (mp_compInfo comp)) →
  good_callback (mp_postStFn comp) → good_callback (mp_preShFn comp) →
  good_callback (mp_fnShutdown (mp_compInfo comp)) → good_callback (mp_postShFn comp) → good_component comp.
Proof. intros. intros cb. unfold callback_of. repeat case_match; done. Qed.
Lemma table_good : Forall good_component (gl_c_CompInitTable C).
Proof.
  repeat constructor; apply component_good; cbn [mp_preStFn mp_postStFn mp_preShFn mp_postShFn mp_compInfo
    mp_fnStartup mp_fnShutdown entry plain object];
    auto using lift_good, Env_PostStartup_good, NkOM_PostStartup_good, NkOM_PreShutdown_good; done.
Qed.

Lemma replace_keeps clsId p st st' : NkApplicationReplaceInstance clsId p st = Ret st' → keeps st st'.
Proof.
  intros Hr. unfold NkApplicationReplaceInstance in Hr. outcome_inv. repeat case_match; outcome_inv; try done.
  all: repeat match goal with H : _ * _ |- _ => destruct H end; outcome_inv; done.
Qed.
Lemma register_keeps comp st st' : register_component comp st = Ret st' → keeps st st'.
Proof.
  unfold register_component. destruct (m_isNkOM comp); [|by intros [= <-]].
  destruct (mp_fnQueryInst comp); [|done]. intros Hr. outcome_inv. destruct r as [inst w].
  apply replace_keeps in Hr. by etrans.
Qed.

(** The log entry of stage [cb] of component [i]. *)
Definition stage i cb : Z * Z * bool :=
  (i, cb, match gl_c_CompInitTable C !! Z.to_nat i with
          | Some comp => match callback_of comp cb with Some _ => true | None => false end
          | None => false
          end).

Lemma invoke_spec i cb st e st' :
  Application_InvokeCompCallback C i cb st = Ret (e, st') →
  stage_log st' = stage_log st ++ [stage i cb] ∧ m_compIndex st' = i ∧
  0 ≤ cb < Z.of_nat (length (m_compSucc st)) ∧ m_compSucc st' = <[Z.to_nat cb := isOk e]> (m_compSucc st).
Proof.
  unfold Application_InvokeCompCallback. intros Hi.
  apply bind_Ret_inv in Hi as (o & Hq & Hi). unfold QueryCompCallback in Hq.
  apply bind_Ret_inv in Hq as (? & _ & Hq). apply bind_Ret_inv in Hq as (? & _ & Hq).
  apply bind_Ret_inv in Hq as (comp & [Hi0 Hcomp]%buf_get_Ret & [= <-]).
  pose proof (Forall_lookup_1 _ _ _ _ table_good Hcomp cb) as Hgood.
  apply bind_Ret_inv in Hi as ([e1 st1] & Hf & Hi).
  apply bind_Ret_inv in Hi as (succ & Hset & [= <- <-]).
  assert (Hk : keeps (log_stage st (stage i cb)) st1).
  { unfold stage. rewrite Hcomp. destruct (callback_of comp cb) as [f|]; [by apply Hgood in Hf|by outcome_inv]. }
  destruct Hk as (Hl & Hs & _). simpl in Hl, Hs. apply buf_set_Ret in Hset as [Hr ->].
  rewrite Hs in Hr |- *. cbn [with_init_info stage_log m_compIndex m_compSucc]. split_and!; try done; apply Hr.
Qed.

(** ** Lemmas: the sequence of stages *)
Definition startup_of (k : Z) : list (Z * Z * bool) := [stage k 0; stage k 1; stage k 2].
Definition shutdown_of (k : Z) : list (Z * Z * bool) := [stage k 3; stage k 4; stage k 5].

Lemma startup_stages_spec i st e st' :
  startup_stages C i st = Ret (e, st') →
  m_compIndex st' = i ∧ length (m_compSucc st') = length (m_compSucc st) ∧
  if isOk e
  then stage_log st' = stage_log st ++ startup_of i ∧ take 3 (m_compSucc st') = [true; true; true]
  else ∃ cb : nat, (cb < 3)%nat ∧ stage_log st' = stage_log st ++ (stage i <$> zrange 0 (S cb)) ∧
    m_compSucc st' !! cb = Some false.
Proof.
  unfold startup_stages. intros Hs. apply bind_Ret_inv in Hs as ([e1 st1] & H1 & Hs).
  apply invoke_spec in H1 as (Hl1 & Hi1 & Hb1 & Hf1).
  destruct (isOk e1) eqn:He1; cbn [negb] in Hs.
  2: { outcome_inv. rewrite He1. split_and!; [done|by rewrite Hf1, length_insert|]. exists 0%nat.
       rewrite Hf1, list_lookup_insert_eq by lia. split_and!; [lia|done|done]. }
  apply bind_Ret_inv in Hs as ([e2 st2] & H2 & Hs). apply invoke_spec in H2 as (Hl2 & Hi2 & Hb2 & Hf2).
  rewrite Hl1, <-app_assoc in Hl2. simpl in Hl2. rewrite Hf1 in Hf2, Hb2. rewrite length_insert in Hb2.
  destruct (isOk e2) eqn:He2; cbn [negb] in Hs.
  2: { outcome_inv. rewrite He2. split_and!; [done|by rewrite Hf2, !length_insert|]. exists 1%nat.
       rewrite Hf2, list_lookup_insert_eq by (rewrite length_insert; lia). split_and!; [lia|done|done]. }
  apply invoke_spec in Hs as (Hl3 & Hi3 & Hb3 & Hf3). rewrite Hl2, <-app_assoc in Hl3. simpl in Hl3.
  rewrite Hf2 in Hf3, Hb3. rewrite !length_insert in Hb3.
  split_and!; [done|by rewrite Hf3, !length_insert|]. destruct (isOk e).
  - split; [done|]. rewrite Hf3. destruct (m_compSucc st) as [|a [|b [|c l]]];
      unfold NkCompCb_PostStartup in *; simpl in *; [lia..|done].
  - exists 2%nat. rewrite Hf3, list_lookup_insert_eq by (rewrite !length_insert; lia). split_and!; [lia|done|done].
Qed.

Lemma startup_loop_spec n i st e st' :
  startup_loop C n i st = Ret (e, st') →
  if isOk e
  then stage_log st' = stage_log st ++ concat (startup_of <$> zrange i n) ∧
    match n with
    | O => m_compIndex st' = m_compIndex st ∧ m_compSucc st' = m_compSucc st
    | S _ => m_compIndex st' = i + Z.of_nat n - 1 ∧ take 3 (m_compSucc st') = [true; true; true]
    end
  else ∃ (d cb : nat), (d < n)%nat ∧ (cb < 3)%nat ∧ m_compIndex st' = i + Z.of_nat d ∧
    stage_log st' = stage_log st ++ concat (startup_of <$> zrange i d) ++ (stage (i + Z.of_nat d) <$> zrange 0 (S cb)) ∧
    m_compSucc st' !! cb = Some false.
Proof.
  revert i st. induction n as [|n IH]; intros i st Hs; cbn [startup_loop] in Hs.
  { outcome_inv. change (isOk NkErr_Ok) with true. cbv iota. split; [by rewrite app_nil_r|done]. }
  apply bind_Ret_inv in Hs as (comp & _ & Hs). apply bind_Ret_inv in Hs as ([e1 st1] & H1 & Hs).
  apply startup_stages_spec in H1 as (Hi1 & _ & Hok). destruct (isOk e1) eqn:He1; cbn [negb] in Hs.
  2: { outcome_inv. rewrite He1. destruct Hok as (cb & ? & ? & ?). exists 0%nat, cb.
       rewrite Z.add_0_r. split_and!; [lia|done..]. }
  apply bind_Ret_inv in Hs as (st2 & Hk%register_keeps & Hs). destruct Hk as (Hkl & Hks & Hki), Hok as [Hl Hf].
  apply IH in Hs. rewrite Hkl, Hl in Hs. destruct (isOk e) eqn:He.
  - destruct Hs as [Hlog Hn]. rewrite zrange_S, fmap_cons. split; [by rewrite Hlog, <-app_assoc|].
    destruct n as [|n]; destruct Hn as [-> Hn]; [rewrite Hki, Hn, Hks; split; [lia|done]|split; [lia|done]].
  - destruct Hs as (d & cb & ? & ? & Hidx & Hlog & ?). exists (S d), cb. rewrite zrange_S, fmap_cons.
    replace (i + Z.of_nat (S d)) with (i + 1 + Z.of_nat d) by lia.
    split_and!; [lia|done|done| |done]. by rewrite Hlog, <-!app_assoc.
Qed.

(** The stages run for a component at shutdown are the opposites of those marked
    as successful, whatever component the marks are about. *)
Definition marked st (j : nat) : Prop := m_compSucc st !! j = Some true.

Lemma take_flags (l : list bool) : (∀ j, (j < 3)%nat → l !! j = Some true) → take 3 l = [true; true; true].
Proof.
  intros Hl. pose proof (Hl 0%nat ltac:(lia)). pose proof (Hl 1%nat ltac:(lia)). pose proof (Hl 2%nat ltac:(lia)).
  destruct l as [|a [|b [|c l]]]; simplify_eq/=; [done..|]. by rewrite take_0.
Qed.

Lemma shutdown_stages_spec n i st e st' :
  shutdown_stages C n i st = Ret (e, st') → (n ≤ 3)%nat →
  (∀ j, (j < 3)%nat → m_compSucc st' !! j = m_compSucc st !! j) ∧
  ∃ l, stage_log st' = stage_log st ++ l ∧
    Forall (λ x, ∃ j : nat, (j < 3)%nat ∧ marked st j ∧ x = stage i (5 - Z.of_nat j)) l ∧
    (isOk e = true → (∀ j, (j < n)%nat → marked st j) → l = (λ j, stage i (5 - j)) <$> reverse (zrange 0 n)).
Proof.
  revert st. induction n as [|n IH]; intros st Hs Hn; cbn [shutdown_stages] in Hs.
  { outcome_inv. split; [done|]. exists []. by rewrite app_nil_r. }
  apply bind_Ret_inv in Hs as (succ & [_ Hsucc]%buf_get_Ret & Hs). rewrite Nat2Z.id in Hsucc.
  destruct succ; cbn [negb] in Hs.
  2: { apply IH in Hs as (Hf & l & Hl & Hall & Hok); [|lia]. split; [done|]. exists l. split_and!; [done|done|].
       intros _ Hm. unfold marked in Hm. rewrite Hm in Hsucc by lia. done. }
  apply bind_Ret_inv in Hs as (cb & Hcb & Hs).
  assert (cb = 5 - Z.of_nat n) as ->.
  { unfold QueryOppositeCbIndex in Hcb. apply bind_Ret_inv in Hcb as (? & _ & [_ Hcb]%buf_get_Ret).
    rewrite Nat2Z.id in Hcb. destruct n as [|[|[|n]]]; simpl in Hcb; [by simplify_eq..|lia]. }
  apply bind_Ret_inv in Hs as ([e1 st1] & (Hl1 & _ & _ & Hf1)%invoke_spec & Hs).
  assert (Hkeep : ∀ j, (j < 3)%nat → m_compSucc st1 !! j = m_compSucc st !! j).
  { intros j Hj. rewrite Hf1. apply list_lookup_insert_ne. lia. }
  destruct (isOk e1) eqn:He1; cbn [negb] in Hs.
  - apply IH in Hs as (Hf & l & Hl & Hall & Hok); [|lia]. split; [intros; by rewrite Hf, Hkeep|].
    exists (stage i (5 - Z.of_nat n) :: l). split_and!; [by rewrite Hl, Hl1, <-app_assoc| |].
    + constructor; [by exists n|]. eapply List.Forall_impl; [|exact Hall]. intros x (j & ? & Hj & ->).
      exists j. unfold marked in *. rewrite Hkeep in Hj by done. done.
    + intros He Hm. rewrite (Hok He); [|intros j ?; unfold marked; rewrite Hkeep by lia; apply Hm; lia].
      unfold zrange. rewrite seq_S, fmap_app, reverse_app, fmap_app. simpl. done.
  - outcome_inv. split; [done|]. exists [stage i (5 - Z.of_nat n)]. split_and!; [done| |by rewrite He1].
    constructor; [by exists n|constructor].
Qed.

Lemma shutdown_loop_spec n st e st' :
  shutdown_loop C n st = Ret (e, st') →
  ∃ l, stage_log st' = stage_log st ++ l ∧
    Forall (λ x, ∃ (k : Z) (j : nat), (j < 3)%nat ∧ marked st j ∧ x = stage k (5 - Z.of_nat j)) l ∧
    (isOk e = true → take 3 (m_compSucc st) = [true; true; true] → l = concat (shutdown_of <$> reverse (zrange 0 n))).
Proof.
  revert st. induction n as [|n IH]; intros st Hs; cbn [shutdown_loop] in Hs.
  { outcome_inv. exists []. by rewrite app_nil_r. }
  apply bind_Ret_inv in Hs as (comp & _ & Hs). apply bind_Ret_inv in Hs as (st0 & Hr & Hs).
  assert (keeps st st0) as (Hl0 & Hs0 & _).
  { destruct (m_isNkOM _); [by apply replace_keeps in Hr|by injection Hr as ->]. }
  apply bind_Ret_inv in Hs as ([e1 st1] & (Hf1 & l1 & Hl1 & Hall1 & Hok1)%shutdown_stages_spec & Hs); [|done].
  assert (Hm : ∀ j, marked st0 j ↔ marked st j) by (intros j; unfold marked; by rewrite Hs0).
  assert (Hall : Forall (λ x, ∃ (k : Z) (j : nat), (j < 3)%nat ∧ marked st j ∧ x = stage k (5 - Z.of_nat j)) l1).
  { eapply List.Forall_impl; [|exact Hall1]. intros x (j & ? & ?%Hm & ->). by exists (Z.of_nat n), j. }
  rewrite Hl0 in Hl1. destruct (isOk e1) eqn:He1; cbn [negb] in Hs.
  2: { outcome_inv. exists l1. rewrite He1. by split_and!. }
  apply IH in Hs as (l & Hl & Hall2 & Hok). exists (l1 ++ l). split_and!; [by rewrite Hl, Hl1, app_assoc| |].
  - apply Forall_app_2; [done|]. eapply List.Forall_impl; [|exact Hall2].
    intros x (k & j & Hj & Hmj & ->). exists k, j. split_and!; [done| |done]. unfold marked in *.
    by rewrite <-Hs0, <-Hf1.
  - intros He Ht.
    assert (Hall3 : ∀ j, (j < 3)%nat → marked st j).
    { intros j Hj. unfold marked. rewrite <-(lookup_take_lt _ 3) by done. rewrite Ht.
      by destruct j as [|[|[|]]]; [..|lia]. }
    rewrite (Hok1 eq_refl) by (intros; by apply Hm, Hall3). rewrite (Hok He).
    + unfold zrange at 3. rewrite seq_S, fmap_app, reverse_app, fmap_app, concat_app. done.
    + apply take_flags. intros j Hj. rewrite Hf1, Hs0 by done. by apply Hall3.
Qed.

Lemma startup_loop_length n i st e st' :
  startup_loop C n i st = Ret (e, st') → length (m_compSucc st') = length (m_compSucc st).
Proof.
  revert i st. induction n as [|n IH]; intros i st Hs; cbn [startup_loop] in Hs; [by outcome_inv|].
  apply bind_Ret_inv in Hs as (comp & _ & Hs).
  apply bind_Ret_inv in Hs as ([e1 st1] & (_ & Hlen & _)%startup_stages_spec & Hs).
  destruct (isOk e1); cbn [negb] in Hs; [|by outcome_inv].
  apply bind_Ret_inv in Hs as (st2 & (_ & Hf & _)%register_keeps & Hs). apply IH in Hs. congruence.
Qed.
End proofs.

(** ** Properties *)
Section properties.
Context {R W : Type} `{RegistryLaws R} `{NkObjectLaws W} (C : Components W).
Implicit Types (st : Application R W).

(** C5: a successful startup runs the pre-startup, startup and post-startup stages of
    the fifteen components in table order; a successful shutdown after it runs the
    pre-shutdown, shutdown and post-shutdown stages of all of them in the reverse
    order, and nothing else. *)
Theorem app_lifecycle tail specs st st1 st2 :
  NkApplicationStartup C tail specs st = Ret (NkErr_Ok, st1) →
  NkApplicationShutdown C st1 = Ret (NkErr_Ok, st2) →
  stage_log st1 = stage_log st ++ concat (startup_of (R:=R) C <$> zrange 0 15) ∧
  stage_log st2 = stage_log st1 ++ concat (shutdown_of (R:=R) C <$> reverse (zrange 0 15)).
Proof.
  unfold NkApplicationStartup. destruct (isOk (ValidateAppSpecification specs)) eqn:Hv; cbn [negb].
  2: { intros [= Hv' _]. by rewrite Hv' in Hv. }
  intros Hs Hd. apply startup_loop_spec in Hs. change (isOk NkErr_Ok) with true in Hs.
  destruct Hs as (Hl & Hi & Hf). split; [done|].
  unfold NkApplicationShutdown in Hd. rewrite Hi in Hd.
  apply (shutdown_loop_spec C 15) in Hd as (l & Hl2 & _ & Hok). by rewrite Hl2, Hok.
Qed.

(** C6: when stage [cb] (pre-startup, startup or post-startup) of component [k]
    fails, startup stops there; a shutdown after that runs the opposite stage
    [5 - cb] of no component at all: the result of the failed stage is the only
    record of it that is kept, and it stands for every component.  In particular,
    after a failed startup function no component that was started is shut down. *)
Theorem app_failed_startup tail specs st e st1 :
  ValidateAppSpecification specs = NkErr_Ok →
  NkApplicationStartup C tail specs st = Ret (e, st1) → isOk e = false →
  ∃ (k cb : nat), (k < 15)%nat ∧ (cb < 3)%nat ∧
    stage_log st1 = stage_log st ++ concat (startup_of (R:=R) C <$> zrange 0 k) ++
                      (stage (R:=R) C (Z.of_nat k) <$> zrange 0 (S cb)) ∧
    ∀ e2 st2, NkApplicationShutdown C st1 = Ret (e2, st2) →
      ∃ l, stage_log st2 = stage_log st1 ++ l ∧ Forall (λ x, x.1.2 ≠ 5 - Z.of_nat cb) l.
Proof.
  unfold NkApplicationStartup. intros -> Hs He. change (isOk NkErr_Ok) with true in Hs. cbn [negb] in Hs.
  apply startup_loop_spec in Hs. rewrite He in Hs. destruct Hs as (k & cb & ? & ? & Hi & Hl & Hf).
  exists k, cb. split_and!; [done|done|done|]. intros e2 st2 Hd. unfold NkApplicationShutdown in Hd.
  destruct (m_compIndex st1 =? 0); [outcome_inv; exists []; by rewrite app_nil_r|].
  apply shutdown_loop_spec in Hd as (l & Hl2 & Hall & _). exists l. split; [done|].
  eapply List.Forall_impl; [|exact Hall]. intros x (k' & j & Hj & Hm & ->). simpl. intros E.
  assert (j = cb) as -> by lia. unfold marked in Hm. by rewrite Hm in Hf.
Qed.

(** The success flags are an array of three, but the shutdown stages store
    their results at the indices 3 to 5.  With nothing behind the array the
    shutdown after a successful startup never returns: it is undefined, or ended by
    an assertion before. *)
Theorem app_shutdown_out_of_bounds specs st st1 :
  NkApplicationStartup C 0 specs st = Ret (NkErr_Ok, st1) →
  ∀ e st2, NkApplicationShutdown C st1 ≠ Ret (e, st2).
Proof.
  unfold NkApplicationStartup. destruct (isOk (ValidateAppSpecification specs)) eqn:Hv; cbn [negb].
  2: { intros [= Hv' _]. by rewrite Hv' in Hv. }
  intros Hs e st2 Hd. pose proof (startup_loop_length _ _ _ _ _ _ Hs) as Hlen. simpl in Hlen.
  apply startup_loop_spec in Hs. change (isOk NkErr_Ok) with true in Hs. destruct Hs as (_ & Hi & Hf).
  unfold NkApplicationShutdown in Hd. rewrite Hi in Hd. change (shutdown_loop C 15 st1 = Ret (e, st2)) in Hd.
  cbn [shutdown_loop] in Hd. apply bind_Ret_inv in Hd as (comp & _ & Hd).
  apply bind_Ret_inv in Hd as (st0 & Hr & Hd).
  assert (keeps st1 st0) as (_ & Hs0 & _).
  { destruct (m_isNkOM _); [by apply replace_keeps in Hr|by injection Hr as ->]. }
  apply bind_Ret_inv in Hd as ([e1 st3] & Hd & _). cbn [shutdown_stages] in Hd.
  assert (m_compSucc st0 = [true; true; true]) as Hflags.
  { rewrite Hs0, <-Hf. symmetry. apply take_ge. lia. }
  rewrite Hflags in Hd. cbn [buf_get in_buf length Z.of_nat mbind outcome_bind negb] in Hd.
  apply bind_Ret_inv in Hd as (succ & Hg & Hd). vm_compute in Hg. injection Hg as <-. cbn [negb] in Hd.
  apply bind_Ret_inv in Hd as (cb & Hcb & Hd). vm_compute in Hcb. injection Hcb as <-.
  apply bind_Ret_inv in Hd as ([e4 st4] & (_ & _ & Hb & _)%invoke_spec & _). rewrite Hflags in Hb. simpl in Hb. lia.
Qed.

(** [NkApplicationReplaceInstance] makes [NkApplicationQueryInstance] hand out
    the new instance for the class and for no other one; the registry holds one
    reference to it, the caller gets another, and an instance that was registered
    before loses the registry's. *)
Theorem app_replace_instance st r clsId p :
  mp_compReg st = Some r → reg_room r 1 → clsId ≠ NULL → p ≠ NULL →
  0 < refs (app_world st) (object_of p) →
  (∀ o, reg_map r !! reg_key clsId = Some o →
     o ≠ NULL ∧ 0 < refs (app_world st) (object_of o) - one (object_of o) ∧ object_of o ≠ object_of p) →
  ∃ r' st' st'', NkApplicationReplaceInstance clsId p st = Ret st' ∧ mp_compReg st' = Some r' ∧
    (∀ k, k ≠ reg_key clsId → reg_map r' !! k = reg_map r !! k) ∧
    NkApplicationQueryInstance clsId st' = Ret (p, st'') ∧
    refs (app_world st'') (object_of p) = refs (app_world st) (object_of p) + 2 * one (object_of p) ∧
    ∀ o, reg_map r !! reg_key clsId = Some o →
      refs (app_world st'') (object_of o) = refs (app_world st) (object_of o) - one (object_of o).
Proof.
  intros Hreg Hroom Hc Hp Hlive Hold. pose proof (one_bound (object_of p)). unfold NkApplicationReplaceInstance, the_compReg.
  rewrite Hreg, (proj2 (Z.eqb_neq _ _) Hc), (proj2 (Z.eqb_neq _ _) Hp). cbn [NK_ASSERT negb mbind outcome_bind].
  assert (He : ∃ r1 frees w1, reg_erase r clsId = Ret (match reg_map r !! reg_key clsId with Some _ => NkErr_Ok | None => NkErr_ItemNotFound end, r1, frees) ∧
    comp_frees frees (app_world st) = Ret w1 ∧ reg_room r1 1 ∧ reg_map r1 = delete (reg_key clsId) (reg_map r) ∧
    refs w1 (object_of p) = refs (app_world st) (object_of p) ∧
    ∀ o, reg_map r !! reg_key clsId = Some o → refs w1 (object_of o) = refs (app_world st) (object_of o) - one (object_of o)).
  { pose proof (reg_erase_spec r clsId 1 Hroom) as He. destruct (reg_map r !! reg_key clsId) as [o|] eqn:Ho.
    - destruct (Hold o eq_refl) as (Hn & Hr & Hne). destruct He as (r1 & k' & -> & ? & ?).
      destruct (Release_spec o (app_world st) Hr) as (w1 & HR & Hw1 & Hw1').
      exists r1, [(Some k', o)], w1. split; [done|]. cbn [comp_frees]. unfold NkOM_CompRegDestFn. simpl.
      rewrite (proj2 (Z.eqb_neq _ _) Hn). cbn [negb]. rewrite HR.
      split_and!; [done|done|done|by apply Hw1'|]. intros ? [= <-]. lia.
    - exists r, [], (app_world st). split_and!; try done. by rewrite delete_id. }
  destruct He as (r1 & frees & w1 & -> & Hfr & Hroom1 & Hm1 & Hp1 & Ho1). step.
  rewrite Hfr. cbn [mbind outcome_bind negb].
  destruct (reg_insert_spec r1 (mkPair clsId p) 0 Hroom1) as (r2 & -> & Hroom2 & Hm2). step.
  rewrite Hm1, lookup_delete_eq in Hm2. cbn [m_keyVal mp_valuePtr] in Hm2.
  destruct (AddRef_spec p w1) as (w2 & -> & Hw2 & Hw2'); [lia|]. step.
  unfold NkApplicationQueryInstance, the_compReg. rewrite (proj2 (Z.eqb_neq _ _) Hc). eexists r2, _.
  destruct (AddRef_spec p w2) as (w3 & Ha & Hw3 & Hw3'); [lia|].
  eexists. split; [done|]. split; [done|].
  assert (Hk : ∀ k, k ≠ reg_key clsId → reg_map r2 !! k = reg_map r !! k)
    by (intros k Hk; by rewrite Hm2, lookup_insert_ne, lookup_delete_ne).
  split; [done|]. cbn [NK_ASSERT negb mbind outcome_bind with_world with_reg mp_compReg app_world].
  rewrite (reg_at_spec r2 clsId 0 Hroom2), Hm2, lookup_insert_eq. step.
  ok_step. rewrite Ha. split; [done|]. simpl.
  split; [lia|]. intros o Ho. destruct (Hold o Ho) as (_ & _ & Hne). rewrite Hw3', Hw2' by done. by apply Ho1.
Qed.
End properties.

(** ** Witnesses: all functions succeed; the object of component [i] is [200 + i] *)
Definition example_components : Components (gmap Z Z) := {|
  comp_startup := λ _ w, Ret (NkErr_Ok, w);
  comp_shutdown := λ _ w, Ret (NkErr_Ok, w);
  comp_clsId := λ i, i;
  comp_instance := λ i w, Ret (200 + i, <[200 + i := 1]> w);
  env_attached := λ _, Ret NkErr_ItemNotFound
|}.
(** The same with a path service (component 6) that fails to start. *)
Definition failing_components : Components (gmap Z Z) := {|
  comp_startup := λ i w, Ret (if i =? 6 then NkErr_OpenFile else NkErr_Ok, w);
  comp_shutdown := λ _ w, Ret (NkErr_Ok, w);
  comp_clsId := λ i, i;
  comp_instance := λ i w, Ret (200 + i, <[200 + i := 1]> w);
  env_attached := λ _, Ret NkErr_ItemNotFound
|}.
Definition example_specs : NkApplicationSpecification := mkSpec false NkWndMode_Normal 1 1000.
Definition example_app : Application NkHashtable (gmap Z Z) :=
  mkApp example_specs None false 0 [] [] ∅.
Notation ex_startup C tail :=
  (@NkApplicationStartup _ _ example_registry (example_objects []) C tail example_specs example_app).
Definition started (C : Components (gmap Z Z)) (tail : nat) : Application NkHashtable (gmap Z Z) :=
  match ex_startup C tail with Ret (_, st) => st | _ => example_app end.
Notation ex_shutdown C tail :=
  (@NkApplicationShutdown _ _ example_registry (example_objects []) C (started C tail)).
Definition stopped : Application NkHashtable (gmap Z Z) :=
  match ex_shutdown example_components 5 with Ret (_, st) => st | _ => example_app end.

Lemma app_lifecycle_witness :
  ex_startup example_components 5 = Ret (NkErr_Ok, started example_components 5) ∧
  ex_shutdown example_components 5 = Ret (NkErr_Ok, stopped) ∧
  stage_log (started example_components 5) =
    stage_log example_app ++ concat (@startup_of _ _ example_registry (example_objects []) example_components <$> zrange 0 15) ∧
  stage_log stopped = stage_log (started example_components 5) ++
    concat (@shutdown_of _ _ example_registry (example_objects []) example_components <$> reverse (zrange 0 15)).
Proof.
  assert (Hs : ex_startup example_components 5 = Ret (NkErr_Ok, started example_components 5)) by (vm_compute; reflexivity).
  assert (Hd : ex_shutdown example_components 5 = Ret (NkErr_Ok, stopped)) by (vm_compute; reflexivity).
  split; [exact Hs|]. split; [exact Hd|].
  exact (@app_lifecycle _ _ example_registry (example_objects []) example_components 5 example_specs example_app
    (started example_components 5) stopped Hs Hd).
Defined.

Lemma app_failed_startup_witness :
  ∃ (k cb : nat), (k < 15)%nat ∧ (cb < 3)%nat ∧
    stage_log (started failing_components 5) =
      stage_log example_app ++ concat (@startup_of _ _ example_registry (example_objects []) failing_components <$> zrange 0 k) ++
        (@stage _ _ example_registry (example_objects []) failing_components (Z.of_nat k) <$> zrange 0 (S cb)) ∧
    ∀ e2 st2, ex_shutdown failing_components 5 = Ret (e2, st2) →
      ∃ l, stage_log st2 = stage_log (started failing_components 5) ++ l ∧ Forall (λ x, x.1.2 ≠ 5 - Z.of_nat cb) l.
Proof.
  apply (@app_failed_startup _ _ example_registry (example_objects []) failing_components 5 example_specs
    example_app NkErr_OpenFile).
  - reflexivity.
  - vm_compute. reflexivity.
  - reflexivity.
Defined.
(** That shutdown does return, having skipped every shutdown function. *)
Example failed_startup_shuts_nothing_down :
  match ex_shutdown failing_components 5 with
  | Ret (_, st) => forallb (λ x, negb (x.1.2 =? NkCompCb_Shutdown)) (stage_log st)
  | _ => false
  end = true.
Proof. vm_compute. reflexivity. Qed.

Lemma app_shutdown_out_of_bounds_witness :
  ex_startup example_components 0 = Ret (NkErr_Ok, started example_components 0) ∧
  ∀ e st2, ex_shutdown example_components 0 ≠ Ret (e, st2).
Proof.
  assert (Hs : ex_startup example_components 0 = Ret (NkErr_Ok, started example_components 0)) by (vm_compute; reflexivity).
  split; [exact Hs|].
  exact (@app_shutdown_out_of_bounds _ _ example_registry (example_objects []) example_components example_specs example_app
    (started example_components 0) Hs).
Defined.

Lemma app_replace_instance_witness :
  let st := mkApp example_specs (Some example_classes) false 0 [] [] {[100 := 2; 300 := 1]} in
  ∃ r' st' st'', @NkApplicationReplaceInstance _ _ example_registry (example_objects []) 1 300 st = Ret st' ∧
    mp_compReg st' = Some r' ∧
    (∀ k, k ≠ [1; 0] → @reg_map _ example_registry r' !! k = @reg_map _ example_registry example_classes !! k) ∧
    @NkApplicationQueryInstance _ _ example_registry (example_objects []) 1 st' = Ret (300, st'') ∧
    default 0 (app_world st'' !! 300) = 1 + 2 ∧
    ∀ o, @reg_map _ example_registry example_classes !! [1; 0] = Some o → default 0 (app_world st'' !! o) = default 0 (({[100 := 2; 300 := 1]} : gmap Z Z) !! o) - 1.
Proof.
  intros st.
  apply (@app_replace_instance _ _ example_registry example_registry_laws (example_objects []) example_refs
    (example_object_laws []) st example_classes 1 300).
  - reflexivity.
  - apply example_room; [by right|lia].
  - done.
  - done.
  - vm_compute. reflexivity.
  - intros o Ho. vm_compute in Ho. injection Ho as <-. vm_compute. done.
Defined.
