(* ===== verification/Env.v ===== *)
(** * [src/Noriko/env.c]: command line and environment variables

    A C string is its bytes without the NUL, pointers into it are offsets; every
    option string has an address, so that a view stored in a variant is an address
    and a size.  [isdigit] is asked about plain [char]s, which may be negative.  The store
    maps keys by their contents: it is any [ViewStore], whose
    laws are the ones of a finite map; [EnvStore] shows that the hash table, whose
    string-view keys are compared by their contents, is one.  [strtod] and the contents of
    the uninitialised local variant are parameters. *)
From S2P Require Import Prelude CStr Util.

(** ** The store *)
(** The characters of a C string. *)
Notation no_nul := (Forall (λ c : Z, c ≠ 0)).
Class ViewStore (S : Type) := {
  vs_create : outcome (NkErrorCode * option S);
  vs_contains : S → list Z → outcome bool;
  vs_insert : S → list Z → option Variant → outcome (NkErrorCode * S);
  vs_at : S → list Z → outcome (NkErrorCode * option Variant);
  vs_map : S → list Z → option (option Variant);
  vs_room : S → nat → Prop
}.
Class ViewStoreLaws (S : Type) `{ViewStore S} : Prop := {
  vs_create_spec : ∃ s, vs_create = Ret (NkErr_Ok, Some s) ∧ (∀ k, vs_map s k = None) ∧ vs_room s 128;
  vs_contains_spec s k n : no_nul k → vs_room s n → vs_contains s k = Ret (bool_decide (is_Some (vs_map s k)));
  vs_insert_spec s k v n : no_nul k → vs_room s (Datatypes.S n) → vs_map s k = None →
    ∃ s', vs_insert s k v = Ret (NkErr_Ok, s') ∧ vs_room s' n ∧ ∀ k', vs_map s' k' = if decide (k' = k) then Some v else vs_map s k';
  vs_at_spec s k n : no_nul k → vs_room s n →
    vs_at s k = Ret (match vs_map s k with Some v => (NkErr_Ok, v) | None => (NkErr_ItemNotFound, None) end);
  vs_room_le s n m : (m ≤ n)%nat → vs_room s n → vs_room s m
}.

(** ** Characters *)
Definition is_digit (c : Z) : bool := (48 <=? c) && (c <=? 57).
(** [isdigit] of a plain [char]: defined for what an [unsigned char] can hold and for [EOF]. *)
Definition isdigit `{CharType} (c : Z) : outcome bool :=
  let v := char_value c in
  if ((0 <=? v) && (v <? 256)) || (v =? -1) then Ret (is_digit v) else Undef.

(** [__NkInt_EnvExpectChars]: the error code and how far the pointer moves. *)
Definition EnvExpectChars (str exp : list Z) : NkErrorCode * Z :=
  if negb (bool_decide (strpbrk str exp = Some 0)) then (NkErr_UnexpectedCharacter, 0) else (NkErr_Ok, 1).

(** ** Numbers *)

(** [while (isdigit( *decPtr) && --charsToGo && ++decPtr)]: the string from [decPtr]
    on and the counter. *)
Fixpoint skip_digits `{CharType} (str : list Z) (charsToGo : Z) : outcome (list Z * Z) :=
  match str with
  | [] => Ret ([], charsToGo)
  | c :: str' =>
      d ← isdigit c;
      if d : bool then
        let charsToGo := u64 (charsToGo - 1) in
        if charsToGo =? 0 then Ret (str, charsToGo) else skip_digits str' charsToGo
      else Ret (str, charsToGo)
  end.
(** [cond && --charsToGo && ++decPtr] for a condition on the current character. *)
Definition skip_one (p : Z → bool) (str : list Z) (charsToGo : Z) : list Z * Z :=
  match str with
  | [] => ([], charsToGo)
  | c :: str' =>
      if p c then
        let charsToGo := u64 (charsToGo - 1) in
        if charsToGo =? 0 then (str, charsToGo) else (str', charsToGo)
      else (str, charsToGo)
  end.
(** The syntax check of [__NkInt_EnvParseNumber] on a view of [size] bytes; the
    counter wraps around when a digit is the last character of the view. *)
Definition EnvNumberOk `{CharType} (str : list Z) (size : Z) : outcome bool :=
  let '(str, togo) := skip_one (λ c, (c =? 43) || (c =? 45)) str size in
  '(str, togo) ← skip_digits str togo;
  let '(str, togo) := skip_one (λ c, c =? 46) str togo in
  '(str, togo) ← skip_digits str togo;
  if togo >? 0 then match str with c :: _ => isdigit c | [] => Ret true end else Ret true.

Section env.
Context `{CharType} (strtod : list Z → Z) (tmp0 : Variant).

Definition EnvParseNumber (str : list Z) (size : Z) (res : Variant) : outcome (NkErrorCode * Variant) :=
  ok ← EnvNumberOk str size;
  if negb ok then Ret (NkErr_UnexpectedCharacter, res)
  else v ← NkVariantSet res NkVarTy_Double (ArgWord (strtod str)); Ret (NkErr_Ok, v).

(** ** Key-value pairs *)

(** The 16 bytes of a string view. *)
Definition view_bytes (base : Z) (v : NkStringView) : list Z :=
  le_bytes 8 (u64 (base + mp_dataPtr v)) ++ le_bytes 8 (m_sizeInBytes v).
Definition set_view (res : Variant) (base : Z) (v : NkStringView) : outcome Variant :=
  NkVariantSet res NkVarTy_StringView (ArgMem (view_bytes base v)).

Definition gl_BoolMappings : list (list Z * bool) :=
  [(bytes_of "true", true); (bytes_of "yes", true); (bytes_of "false", false);
   (bytes_of "no", false); (bytes_of "on", true); (bytes_of "off", false)].
Fixpoint bool_loop (maps : list (list Z * bool)) (val : list Z) (res : Variant) : outcome Variant :=
  match maps with
  | [] => Ret res
  | (m, b) :: maps =>
      if NkStringViewCompare false false m val =? 0
      then NkVariantSet res NkVarTy_Boolean (ArgWord (if b then 1 else 0))
      else bool_loop maps val res
  end.

(** The [switch] on the first character; [s] is the option string, [v] the trimmed
    value inside it.  The [break] after a boolean match only leaves the [for]. *)
Definition parse_value (s : list Z) (base : Z) (v : NkStringView) : outcome (NkErrorCode * Variant) :=
  c ← char_at s (mp_dataPtr v);
  if is_digit c || (c =? 43) || (c =? 45) then
    EnvParseNumber (drop (Z.to_nat (mp_dataPtr v)) s) (m_sizeInBytes v) tmp0
  else if c =? 34 then
    l ← char_at s (mp_dataPtr v + m_sizeInBytes v - 1);
    res ← (if c =? l then set_view tmp0 base (mkView (mp_dataPtr v + 1) (u64 (m_sizeInBytes v - 2)))
           else set_view tmp0 base v);
    Ret (NkErr_Ok, res)
  else
    res ← bool_loop gl_BoolMappings (take (Z.to_nat (m_sizeInBytes v)) (drop (Z.to_nat (mp_dataPtr v)) s)) tmp0;
    res ← set_view res base v;
    Ret (NkErr_Ok, res).

(** Shifting a view of the string behind the first [n] characters. *)
Definition shift_view (n : Z) (v : NkStringView) : NkStringView := mkView (n + mp_dataPtr v) (m_sizeInBytes v).
(** [NkRawStringTrim] of a view, in the whole string. *)
Definition trim_view (s : list Z) (v : NkStringView) (key : list Z) : outcome NkStringView :=
  r ← NkRawStringTrim (drop (Z.to_nat (mp_dataPtr v)) s) (m_sizeInBytes v) key;
  Ret (shift_view (mp_dataPtr v) r).

(** [__NkInt_EnvParsePair]: the key's view and the value ([None]: NULL); the results of
    the pool allocations of the two come first. *)
Definition EnvParsePair (allocKey allocVal : NkErrorCode) (s : list Z) (base : Z) (expectPrefix : bool)
    : outcome (NkErrorCode * option NkStringView * option Variant) :=
  let '(e, start) := if expectPrefix then EnvExpectChars s (bytes_of "$/-#") else (NkErr_Ok, 0) in
  if negb (isOk e) then Ret (e, None, None)
  else
    let '(name, value) := NkRawStringSplit (drop (Z.to_nat start) s) (bytes_of "=:") in
    trimmedName ← trim_view s (shift_view start name) (bytes_of " ");
    trimmedVal ← trim_view s (shift_view start value) (bytes_of " ");
    '(e, tmp) ← (if m_sizeInBytes trimmedVal =? 0 then Ret (NkErr_Ok, tmp0) else parse_value s base trimmedVal);
    if negb (isOk e) then Ret (e, None, None)
    else if negb (isOk allocKey) then Ret (allocKey, None, None)
    else if negb (m_sizeInBytes trimmedVal =? 0) then
      if negb (isOk allocVal) then Ret (allocVal, None, None)
      else v ← NkVariantCopy (Some tmp); Ret (NkErr_Ok, Some trimmedName, Some v)
    else Ret (NkErr_Ok, Some trimmedName, None).

(** What a view of [s] shows: the key the store compares. *)
Definition view_chars (s : list Z) (v : NkStringView) : list Z :=
  take (Z.to_nat (m_sizeInBytes v)) (drop (Z.to_nat (mp_dataPtr v)) s).

(** ** The option arrays *)
Section store.
Context {S : Type} `{ViewStore S}.

(** An option string with its address. *)
Record Option_ := mkOption { opt_base : Z; opt_chars : list Z }.

(** What the pool answers when the key and the value of the [n]th option that is parsed
    are allocated: every allocation can fail on its own. *)
Variable allocs : nat → NkErrorCode * NkErrorCode.
(** [n] options were parsed before. *)
Fixpoint EnvParseOptionArray (n : nat) (opts : list Option_) (hasPrefix : bool) (st : S) : outcome S :=
  match opts with
  | [] => Ret st
  | o :: opts =>
      '(errCode, key, var) ← EnvParsePair (allocs n).1 (allocs n).2 (opt_chars o) (opt_base o) hasPrefix;
      match key with
      | None => EnvParseOptionArray (Datatypes.S n) opts hasPrefix st
      | Some key =>
          let k := view_chars (opt_chars o) key in
          doesExist ← vs_contains st k;
          if doesExist : bool then EnvParseOptionArray (Datatypes.S n) opts hasPrefix st
          else '(_, st) ← vs_insert st k var; EnvParseOptionArray (Datatypes.S n) opts hasPrefix st
      end
  end.

(** [envp] up to its terminating null, [argv] with its [argc] entries. *)
Definition Env_Startup (envp : option (list Option_)) (argv : list Option_) (store : option S)
    : outcome (NkErrorCode * option S) :=
  NK_ASSERT (match store with None => true | Some _ => false end) NkErr_ComponentState;;
  '(errCode, store) ← vs_create;
  match store with
  | Some st =>
      if negb (isOk errCode) then Ret (errCode, store)
      else
        st ← EnvParseOptionArray 0 (default [] envp) false st;
        st ← EnvParseOptionArray (length (default [] envp)) (tail argv) true st;
        Ret (NkErr_Ok, Some st)
  | None => if isOk errCode then Undef else Ret (errCode, None)
  end.

(** The free function releases every key and value to the pool; it touches nothing
    else. *)
Definition Env_Shutdown (store : option S) : NkErrorCode * option S := (NkErr_Ok, None).

Definition NkEnvGetValue (keyStr : list Z) (store : option S) : outcome (NkErrorCode * option Variant) :=
  match store with
  | None => Halt NkErr_InParameter
  | Some st =>
      '(errCode, var) ← vs_at st keyStr;
      if negb (isOk errCode) then Ret (errCode, None)
      else v ← NkVariantCopy var; Ret (NkErr_Ok, Some v)
  end.
End store.
End env.

(** ** Number syntax without the counter *)
Fixpoint drop_digits (str : list Z) : list Z :=
  match str with c :: str' => if is_digit c then drop_digits str' else str | [] => [] end.
Definition drop_one (p : Z → bool) (str : list Z) : list Z :=
  match str with c :: str' => if p c then str' else str | [] => [] end.
(** An optional sign, digits, optionally a point and digits, and nothing behind. *)
Definition decimal_ok (str : list Z) : bool :=
  match drop_digits (drop_one (λ c, c =? 46) (drop_digits (drop_one (λ c, (c =? 43) || (c =? 45)) str))) with
  | [] => true
  | _ => false
  end.

(** The characters [isdigit] is defined for: all when [char] is unsigned, otherwise those of ASCII. *)
Section scanner.
Context `{CharType}.
Definition digit_ok (c : Z) : Prop := isdigit c = Ret (is_digit c).
#[export] Instance digit_ok_dec c : Decision (digit_ok c).
Proof. unfold digit_ok. apply _. Defined.
Lemma digit_ok_char c : 0 ≤ c < 256 → (char_is_signed = true → c < 128) → digit_ok c.
Proof.
  intros Hc Hs. unfold digit_ok, isdigit. rewrite char_value_ok by done.
  by rewrite (proj2 (Z.leb_le 0 c)), (proj2 (Z.ltb_lt c 256)) by lia.
Qed.

(** The scanner state [st] when [r] is left to read: in step with the counter, or at
    the last character with the counter used up, or behind the last one. *)
Definition scanned (st : list Z * Z) (r : list Z) : Prop :=
  Forall digit_ok st.1 ∧ (st = (r, Z.of_nat (length r)) ∨ (r = [] ∧ (st.1 = [] ∨ st.2 = 0 ∧ (length st.1 ≤ 1)%nat))).

Lemma scanned_one p st r :
  Z.of_nat (length r) < 2 ^ 64 → scanned st r → scanned (skip_one p st.1 st.2) (drop_one p r).
Proof.
  intros Hlen [Hd [->|(-> & [E|[E1 E2]])]].
  - cbn [fst snd] in *. destruct r as [|c r]; simpl; [split; [done|by left]|]. destruct (p c); [|split; [done|by left]].
    rewrite wrapN_small by (unfold is_u; simpl in Hlen; lia).
    replace (Z.of_nat (S (length r)) - 1) with (Z.of_nat (length r)) by lia. inversion Hd.
    destruct r as [|c' r]; [split; [done|right; simpl; auto]|].
    destruct (Z.eqb_spec (Z.of_nat (length (c' :: r))) 0); [simpl in *; lia|split; [done|by left]].
  - destruct st as [str togo]. simpl in *. subst. split; [done|right; auto].
  - destruct st as [[|c [|]] togo]; simpl in *; subst; try lia; [split; [done|right; auto]|].
    destruct (p c); (split; [done|right; simpl; auto]).
Qed.
Lemma scanned_digits st r :
  Z.of_nat (length r) < 2 ^ 64 → scanned st r → ∃ st', skip_digits st.1 st.2 = Ret st' ∧ scanned st' (drop_digits r).
Proof.
  intros Hlen [Hd [->|(-> & [E|[E1 E2]])]].
  - cbn [fst snd] in *. induction r as [|c r IH]; cbn [skip_digits drop_digits]; [eexists; split; [done|split; [done|by left]]|].
    inversion Hd as [|? ? Hc Hr]; subst. rewrite Hc. step. destruct (is_digit c); [|eexists; split; [done|split; [done|by left]]].
    rewrite wrapN_small by (unfold is_u; cbn [length] in *; lia).
    replace (Z.of_nat (length (c :: r)) - 1) with (Z.of_nat (length r)) by (simpl; lia).
    destruct r as [|c' r]; [eexists; split; [done|split; [done|right; simpl; auto]]|].
    destruct (Z.eqb_spec (Z.of_nat (length (c' :: r))) 0); [cbn [length] in *; lia|]. apply IH; [cbn [length] in *; lia|done].
  - destruct st as [str togo]. simpl in *. subst. eexists. split; [done|]. split; [done|right; auto].
  - destruct st as [[|c [|]] togo]; simpl in *; subst; try lia; [eexists; split; [done|]; split; [done|right; auto]|].
    inversion Hd as [|? ? Hc _]; subst. rewrite Hc. step.
    destruct (is_digit c); (eexists; split; [done|]; split; [done|right; simpl; auto]).
Qed.
Lemma drop_one_length p r : (length (drop_one p r) ≤ length r)%nat.
Proof. destruct r; simpl; [done|]. destruct (p _); simpl; lia. Qed.
Lemma drop_digits_spec r : (length (drop_digits r) ≤ length r)%nat ∧ ∀ c, head (drop_digits r) = Some c → is_digit c = false.
Proof.
  induction r as [|c r [IH1 IH2]]; simpl; [done|]. destruct (is_digit c) eqn:E; simpl; [split; [lia|exact IH2]|].
  split; [lia|]. by intros ? [= <-].
Qed.

Lemma number_ok_spec s : Forall digit_ok s → Z.of_nat (length s) < 2 ^ 64 → EnvNumberOk s (Z.of_nat (length s)) = Ret (decimal_ok s).
Proof.
  intros Hs Hlen. unfold EnvNumberOk, decimal_ok.
  set (sign := λ c, (c =? 43) || (c =? 45)). set (dot := λ c, c =? 46).
  pose proof (drop_one_length sign s). pose proof (proj1 (drop_digits_spec (drop_one sign s))).
  pose proof (drop_one_length dot (drop_digits (drop_one sign s))).
  assert (Hsc : scanned (s, Z.of_nat (length s)) s) by (split; [done|by left]).
  apply (scanned_one sign) in Hsc; [|done]. cbn [fst snd] in Hsc. destruct (skip_one sign s _) as [s1 t1].
  apply scanned_digits in Hsc as ([s2 t2] & E2 & Hsc); [|lia]. cbn [fst snd] in E2. rewrite E2. step.
  apply (scanned_one dot) in Hsc; [|lia]. cbn [fst snd] in Hsc. destruct (skip_one dot s2 t2) as [s3 t3].
  apply scanned_digits in Hsc as ([s4 t4] & E4 & Hd & Hsc); [|lia]. cbn [fst snd] in E4. rewrite E4. step.
  set (m := drop_one dot _) in *. pose proof (proj2 (drop_digits_spec m)) as Hm. cbn [fst snd] in Hd, Hsc.
  destruct Hsc as [[= -> ->]|(-> & [->|[-> _]])]; [|by case_match|done].
  destruct (drop_digits m) as [|c l]; [done|]. inversion Hd as [|? ? Hc _]; subst. rewrite Hc, (Hm c eq_refl).
  destruct (Z.gtb_spec (Z.of_nat (length (c :: l))) 0); [done|]. cbn [length] in *. lia.
Qed.
End scanner.

(** ** Lemmas: a pair *)
Section pair.
Context `{CharType} (strtod : list Z → Z) (tmp0 : Variant).
Hypothesis tmp0_size : length (m_val tmp0) = 16%nat.

Lemma length_view_bytes base v : length (view_bytes base v) = 16%nat.
Proof. unfold view_bytes. by rewrite length_app, !length_le_bytes. Qed.

Lemma set_view_spec res base v :
  length (m_val res) = 16%nat →
  ∃ r, set_view res base v = Ret r ∧ NkVariantGet r = (NkVarTy_StringView, view_bytes base v).
Proof.
  intros Hres. unfold set_view.
  destruct (variant_set_spec res NkVarTy_StringView (ArgMem (view_bytes base v)) Hres) as (r & Hr & _ & _ & _ & Hg).
  - cbn [variant_arg_bytes]. rewrite take_ge by (by rewrite length_view_bytes). apply length_view_bytes.
  - exists r. split; [done|]. by rewrite Hg.
Qed.

Lemma bool_loop_spec maps val res :
  length (m_val res) = 16%nat → ∃ r, bool_loop maps val res = Ret r ∧ length (m_val r) = 16%nat.
Proof.
  intros Hres. induction maps as [|[m b] maps IH]; simpl; [by exists res|].
  destruct (_ =? 0); [|done].
  destruct (variant_set_spec res NkVarTy_Boolean (ArgWord (if b then 1 else 0)) Hres) as (r & ? & ? & _);
    [done|by exists r].
Qed.

(** The value of a non-empty, trimmed view [value] at offset [n]. *)
Definition quoted (value : list Z) : bool :=
  bool_decide (head value = Some 34) && bool_decide (list.last value = Some 34).
Definition value_view (n : Z) (value : list Z) : NkStringView :=
  if quoted value then mkView (n + 1) (u64 (Z.of_nat (length value) - 2))
  else mkView n (Z.of_nat (length value)).
Definition is_numeric (value : list Z) : bool :=
  match value with c :: _ => is_digit c || (c =? 43) || (c =? 45) | [] => false end.

Lemma parse_value_spec pre c value' base :
  let value := c :: value' in
  Z.of_nat (length (pre ++ value)) < 2 ^ 63 → (is_numeric value = true → Forall digit_ok value) →
  if is_numeric value then
    if decimal_ok value
    then ∃ v, parse_value strtod tmp0 (pre ++ value) base (mkView (Z.of_nat (length pre)) (Z.of_nat (length value))) = Ret (NkErr_Ok, v) ∧
           NkVariantGet v = (NkVarTy_Double, le_bytes 8 (strtod value))
    else parse_value strtod tmp0 (pre ++ value) base (mkView (Z.of_nat (length pre)) (Z.of_nat (length value))) =
           Ret (NkErr_UnexpectedCharacter, tmp0)
  else ∃ v, parse_value strtod tmp0 (pre ++ value) base (mkView (Z.of_nat (length pre)) (Z.of_nat (length value))) = Ret (NkErr_Ok, v) ∧
         NkVariantGet v = (NkVarTy_StringView, view_bytes base (value_view (Z.of_nat (length pre)) value)).
Proof.
  intros value Hlen Hdig. unfold parse_value. cbn [mp_dataPtr m_sizeInBytes]. rewrite Nat2Z.id, drop_app_length.
  assert (Hc : char_at (pre ++ value) (Z.of_nat (length pre)) = Ret c).
  { apply buf_get_lookup; [lia|]. rewrite Nat2Z.id, <-(assoc_L (++)). by apply list_lookup_middle. }
  rewrite Hc. step. change (is_numeric value) with (is_digit c || (c =? 43) || (c =? 45)) in *.
  destruct (is_digit c || (c =? 43) || (c =? 45)).
  { unfold EnvParseNumber. rewrite length_app in Hlen. rewrite number_ok_spec by (first [by apply Hdig|lia]). step.
    destruct (decimal_ok value); cbn [negb]; [|done].
    destruct (variant_set_spec tmp0 NkVarTy_Double (ArgWord (strtod value)) tmp0_size) as (v & -> & _ & _ & _ & Hg); [done|].
    exists v. split; [done|]. by apply Hg. }
  assert (Hl : ∃ l, char_at (pre ++ value) (Z.of_nat (length pre) + Z.of_nat (length value) - 1) = Ret l ∧ list.last value = Some l).
  { destruct (list.last value) as [l|] eqn:El; [|by apply list.last_None in El]. exists l. split; [|done].
    rewrite list.last_lookup in El. apply buf_get_lookup; [simpl; lia|].
    replace (Z.to_nat _) with (length pre + pred (length value))%nat by (simpl; lia).
    rewrite <-(assoc_L (++)). rewrite lookup_app_r by lia.
    replace (length pre + pred (length value) - length pre)%nat with (pred (length value)) by lia.
    by apply lookup_app_l_Some. }
  unfold value_view, quoted. destruct Hl as (l & Hl & ->).
  destruct (Z.eqb_spec c 34) as [->|Hc34].
  - rewrite Hl. cbn [mbind outcome_bind head value]. rewrite bool_decide_eq_true_2 by done. cbn [andb].
    destruct (Z.eqb_spec 34 l) as [<-|Hne].
    + rewrite bool_decide_eq_true_2 by done.
      edestruct (set_view_spec tmp0 base) as (v & -> & Hv); [done|]. by exists v.
    + rewrite bool_decide_eq_false_2 by congruence.
      edestruct (set_view_spec tmp0 base) as (v & -> & Hv); [done|]. by exists v.
  - rewrite (bool_decide_eq_false_2 (head value = Some 34)) by (simpl; congruence). cbn [andb].
    rewrite Nat2Z.id. destruct (bool_loop_spec gl_BoolMappings (take (length value) value) tmp0) as (r & -> & Hr); [done|].
    step. destruct (set_view_spec r base (mkView (Z.of_nat (length pre)) (Z.of_nat (length value))))
      as (v & -> & Hv); [done|]. by exists v.
Qed.

(** Trimming the view [sp ++ body] that starts behind [pre] and ends before [rest]. *)
Lemma trim_view_spec pre sp body rest :
  Forall (λ x, x = 32) sp → head (body ++ rest) ≠ Some 32 → head rest ≠ Some 32 →
  Z.of_nat (length (sp ++ body)) < 2 ^ 63 →
  trim_view (pre ++ sp ++ body ++ rest) (mkView (Z.of_nat (length pre)) (Z.of_nat (length (sp ++ body)))) (bytes_of " ") =
    Ret (mkView (Z.of_nat (length pre) + Z.of_nat (length sp)) (Z.of_nat (length body))).
Proof.
  intros Hsp Hb Hr Hlen. unfold trim_view. cbn [mp_dataPtr m_sizeInBytes].
  rewrite Nat2Z.id, drop_app_length.
  assert (H32 : ∀ x, x ∈ bytes_of " " ↔ x = 32) by (intros x; change (bytes_of " ") with [32]; by rewrite list_elem_of_singleton).
  rewrite raw_trim_spec; [done| | | |done].
  - eapply List.Forall_impl; [|exact Hsp]. intros x ->. by apply H32.
  - intros x Hx ->%H32. done.
  - rewrite H32. destruct rest as [|x rest]; simpl in *; [done|congruence].
Qed.
End pair.

(** ** Lemmas: the arrays *)
Section array.
Context `{CharType} (strtod : list Z → Z) (tmp0 : Variant) (allocs : nat → NkErrorCode * NkErrorCode).
Context {S : Type} `{ViewStoreLaws S}.
Notation parse a o hasPrefix := (EnvParsePair strtod tmp0 a.1 a.2 (opt_chars o) (opt_base o) hasPrefix).

(** What an option defines: its key and value, if it parses and both can be allocated. *)
Definition definition (a : NkErrorCode * NkErrorCode) (hasPrefix : bool) (o : Option_) : option (list Z * option Variant) :=
  match parse a o hasPrefix with
  | Ret (_, Some key, var) => Some (view_chars (opt_chars o) key, var)
  | _ => None
  end.
(** What the options from the [n]th on define. *)
Fixpoint definitions (n : nat) (hasPrefix : bool) (opts : list Option_) : list (list Z * option Variant) :=
  match opts with
  | [] => []
  | o :: opts => option_list (definition (allocs n) hasPrefix o) ++ definitions (Datatypes.S n) hasPrefix opts
  end.
(** Parsing the option is defined. *)
Definition parses (hasPrefix : bool) (o : Option_) : Prop := ∃ r, parse (NkErr_Ok, NkErr_Ok) o hasPrefix = Ret r.
(** What the allocations answer changes nothing about that. *)
Lemma parses_any a hasPrefix o : parses hasPrefix o → ∃ r, parse a o hasPrefix = Ret r.
Proof.
  unfold parses, EnvParsePair. cbn [fst snd]. destruct (if hasPrefix then _ else _) as [e start]. destruct (negb (isOk e)); [done|].
  destruct (NkRawStringSplit _ _) as [name value]. destruct (trim_view _ (shift_view start name) _) as [tn| | |]; [cbn [mbind outcome_bind]|intros [r Hr]; discriminate Hr..].
  destruct (trim_view _ (shift_view start value) _) as [tv| | |]; [cbn [mbind outcome_bind]|intros [r Hr]; discriminate Hr..].
  destruct (if m_sizeInBytes tv =? 0 then _ else _) as [[e' tmp]| | |]; [cbn [mbind outcome_bind]|intros [r Hr]; discriminate Hr..].
  intros _. destruct (negb (isOk e')); [by eexists|]. destruct (negb (isOk a.1)); [by eexists|]. case_match; [|by eexists].
  destruct (negb (isOk a.2)); by eexists.
Qed.
(** The value a list of definitions gives a key: the first one counts. *)
Fixpoint first_definition (defs : list (list Z * option Variant)) (k : list Z) : option (option Variant) :=
  match defs with
  | [] => None
  | (k', v) :: defs => if bool_decide (k = k') then Some v else first_definition defs k
  end.

Lemma first_definition_app d1 d2 k :
  first_definition (d1 ++ d2) k =
    match first_definition d1 k with Some v => Some v | None => first_definition d2 k end.
Proof. induction d1 as [|[k' v] d1 IH]; simpl; [done|]. by case_bool_decide. Qed.

Lemma parse_array_spec n opts hasPrefix (st : S) m :
  Forall (parses hasPrefix) opts → Forall (λ o, no_nul (opt_chars o)) opts → vs_room st (length opts + m) →
  ∃ st', EnvParseOptionArray strtod tmp0 allocs n opts hasPrefix st = Ret st' ∧ vs_room st' m ∧
    ∀ k, vs_map st' k =
      match vs_map st k with
      | Some v => Some v
      | None => first_definition (definitions n hasPrefix opts) k
      end.
Proof.
  intros Hall. revert n st. induction Hall as [|o opts Ho Hall IH]; intros n st Hc Hroom; cbn [EnvParseOptionArray definitions].
  { exists st. split_and!; [done|done|]. intros k. by destruct (vs_map st k). }
  apply Forall_cons_iff in Hc as [Hc1 Hc]. specialize (λ st, IH (Datatypes.S n) st Hc).
  destruct (parses_any (allocs n) _ _ Ho) as [[[e key] var] Ho']. rewrite Ho'. cbn [mbind outcome_bind]. unfold definition at 1. rewrite Ho'.
  simpl in Hroom. assert (Hroom' : vs_room st (length opts + m)) by (eapply vs_room_le; [|exact Hroom]; lia).
  destruct key as [key|]; [|by apply IH].
  set (k0 := view_chars (opt_chars o) key). assert (Hk0 : no_nul k0) by (by apply Forall_take, Forall_drop).
  rewrite (vs_contains_spec st k0 _ Hk0 Hroom). step.
  case_bool_decide as Hex.
  - destruct (IH st Hroom') as (st' & -> & ? & Hmap). exists st'. split_and!; [done|done|].
    intros k. rewrite Hmap. destruct (vs_map st k) as [v|] eqn:Ek; [done|]. cbn.
    rewrite bool_decide_eq_false_2; [done|]. intros ->. destruct Hex as [? Hex]. congruence.
  - destruct (vs_insert_spec st k0 var _ Hk0 Hroom) as (st1 & -> & Hroom1 & Hm1); [by apply eq_None_not_Some|].
    step. destruct (IH st1 Hroom1) as (st' & -> & ? & Hmap). exists st'. split_and!; [done|done|].
    intros k. rewrite Hmap, Hm1. cbn. case_bool_decide as Hk.
    + subst k. rewrite decide_True by done. apply eq_None_not_Some in Hex. by rewrite Hex.
    + by rewrite decide_False by done.
Qed.

Lemma get_value_spec (st : S) n k :
  no_nul k → vs_room st n →
  NkEnvGetValue k (Some st) =
    match vs_map st k with
    | None => Ret (NkErr_ItemNotFound, None)
    | Some (Some v) => Ret (NkErr_Ok, Some v)
    | Some None => Halt NkErr_InParameter
    end.
Proof.
  intros Hk Hroom. unfold NkEnvGetValue. rewrite (vs_at_spec st k n Hk Hroom). step.
  by destruct (vs_map st k) as [[v|]|].
Qed.
End array.

(** ** Properties *)
Section properties.
Context `{CharType} (strtod : list Z → Z) (tmp0 : Variant).

(** A command-line option is one prefix character, spaces, the key, a
    delimiter, spaces and the value.  The key keeps its trailing spaces; a value that
    starts like a number must be one and becomes a double (its characters must be some that
    [isdigit] is defined for: not negative ones); everything else, the
    boolean words included, becomes a view of the text, without the quotation marks
    if it starts and ends with one; without a value nothing is allocated. *)
Theorem env_parse_pair base p sp1 name d sp2 value :
  length (m_val tmp0) = 16%nat → p ∈ bytes_of "$/-#" → d ∈ bytes_of "=:" →
  Forall (λ x, x = 32) sp1 → Forall (λ x, x = 32) sp2 → Forall (λ x, x ∉ bytes_of "=:") name →
  list.head name ≠ Some 32 → list.head value ≠ Some 32 →
  Z.of_nat (length (p :: sp1 ++ name ++ d :: sp2 ++ value)) < 2 ^ 63 → (is_numeric value = true → Forall digit_ok value) →
  let s := p :: sp1 ++ name ++ d :: sp2 ++ value in
  let key := mkView (1 + Z.of_nat (length sp1)) (Z.of_nat (length name)) in
  let n := Z.of_nat (length (p :: sp1 ++ name ++ d :: sp2)) in
  let result := EnvParsePair strtod tmp0 NkErr_Ok NkErr_Ok s base true in
  view_chars s key = name ∧
  if bool_decide (value = []) then result = Ret (NkErr_Ok, Some key, None)
  else if is_numeric value && negb (decimal_ok value) then result = Ret (NkErr_UnexpectedCharacter, None, None)
  else ∃ v, result = Ret (NkErr_Ok, Some key, Some v) ∧
    NkVariantGet v = if is_numeric value then (NkVarTy_Double, le_bytes 8 (strtod value))
                     else (NkVarTy_StringView, view_bytes base (value_view n value)).
Proof.
  intros Htmp Hp Hd Hsp1 Hsp2 Hname Hn Hv Hlen Hdig s key n result. split.
  { unfold view_chars, key, s. cbn [mp_dataPtr m_sizeInBytes].
    rewrite Z2Nat.inj_add, !Nat2Z.id by lia. change (Z.to_nat 1 + length sp1)%nat with (length (p :: sp1)).
    change (p :: sp1 ++ name ++ d :: sp2 ++ value) with ((p :: sp1) ++ name ++ d :: sp2 ++ value).
    by rewrite drop_app_length, take_app_length. }
  assert (Hexp : EnvExpectChars s (bytes_of "$/-#") = (NkErr_Ok, 1)).
  { unfold EnvExpectChars, s. cbn [strpbrk]. by rewrite (bool_decide_eq_true_2 (p ∈ _)) by done. }
  assert (H32 : 32 ∉ bytes_of "=:") by (apply (bool_decide_unpack _); vm_compute; exact I).
  assert (Hd32 : d ≠ 32) by congruence.
  assert (Hsplit : NkRawStringSplit (drop (Z.to_nat 1) s) (bytes_of "=:") =
    (mkView 0 (Z.of_nat (length (sp1 ++ name))), mkView (Z.of_nat (length (sp1 ++ name)) + 1) (Z.of_nat (length (sp2 ++ value))))).
  { unfold s. change (drop (Z.to_nat 1) (p :: ?l)) with l. rewrite (assoc_L (++)).
    apply raw_split_spec; [|done]. apply Forall_app_2; [|done].
    eapply List.Forall_impl; [|exact Hsp1]. by intros x ->. }
  assert (Hkey : trim_view s (shift_view 1 (mkView 0 (Z.of_nat (length (sp1 ++ name))))) (bytes_of " ") = Ret key).
  { apply (trim_view_spec [p] sp1 name (d :: sp2 ++ value)); [done| |simpl; congruence|simpl in Hlen; rewrite !length_app in *; lia].
    destruct name; simpl in *; congruence. }
  assert (Hval : trim_view s (shift_view 1 (mkView (Z.of_nat (length (sp1 ++ name)) + 1) (Z.of_nat (length (sp2 ++ value))))) (bytes_of " ") =
    Ret (mkView n (Z.of_nat (length value)))).
  { pose proof (trim_view_spec (p :: sp1 ++ name ++ [d]) sp2 value []) as Ht. rewrite !app_nil_r in Ht.
    replace s with ((p :: sp1 ++ name ++ [d]) ++ sp2 ++ value) by (unfold s; simpl; by rewrite <-!(assoc_L (++))).
    unfold shift_view. cbn [mp_dataPtr m_sizeInBytes].
    replace (1 + (Z.of_nat (length (sp1 ++ name)) + 1)) with (Z.of_nat (length (p :: sp1 ++ name ++ [d])))
      by (simpl; rewrite !length_app; simpl; lia).
    rewrite Ht; [|done|done|done|simpl in Hlen; rewrite !length_app in *; simpl in Hlen; rewrite length_app in Hlen; lia].
    f_equal. f_equal. unfold n. simpl. rewrite !length_app. simpl. lia. }
  unfold result, EnvParsePair. rewrite Hexp. cbv iota beta. ok_step.
  rewrite Hsplit. cbv iota beta. rewrite Hkey. step. rewrite Hval. cbn [mbind outcome_bind m_sizeInBytes].
  case_bool_decide as Hempty; [by subst value|]. destruct value as [|c value']; [done|].
  destruct (Z.eqb_spec (Z.of_nat (length (c :: value'))) 0); [simpl in *; lia|]. cbn [negb].
  assert (Hs : s = (p :: sp1 ++ name ++ d :: sp2) ++ c :: value') by (unfold s; simpl; by rewrite <-!(assoc_L (++))).
  pose proof (parse_value_spec strtod tmp0 Htmp (p :: sp1 ++ name ++ d :: sp2) c value' base) as Hpv.
  rewrite Hs. cbv zeta in Hpv. specialize (Hpv ltac:(by rewrite <-Hs) Hdig). fold n in Hpv.
  destruct (is_numeric (c :: value')); [destruct (decimal_ok (c :: value'))|]; cbn [andb negb].
  - destruct Hpv as (v & -> & Hg). cbn [mbind outcome_bind NkVariantCopy]. change (isOk NkErr_Ok) with true. by exists v.
  - by rewrite Hpv.
  - destruct Hpv as (v & -> & Hg). cbn [mbind outcome_bind NkVariantCopy]. change (isOk NkErr_Ok) with true. by exists v.
Qed.

(** C31: after startup the value of a key is the first definition among the environment variables and
    then the command-line options behind the program's name, of those that parse and whose key and value could be
    allocated; a key defined without a value ends the process when it is asked for.  There are at most 128
    options, which the store has room for, and none whose parsing is undefined: a value that begins like a number
    holds no characters that are negative as [char]s. *)
Theorem env_first_definition {S} `{ViewStoreLaws S} allocs (envp : option (list Option_)) argv :
  Forall (parses strtod tmp0 false) (default [] envp) →
  Forall (parses strtod tmp0 true) (tail argv) →
  Forall (λ o, no_nul (opt_chars o)) (default [] envp) → Forall (λ o, no_nul (opt_chars o)) (tail argv) →
  (length (default [] envp) + length (tail argv) ≤ 128)%nat →
  ∃ st : S, Env_Startup strtod tmp0 allocs envp argv None = Ret (NkErr_Ok, Some st) ∧
    ∀ k, no_nul k → NkEnvGetValue k (Some st) =
      match first_definition (definitions strtod tmp0 allocs 0 false (default [] envp) ++
                              definitions strtod tmp0 allocs (length (default [] envp)) true (tail argv)) k with
      | None => Ret (NkErr_ItemNotFound, None)
      | Some (Some v) => Ret (NkErr_Ok, Some v)
      | Some None => Halt NkErr_InParameter
      end.
Proof.
  intros He Ha Hce Hca Hlen. unfold Env_Startup. cbn [NK_ASSERT mbind outcome_bind].
  destruct vs_create_spec as (s0 & -> & Hm0 & Hroom0). step. ok_step.
  set (o1 := default [] envp) in *. set (o2 := tail argv) in *.
  destruct (parse_array_spec strtod tmp0 allocs 0 o1 false s0 (length o2)) as (s1 & -> & Hroom1 & Hm1);
    [done|done|eapply vs_room_le; [|exact Hroom0]; lia|]. step.
  destruct (parse_array_spec strtod tmp0 allocs (length o1) o2 true s1 0) as (s2 & -> & Hroom2 & Hm2);
    [done|done|by rewrite Nat.add_0_r|]. step.
  exists s2. split; [done|]. intros k Hk. rewrite (get_value_spec s2 0 k Hk Hroom2), Hm2, Hm1, Hm0.
  rewrite first_definition_app. by destruct (first_definition _ k).
Qed.
End properties.

(** ** Witnesses: a finite map as the store, [strtod] that knows no number *)
Definition map_store : ViewStore (gmap (list Z) (option Variant)) := {|
  vs_create := Ret (NkErr_Ok, Some ∅);
  vs_contains := λ s k, Ret (bool_decide (is_Some (s !! k)));
  vs_insert := λ s k v, Ret (NkErr_Ok, <[k := v]> s);
  vs_at := λ s k, Ret (match s !! k with Some v => (NkErr_Ok, v) | None => (NkErr_ItemNotFound, None) end);
  vs_map := λ s k, s !! k;
  vs_room := λ _ _, True
|}.
Lemma map_store_laws : @ViewStoreLaws _ map_store.
Proof.
  split; simpl; intros; try done; [by eexists|]. eexists. split; [done|]. split; [done|]. intros k'.
  case_decide; subst; [apply lookup_insert_eq|by apply lookup_insert_ne].
Defined.

Definition no_variant : Variant := mkVariant NkVarTy_None (replicate 16 0).
Definition option_at (base : Z) (s : string) : Option_ := mkOption base (bytes_of s).
#[local] Existing Instance signed_char.
(** No allocation fails; only the key of the third option can be allocated. *)
Definition no_failure (n : nat) : NkErrorCode * NkErrorCode := (NkErr_Ok, NkErr_Ok).
Definition third_fails (n : nat) : NkErrorCode * NkErrorCode := (NkErr_Ok, if decide (n = 2%nat) then NkErr_MemoryAllocation else NkErr_Ok).
(** [-lives = 3] on the command line. *)
Lemma env_parse_pair_witness :
  let s := bytes_of "-lives = 3" in
  let key := mkView 1 6 in
  let result := EnvParsePair (λ _, 42) no_variant NkErr_Ok NkErr_Ok s 1000 true in
  view_chars s key = bytes_of "lives " ∧
  if bool_decide (bytes_of "3" = []) then result = Ret (NkErr_Ok, Some key, None)
  else if is_numeric (bytes_of "3") && negb (decimal_ok (bytes_of "3")) then result = Ret (NkErr_UnexpectedCharacter, None, None)
  else ∃ v, result = Ret (NkErr_Ok, Some key, Some v) ∧
    NkVariantGet v = if is_numeric (bytes_of "3") then (NkVarTy_Double, le_bytes 8 42)
                     else (NkVarTy_StringView, view_bytes 1000 (value_view 9 (bytes_of "3"))).
Proof.
  apply (env_parse_pair (λ _, 42) no_variant 1000 45 [] (bytes_of "lives ") 61 [32] (bytes_of "3")).
  - done.
  - apply (bool_decide_unpack _). vm_compute. exact I.
  - apply (bool_decide_unpack _). vm_compute. exact I.
  - constructor.
  - repeat constructor.
  - apply (bool_decide_unpack _). vm_compute. exact I.
  - done.
  - done.
  - vm_compute. done.
  - intros _. repeat constructor.
Defined.

Definition three_options : list Option_ := [option_at 2000 "noriko"; option_at 3000 "-x=1"; option_at 4000 "-x=yes"; option_at 5000 "-é=1"].
(** The value of the first [x] cannot be allocated, so the second counts. *)
Lemma env_first_definition_witness : ∃ (st : gmap (list Z) (option Variant)) v,
  @Env_Startup _ (λ _, 42) no_variant _ map_store (λ n, third_fails (S n)) (Some [option_at 1000 "HOME=/root"]) three_options None =
    Ret (NkErr_Ok, Some st) ∧
  @NkEnvGetValue _ map_store (bytes_of "x") (Some st) = Ret (NkErr_Ok, Some v) ∧ m_type v = NkVarTy_StringView.
Proof.
  destruct (@env_first_definition signed_char (λ _, 42) no_variant _ map_store map_store_laws (λ n, third_fails (S n))
    (Some [option_at 1000 "HOME=/root"]) three_options) as (st & Est & Hst).
  - repeat constructor; eexists; vm_compute; reflexivity.
  - repeat constructor; eexists; vm_compute; reflexivity.
  - repeat constructor; discriminate.
  - repeat constructor; discriminate.
  - simpl. lia.
  - specialize (Hst (bytes_of "x") ltac:(repeat constructor; discriminate)). exists st. eexists. split; [exact Est|]. rewrite Hst.
    split; [vm_compute; reflexivity|reflexivity].
Defined.
(** A negative character behind a digit. *)
Example number_with_umlaut :
  EnvParsePair (λ _, 42) no_variant NkErr_Ok NkErr_Ok (bytes_of "-x=1é") 1000 true = Undef ∧
  @EnvParsePair unsigned_char (λ _, 42) no_variant NkErr_Ok NkErr_Ok (bytes_of "-x=1é") 1000 true = Ret (NkErr_UnexpectedCharacter, None, None).
Proof. vm_compute. by split. Qed.

(** The application looks for the key [attached].  Started with the documented
    [--attached], only one prefix character is removed and the key is not found; with
    [-attached], it is found without a value, which ends the process. *)
Definition ask_attached (opt : string) : outcome (NkErrorCode * option Variant) :=
  '(_, st) ← @Env_Startup _ (λ _, 42) no_variant _ map_store no_failure None
               [option_at 2000 "noriko"; option_at 3000 opt] None;
  @NkEnvGetValue _ map_store (bytes_of "attached") st.
Example double_dash_not_found : ask_attached "--attached" = Ret (NkErr_ItemNotFound, None).
Proof. vm_compute. reflexivity. Qed.
Example option_without_value_halts : ask_attached "-attached" = Halt NkErr_InParameter.
Proof. vm_compute. reflexivity. Qed.
(** A boolean word is stored as text; a lone quotation mark becomes a view whose size
    wrapped around. *)
Example boolean_is_text :
  ∃ v, EnvParsePair (λ _, 42) no_variant NkErr_Ok NkErr_Ok (bytes_of "-vsync=on") 1000 true = Ret (NkErr_Ok, Some (mkView 1 5), Some v) ∧
    m_type v = NkVarTy_StringView.
Proof. eexists. split; [vm_compute; reflexivity|reflexivity]. Qed.
Example lone_quote_wraps : value_view 3 [34] = mkView 4 SIZE_MAX.
Proof. vm_compute. reflexivity. Qed.
