(* ===== verification/EnvStore.v ===== *)
(** * The option store of [env.c] is a hash table

    The keys are views of the option strings, compared by their contents; a value is the
    address of a variant, or null.  The instance of [ViewStore] made of [HTable] and the
    memory of the variants satisfies the laws, so that what [Env] proves of the options
    holds with the hash table the code uses. *)
From S2P Require Import Prelude Float32 CStr Util HTable Registry Env.

Definition env_props : NkHashtableProperties := mkHashtableProperties 32 16 16 UINT32_MAX NkHtKeyTy_StringView true.
(** The table and the variants that were allocated, in order. *)
Record EnvTable := mkEnvTable { et_table : NkHashtable; et_values : list Variant }.
(** The address of a new value, and reading one. *)
Definition store_value (vals : list Variant) (v : option Variant) : Z * list Variant :=
  match v with None => (NULL, vals) | Some v => (1 + Z.of_nat (length vals), vals ++ [v]) end.
Definition load_value (vals : list Variant) (p : Z) : option Variant := if p =? NULL then None else vals !! Z.to_nat (p - 1).
Definition good_ptr (vals : list Variant) (p : Z) : Prop := 0 ≤ p ≤ Z.of_nat (length vals).

Lemma store_load vals v p vals' : store_value vals v = (p, vals') →
  load_value vals' p = v ∧ good_ptr vals' p ∧ ∀ q, good_ptr vals q → good_ptr vals' q ∧ load_value vals' q = load_value vals q.
Proof.
  unfold store_value, load_value, good_ptr, NULL. destruct v as [v|]; intros [= <- <-].
  - rewrite length_app. cbn [length]. destruct (Z.eqb_spec (1 + Z.of_nat (length vals)) 0); [lia|].
    split; [|split; [lia|]].
    + replace (Z.to_nat (1 + Z.of_nat (length vals) - 1)) with (length vals) by lia. by apply list_lookup_middle.
    + intros q Hq. split; [lia|]. destruct (Z.eqb_spec q 0); [done|]. apply lookup_app_l. lia.
  - split; [done|]. split; [lia|done].
Qed.

Section store.
Context `{KML : KeyMemoryLaws} (gl_seed : Z) (h : heap) (fuel : nat) (behind : Z → Z).
Hypothesis heap_enough : ∀ c, 16 ≤ c ≤ 1024 → is_Some (h (sizeof_ExtPair * c)).
Hypothesis fuel_enough : 1024 ≤ Z.of_nat fuel.
(** Where the view of a text is. *)
Context (view_at : list Z → Z).
Hypothesis view_at_shows : ∀ k, no_nul k → ∃ d, key_sv (view_at k) = (d, Z.of_nat (length k)) ∧ key_bytes d (Z.of_nat (length k)) = k.

Definition text_repr (k : list Z) : list Z := Z.of_nat (length k) :: k.
Lemma view_repr k : no_nul k → key_repr NkHtKeyTy_StringView (view_at k) = text_repr k.
Proof.
  intros Hk. destruct (view_at_shows k Hk) as (d & E1 & E2). unfold key_repr, text_repr. rewrite E1, E2. f_equal.
  clear -Hk. induction Hk as [|c k Hc _ IH]; [done|]. cbn [cut_nul]. by rewrite (proj2 (Z.eqb_neq _ _) Hc), IH.
Qed.

Definition env_create : outcome (NkErrorCode * option EnvTable) :=
  '(e, t) ← ht_create h env_props; Ret (e, option_map (λ t, mkEnvTable t []) t).
Definition env_contains (s : EnvTable) (k : list Z) : outcome bool :=
  NkHashtableContains gl_seed (et_table s) (view_at k) (behind (view_at k)).
Definition env_insert (s : EnvTable) (k : list Z) (v : option Variant) : outcome (NkErrorCode * EnvTable) :=
  let '(p, vals) := store_value (et_values s) v in
  '(e, t) ← NkHashtableInsert gl_seed h fuel (et_table s) (mkPair (view_at k) p);
  Ret (e, mkEnvTable t vals).
Definition env_at (s : EnvTable) (k : list Z) : outcome (NkErrorCode * option Variant) :=
  '(e, p) ← NkHashtableAt gl_seed (et_table s) (view_at k) (behind (view_at k));
  Ret (e, if isOk e then load_value (et_values s) p else None).
Definition env_map (s : EnvTable) (k : list Z) : option (option Variant) :=
  load_value (et_values s) <$> ht_map (et_table s) !! text_repr k.
Definition env_room (s : EnvTable) (n : nat) : Prop :=
  small_table NkHtKeyTy_StringView (et_table s) n ∧ ∀ r p, ht_map (et_table s) !! r = Some p → good_ptr (et_values s) p.
#[local] Instance env_store : ViewStore EnvTable := {
  vs_create := env_create; vs_contains := env_contains; vs_insert := env_insert; vs_at := env_at; vs_map := env_map; vs_room := env_room
}.

(** C37: the hash table of the options promises what the command line relies on: created as [env.c] does, it
    has room for 128 options, tells keys apart by their text whatever the views' addresses are, keeps the value an
    option was inserted with through all the resizing, and an option without a value is there without one. *)
Theorem env_store_refinement : @ViewStoreLaws EnvTable env_store.
Proof.
  split; cbn [vs_create vs_contains vs_insert vs_at vs_map vs_room env_store]; unfold env_create, env_contains, env_insert, env_at, env_map, env_room.
  - destruct (small_create h fuel heap_enough NkHtKeyTy_StringView env_props) as (t & -> & Ht & Hm); [by split_and!|].
    step. eexists. split; [done|]. cbn [et_table et_values]. rewrite Hm. split; [done|]. split; [|done].
    destruct Ht. split; [done|done|done|lia].
  - intros s k n Hk [Ht _]. rewrite (contains_spec gl_seed _ _ _ (st_ok _ _ _ Ht)).
    f_equal. apply bool_decide_ext. assert (slot_keyType (et_table s) = NkHtKeyTy_StringView) as -> by apply Ht.
    by rewrite (view_repr k Hk), fmap_is_Some.
  - intros s k v n Hk [Ht Hp] Hnew. destruct (store_value (et_values s) v) as [p vals] eqn:Ev.
    destruct (store_load _ _ _ _ Ev) as (Hload & Hgood & Hold).
    destruct (small_insert gl_seed h fuel heap_enough fuel_enough NkHtKeyTy_StringView (et_table s) (mkPair (view_at k) p) n Ht) as (t' & -> & Ht' & Hm).
    cbn [m_keyVal mp_valuePtr] in Hm. rewrite (view_repr k Hk) in Hm. apply fmap_None in Hnew. rewrite Hnew in Hm. step.
    eexists. split; [done|]. cbn [et_table et_values]. rewrite Hm. split; [split; [done|]|].
    + intros r q [[<- <-]|[_ Hq]]%lookup_insert_Some; [done|]. by apply Hold, (Hp r).
    + intros k'. destruct (decide (k' = k)) as [->|Hne].
      * by rewrite lookup_insert_eq, <- Hload.
      * rewrite lookup_insert_ne by (unfold text_repr; congruence). destruct (ht_map (et_table s) !! text_repr k') as [q|] eqn:Eq; [|done].
        cbn. f_equal. by apply Hold, (Hp _ _ Eq).
  - intros s k n Hk [Ht _]. rewrite (at_spec gl_seed _ _ _ (st_ok _ _ _ Ht)).
    assert (slot_keyType (et_table s) = NkHtKeyTy_StringView) as -> by apply Ht. rewrite (view_repr k Hk).
    by destruct (ht_map (et_table s) !! text_repr k).
  - intros s n m Hle [[] Hp]. split; [split; [done|done|done|lia]|done].
Qed.
End store.

(** ** A memory in which every text has a view: its address is the text as a number *)
Definition text_of (a : Z) : list Z := default [] (decode (Z.to_pos a)).
Definition text_address (k : list Z) : Z := Zpos (encode k).
Lemma text_back k : text_of (text_address k) = k.
Proof. unfold text_of, text_address. cbn [Z.to_pos]. by rewrite decode_encode. Qed.
Definition text_memory : KeyMemory := {|
  key_cstr := λ _, [];
  key_sv := λ a, (a, Z.of_nat (length (text_of a)));
  key_bytes := λ a n, if bool_decide (Z.of_nat (length (text_of a)) = n) then text_of a else replicate (Z.to_nat n) 1;
  key_uuid := λ a, (a, 0)
|}.
Lemma text_memory_laws : @KeyMemoryLaws text_memory.
Proof. split; cbn; [done|]. intros a n. case_bool_decide as E; [by rewrite <- E, Nat2Z.id|apply length_replicate]. Qed.
Lemma text_shows k : no_nul k →
  ∃ d, @key_sv text_memory (text_address k) = (d, Z.of_nat (length k)) ∧ @key_bytes text_memory d (Z.of_nat (length k)) = k.
Proof. intros _. exists (text_address k). cbn [key_sv key_bytes text_memory]. rewrite text_back. split; [done|]. by rewrite bool_decide_true. Qed.
Definition toy_env_store : ViewStore EnvTable := @env_store text_memory 77 strict_heap 1024 (λ _, 0) text_address.
Lemma env_store_refinement_witness : @ViewStoreLaws EnvTable toy_env_store.
Proof.
  apply (@env_store_refinement text_memory text_memory_laws 77 strict_heap 1024 (λ _, 0)).
  - intros c Hc. unfold strict_heap, sizeof_ExtPair. destruct (Z.leb_spec (24 * c) INT64_MAX); [by eexists|unfold INT64_MAX in *; lia].
  - lia.
  - exact text_shows.
Defined.
(** The command line [noriko -x=a -x=b], with the hash table. *)
Definition ask_x : outcome (NkErrorCode * option Variant) :=
  '(_, st) ← @Env_Startup unsigned_char (λ _, 42) no_variant _ toy_env_store no_failure None
               [option_at 2000 "noriko"; option_at 3000 "-x=a"; option_at 4000 "-x=b"] None;
  @NkEnvGetValue _ toy_env_store (bytes_of "x") st.
Example env_table_runs : match ask_x with Ret (_, Some v) => NkVariantGet v | _ => (NkVarTy_None, []) end =
  (NkVarTy_StringView, view_bytes 3000 (mkView 3 1)).
Proof. vm_compute. reflexivity. Qed.
