(* ===== verification/Stdio.v ===== *)
(** * The C library's file streams

    What the engine uses of [stdio.h] in the Microsoft C library: opening with a
    mode string, reading, writing, seeking and closing.  Files are byte lists; a
    stream is unbuffered, so data is in the file when [fwrite] returns.  Text streams
    translate line ends and stop at CTRL-Z.  What the operating system decides is
    part of the file system record: which paths may be opened, how long a file can
    get, whether flushing succeeds. *)
From S2P Require Import Prelude CStr.

(** A named file, or the [n]-th temporary file. *)
Inductive FileId : Set := Named (path : list Z) | Temp (n : Z).
#[export] Instance FileId_eq_dec : EqDecision FileId.
Proof. solve_decision. Defined.
#[export] Instance FileId_countable : Countable FileId.
Proof.
  refine (inj_countable' (λ i, match i with Named p => inl p | Temp n => inr n end)
                         (λ s, match s with inl p => Named p | inr n => Temp n end) _).
  by intros [].
Defined.

Record FileSys := mkFs {
  fs_files : gmap FileId (list Z);
  fs_temps : Z;                            (* temporary files made so far *)
  fs_access : list Z → bool;               (* the system lets us open the path *)
  fs_cap : Z;                              (* the longest file the disk takes *)
  fs_flush : bool;                         (* flushing succeeds *)
  fs_times : FileId → option (Z * Z * Z)   (* change, modification, access; [None]: no stat *)
}.
Definition set_files (fs : FileSys) (m : gmap FileId (list Z)) : FileSys :=
  mkFs m (fs_temps fs) (fs_access fs) (fs_cap fs) (fs_flush fs) (fs_times fs).
Definition file_data (fs : FileSys) (i : FileId) : list Z := default [] (fs_files fs !! i).
Definition put_file (fs : FileSys) (i : FileId) (data : list Z) : FileSys :=
  set_files fs (<[i := data]> (fs_files fs)).

(** An open stream. *)
Record FILE := mkFILE {
  f_id : FileId; f_read : bool; f_write : bool; f_append : bool; f_text : bool; f_pos : Z
}.
Definition set_pos (f : FILE) (p : Z) : FILE :=
  mkFILE (f_id f) (f_read f) (f_write f) (f_append f) (f_text f) p.

(** ** Opening *)

(** Whether the character [c] is one of the mode's flags. *)
Definition mode_has (mode : list Z) (c : Z) : bool := bool_decide (c ∈ tail mode).
Definition fopen_s (path mode : list Z) (fs : FileSys) : option FILE * FileSys :=
  let i := Named path in
  let plus := mode_has mode 43 in
  let text := negb (mode_has mode 98) in
  let exists_ := bool_decide (is_Some (fs_files fs !! i)) in
  if negb (fs_access fs path) then (None, fs)
  else match mode with
  | 114 :: _ => if exists_ then (Some (mkFILE i true plus false text 0), fs) else (None, fs)
  | 119 :: _ =>
      if exists_ && mode_has mode 120 then (None, fs)
      else (Some (mkFILE i plus true false text 0), put_file fs i [])
  | 97 :: _ =>
      (Some (mkFILE i plus true true text 0), put_file fs i (file_data fs i))
  | _ => (None, fs)
  end.
(** A temporary file: binary, for update, removed when it is closed. *)
Definition tmpfile_s (fs : FileSys) : option FILE * FileSys :=
  if 0 <? fs_cap fs then
    let i := Temp (fs_temps fs) in
    (Some (mkFILE i true true false false 0),
     mkFs (<[i := []]> (fs_files fs)) (fs_temps fs + 1) (fs_access fs) (fs_cap fs) (fs_flush fs) (fs_times fs))
  else (None, fs).
Definition fclose (f : FILE) (fs : FileSys) : FileSys :=
  match f_id f with
  | Temp _ => set_files fs (delete (f_id f) (fs_files fs))
  | Named _ => fs
  end.

(** ** Reading and writing *)

(** At most [n] characters of a text stream, and the bytes they take. *)
Fixpoint text_read (n : nat) (raw : list Z) : list Z * nat :=
  match n, raw with
  | O, _ | _, [] => ([], O)
  | S n, c :: raw' =>
      if c =? 26 then ([], O)
      else match c, raw' with
           | 13, 10 :: raw'' => let '(l, k) := text_read n raw'' in (10 :: l, S (S k))
           | _, _ => let '(l, k) := text_read n raw' in (c :: l, S k)
           end
  end.
(** [fread_s(buf, n, 1, n, f)]: the bytes read, at most [n]. *)
Definition fread_s (n : Z) (f : FILE) (fs : FileSys) : list Z * FILE :=
  if f_read f then
    let raw := drop (Z.to_nat (f_pos f)) (file_data fs (f_id f)) in
    let '(l, k) := if f_text f then text_read (Z.to_nat n) raw
                   else (take (Z.to_nat n) raw, length (take (Z.to_nat n) raw)) in
    (l, set_pos f (f_pos f + Z.of_nat k))
  else ([], f).

(** The bytes a character becomes. *)
Definition out_bytes (text : bool) (c : Z) : list Z := if text && (c =? 10) then [13; 10] else [c].
(** The bytes of the longest prefix of the characters that fits into [room]. *)
Fixpoint fit (text : bool) (room : Z) (l : list Z) : list Z * Z :=
  match l with
  | [] => ([], 0)
  | c :: l =>
      let b := out_bytes text c in
      if Z.of_nat (length b) <=? room then
        let '(bs, n) := fit text (room - Z.of_nat (length b)) l in (b ++ bs, n + 1)
      else ([], 0)
  end.
(** Writing [bytes] at [pos]; a gap behind the end is filled with zeros. *)
Definition data_write (data : list Z) (pos : nat) (bytes : list Z) : list Z :=
  take pos (data ++ replicate (pos - length data) 0) ++ bytes ++ drop (pos + length bytes) data.
(** [fwrite(buf, 1, n, f)]: the number of characters written. *)
Definition fwrite (l : list Z) (f : FILE) (fs : FileSys) : Z * FILE * FileSys :=
  if f_write f then
    let data := file_data fs (f_id f) in
    let pos := if f_append f then Z.of_nat (length data) else f_pos f in
    let '(bytes, n) := fit (f_text f) (fs_cap fs - pos) l in
    (n, set_pos f (pos + Z.of_nat (length bytes)),
     if n =? 0 then fs else put_file fs (f_id f) (data_write data (Z.to_nat pos) bytes))
  else (0, f, fs).

(** ** Positions *)
Definition SEEK_SET : Z := 0.
Definition SEEK_CUR : Z := 1.
Definition SEEK_END : Z := 2.
Definition fseek_base (f : FILE) (origin : Z) (fs : FileSys) : option Z :=
  if origin =? SEEK_SET then Some 0
  else if origin =? SEEK_CUR then Some (f_pos f)
  else if origin =? SEEK_END then Some (Z.of_nat (length (file_data fs (f_id f))))
  else None.
(** [_fseeki64]: [None] is a result other than 0. *)
Definition fseeki64 (f : FILE) (off origin : Z) (fs : FileSys) : option FILE :=
  base ← fseek_base f origin fs;
  if (0 <=? base + off) && (base + off <=? INT64_MAX) then Some (set_pos f (base + off)) else None.

(** ** Lemmas *)
Lemma fit_binary room l :
  Z.of_nat (length l) ≤ room → fit false room l = (l, Z.of_nat (length l)).
Proof.
  revert room. induction l as [|c l IH]; intros room Hr; simpl; [done|]. cbn [length] in Hr.
  destruct (Z.leb_spec (Z.of_nat 1) room); [|lia]. rewrite IH by lia. f_equal. lia.
Qed.

Lemma fit_count text room l : 0 ≤ (fit text room l).2 ≤ Z.of_nat (length l).
Proof.
  revert room. induction l as [|c l IH]; intros room; simpl; [lia|].
  destruct (_ <=? room); [|simpl; lia]. specialize (IH (room - Z.of_nat (length (out_bytes text c)))).
  destruct (fit _ _ _) as [bs n]. simpl in *. lia.
Qed.

Lemma fit_length text room l : 0 ≤ room → Z.of_nat (length (fit text room l).1) ≤ room.
Proof.
  revert room. induction l as [|c l IH]; intros room Hr; simpl; [lia|].
  destruct (Z.leb_spec (Z.of_nat (length (out_bytes text c))) room) as [Hle|]; [|simpl; lia].
  specialize (IH (room - Z.of_nat (length (out_bytes text c))) ltac:(lia)).
  destruct (fit _ _ _) as [bs n]. cbn [fst] in *. rewrite length_app. lia.
Qed.

Lemma data_write_end (data bytes : list Z) : data_write data (length data) bytes = data ++ bytes.
Proof.
  unfold data_write. rewrite Nat.sub_diag, app_nil_r, take_ge by lia.
  rewrite drop_ge by lia. by rewrite app_nil_r.
Qed.

Lemma data_write_append (data b1 b2 : list Z) :
  data_write (data ++ b1) (length data + length b1) b2 = data ++ b1 ++ b2.
Proof. rewrite <-length_app, data_write_end. by rewrite (assoc_L (++)). Qed.

Lemma file_data_put fs i d j : file_data (put_file fs i d) j = if decide (i = j) then d else file_data fs j.
Proof.
  unfold file_data, put_file, set_files. simpl. destruct (decide (i = j)) as [->|Hne].
  - by rewrite lookup_insert_eq.
  - by rewrite lookup_insert_ne.
Qed.
Lemma file_data_put_eq fs i d : file_data (put_file fs i d) i = d.
Proof. rewrite file_data_put. by destruct (decide (i = i)). Qed.

(** Writing a whole block at the end of a binary stream that is not full. *)
Lemma fwrite_end l f fs :
  f_write f = true → f_text f = false → l ≠ [] → f_pos f = Z.of_nat (length (file_data fs (f_id f))) →
  f_pos f + Z.of_nat (length l) ≤ fs_cap fs →
  fwrite l f fs = (Z.of_nat (length l), set_pos f (f_pos f + Z.of_nat (length l)),
                   put_file fs (f_id f) (file_data fs (f_id f) ++ l)).
Proof.
  intros Hw Ht Hne Hp Hc. unfold fwrite. rewrite Hw, Ht.
  replace (if f_append f then Z.of_nat (length (file_data fs (f_id f))) else f_pos f) with (f_pos f)
    by (destruct (f_append f); lia).
  rewrite fit_binary by lia. destruct (Z.eqb_spec (Z.of_nat (length l)) 0) as [E|].
  { destruct l; [done|simpl in E; lia]. }
  rewrite Hp, Nat2Z.id, data_write_end. done.
Qed.

(** Reading a block a binary stream holds. *)
Lemma fread_block n f fs pre blk post :
  f_read f = true → f_text f = false → file_data fs (f_id f) = pre ++ blk ++ post →
  f_pos f = Z.of_nat (length pre) → n = Z.of_nat (length blk) →
  fread_s n f fs = (blk, set_pos f (Z.of_nat (length pre) + n)).
Proof.
  intros Hr Ht Hd Hp ->. unfold fread_s. rewrite Hr, Ht, Hp, !Nat2Z.id, Hd, drop_app_length, take_app_length.
  done.
Qed.
