(* ===== verification/Io.v ===== *)
(** * [src/Noriko/io.c], [winfilesys.c]: file streams and the file system

    A file object is its record; the C library's streams are the ones of [Stdio.v].
    An operation takes the object and the file system and returns what the C function
    stores.  The operating-system calls of [winfilesys.c] are parameters. *)
From S2P Require Import Prelude CStr Stdio Util Registry NkOM.

(** ** Modes ([include/Noriko/io.h]) *)
Definition NkStrMd_Unknown : Z := 0.
Definition NkStrMd_Read : Z := 1.
Definition NkStrMd_Write : Z := 2.
Definition NkStrMd_Append : Z := 4.
Definition NkStrMd_Text : Z := 8.
Definition NkStrMd_Binary : Z := 16.
Definition NkStrMd_TempFile : Z := 32.
Definition NkStrMd_MustNotExist : Z := 64.
Definition NkStrMd_Count : Z := 65.

Definition NkStrTy_Unknown : Z := 0.
Definition NkStrTy_Directory : Z := 1.
Definition NkStrTy_DiskFile : Z := 2.
Definition NkStrTy_Count : Z := 3.

Definition NkSeekOri_Set : Z := 0.
Definition NkSeekOri_Cur : Z := 1.
Definition NkSeekOri_End : Z := 2.
Definition NkSeekOri_Count : Z := 3.

Record NkStreamStat := mkStat {
  ss_structSize : Z; ss_type : Z; ss_ioMode : Z;
  ss_crTime : Z; ss_mdTime : Z; ss_aTime : Z; ss_size : Z; ss_currOff : Z
}.
Definition sizeof_NkStreamStat : Z := 56.
Definition zero_stat : NkStreamStat := mkStat 0 0 0 0 0 0 0 0.

(** ** The file object *)
Record File := mkFile { m_refCount : Z; m_strMode : Z; mp_fileDsc : option FILE }.
Definition set_stream (self : File) (f : FILE) : File := mkFile (m_refCount self) (m_strMode self) (Some f).
Definition closed (self : File) : File := mkFile (m_refCount self) NkStrMd_Unknown None.

(** The mode string, and whether the mode is accepted. *)
Definition CompileIOModeIdent (mode : Z) : bool * list Z :=
  let sel := Z.land mode (Z.lor (Z.lor NkStrMd_Read NkStrMd_Write) NkStrMd_Append) in
  let rest (c : Z) :=
    let l := [c] ++ (if has_flag mode NkStrMd_Read && has_flag mode NkStrMd_Write then [43] else [])
                 ++ (if has_flag mode NkStrMd_Binary then [98] else []) in
    if has_flag mode NkStrMd_MustNotExist then (has_flag mode NkStrMd_Write, l ++ [120]) else (true, l) in
  if sel =? NkStrMd_Read then rest 114
  else if sel =? NkStrMd_Write then rest 119
  else if sel =? NkStrMd_Append then rest 97
  else (false, []).

Definition File_MapFromSeekOrigin (ori : Z) : Z :=
  if ori =? NkSeekOri_Set then SEEK_SET
  else if ori =? NkSeekOri_Cur then SEEK_CUR
  else if ori =? NkSeekOri_End then SEEK_END
  else INT32_MAX.

Definition File_AddRef (self : File) : outcome (Z * File) :=
  if m_refCount self =? INT32_MAX then Undef
  else let n := m_refCount self + 1 in Ret (n, mkFile n (m_strMode self) (mp_fileDsc self)).

Definition File_Close (self : File) (fs : FileSys) : File * FileSys :=
  match mp_fileDsc self with
  | Some f => (closed self, fclose f fs)
  | None => (self, fs)
  end.

(** [None]: the object was destroyed. *)
Definition File_Release (self : File) (fs : FileSys) : Z * option File * FileSys :=
  let n := m_refCount self - 1 in
  let self := mkFile n (m_strMode self) (mp_fileDsc self) in
  if n <=? 0 then (0, None, (File_Close self fs).2) else (n, Some self, fs).

Definition NkIStream_IID : NkUuid := mk_uuid 0x7268e0cb 0x376c 0x4019 0x964a8550fb3d8d9c.
Definition NkIFile_IID : NkUuid := mk_uuid 0xf3dd1340 0x2cac 0x4d00 0x937e23a58056e13f.
Definition NkIFilesystem_IID : NkUuid := mk_uuid 0xb191ab16 0x42bc 0x4aac 0x959fbd95ef8a0461.
Definition NkIFile_CLSID : NkUuid := mk_uuid 0x5d954d25 0x55ff 0x4976 0x8afaa9ddca54f573.
Definition file_ImplInfos : list (option NkUuid) :=
  [Some NkIBase_IID; Some NkIStream_IID; Some NkIFile_IID; None].

(** The error code, whether [*resPtr] is the object (and not NULL), the object. *)
Definition File_QueryInterface (self : File) (iId : NkUuid) : outcome (NkErrorCode * bool * File) :=
  i ← NkOMQueryImplementationIndex file_ImplInfos iId;
  if negb (i =? SIZE_MAX) then '(_, self) ← File_AddRef self; Ret (NkErr_Ok, true, self)
  else Ret (NkErr_InterfaceNotImpl, false, self).

Definition File_GetStat (self : File) (fs : FileSys) : NkErrorCode * NkStreamStat :=
  match mp_fileDsc self with
  | None => (NkErr_ObjectState, zero_stat)
  | Some f =>
      match fs_times fs (f_id f) with
      | None => (NkErr_OpenFile, zero_stat)
      | Some (c, m, a) =>
          (NkErr_Ok, mkStat sizeof_NkStreamStat NkStrTy_DiskFile (m_strMode self) (u64 c) (u64 m) (u64 a)
                       (Z.of_nat (length (file_data fs (f_id f)))) (f_pos f))
      end
  end.

(** The bytes read and the count stored in [*br], if any is stored. *)
Definition File_Read (s : Z) (self : File) (fs : FileSys) : outcome (NkErrorCode * list Z * option Z * File) :=
  NK_ASSERT (s >? 0) NkErr_InParameter;;
  match mp_fileDsc self with
  | None => Ret (NkErr_ObjectState, [], None, self)
  | Some f =>
      if negb (has_flag (m_strMode self) NkStrMd_Read) then Ret (NkErr_InvStreamMode, [], None, self)
      else
        let '(l, f) := fread_s s f fs in
        let br := Z.of_nat (length l) in
        Ret (if negb (Z.lxor br s =? 0) then NkErr_ErrorDuringDiskIO else NkErr_Ok, l, Some br, set_stream self f)
  end.

Definition File_Write (buf : list Z) (self : File) (fs : FileSys)
    : outcome (NkErrorCode * option Z * File * FileSys) :=
  let s := Z.of_nat (length buf) in
  NK_ASSERT (s >? 0) NkErr_InParameter;;
  match mp_fileDsc self with
  | None => Ret (NkErr_ObjectState, None, self, fs)
  | Some f =>
      if negb (has_flag (m_strMode self) NkStrMd_Write) then Ret (NkErr_InvStreamMode, None, self, fs)
      else
        let '(bw, f, fs) := fwrite buf f fs in
        Ret (if negb (Z.lxor bw s =? 0) then NkErr_ErrorDuringDiskIO else NkErr_Ok, Some bw, set_stream self f, fs)
  end.

Definition File_Open (pathStr : list Z) (mode : Z) (self : File) (fs : FileSys)
    : outcome (NkErrorCode * File * FileSys) :=
  NK_ASSERT (negb (bool_decide (pathStr = []))) NkErr_InParameter;;
  match mp_fileDsc self with
  | Some _ => Ret (NkErr_ObjectState, self, fs)
  | None =>
      if has_flag mode NkStrMd_TempFile then
        let '(r, fs) := tmpfile_s fs in
        match r with
        | None => Ret (NkErr_OpenFile, closed self, fs)
        | Some f => Ret (NkErr_Ok, mkFile (m_refCount self) NkStrMd_TempFile (Some f), fs)
        end
      else
        let '(ok, oModeId) := CompileIOModeIdent mode in
        if negb ok then Ret (NkErr_InvStreamMode, closed self, fs)
        else
          let '(r, fs) := fopen_s pathStr oModeId fs in
          match r with
          | None => Ret (NkErr_OpenFile, closed self, fs)
          | Some f => Ret (NkErr_Ok, mkFile (m_refCount self) mode (Some f), fs)
          end
  end.

Definition File_Seek (origin offset : Z) (self : File) (fs : FileSys) : outcome (NkErrorCode * File) :=
  NK_ASSERT ((origin >=? NkSeekOri_Set) && (origin <? NkSeekOri_Count)) NkErr_InParameter;;
  match mp_fileDsc self with
  | None => Ret (NkErr_ObjectState, self)
  | Some f =>
      let sOri := File_MapFromSeekOrigin origin in
      if sOri =? INT32_MAX then Ret (NkErr_InvSeekOrigin, self)
      else match fseeki64 f offset sOri fs with
           | None => Ret (NkErr_StreamSeek, self)
           | Some f => Ret (NkErr_Ok, set_stream self f)
           end
  end.

Definition File_Flush (self : File) (fs : FileSys) : NkErrorCode :=
  match mp_fileDsc self with
  | Some _ => if fs_flush fs then NkErr_Ok else NkErr_StreamFlush
  | None => NkErr_ObjectState
  end.

(** ** The class factory *)
Definition IoFac_QueryInterface (iId : NkUuid) : NkErrorCode :=
  if NkUuidIsEqual iId NkIBase_IID || NkUuidIsEqual iId NkIClassFactory_IID then NkErr_Ok
  else NkErr_InterfaceNotImpl.
Definition IoFac_QueryInstantiableClasses : list NkUuid := [NkIFile_CLSID].
(** [alloc] is what [NkPoolAlloc] returns for the object; its memory is cleared. *)
Definition IoFac_CreateInstance (alloc : NkErrorCode) (clsId : NkUuid) : outcome (NkErrorCode * option File) :=
  i ← NkOMQueryImplementationIndex [Some NkIFile_CLSID; None] clsId;
  if i =? SIZE_MAX then Ret (NkErr_UnknownClass, None)
  else if negb (isOk alloc) then Ret (alloc, None)
  else
    '(_, self) ← File_AddRef (mkFile 0 NkStrMd_Unknown None);
    Ret (NkErr_Ok, Some self).

(** ** File system services *)
Section filesys.
(** Calls into the system: file attributes (as the unsigned word they are), whether a
    path exists, its type, making and removing. *)
Context (GetFileAttributesA : list Z → FileSys → Z) (PathFileExistsA : list Z → FileSys → bool)
  (st_mode : list Z → FileSys → option Z)
  (CreateDirectoryA : list Z → FileSys → bool * FileSys)
  (DeleteFileA RemoveDirectoryA : list Z → FileSys → FileSys)
  (FILE_ATTRIBUTE_DIRECTORY FILE_ATTRIBUTE_NORMAL S_IFREG S_IFDIR : Z).

Definition WinFilesys_QueryInterface (iId : NkUuid) : NkErrorCode :=
  if NkUuidIsEqual iId NkIBase_IID || NkUuidIsEqual iId NkIFilesystem_IID then NkErr_Ok
  else NkErr_InterfaceNotImpl.
Definition WinFilesys_Exists (pathStr : list Z) (fs : FileSys) : bool := PathFileExistsA pathStr fs.
Definition WinFilesys_IsDirectory (pathStr : list Z) (fs : FileSys) : outcome bool :=
  NK_ASSERT (negb (bool_decide (pathStr = []))) NkErr_InParameter;;
  Ret (has_flag (GetFileAttributesA pathStr fs) FILE_ATTRIBUTE_DIRECTORY).
Definition WinFilesys_IsFile (pathStr : list Z) (fs : FileSys) : outcome bool :=
  NK_ASSERT (negb (bool_decide (pathStr = []))) NkErr_InParameter;;
  Ret (has_flag (GetFileAttributesA pathStr fs) FILE_ATTRIBUTE_NORMAL).

(** [mk] is the result of [NkOMCreateInstance] for the file class: a code and, when it
    is [NkErr_Ok], the object. *)
Definition WinFilesys_Create (mk : NkErrorCode * File) (strType : Z) (pathStr : option (list Z)) (mode : Z)
    (fs : FileSys) : outcome (NkErrorCode * option File * FileSys) :=
  NK_ASSERT ((strType >? NkStrTy_Unknown) && (strType <? NkStrTy_Count)) NkErr_InParameter;;
  NK_ASSERT ((mode >? NkStrMd_Unknown) && (mode <? NkStrMd_Count)) NkErr_InParameter;;
  if strType =? NkStrTy_DiskFile then
    let '(errCode, fileObj) := mk in
    if negb (isOk errCode) then Ret (errCode, None, fs)
    else
      match pathStr with
      | Some ((_ :: _) as p) =>
          '(errCode, fileObj, fs) ← File_Open p mode fileObj fs;
          if negb (isOk errCode) then Ret (NkErr_OpenFile, None, (File_Release fileObj fs).2)
          else Ret (errCode, Some fileObj, fs)
      | _ => Ret (errCode, Some fileObj, fs)
      end
  else if strType =? NkStrTy_Directory then
    match pathStr with
    | None => Halt NkErr_InParameter
    | Some p =>
        let '(res, fs) := CreateDirectoryA p fs in
        Ret (if res : bool then NkErr_Ok else NkErr_CreateDirectory, None, fs)
    end
  else Ret (NkErr_InvalidStreamType, None, fs).

Definition WinFilesys_Remove (pathStr : list Z) (fs : FileSys) : outcome FileSys :=
  NK_ASSERT (negb (bool_decide (pathStr = []))) NkErr_InParameter;;
  if negb (WinFilesys_Exists pathStr fs) then Ret fs
  else match st_mode pathStr fs with
       | None => Ret fs
       | Some m => if m =? S_IFREG then Ret (DeleteFileA pathStr fs)
                   else if m =? S_IFDIR then Ret (RemoveDirectoryA pathStr fs) else Ret fs
       end.
Definition WinFilesys_Traverse (rootPath : list Z) (fnTrav : option (list Z → NkErrorCode)) : outcome NkErrorCode :=
  NK_ASSERT (negb (bool_decide (rootPath = []))) NkErr_InParameter;;
  NK_ASSERT (match fnTrav with Some _ => true | None => false end) NkErr_CallbackParameter;;
  Ret NkErr_NotImplemented.

(** The size the system asks for (0 on failure), the buffer and the directory. *)
Definition WinFilesys_GetWorkingDirectory (reqSize : Z) (alloc : NkErrorCode) (dir : list Z) : option (list Z) :=
  if negb (reqSize =? 0) then if negb (isOk alloc) then None else Some dir else None.
Definition WinFilesys_SetWorkingDirectory (SetCurrentDirectoryA : list Z → FileSys → FileSys) (pathStr : list Z)
    (fs : FileSys) : outcome FileSys :=
  NK_ASSERT (negb (bool_decide (pathStr = []))) NkErr_InParameter;;
  Ret (SetCurrentDirectoryA pathStr fs).
End filesys.

(** [gl_c_IoFactory] is the factory's interface pointer. *)
Section component.
Context {R W : Type} `{Registry R} `{NkObjects W} (gl_c_IoFactory : Z).
Definition IoSrv_Startup : NkOMState R W → outcome (NkErrorCode * NkOMState R W) :=
  NkOMInstallClassFactory gl_c_IoFactory.
Definition IoSrv_Shutdown : NkOMState R W → outcome (NkErrorCode * NkOMState R W) :=
  NkOMUninstallClassFactory gl_c_IoFactory.
End component.

(** ** Modes: exactly one direction *)
Definition one_way (mode : Z) : Prop :=
  (has_flag mode NkStrMd_Read, has_flag mode NkStrMd_Write, has_flag mode NkStrMd_Append)
    ∈ [(true, false, false); (false, true, false); (false, false, true)].

Lemma flag_of_low mode b : b ∈ [1; 2; 4] → has_flag mode b = has_flag (Z.land mode 7) b.
Proof.
  intros Hb. unfold has_flag. rewrite <-Z.land_assoc.
  repeat (apply elem_of_cons in Hb as [->|Hb]; [done|]). by apply not_elem_of_nil in Hb.
Qed.

(** The characters of an accepted mode. *)
Lemma compile_mode mode ident :
  CompileIOModeIdent mode = (true, ident) →
  one_way mode ∧ (has_flag mode NkStrMd_MustNotExist = true → has_flag mode NkStrMd_Write = true) ∧
  ident = (if has_flag mode NkStrMd_Read then 114 else if has_flag mode NkStrMd_Write then 119 else 97)
          :: (if has_flag mode NkStrMd_Binary then [98] else [])
          ++ (if has_flag mode NkStrMd_MustNotExist then [120] else []).
Proof.
  unfold CompileIOModeIdent, one_way.
  rewrite !(flag_of_low mode NkStrMd_Read), !(flag_of_low mode NkStrMd_Write), !(flag_of_low mode NkStrMd_Append)
    by (vm_compute; set_solver).
  change (Z.lor (Z.lor NkStrMd_Read NkStrMd_Write) NkStrMd_Append) with 7.
  destruct (Z.eqb_spec (Z.land mode 7) NkStrMd_Read) as [->|_];
    [|destruct (Z.eqb_spec (Z.land mode 7) NkStrMd_Write) as [->|_];
      [|destruct (Z.eqb_spec (Z.land mode 7) NkStrMd_Append) as [->|_]; [|done]]].
  all: destruct (has_flag mode NkStrMd_MustNotExist); cbn; intros [= <-] || intros [=];
    split_and!; first [done | set_solver | by rewrite ?app_nil_r].
Qed.

(** ** The life of a file object *)

(** The stream fits the mode it was opened with. *)
Definition stream_ok (mode : Z) (f : FILE) : Prop :=
  0 ≤ f_pos f ∧
  if has_flag mode NkStrMd_TempFile then
    mode = NkStrMd_TempFile ∧ f_read f = true ∧ f_write f = true ∧ f_append f = false ∧ f_text f = false
  else
    one_way mode ∧ f_read f = has_flag mode NkStrMd_Read ∧
    f_write f = has_flag mode NkStrMd_Write || has_flag mode NkStrMd_Append ∧
    f_append f = has_flag mode NkStrMd_Append ∧ f_text f = negb (has_flag mode NkStrMd_Binary).
Definition file_ok (self : File) : Prop :=
  0 < m_refCount self ∧
  match mp_fileDsc self with
  | None => m_strMode self = NkStrMd_Unknown
  | Some f => m_strMode self ≠ NkStrMd_Unknown ∧ stream_ok (m_strMode self) f
  end.

(** The calls a client can make on an object it holds. *)
Inductive FileOp :=
  | OpAddRef | OpRelease | OpQueryInterface (iId : NkUuid) | OpRead (s : Z) | OpWrite (buf : list Z)
  | OpOpen (path : list Z) (mode : Z) | OpClose | OpSeek (origin offset : Z).
(** The object and the file system after a call; [None]: the object is gone. *)
Definition file_step (op : FileOp) (self : File) (fs : FileSys) : outcome (option File * FileSys) :=
  match op with
  | OpAddRef => '(_, self) ← File_AddRef self; Ret (Some self, fs)
  | OpRelease => let '(_, self, fs) := File_Release self fs in Ret (self, fs)
  | OpQueryInterface i => '(_, _, self) ← File_QueryInterface self i; Ret (Some self, fs)
  | OpRead s => '(_, _, _, self) ← File_Read s self fs; Ret (Some self, fs)
  | OpWrite buf => '(_, _, self, fs) ← File_Write buf self fs; Ret (Some self, fs)
  | OpOpen path mode => '(_, self, fs) ← File_Open path mode self fs; Ret (Some self, fs)
  | OpClose => let '(self, fs) := File_Close self fs in Ret (Some self, fs)
  | OpSeek origin offset => '(_, self) ← File_Seek origin offset self fs; Ret (Some self, fs)
  end.
(** Objects come from the factory; between the calls others may change the files. *)
Inductive file_reach : File → FileSys → Prop :=
  | reach_new alloc clsId self fs :
      IoFac_CreateInstance alloc clsId = Ret (NkErr_Ok, Some self) → file_reach self fs
  | reach_step op self fs self' fs' :
      file_reach self fs → file_step op self fs = Ret (Some self', fs') → file_reach self' fs'
  | reach_others self fs fs' : file_reach self fs → file_reach self fs'.

Lemma one_way_known mode : one_way mode → mode ≠ NkStrMd_Unknown.
Proof. intros H ->. vm_compute in H. set_solver. Qed.

Lemma stream_ok_pos mode f p : 0 ≤ p → stream_ok mode f → stream_ok mode (set_pos f p).
Proof. intros Hp [_ H]. split; done. Qed.

Lemma file_ok_ref self n : 0 < n → file_ok self → file_ok (mkFile n (m_strMode self) (mp_fileDsc self)).
Proof. intros Hn [_ H]. split; done. Qed.
Lemma file_ok_closed self : 0 < m_refCount self → file_ok (closed self).
Proof. done. Qed.
Lemma file_ok_pos self f p : mp_fileDsc self = Some f → 0 ≤ p → file_ok self → file_ok (set_stream self (set_pos f p)).
Proof.
  intros Hf Hp [Hr H]. rewrite Hf in H. destruct H as [Hm H]. split; [done|]. simpl.
  split; [done|]. by apply stream_ok_pos.
Qed.

Lemma add_ref_ok self n self' : file_ok self → File_AddRef self = Ret (n, self') → file_ok self'.
Proof.
  intros Hok. unfold File_AddRef. destruct (_ =? _); [done|]. intros [= <- <-].
  apply file_ok_ref; [|done]. destruct Hok. lia.
Qed.

Lemma fread_pos n f fs : 0 ≤ f_pos f → ∃ p, (fread_s n f fs).2 = set_pos f p ∧ 0 ≤ p.
Proof.
  intros Hp. unfold fread_s. destruct (f_read f).
  - destruct (f_text f); [destruct (text_read _ _) as [l k]|]; eexists; simpl; (split; [done|lia]).
  - exists (f_pos f). split; [by destruct f|done].
Qed.
Lemma fwrite_pos l f fs : 0 ≤ f_pos f → ∃ p, (fwrite l f fs).1.2 = set_pos f p ∧ 0 ≤ p.
Proof.
  intros Hp. unfold fwrite. destruct (f_write f).
  - destruct (fit _ _ _) as [b n]. eexists. simpl. split; [done|]. destruct (f_append f); lia.
  - exists (f_pos f). split; [by destruct f|done].
Qed.

(** What [fopen_s] gives for an accepted mode. *)
Lemma fopen_stream_ok path mode ident fs f fs' :
  CompileIOModeIdent mode = (true, ident) → has_flag mode NkStrMd_TempFile = false →
  fopen_s path ident fs = (Some f, fs') → stream_ok mode f.
Proof.
  intros (Hone & _ & Hid)%compile_mode Ht Hopen.
  assert (Hp : mode_has ident 43 = false ∧ mode_has ident 98 = has_flag mode NkStrMd_Binary).
  { subst ident. by destruct (has_flag mode NkStrMd_Binary), (has_flag mode NkStrMd_MustNotExist). }
  destruct Hp as [Hplus Hbin]. unfold fopen_s in Hopen. rewrite Hplus, Hbin, Hid in Hopen. clear Hid Hplus Hbin.
  destruct (negb (fs_access fs path)); [done|].
  unfold stream_ok. rewrite Ht. revert Hopen.
  unfold one_way in *. rewrite !elem_of_cons in Hone.
  destruct Hone as [[= -> -> ->]|[[= -> -> ->]|[[= -> -> ->]|[]%not_elem_of_nil]]]; simpl; repeat case_match; intros [= <- <-];
    simpl; split_and!; first [done | set_solver].
Qed.

Lemma open_ok path mode self fs e self' fs' :
  file_ok self → File_Open path mode self fs = Ret (e, self', fs') → file_ok self'.
Proof.
  intros [Hr Hok] H. unfold File_Open in H. outcome_inv. destruct (mp_fileDsc self) eqn:Ef.
  { injection H as <- <- <-. split; [done|]. by rewrite Ef. }
  destruct (has_flag mode NkStrMd_TempFile) eqn:Et.
  - unfold tmpfile_s in H. destruct (0 <? _); injection H as <- <- <-; [|done]. by split.
  - destruct (CompileIOModeIdent mode) as [[] ident] eqn:Ec; [|by injection H as <- <- <-].
    cbn [negb] in H. destruct (fopen_s path ident fs) as [[f|] fs2] eqn:Eo; injection H as <- <- <-; [|done].
    split; [done|]. simpl. split; [|by eapply fopen_stream_ok].
    apply one_way_known. exact (proj1 (compile_mode _ _ Ec)).
Qed.

Lemma file_step_ok op self fs self' fs' :
  file_ok self → file_step op self fs = Ret (Some self', fs') → file_ok self'.
Proof.
  intros Hok H. pose proof Hok as [Hr Hd]. destruct op; cbn [file_step] in H.
  - apply bind_Ret_inv in H as ([n s] & E & [= <- <-]). by eapply add_ref_ok.
  - unfold File_Release in H. destruct (Z.leb_spec (m_refCount self - 1) 0); [done|].
    injection H as <- <-. apply file_ok_ref; [lia|done].
  - unfold File_QueryInterface in H. outcome_inv. destruct r as [[e b] s]. injection H as <- <-.
    destruct (negb (r0 =? SIZE_MAX)); outcome_inv; [|done].
    destruct r as [n s']. injection E as <- <- <-. by eapply add_ref_ok.
  - apply bind_Ret_inv in H as ([[[e l] br] s0] & E & [= <- <-]).
    unfold File_Read in E. outcome_inv. destruct (mp_fileDsc self) as [f|] eqn:Ef; [|by injection E as <- <- <- <-].
    destruct (negb _); [by injection E as <- <- <- <-|].
    destruct (fread_pos s f fs) as (p & Hp & Hp0); [by destruct Hd as [_ []]|].
    destruct (fread_s s f fs) as [l' f']. simpl in Hp. subst f'. injection E as <- <- <- <-. by apply file_ok_pos.
  - apply bind_Ret_inv in H as ([[[e br] s0] fs0] & E & [= <- <-]).
    unfold File_Write in E. outcome_inv. destruct (mp_fileDsc self) as [f|] eqn:Ef; [|by injection E as <- <- <- <-].
    destruct (negb _); [by injection E as <- <- <- <-|].
    destruct (fwrite_pos buf f fs) as (p & Hp & Hp0); [by destruct Hd as [_ []]|].
    destruct (fwrite buf f fs) as [[n f'] fs2]. simpl in Hp. subst f'. injection E as <- <- <- <-. by apply file_ok_pos.
  - apply bind_Ret_inv in H as ([[e s] fs0] & E & [= <- <-]). by eapply open_ok.
  - unfold File_Close in H. destruct (mp_fileDsc self); injection H as <- <-; done.
  - apply bind_Ret_inv in H as ([e s] & E & [= <- <-]).
    unfold File_Seek in E. outcome_inv. destruct (mp_fileDsc self) as [f|] eqn:Ef; [|by injection E as <- <-].
    destruct (_ =? INT32_MAX); [by injection E as <- <-|].
    destruct (fseeki64 _ _ _ _) as [f'|] eqn:Es; injection E as <- <-; [|done].
    unfold fseeki64 in Es. destruct (fseek_base _ _ _) as [b|]; [|done]. simpl in Es.
    destruct (0 <=? b + offset) eqn:Eb; [|done]. destruct (_ <=? INT64_MAX); [|done]. injection Es as <-.
    apply file_ok_pos; [done|by apply Z.leb_le|done].
Qed.

(** C13: in every state a file object reaches, from its creation by the class factory through any
    sequence of calls, with the files changed by others in between, it holds a reference, its mode
    is NkStrMd_Unknown exactly when no stream is open, the stream has the access rights of the mode,
    and no mode ever allows both [Read] and [Write]. *)
Theorem io_reachable self fs :
  file_reach self fs →
  file_ok self ∧
  (m_strMode self = NkStrMd_Unknown ↔ mp_fileDsc self = None) ∧
  has_flag (m_strMode self) NkStrMd_Read && has_flag (m_strMode self) NkStrMd_Write = false.
Proof.
  intros Hreach.
  assert (Hok : file_ok self).
  { induction Hreach as [alloc clsId self fs Hn|op self fs self' fs' _ IH Hs|]; [|by eapply file_step_ok|done].
    unfold IoFac_CreateInstance in Hn. outcome_inv. destruct (_ =? SIZE_MAX); [done|].
    destruct (negb (isOk alloc)); [done|]. by injection Hn as <-. }
  split; [done|]. destruct Hok as [_ Hok]. destruct (mp_fileDsc self) as [f|]; [|by rewrite Hok].
  destruct Hok as (Hm & _ & Hs). split; [done|]. destruct (has_flag _ NkStrMd_TempFile).
  - by destruct Hs as [-> _].
  - destruct Hs as [Hs _]. unfold one_way in Hs. rewrite !elem_of_cons in Hs.
    by destruct Hs as [[= -> ->]|[[= -> ->]|[[= -> ->]|[]%not_elem_of_nil]]].
Qed.

(** A file object freshly made. *)
Definition new_file : File := mkFile 1 NkStrMd_Unknown None.
(** A file system with no files, all paths open and room for a kilobyte per file. *)
Definition empty_fs : FileSys := mkFs ∅ 0 (λ _, true) 1024 true (λ _, Some (0, 0, 0)).

(** A file that was opened for writing, written to, and found its stream still there. *)
Definition in_use : outcome (option File * FileSys) :=
  '(o, fs) ← file_step (OpOpen [97] (Z.lor NkStrMd_Write NkStrMd_Binary)) new_file empty_fs;
  match o with Some self => file_step (OpWrite [1; 10; 26]) self fs | None => Ret (None, fs) end.
Example io_reachable_witness :
  ∃ self fs, in_use = Ret (Some self, fs) ∧ file_reach self fs ∧ mp_fileDsc self ≠ None ∧ m_strMode self ≠ NkStrMd_Unknown.
Proof.
  destruct in_use as [[[self|] fs]| | |] eqn:E; [|vm_compute in E; discriminate E..]. exists self, fs.
  assert (Hr : file_reach self fs).
  { unfold in_use in E. destruct (file_step (OpOpen _ _) _ _) as [[[s1|] fs1]| | |] eqn:E1; try (vm_compute in E1; discriminate E1).
    eapply (reach_step (OpWrite _) s1 fs1); [|exact E]. apply (reach_step (OpOpen _ _) new_file empty_fs _ _ (reach_new NkErr_Ok NkIFile_CLSID _ _ eq_refl) E1). }
  assert (Hd : mp_fileDsc self ≠ None) by (vm_compute in E; injection E as <- _; discriminate).
  split; [reflexivity|]. split; [exact Hr|]. split; [exact Hd|]. intros Em. exact (Hd (proj1 (proj1 (proj2 (io_reachable self fs Hr))) Em)).
Defined.

(** ** What each mode allows *)

(** A stream opened for appending cannot be written: the mode is never accepted together with
    [Write], which the write operation demands, so every write returns NkErr_InvStreamMode and
    leaves object and file alone.  A temporary file can be neither read nor written. *)
Theorem io_append_and_temp_unusable path mode self fs self' fs' :
  File_Open path mode self fs = Ret (NkErr_Ok, self', fs') →
  has_flag mode NkStrMd_Append = true ∨ has_flag mode NkStrMd_TempFile = true →
  (∀ buf, buf ≠ [] → File_Write buf self' fs' = Ret (NkErr_InvStreamMode, None, self', fs')) ∧
  (∀ s, 0 < s → File_Read s self' fs' = Ret (NkErr_InvStreamMode, [], None, self')).
Proof.
  intros H Hmode. unfold File_Open in H. outcome_inv. destruct (mp_fileDsc self); [done|].
  assert (Hno : ∃ f, mp_fileDsc self' = Some f ∧
            has_flag (m_strMode self') NkStrMd_Write = false ∧ has_flag (m_strMode self') NkStrMd_Read = false).
  { destruct (has_flag mode NkStrMd_TempFile) eqn:Et.
    - unfold tmpfile_s in H. destruct (0 <? _); simplify_eq. by eexists.
    - destruct Hmode as [Ha|]; [|done].
      destruct (CompileIOModeIdent mode) as [[] ident] eqn:Ec; [|done]. cbn [negb] in H.
      destruct (fopen_s path ident fs) as [[f|] fs2]; simplify_eq.
      exists f. split; [done|]. simpl. apply compile_mode in Ec as [Hone _]. unfold one_way in Hone.
      rewrite !elem_of_cons, Ha in Hone.
      destruct Hone as [[=]|[[=]|[[= -> ->]|[]%not_elem_of_nil]]]. done. }
  destruct Hno as (f & Hf & Hw & Hr). split.
  - intros buf Hb. unfold File_Write. destruct (Z.gtb_spec (Z.of_nat (length buf)) 0) as [_|Hl].
    + cbn [NK_ASSERT mbind outcome_bind]. by rewrite Hf, Hw.
    + destruct buf; [done|]. cbn [length] in Hl. lia.
  - intros s Hs. unfold File_Read. destruct (Z.gtb_spec s 0); [|lia].
    cbn [NK_ASSERT mbind outcome_bind]. by rewrite Hf, Hr.
Qed.

Example io_append_and_temp_unusable_witness :
  File_Write [104; 105] (mkFile 1 NkStrMd_Append (Some (mkFILE (Named [97]) false true true true 0)))
    (put_file empty_fs (Named [97]) []) =
  Ret (NkErr_InvStreamMode, None, mkFile 1 NkStrMd_Append (Some (mkFILE (Named [97]) false true true true 0)),
       put_file empty_fs (Named [97]) []).
Proof.
  refine (proj1 (io_append_and_temp_unusable [97] NkStrMd_Append new_file empty_fs _ _ _ _) [104; 105] _).
  - reflexivity.
  - left. reflexivity.
  - discriminate.
Defined.

(** ** Writing and reading back *)

(** Writing or reading blocks, every call succeeding. *)
Inductive writes : list (list Z) → File → FileSys → File → FileSys → Prop :=
  | writes_nil self fs : writes [] self fs self fs
  | writes_cons b bs self fs self1 fs1 self2 fs2 :
      File_Write b self fs = Ret (NkErr_Ok, Some (Z.of_nat (length b)), self1, fs1) →
      writes bs self1 fs1 self2 fs2 → writes (b :: bs) self fs self2 fs2.
Inductive reads (fs : FileSys) : list (list Z) → File → File → Prop :=
  | reads_nil self : reads fs [] self self
  | reads_cons b bs self self1 self2 :
      File_Read (Z.of_nat (length b)) self fs = Ret (NkErr_Ok, b, Some (Z.of_nat (length b)), self1) →
      reads fs bs self1 self2 → reads fs (b :: bs) self self2.

Definition mode_w : Z := Z.lor NkStrMd_Write NkStrMd_Binary.
Definition mode_r : Z := Z.lor NkStrMd_Read NkStrMd_Binary.
Definition bin_stream (p : list Z) (rd : bool) (pos : nat) : FILE :=
  mkFILE (Named p) rd (negb rd) false false (Z.of_nat pos).

Lemma write_block p n b data fs :
  b ≠ [] → file_data fs (Named p) = data → Z.of_nat (length data + length b) ≤ fs_cap fs →
  File_Write b (mkFile n mode_w (Some (bin_stream p false (length data)))) fs =
    Ret (NkErr_Ok, Some (Z.of_nat (length b)), mkFile n mode_w (Some (bin_stream p false (length data + length b))),
         put_file fs (Named p) (data ++ b)).
Proof.
  intros Hb Hd Hcap. unfold File_Write. destruct (Z.gtb_spec (Z.of_nat (length b)) 0) as [_|Hl].
  2: { destruct b; [done|]. cbn [length] in Hl. lia. }
  cbn [NK_ASSERT mbind outcome_bind mp_fileDsc m_strMode].
  change (has_flag mode_w NkStrMd_Write) with true. cbn [negb].
  rewrite fwrite_end; try done; cbn [bin_stream f_pos f_id]; rewrite ?Hd; [|done|lia].
  rewrite Z.lxor_nilpotent. cbn. do 3 f_equal. unfold set_stream. cbn. do 2 f_equal. unfold set_pos, bin_stream.
  cbn. f_equal. lia.
Qed.

Lemma write_blocks p n bs data fs :
  Forall (λ b, b ≠ []) bs → file_data fs (Named p) = data →
  Z.of_nat (length (data ++ mjoin bs)) ≤ fs_cap fs →
  ∃ fs', writes bs (mkFile n mode_w (Some (bin_stream p false (length data)))) fs
           (mkFile n mode_w (Some (bin_stream p false (length (data ++ mjoin bs))))) fs' ∧
    fs_access fs' = fs_access fs ∧ file_data fs' (Named p) = data ++ mjoin bs ∧
    (fs_files fs' = fs_files fs ∨ is_Some (fs_files fs' !! Named p)).
Proof.
  intros Hbs. revert data fs. induction Hbs as [|b bs Hb Hbs IH]; intros data fs Hd Hcap; simpl in *.
  { rewrite app_nil_r. exists fs. split_and!; auto. constructor. }
  destruct (IH (data ++ b) (put_file fs (Named p) (data ++ b))) as (fs' & Hw & Ha & Hd' & Hf).
  - apply file_data_put_eq.
  - by rewrite <-(assoc_L (++)).
  - exists fs'. rewrite <-(assoc_L (++)) in *. split_and!; [|done|done|].
    + econstructor; [|exact Hw]. rewrite length_app. apply write_block; [done|done|].
      rewrite !length_app in Hcap. lia.
    + right. destruct Hf as [->|]; [|done]. simpl. rewrite lookup_insert_eq. done.
Qed.

Lemma read_blocks p n bs pre fs :
  Forall (λ b, b ≠ []) bs → file_data fs (Named p) = pre ++ mjoin bs →
  reads fs bs (mkFile n mode_r (Some (bin_stream p true (length pre))))
    (mkFile n mode_r (Some (bin_stream p true (length (pre ++ mjoin bs))))).
Proof.
  intros Hbs. revert pre. induction Hbs as [|b bs Hb Hbs IH]; intros pre Hd; simpl in *.
  { rewrite app_nil_r. constructor. }
  econstructor.
  - unfold File_Read. destruct (Z.gtb_spec (Z.of_nat (length b)) 0) as [_|Hl].
    2: { destruct b; [done|]. cbn [length] in Hl. lia. }
    cbn [NK_ASSERT mbind outcome_bind mp_fileDsc m_strMode].
    change (has_flag mode_r NkStrMd_Read) with true. cbn [negb].
    rewrite (fread_block (Z.of_nat (length b)) (bin_stream p true (length pre)) fs pre b (mjoin bs)) by done.
    rewrite Z.lxor_nilpotent. done.
  - rewrite (assoc_L (++)) in *. unfold set_stream, set_pos. cbn.
    replace (Z.of_nat (length pre) + Z.of_nat (length b)) with (Z.of_nat (length (pre ++ b)))
      by (rewrite length_app; lia).
    by apply IH.
Qed.

Lemma open_write p n fs :
  p ≠ [] → fs_access fs p = true →
  File_Open p mode_w (mkFile n NkStrMd_Unknown None) fs =
    Ret (NkErr_Ok, mkFile n mode_w (Some (bin_stream p false 0)), put_file fs (Named p) []).
Proof.
  intros Hp Ha. unfold File_Open. rewrite (bool_decide_eq_false_2 (p = [])) by done.
  cbn [negb NK_ASSERT mbind outcome_bind mp_fileDsc].
  change (has_flag mode_w NkStrMd_TempFile) with false. change (CompileIOModeIdent mode_w) with (true, [119; 98]).
  unfold fopen_s. rewrite Ha. change (mode_has [119; 98] 120) with false. by rewrite andb_false_r.
Qed.
Lemma open_read p n fs :
  p ≠ [] → fs_access fs p = true → is_Some (fs_files fs !! Named p) →
  File_Open p mode_r (mkFile n NkStrMd_Unknown None) fs =
    Ret (NkErr_Ok, mkFile n mode_r (Some (bin_stream p true 0)), fs).
Proof.
  intros Hp Ha Hex. unfold File_Open. rewrite (bool_decide_eq_false_2 (p = [])) by done.
  cbn [negb NK_ASSERT mbind outcome_bind mp_fileDsc].
  change (has_flag mode_r NkStrMd_TempFile) with false. change (CompileIOModeIdent mode_r) with (true, [114; 98]).
  unfold fopen_s. rewrite Ha, bool_decide_eq_true_2 by done. done.
Qed.

(** C14: blocks written to a binary stream and read back through a second binary stream, cut into
    blocks in any way, are the bytes that were written; every call on the way succeeds as long
    as the path may be opened and the disk takes a file of that length. *)
Theorem io_write_read_roundtrip p n bs bs' fs :
  p ≠ [] → fs_access fs p = true →
  Forall (λ b, b ≠ []) bs → Forall (λ b, b ≠ []) bs' → mjoin bs' = mjoin bs →
  Z.of_nat (length (mjoin bs)) ≤ fs_cap fs →
  ∃ s1 fs1 s2 fs2 s3 s4,
    File_Open p mode_w (mkFile n NkStrMd_Unknown None) fs = Ret (NkErr_Ok, s1, fs1) ∧
    writes bs s1 fs1 s2 fs2 ∧
    File_Close s2 fs2 = (mkFile n NkStrMd_Unknown None, fs2) ∧
    File_Open p mode_r (mkFile n NkStrMd_Unknown None) fs2 = Ret (NkErr_Ok, s3, fs2) ∧
    reads fs2 bs' s3 s4.
Proof.
  intros Hp Ha Hbs Hbs' Heq Hcap.
  destruct (write_blocks p n bs [] (put_file fs (Named p) [])) as (fs2 & Hw & Ha2 & Hd2 & Hf2).
  - done.
  - apply file_data_put_eq.
  - done.
  - assert (Hex : is_Some (fs_files fs2 !! Named p)).
    { destruct Hf2 as [->|]; [|done]. simpl. by rewrite lookup_insert_eq. }
    exists (mkFile n mode_w (Some (bin_stream p false 0))), (put_file fs (Named p) []),
      (mkFile n mode_w (Some (bin_stream p false (length (mjoin bs))))), fs2,
      (mkFile n mode_r (Some (bin_stream p true 0))), (mkFile n mode_r (Some (bin_stream p true (length (mjoin bs'))))).
    split_and!; [|exact Hw|done| |].
    + by apply open_write.
    + apply open_read; [done| |done]. by rewrite Ha2.
    + apply (read_blocks p n bs' []); [done|]. rewrite Heq. exact Hd2.
Qed.

Example io_write_read_roundtrip_witness :
  ∃ s1 fs1 s2 fs2 s3 s4,
    File_Open [97] mode_w (mkFile 1 NkStrMd_Unknown None) empty_fs = Ret (NkErr_Ok, s1, fs1) ∧
    writes [[1; 10]; [26; 13; 10]] s1 fs1 s2 fs2 ∧
    File_Close s2 fs2 = (mkFile 1 NkStrMd_Unknown None, fs2) ∧
    File_Open [97] mode_r (mkFile 1 NkStrMd_Unknown None) fs2 = Ret (NkErr_Ok, s3, fs2) ∧
    reads fs2 [[1; 10; 26]; [13; 10]] s3 s4.
Proof.
  apply (io_write_read_roundtrip [97] 1 [[1; 10]; [26; 13; 10]] [[1; 10; 26]; [13; 10]] empty_fs);
    [discriminate|reflexivity|repeat constructor; discriminate|repeat constructor; discriminate|reflexivity|].
  vm_compute. discriminate.
Defined.

(** ** File system services *)

(** Making a file: whatever the reason for which opening fails, the object is destroyed and the
    code is NkErr_OpenFile; a mode beyond the last flag's value does not pass the assertion. *)
Lemma filesys_create_failed mk_dir self p mode fs e self' fs' :
  0 < mode < NkStrMd_Count → m_refCount self = 1 → p ≠ [] →
  File_Open p mode self fs = Ret (e, self', fs') → isOk e = false →
  ∃ fs'', WinFilesys_Create mk_dir (NkErr_Ok, self) NkStrTy_DiskFile (Some p) mode fs = Ret (NkErr_OpenFile, None, fs'').
Proof.
  intros Hm Hr Hp Ho He. unfold WinFilesys_Create. unfold NkStrMd_Count in *.
  rewrite (proj2 (Z.gtb_lt mode NkStrMd_Unknown)), (proj2 (Z.ltb_lt mode 65)) by (unfold NkStrMd_Unknown; lia).
  cbn. destruct p as [|c p]; [done|]. rewrite Ho. cbn. rewrite He. cbn. by eexists.
Qed.

(** The attribute word of a path that does not exist has every bit set, so such a path is taken for
    a directory and for a file at once. *)
Lemma missing_path_is_everything (attrs : list Z → FileSys → Z) dir normal p fs :
  attrs p fs = UINT32_MAX → is_u 32 dir → dir ≠ 0 → is_u 32 normal → normal ≠ 0 → p ≠ [] →
  WinFilesys_IsDirectory attrs dir p fs = Ret true ∧ WinFilesys_IsFile attrs normal p fs = Ret true.
Proof.
  intros Ha Hd Hd0 Hn Hn0 Hp. unfold WinFilesys_IsDirectory, WinFilesys_IsFile.
  rewrite (bool_decide_eq_false_2 (p = [])) by done. cbn. unfold has_flag. rewrite Ha.
  change UINT32_MAX with (Z.ones 32). rewrite !(Z.land_comm (Z.ones 32)), !Z.land_ones by lia.
  rewrite !Z.mod_small by done. split; f_equal; by apply negb_true_iff, Z.eqb_neq.
Qed.
