(* ===== verification/Bmp.v ===== *)
(** * [src/Noriko/bmp.c]: device-independent bitmaps

    A bitmap is its specification and the bytes of its pixel array; the headers of a
    bitmap file are records with their byte images.  [memcpy] is a read and a write of
    the array.  Shifts into the sign bit keep the bits, as the Microsoft compiler
    defines them.  The address and the first contents of allocated memory, the
    contents of uninitialised locals, and the two compression codes of the Windows
    headers are parameters. *)
From S2P Require Import Prelude CStr Stdio Util Alloc.

(** ** Data *)
Definition NkBmpFlag_None : Z := 0.
Definition NkBmpFlag_Flipped : Z := 1.
Definition NkBmpFlag_UseBitmasks : Z := 2.
Definition NkBmpFlag_SuppAlpha : Z := 3.

Record NkRgbaColor := mkRgba { m_rVal : Z; m_gVal : Z; m_bVal : Z; m_aVal : Z }.
Record NkBitmapSpecification := mkSpec {
  m_structSize : Z; m_bmpWidth : Z; m_bmpHeight : Z; m_bmpStride : Z; m_bitsPerPx : Z; m_bmpFlags : Z;
  m_redMask : Z; m_greenMask : Z; m_blueMask : Z; m_alphaMask : Z
}.
Definition sizeof_NkBitmapSpecification : Z := 40.
(** The pixel array: its address and its bytes. *)
Record DIBitmap := mkDIBitmap { m_bSpec : NkBitmapSpecification; mp_pxArray : Z; px : list Z }.

Record BitmapFileHeader := mkFileHead { m_bfType : Z; m_bfSize : Z; m_bfReserved : Z; m_bfOffBytes : Z }.
Definition sizeof_BitmapFileHeader : Z := 14.
Definition sizeof_BitmapInfoHeader : Z := 40.
Record BitmapV4InfoHeader := mkV4 {
  m_biSize : Z; m_biWidth : Z; m_biHeight : Z; m_biPlanes : Z; m_biBitCount : Z; m_biCompression : Z;
  m_biSizeImage : Z; m_biXPelsPerMeter : Z; m_biYPelsPerMeter : Z; m_blClrUsed : Z; m_blClrImportant : Z;
  v4_redMask : Z; v4_greenMask : Z; v4_blueMask : Z; v4_alphaMask : Z; m_csType : Z;
  m_colorEndPt : list Z; m_gammaRed : Z; m_gammaGreen : Z; m_gammaBlue : Z
}.
Definition sizeof_BitmapV4InfoHeader : Z := 108.

(** Their images in memory and in the file. *)
Definition file_head_bytes (h : BitmapFileHeader) : list Z :=
  le_bytes 2 (m_bfType h) ++ le_bytes 4 (m_bfSize h) ++ le_bytes 4 (m_bfReserved h) ++ le_bytes 4 (m_bfOffBytes h).
Definition v4_bytes (h : BitmapV4InfoHeader) : list Z :=
  le_bytes 4 (m_biSize h) ++ le_bytes 4 (m_biWidth h) ++ le_bytes 4 (m_biHeight h) ++
  le_bytes 2 (m_biPlanes h) ++ le_bytes 2 (m_biBitCount h) ++ le_bytes 4 (m_biCompression h) ++
  le_bytes 4 (m_biSizeImage h) ++ le_bytes 4 (m_biXPelsPerMeter h) ++ le_bytes 4 (m_biYPelsPerMeter h) ++
  le_bytes 4 (m_blClrUsed h) ++ le_bytes 4 (m_blClrImportant h) ++
  le_bytes 4 (v4_redMask h) ++ le_bytes 4 (v4_greenMask h) ++ le_bytes 4 (v4_blueMask h) ++
  le_bytes 4 (v4_alphaMask h) ++ le_bytes 4 (m_csType h) ++ m_colorEndPt h ++
  le_bytes 4 (m_gammaRed h) ++ le_bytes 4 (m_gammaGreen h) ++ le_bytes 4 (m_gammaBlue h).

(** Reading the fields of a structure from its bytes, one after the other. *)
Definition field (n : nat) (l : list Z) : Z * list Z := (le_value (take n l), drop n l).
Definition file_head_of (l : list Z) : BitmapFileHeader :=
  let '(ty, l) := field 2 l in
  let '(sz, l) := field 4 l in
  let '(rs, l) := field 4 l in
  let '(ob, l) := field 4 l in
  mkFileHead ty sz rs ob.
Definition v4_of (l : list Z) : BitmapV4InfoHeader :=
  let '(size, l) := field 4 l in
  let '(w, l) := field 4 l in
  let '(h, l) := field 4 l in
  let '(planes, l) := field 2 l in
  let '(bits, l) := field 2 l in
  let '(comp, l) := field 4 l in
  let '(img, l) := field 4 l in
  let '(xp, l) := field 4 l in
  let '(yp, l) := field 4 l in
  let '(cu, l) := field 4 l in
  let '(ci, l) := field 4 l in
  let '(r, l) := field 4 l in
  let '(g, l) := field 4 l in
  let '(b, l) := field 4 l in
  let '(a, l) := field 4 l in
  let '(cs, l) := field 4 l in
  let '(ep, l) := (take 36 l, drop 36 l) in
  let '(gr, l) := field 4 l in
  let '(gg, l) := field 4 l in
  let '(gb, _) := field 4 l in
  mkV4 size (i32 w) (i32 h) planes bits comp img (i32 xp) (i32 yp) cu ci r g b a cs ep gr gg gb.

(** ** Geometry *)
Definition DIBitmap_CalculateStride (bmpWidth bitsPerPx : Z) : Z :=
  Z.shiftr (Z.land (u32 (bmpWidth * bitsPerPx + 31)) (u32 (Z.lnot 31))) 3.
Definition DIBitmap_GetAdjustedHeight (bmpHeight bmpFlags : Z) : Z :=
  i32 (bmpHeight * (if negb (Z.land bmpFlags (Z.lnot NkBmpFlag_Flipped) =? 0) then -1 else 1)).
Definition DIBitmap_CalculateRawArraySize (bmpWidth bmpHeight bitsPerPx : Z) : Z :=
  u32 (DIBitmap_CalculateStride bmpWidth bitsPerPx * bmpHeight).

(** ** Colours *)

(** [v << 24 | v << 16 | v << 8 | v]. *)
Definition byte_pattern (v : Z) : Z :=
  Z.lor (Z.lor (Z.lor (u32 (Z.shiftl v 24)) (Z.shiftl v 16)) (Z.shiftl v 8)) v.
Definition DIBitmap_CvtColor (cCol : NkRgbaColor) (bmpSpecs : NkBitmapSpecification) : Z :=
  let resCol :=
    if has_flag (m_bmpFlags bmpSpecs) NkBmpFlag_UseBitmasks then
      Z.lor (Z.lor (Z.land (byte_pattern (m_rVal cCol)) (m_redMask bmpSpecs))
                   (Z.land (byte_pattern (m_gVal cCol)) (m_greenMask bmpSpecs)))
            (Z.land (byte_pattern (m_bVal cCol)) (m_blueMask bmpSpecs))
    else Z.lor (Z.lor (Z.lor 0xFF000000 (Z.shiftl (m_rVal cCol) 16)) (Z.shiftl (m_gVal cCol) 8)) (m_bVal cCol) in
  Z.lor resCol (if has_flag (m_bmpFlags bmpSpecs) NkBmpFlag_SuppAlpha
                then Z.land (byte_pattern (m_aVal cCol)) (m_alphaMask bmpSpecs) else 0).

(** ** Filling *)

(** [memcpy] inside the pixel array, from its start. *)
Definition px_copy (arr : list Z) (dst n : Z) : outcome (list Z) :=
  l ← buf_read arr 0 n; buf_write arr dst l.
(** The two doubling loops; [i += i] stays in its width, the second counter being
    signed. *)
Fixpoint fill_row_loop (fuel : nat) (i rowSize : Z) (arr : list Z) : outcome (list Z) :=
  match fuel with
  | O => OutOfFuel
  | S fuel =>
      if i <? rowSize then
        arr ← px_copy arr i (NK_MIN (u32 (rowSize - i)) i);
        fill_row_loop fuel (u32 (i + i)) rowSize arr
      else Ret arr
  end.
Fixpoint fill_rows_loop (fuel : nat) (i height rowSize : Z) (arr : list Z) : outcome (list Z) :=
  match fuel with
  | O => OutOfFuel
  | S fuel =>
      if i <? height then
        arr ← px_copy arr (u32 (i * rowSize)) (u32 (rowSize * NK_MIN (height - i) i));
        if i + i <=? INT32_MAX then fill_rows_loop fuel (i + i) height rowSize arr else Undef
      else Ret arr
  end.
(** 32 rounds of doubling leave the range of the counters. *)
Definition DIBitmap_Fill (bmpSpecs : NkBitmapSpecification) (rowSize : Z) (clearCol : NkRgbaColor) (pxArray : list Z)
    : outcome (list Z) :=
  let pixelWidth := Z.shiftr (m_bitsPerPx bmpSpecs) 3 in
  let cvtClearCol := DIBitmap_CvtColor clearCol bmpSpecs in
  pixel ← buf_read (le_bytes 4 cvtClearCol) 0 pixelWidth;
  arr ← buf_write pxArray 0 pixel;
  arr ← fill_row_loop 33 pixelWidth rowSize arr;
  fill_rows_loop 33 1 (m_bmpHeight bmpSpecs) rowSize arr.

(** ** Bitmaps *)
(** Of several violations the last one determines the code. *)
Definition DIBitmap_ValidateSpecification (s : NkBitmapSpecification) : NkErrorCode :=
  let errCode := NkErr_Ok in
  let errCode := if m_bmpWidth s >? 0 then errCode else NkErr_InvImageDimensions in
  let errCode := if m_bmpHeight s >? 0 then errCode else NkErr_InvImageDimensions in
  if (m_bitsPerPx s =? 24) || (m_bitsPerPx s =? 32) then errCode else NkErr_InvBitDepth.

Section bmp.
(** The host allocator and what fresh memory of a size holds. *)
Context (galloc : Z → option Z) (fresh : Z → list Z).
(** The uninitialised headers of the loader. *)
Context (junk_file junk_dib : list Z) (BI_RGB BI_BITFIELDS : Z).

Definition DIBitmap_MapToCompressionMethod (bmpFlags : Z) : Z :=
  if has_flag bmpFlags NkBmpFlag_UseBitmasks then BI_BITFIELDS else BI_RGB.

Definition NkDIBitmapCreate (bmpSpecs : NkBitmapSpecification) (clearCol : option NkRgbaColor)
    : outcome (NkErrorCode * option DIBitmap) :=
  let errCode := DIBitmap_ValidateSpecification bmpSpecs in
  if negb (isOk errCode) then Ret (errCode, None)
  else
    let rowSize := DIBitmap_CalculateStride (m_bmpWidth bmpSpecs) (m_bitsPerPx bmpSpecs) in
    let size := u64 (m_bmpHeight bmpSpecs * rowSize) in
    '(errCode, pixelArray) ← NkGPAlloc galloc size 0;
    if negb (isOk errCode) then Ret (errCode, None)
    else
      data ← match clearCol with
             | Some c => DIBitmap_Fill bmpSpecs rowSize c (fresh size)
             | None => Ret (fresh size)
             end;
      Ret (NkErr_Ok, Some (mkDIBitmap
        (mkSpec (m_structSize bmpSpecs) (m_bmpWidth bmpSpecs) (m_bmpHeight bmpSpecs) rowSize (m_bitsPerPx bmpSpecs)
           (m_bmpFlags bmpSpecs) (m_redMask bmpSpecs) (m_greenMask bmpSpecs) (m_blueMask bmpSpecs) (m_alphaMask bmpSpecs))
        pixelArray data)).

(** [fread_s] of one element: what is not read keeps its old contents. *)
Definition read_into (old : list Z) (f : FILE) (fs : FileSys) : list Z * FILE :=
  let '(l, f) := fread_s (Z.of_nat (length old)) f fs in (l ++ drop (length l) old, f).
(** [fseek]: on failure the position stays. *)
Definition seek_to (f : FILE) (off : Z) (fs : FileSys) : FILE := default f (fseeki64 f off SEEK_SET fs).

Definition NkDIBitmapLoad (filePath : list Z) (fs : FileSys) : outcome (NkErrorCode * option DIBitmap * FileSys) :=
  NK_ASSERT (negb (bool_decide (filePath = []))) NkErr_InParameter;;
  let '(r, fs) := fopen_s filePath [114; 98] fs in
  match r with
  | None => Ret (NkErr_OpenFile, None, fs)
  | Some f =>
      let '(fh, f) := read_into junk_file f fs in
      let fileHead := file_head_of fh in
      let '(sz, f) := read_into (take 4 junk_dib) f fs in
      let dib := sz ++ drop 4 junk_dib in
      let f := seek_to f sizeof_BitmapFileHeader fs in
      let biSize := m_biSize (v4_of dib) in
      if (biSize =? sizeof_BitmapInfoHeader) || (biSize =? sizeof_BitmapV4InfoHeader) then
        let '(dib, f) := read_into dib f fs in
        let dibHead := v4_of dib in
        let f := seek_to f (i32 (m_bfOffBytes fileHead)) fs in
        let pxBufSize :=
          if negb (m_biSizeImage dibHead =? 0) then m_biSizeImage dibHead
          else DIBitmap_CalculateRawArraySize (m_biWidth dibHead) (m_biHeight dibHead) (m_biBitCount dibHead) in
        '(errCode, pxBuf) ← NkGPAlloc galloc pxBufSize 0;
        if negb (isOk errCode) then Ret (errCode, None, fclose f fs)
        else
          let '(data, f) := read_into (fresh pxBufSize) f fs in
          let fs := fclose f fs in
          let bitfields := m_biCompression dibHead =? BI_BITFIELDS in
          let redMask := if bitfields then v4_redMask dibHead else 0 in
          let alphaMask :=
            if bitfields && (m_biSize dibHead =? sizeof_BitmapV4InfoHeader) then v4_alphaMask dibHead else 0 in
          Ret (NkErr_Ok, Some (mkDIBitmap
            (mkSpec sizeof_NkBitmapSpecification (m_biWidth dibHead) (m_biHeight dibHead)
               (DIBitmap_CalculateStride (m_biWidth dibHead) (m_biBitCount dibHead)) (m_biBitCount dibHead) 0
               redMask 0 0 alphaMask) pxBuf data), fs)
      else Ret (NkErr_UnsupportedFileFormat, None, fclose f fs)
  end.

(** The address handed to [NkGPFree], if any. *)
Definition NkDIBitmapDestroy (bmpPtr : option DIBitmap) : option Z := mp_pxArray <$> bmpPtr.

(** The headers of a saved bitmap. *)
Definition saved_file_head (arrSize : Z) : BitmapFileHeader := mkFileHead 0x4D42 (u32 (14 + 108 + arrSize)) 0 (14 + 108).
Definition saved_info_head (s : NkBitmapSpecification) (arrSize : Z) : BitmapV4InfoHeader :=
  mkV4 sizeof_BitmapV4InfoHeader (m_bmpWidth s) (DIBitmap_GetAdjustedHeight (u32 (m_bmpHeight s)) (m_bmpFlags s))
    1 (m_bitsPerPx s) (DIBitmap_MapToCompressionMethod (m_bmpFlags s)) arrSize 0 0 0 0
    (m_redMask s) (m_greenMask s) (m_blueMask s) (m_alphaMask s) UINT32_MAX (replicate 36 0) 0 0 0.
Definition NkDIBitmapSave (bmpPtr : DIBitmap) (filePath : list Z) (fs : FileSys) : outcome (NkErrorCode * FileSys) :=
  NK_ASSERT (negb (bool_decide (filePath = []))) NkErr_InParameter;;
  let s := m_bSpec bmpPtr in
  let arrSize := DIBitmap_CalculateRawArraySize (m_bmpWidth s) (m_bmpHeight s) (m_bitsPerPx s) in
  let '(r, fs) := fopen_s filePath [119; 98] fs in
  match r with
  | None => Ret (NkErr_OpenFile, fs)
  | Some f =>
      let '(_, f, fs) := fwrite (file_head_bytes (saved_file_head arrSize)) f fs in
      let '(_, f, fs) := fwrite (v4_bytes (saved_info_head s arrSize)) f fs in
      data ← buf_read (px bmpPtr) 0 arrSize;
      let '(_, f, fs) := fwrite data f fs in
      Ret (NkErr_Ok, fclose f fs)
  end.

Definition NkDIBitmapGetSpecification (bmpPtr : DIBitmap) : NkBitmapSpecification := m_bSpec bmpPtr.
(** The array and the value stored through [sizePtr]. *)
Definition NkDIBitmapGetPixels (bmpPtr : DIBitmap) : list Z * Z :=
  (px bmpPtr, u32 (m_bmpStride (m_bSpec bmpPtr) * m_bmpHeight (m_bSpec bmpPtr))).
End bmp.

(** ** Strides *)
Lemma land_round32 x : is_u 32 x → Z.land x (u32 (Z.lnot 31)) = 32 * (x / 32).
Proof.
  intros Hx. change (u32 (Z.lnot 31)) with (Z.shiftl (Z.ones 27) 5).
  replace (32 * (x / 32)) with (Z.shiftl (Z.shiftr x 5) 5).
  2: { rewrite Z.shiftl_mul_pow2, Z.shiftr_div_pow2 by lia. change (2 ^ 5) with 32. lia. }
  apply Z.bits_inj_iff'. intros n Hn. rewrite Z.land_spec, !Z.shiftl_spec by lia.
  destruct (Z.ltb_spec n 5).
  { rewrite !(Z.testbit_neg_r _ (n - 5)) by lia. by rewrite andb_false_r. }
  rewrite Z.shiftr_spec by lia. replace (n - 5 + 5) with n by lia.
  destruct (Z.ltb_spec (n - 5) 27).
  - rewrite Z.ones_spec_low by lia. by rewrite andb_true_r.
  - rewrite Z.ones_spec_high by lia. rewrite andb_false_r. symmetry.
    rewrite <-(Z.mod_small x (2 ^ 32)) by done. apply Z.mod_pow2_bits_high. lia.
Qed.

(** The stride is the row size in bytes, rounded up to a multiple of four. *)
Lemma stride_spec w bpp :
  0 ≤ w → 0 ≤ bpp → w * bpp + 31 < 2 ^ 32 →
  DIBitmap_CalculateStride w bpp = 4 * ((w * bpp + 31) / 32).
Proof.
  intros. unfold DIBitmap_CalculateStride.
  assert (0 ≤ w * bpp) by nia. rewrite (wrapN_small 32 (w * bpp + 31)) by (split; lia).
  rewrite land_round32 by (split; lia). rewrite Z.shiftr_div_pow2 by lia. change (2 ^ 3) with 8.
  replace (32 * ((w * bpp + 31) / 32)) with (4 * ((w * bpp + 31) / 32) * 8) by lia. by rewrite Z.div_mul.
Qed.

(** ** Filling by doubling *)
Lemma fill_row_step fuel i rowSize arr :
  fill_row_loop (S fuel) i rowSize arr =
    if i <? rowSize then
      arr ← px_copy arr i (NK_MIN (u32 (rowSize - i)) i); fill_row_loop fuel (u32 (i + i)) rowSize arr
    else Ret arr.
Proof. done. Qed.
Lemma fill_rows_step fuel i height rowSize arr :
  fill_rows_loop (S fuel) i height rowSize arr =
    if i <? height then
      arr ← px_copy arr (u32 (i * rowSize)) (u32 (rowSize * NK_MIN (height - i) i));
      if i + i <=? INT32_MAX then fill_rows_loop fuel (i + i) height rowSize arr else Undef
    else Ret arr.
Proof. done. Qed.

Section fill.
Context (pat : nat → Z).
(** The first [n] bytes of the array are the pattern's. *)
Definition filled (n : nat) (arr : list Z) : Prop := ∀ k, (k < n)%nat → arr !! k = Some (pat k).

Lemma px_copy_spec arr n m :
  filled n arr → (∀ k, pat (n + k) = pat k) → (m ≤ n)%nat → (n + m ≤ length arr)%nat →
  ∃ arr', px_copy arr (Z.of_nat n) (Z.of_nat m) = Ret arr' ∧ length arr' = length arr ∧
    filled (n + m) arr' ∧ ∀ k, (n + m ≤ k)%nat → arr' !! k = arr !! k.
Proof.
  intros Hf Hper Hm Hlen. unfold px_copy. rewrite buf_read_in by lia. step.
  change (Z.to_nat 0) with 0%nat. rewrite drop_0, Nat2Z.id.
  assert (Hl : length (take m arr) = m) by (rewrite length_take; lia).
  rewrite buf_write_in by (rewrite ?Hl; lia). rewrite Nat2Z.id, Hl. eexists. split; [done|].
  assert (Hn : length (take n arr) = n) by (rewrite length_take; lia).
  split; [rewrite !length_app, Hl, Hn, length_drop; lia|]. split.
  - intros k Hk. destruct (decide (k < n)%nat).
    + rewrite lookup_app_l by lia. rewrite lookup_take_lt by lia. by apply Hf.
    + rewrite lookup_app_r, Hn by lia. rewrite lookup_app_l by lia. rewrite lookup_take_lt by lia.
      replace k with (n + (k - n))%nat at 2 by lia. rewrite Hper. apply Hf. lia.
  - intros k Hk. rewrite lookup_app_r, Hn by lia. rewrite lookup_app_r, Hl by lia. rewrite lookup_drop. f_equal. lia.
Qed.

Lemma fill_row_spec fuel n R arr :
  filled (n `min` R) arr → (∀ k, pat (n + k) = pat k) → (0 < n)%nat → (R ≤ length arr)%nat →
  Z.of_nat R < 2 ^ 31 → Z.of_nat n < 2 ^ 32 → Z.of_nat R ≤ Z.of_nat n * 2 ^ Z.of_nat fuel →
  ∃ arr', fill_row_loop (S fuel) (Z.of_nat n) (Z.of_nat R) arr = Ret arr' ∧ length arr' = length arr ∧
    filled R arr' ∧ ∀ k, (R ≤ k)%nat → arr' !! k = arr !! k.
Proof.
  revert n arr. induction fuel as [|fuel IH]; intros n arr Hf Hper Hn HR HR31 Hn32 Hfuel;
    rewrite fill_row_step; destruct (Z.ltb_spec (Z.of_nat n) (Z.of_nat R)).
  - change (2 ^ Z.of_nat 0) with 1 in Hfuel. lia.
  - exists arr. rewrite Nat.min_r in Hf by lia. done.
  - rewrite (wrapN_small 32 (Z.of_nat R - Z.of_nat n)) by (split; lia). rewrite NK_MIN_spec.
    replace ((Z.of_nat R - Z.of_nat n) `min` Z.of_nat n) with (Z.of_nat ((R - n) `min` n)) by lia.
    rewrite Nat.min_l in Hf by lia.
    destruct (px_copy_spec arr n ((R - n) `min` n)) as (arr1 & -> & Hl1 & Hf1 & Ho1); [done|done|lia|lia|]. step.
    rewrite wrapN_small by (split; lia).
    replace (Z.of_nat n + Z.of_nat n) with (Z.of_nat (n + n)) by lia.
    destruct (IH (n + n)%nat arr1) as (arr2 & -> & Hl2 & Hf2 & Ho2).
    + replace ((n + n) `min` R)%nat with (n + (R - n) `min` n)%nat by lia. done.
    + intros k. by rewrite <-Nat.add_assoc, !Hper.
    + lia.
    + lia.
    + done.
    + lia.
    + rewrite Nat2Z.inj_succ, Z.pow_succ_r in Hfuel by lia. lia.
    + exists arr2. split_and!; [done|lia|done|]. intros k Hk. rewrite Ho2 by lia. apply Ho1. lia.
  - exists arr. rewrite Nat.min_r in Hf by lia. done.
Qed.

Lemma fill_rows_spec fuel n h R arr :
  filled (n `min` h * R) arr → (∀ k, pat (n * R + k) = pat k) → (0 < n)%nat → (h * R ≤ length arr)%nat →
  (0 < R)%nat → Z.of_nat h < 2 ^ 30 → Z.of_nat (h * R) < 2 ^ 32 → Z.of_nat h ≤ Z.of_nat n * 2 ^ Z.of_nat fuel →
  ∃ arr', fill_rows_loop (S fuel) (Z.of_nat n) (Z.of_nat h) (Z.of_nat R) arr = Ret arr' ∧ length arr' = length arr ∧
    filled (h * R) arr' ∧ ∀ k, (h * R ≤ k)%nat → arr' !! k = arr !! k.
Proof.
  revert n arr. induction fuel as [|fuel IH]; intros n arr Hf Hper Hn HR HR0 Hh Hsz Hfuel;
    rewrite fill_rows_step; destruct (Z.ltb_spec (Z.of_nat n) (Z.of_nat h)).
  - change (2 ^ Z.of_nat 0) with 1 in Hfuel. lia.
  - exists arr. rewrite Nat.min_r in Hf by lia. done.
  - assert (n * R + ((h - n) `min` n) * R ≤ h * R)%nat.
    { rewrite <-Nat.mul_add_distr_r. apply Nat.mul_le_mono_r. lia. }
    rewrite NK_MIN_spec.
    replace (Z.of_nat n * Z.of_nat R) with (Z.of_nat (n * R)) by lia.
    replace (Z.of_nat R * ((Z.of_nat h - Z.of_nat n) `min` Z.of_nat n)) with (Z.of_nat (((h - n) `min` n) * R))
      by (rewrite Nat2Z.inj_mul, Nat2Z.inj_min, Nat2Z.inj_sub by lia; lia).
    rewrite !wrapN_small by (split; lia). rewrite Nat.min_l in Hf by lia.
    destruct (px_copy_spec arr (n * R) (((h - n) `min` n) * R)) as (arr1 & -> & Hl1 & Hf1 & Ho1);
      [done|done|apply Nat.mul_le_mono_r; lia|lia|]. step.
    destruct (Z.leb_spec (Z.of_nat n + Z.of_nat n) INT32_MAX) as [_|Hbad]; [|unfold INT32_MAX in Hbad; lia].
    replace (Z.of_nat n + Z.of_nat n) with (Z.of_nat (n + n)) by lia.
    destruct (IH (n + n)%nat arr1) as (arr2 & -> & Hl2 & Hf2 & Ho2); try done; try lia.
    + replace ((n + n) `min` h)%nat with (n + (h - n) `min` n)%nat by lia. by rewrite Nat.mul_add_distr_r.
    + intros k. by rewrite Nat.mul_add_distr_r, <-Nat.add_assoc, !Hper.
    + rewrite Nat2Z.inj_succ, Z.pow_succ_r in Hfuel by lia. lia.
    + exists arr2. split_and!; [done|lia|done|]. intros k Hk. rewrite Ho2 by lia. apply Ho1. lia.
  - exists arr. rewrite Nat.min_r in Hf by lia. done.
Qed.
End fill.

(** The first pixel is written, then the two loops run. *)
Lemma fill_loops_spec (pix arr : list Z) (R h : nat) :
  let pw := length pix in
  (0 < pw ≤ R)%nat → (0 < h)%nat → (h * R ≤ length arr)%nat →
  Z.of_nat R < 2 ^ 31 → Z.of_nat h < 2 ^ 30 → Z.of_nat (h * R) < 2 ^ 32 →
  (arr ← fill_row_loop 33 (Z.of_nat pw) (Z.of_nat R) (pix ++ drop pw arr);
   fill_rows_loop 33 (Z.of_nat 1) (Z.of_nat h) (Z.of_nat R) arr) =
  Ret (((λ k, nth ((k mod R) mod pw) pix 0) <$> seq 0 (h * R)) ++ drop (h * R) arr).
Proof.
  intros pw Hpw Hh Hlen HR31 Hh30 Hsz. assert (R ≤ h * R)%nat by nia.
  set (arr0 := pix ++ drop pw arr).
  assert (Hl0 : length arr0 = length arr) by (unfold arr0; rewrite length_app, length_drop; unfold pw in *; lia).
  assert (Hf0 : filled (λ k, nth (k mod pw) pix 0) (pw `min` R) arr0).
  { intros k Hk. unfold arr0. rewrite lookup_app_l by (unfold pw in *; lia).
    rewrite Nat.mod_small by lia. destruct (lookup_lt_is_Some_2 pix k) as [x Hx]; [unfold pw in *; lia|].
    rewrite Hx. f_equal. symmetry. by apply nth_lookup_Some. }
  destruct (fill_row_spec (λ k, nth (k mod pw) pix 0) 32 pw R arr0) as (arr1 & -> & Hl1 & Hf1 & Ho1); try lia; [done| |].
  { intros k. f_equal. rewrite Nat.add_comm, <-(Nat.mul_1_l pw) at 1. by rewrite Nat.Div0.mod_add. }
  step.
  destruct (fill_rows_spec (λ k, nth ((k mod R) mod pw) pix 0) 32 1 h R arr1) as (arr2 & -> & Hl2 & Hf2 & Ho2); try lia.
  { intros k Hk. rewrite Nat.min_l in Hk by lia. rewrite (Nat.mod_small k R) by lia. apply Hf1. lia. }
  { intros k. do 2 f_equal. rewrite Nat.mul_1_l, Nat.add_comm, <-(Nat.mul_1_l R) at 1. by rewrite Nat.Div0.mod_add. }
  f_equal. apply list_eq. intros k. destruct (decide (k < h * R)%nat) as [Hk|Hk].
  - rewrite Hf2 by done. rewrite lookup_app_l by (rewrite length_fmap, length_seq; lia).
    by rewrite list_lookup_fmap, lookup_seq_lt by lia.
  - rewrite lookup_app_r by (rewrite length_fmap, length_seq; lia). rewrite length_fmap, length_seq, lookup_drop.
    rewrite Ho2 by lia. replace (h * R + (k - h * R))%nat with k by lia. rewrite Ho1 by lia. unfold arr0.
    rewrite lookup_app_r by (unfold pw in *; lia). rewrite lookup_drop. f_equal. unfold pw in *. lia.
Qed.

(** Byte by byte: every row starts with the pixel and repeats it to its end. *)
Definition fill_reference (s : NkBitmapSpecification) (rowSize : Z) (c : NkRgbaColor) (arr : list Z) : list Z :=
  let R := Z.to_nat rowSize in
  let n := (Z.to_nat (m_bmpHeight s) * R)%nat in
  let pixel := take (Z.to_nat (m_bitsPerPx s / 8)) (le_bytes 4 (DIBitmap_CvtColor c s)) in
  ((λ k, nth ((k mod R) mod length pixel) pixel 0) <$> seq 0 n) ++ drop n arr.

(** A specification whose array has less than four gigabytes. *)
Definition spec_fits (s : NkBitmapSpecification) : Prop :=
  0 < m_bmpWidth s ∧ 0 < m_bmpHeight s ∧ (m_bitsPerPx s = 24 ∨ m_bitsPerPx s = 32) ∧
  m_bmpWidth s * m_bitsPerPx s + 31 < 2 ^ 32 ∧
  DIBitmap_CalculateStride (m_bmpWidth s) (m_bitsPerPx s) * m_bmpHeight s < 2 ^ 32.

Lemma stride_bounds s :
  spec_fits s →
  let R := DIBitmap_CalculateStride (m_bmpWidth s) (m_bitsPerPx s) in
  4 ≤ R < 2 ^ 31 ∧ m_bmpWidth s * (m_bitsPerPx s / 8) ≤ R ∧ m_bmpHeight s < 2 ^ 30.
Proof.
  intros (Hw & Hh & Hb & Hwb & Hsz) R. unfold R in *. clear R.
  generalize dependent (m_bmpHeight s). generalize dependent (m_bitsPerPx s). generalize dependent (m_bmpWidth s).
  intros w Hw bpp Hb Hwb h Hh. rewrite stride_spec by lia.
  intros Hsz.
  assert (Hq : 32 * ((w * bpp + 31) / 32) ≤ w * bpp + 31 < 32 * ((w * bpp + 31) / 32) + 32)
    by (clear; generalize (w * bpp + 31); intros; Z.to_euclidean_division_equations; lia).
  revert Hsz Hq. generalize ((w * bpp + 31) / 32). intros q Hsz Hq.
  assert (1 ≤ q) by (destruct Hb; subst; lia). split_and!; [lia|destruct Hb; subst; lia| |nia].
  destruct Hb as [->| ->]; [change (24 / 8) with 3|change (32 / 8) with 4]; lia.
Qed.

Lemma bmp_fill s c arr R :
  R = DIBitmap_CalculateStride (m_bmpWidth s) (m_bitsPerPx s) →
  spec_fits s → R * m_bmpHeight s ≤ Z.of_nat (length arr) →
  DIBitmap_Fill s R c arr = Ret (fill_reference s R c arr).
Proof.
  intros ER Hs Hlen. pose proof (stride_bounds s Hs) as (HR & HwR & Hh). rewrite <-ER in HR, HwR.
  pose proof Hs as (Hw & Hh0 & Hb & _ & Hsz). rewrite <-ER in Hsz. clear ER Hs.
  unfold DIBitmap_Fill, fill_reference.
  replace (Z.shiftr (m_bitsPerPx s) 3) with (m_bitsPerPx s / 8) by (by destruct Hb as [->| ->]).
  assert (Hp : 3 ≤ m_bitsPerPx s / 8 ≤ 4) by (by destruct Hb as [->| ->]).
  generalize dependent (m_bitsPerPx s / 8). intros pw HwR Hpw.
  generalize (DIBitmap_CvtColor c s). intros col.
  assert (Hcol : length (le_bytes 4 col) = 4%nat) by apply length_le_bytes.
  rewrite buf_read_in, bind_Ret by (rewrite ?Hcol; lia). rewrite Z2Nat.inj_0, drop_0.
  set (pix := take (Z.to_nat pw) (le_bytes 4 col)).
  assert (Hpix : length pix = Z.to_nat pw) by (unfold pix; rewrite length_take; lia). clearbody pix.
  rewrite buf_write_in, bind_Ret by (rewrite ?Hpix; nia). rewrite Z2Nat.inj_0, take_0, app_nil_l, Nat.add_0_l.
  generalize dependent (m_bmpHeight s). intros h Hlen Hh Hh0 Hsz.
  assert (Epw : pw = Z.of_nat (length pix)) by lia.
  destruct (Z_of_nat_complete R ltac:(lia)) as [Rn ->]. destruct (Z_of_nat_complete h ltac:(lia)) as [hn ->].
  rewrite Epw, !Nat2Z.id. apply fill_loops_spec; nia.
Qed.

(** C27: filling a bitmap by doubling what is already written, first along the first row and then row
    by row, gives the same array as writing the converted colour pixel by pixel into every row; it
    stays inside the array, terminates within the rounds allowed and leaves the bytes behind the
    last row alone: for a bitmap of 24 or 32 bits per pixel whose array, and a row in bits, is below
    4 GB ([spec_fits]), so that the 32-bit sizes do not wrap around. *)
Theorem bmp_fill_reference s c arr R :
  R = DIBitmap_CalculateStride (m_bmpWidth s) (m_bitsPerPx s) →
  spec_fits s → R * m_bmpHeight s ≤ Z.of_nat (length arr) →
  DIBitmap_Fill s R c arr = Ret (fill_reference s R c arr).
Proof. apply bmp_fill. Qed.

Definition example_spec : NkBitmapSpecification := mkSpec 40 5 3 0 24 0 0 0 0 0.
Example bmp_fill_reference_witness :
  spec_fits example_spec ∧
  DIBitmap_Fill example_spec 16 (mkRgba 1 2 3 4) (replicate 50 9) =
    Ret (mjoin (replicate 3 [3; 2; 1; 3; 2; 1; 3; 2; 1; 3; 2; 1; 3; 2; 1; 3]) ++ [9; 9]).
Proof.
  assert (H : spec_fits example_spec) by (vm_compute; intuition congruence).
  split; [exact H|].
  refine (eq_trans (bmp_fill_reference example_spec (mkRgba 1 2 3 4) (replicate 50 9) 16 _ H _) _).
  - reflexivity.
  - vm_compute. discriminate.
  - vm_compute. reflexivity.
Defined.

(** ** Colours *)

(** Byte [j] of a word, and the mask of a byte. *)
Definition lane_of (z j : Z) : Z := Z.land (Z.shiftr z (8 * j)) 255.
Definition lane_mask (k : Z) : Z := Z.shiftl 255 (8 * k).

Lemma lane_of_lor a b j : lane_of (Z.lor a b) j = Z.lor (lane_of a j) (lane_of b j).
Proof. unfold lane_of. by rewrite Z.shiftr_lor, Z.land_lor_distr_l. Qed.

Lemma lane_bytes z j : is_u 32 z → 0 ≤ j < 4 → le_bytes 4 z !! Z.to_nat j = Some (lane_of z j).
Proof.
  intros Hz Hj. unfold lane_of. rewrite (Z.land_ones _ 8), Z.shiftr_div_pow2 by lia.
  assert (Hc : j = 0 ∨ j = 1 ∨ j = 2 ∨ j = 3) by lia. destruct Hc as [->|[->|[->| ->]]]; simpl; f_equal.
  - by rewrite Z.div_1_r.
  - by rewrite Z.div_div by lia.
  - by rewrite !Z.div_div by lia.
Qed.

(** A finite check over all bytes and all positions. *)
Lemma lane_pattern v k j :
  is_byte v → 0 ≤ k < 4 → 0 ≤ j < 4 →
  lane_of (Z.land (byte_pattern v) (lane_mask k)) j = if j =? k then v else 0.
Proof.
  intros Hv Hk Hj.
  apply (zrange_all (λ v, Forall (λ k, Forall (λ j,
    lane_of (Z.land (byte_pattern v) (lane_mask k)) j = if j =? k then v else 0) (zrange 0 4)) (zrange 0 4)) 0 256 v) in Hv.
  - apply (zrange_all _ 0 4 k) in Hv; [|lia]. by apply (zrange_all _ 0 4 j) in Hv; [|lia].
  - apply (bool_decide_unpack _). vm_compute. exact I.
Qed.

Lemma byte_pattern_range v : is_byte v → is_u 32 (byte_pattern v).
Proof.
  intros Hv. apply (zrange_all (λ v, is_u 32 (byte_pattern v)) 0 256 v) in Hv; [done|].
  apply (bool_decide_unpack _). vm_compute. exact I.
Qed.

Lemma lor_u32 a b : is_u 32 a → is_u 32 b → is_u 32 (Z.lor a b).
Proof.
  intros Ha Hb. split; [apply Z.lor_nonneg; destruct Ha, Hb; lia|].
  destruct (decide (Z.lor a b = 0)) as [->|Hne]; [done|].
  assert (0 ≤ Z.lor a b) by (apply Z.lor_nonneg; destruct Ha, Hb; lia).
  apply Z.log2_lt_pow2; [lia|]. rewrite Z.log2_lor by (destruct Ha, Hb; lia).
  destruct (decide (a = 0)) as [->|], (decide (b = 0)) as [->|]; change (Z.log2 0) with 0; rewrite ?Z.max_lub_lt_iff;
    destruct Ha, Hb; split_and?; try lia; apply Z.log2_lt_pow2; lia.
Qed.
Lemma land_u32 a b : is_u 32 a → is_u 32 (Z.land a b).
Proof.
  intros Ha. rewrite <-(Z.mod_small a (2 ^ 32)) by done.
  rewrite <-Z.land_ones, <-Z.land_assoc, (Z.land_comm (Z.ones 32)), Z.land_assoc, Z.land_ones by lia.
  apply Z.mod_pos_bound. lia.
Qed.

(** A byte shifted into place. *)
Lemma lane_shift v k j :
  is_byte v → 0 ≤ k < 3 → 0 ≤ j < 4 → lane_of (Z.shiftl v (8 * k)) j = if j =? k then v else 0.
Proof.
  intros Hv Hk Hj. unfold lane_of. rewrite Z.shiftr_div_pow2, Z.shiftl_mul_pow2, (Z.land_ones _ 8) by lia.
  unfold is_byte in Hv.
  assert (Hc : k = 0 ∨ k = 1 ∨ k = 2) by lia. assert (Hd : j = 0 ∨ j = 1 ∨ j = 2 ∨ j = 3) by lia.
  destruct Hc as [->|[->| ->]], Hd as [->|[->|[->| ->]]]; cbn; Z.to_euclidean_division_equations; lia.
Qed.
Lemma shifts_u32 v : is_byte v → Forall (λ n, is_u 32 (Z.shiftl v n)) [0; 8; 16].
Proof.
  intros Hv. unfold is_byte in Hv.
  repeat (constructor; [rewrite Z.shiftl_mul_pow2 by lia; split; lia|]). constructor.
Qed.

(** Every component is a byte. *)
Definition is_color (c : NkRgbaColor) : Prop :=
  is_byte (m_rVal c) ∧ is_byte (m_gVal c) ∧ is_byte (m_bVal c) ∧ is_byte (m_aVal c).

(** With masks that select four different bytes of the pixel, the converted colour holds each
    component in the byte of its mask, the alpha component too: the test for [SuppAlpha], whose
    value is 3, is already met by [UseBitmasks].  Without flags the pixel is blue, green, red, 255. *)
Theorem bmp_color_lanes c s kr kg kb ka :
  is_color c → Forall (λ k, 0 ≤ k < 4) [kr; kg; kb; ka] → NoDup [kr; kg; kb; ka] →
  m_redMask s = lane_mask kr → m_greenMask s = lane_mask kg → m_blueMask s = lane_mask kb →
  m_alphaMask s = lane_mask ka →
  let pixel := le_bytes 4 (DIBitmap_CvtColor c s) in
  (has_flag (m_bmpFlags s) NkBmpFlag_UseBitmasks = true →
     pixel !! Z.to_nat kr = Some (m_rVal c) ∧ pixel !! Z.to_nat kg = Some (m_gVal c) ∧
     pixel !! Z.to_nat kb = Some (m_bVal c) ∧ pixel !! Z.to_nat ka = Some (m_aVal c)) ∧
  (m_bmpFlags s = NkBmpFlag_None → pixel = [m_bVal c; m_gVal c; m_rVal c; 255]).
Proof.
  intros (Hr & Hg & Hb & Ha) Hk Hnd Er Eg Eb Ea pixel. unfold pixel, DIBitmap_CvtColor. split.
  - intros Hf. rewrite Hf, Er, Eg, Eb, Ea.
    assert (Hs : has_flag (m_bmpFlags s) NkBmpFlag_SuppAlpha = true).
    { unfold has_flag in *. apply negb_true_iff, Z.eqb_neq in Hf. apply negb_true_iff, Z.eqb_neq. intros E. apply Hf.
      change NkBmpFlag_UseBitmasks with (Z.land NkBmpFlag_SuppAlpha 2). by rewrite Z.land_assoc, E. }
    rewrite Hs. rewrite !Forall_cons_iff in Hk. destruct Hk as (Hkr & Hkg & Hkb & Hka & _).
    rewrite !list.NoDup_cons, !not_elem_of_cons in Hnd.
    rewrite !lane_bytes; try lia;
      try (repeat apply lor_u32; apply land_u32; auto using byte_pattern_range).
    rewrite !lane_of_lor, !lane_pattern by done. destruct Hnd as (? & ? & ? & _).
    rewrite !Z.eqb_refl.
    repeat match goal with |- context [?x =? ?y] => rewrite (proj2 (Z.eqb_neq x y)) by naive_solver end.
    by rewrite ?Z.lor_0_r, ?Z.lor_0_l.
  - intros ->. change (has_flag NkBmpFlag_None _) with false. cbv iota. rewrite Z.lor_0_r.
    apply list_eq. intros i.
    pose proof (shifts_u32 _ Hr) as Hur. pose proof (shifts_u32 _ Hg) as Hug. pose proof (shifts_u32 _ Hb) as Hub.
    rewrite !Forall_cons_iff in Hur, Hug, Hub. rewrite Z.shiftl_0_r in Hub.
    destruct (decide (i < 4)%nat) as [Hi|Hi].
    2: { rewrite !lookup_ge_None_2; [done|simpl; lia|rewrite length_le_bytes; lia]. }
    replace i with (Z.to_nat (Z.of_nat i)) at 1 by lia.
    rewrite lane_bytes by (try lia; repeat apply lor_u32; try tauto; done).
    rewrite !lane_of_lor.
    pose proof (lane_shift _ 2 (Z.of_nat i) Hr ltac:(lia) ltac:(lia)) as E2. pose proof (lane_shift _ 1 (Z.of_nat i) Hg ltac:(lia) ltac:(lia)) as E1.
    pose proof (lane_shift _ 0 (Z.of_nat i) Hb ltac:(lia) ltac:(lia)) as E0. change (8 * 2) with 16 in E2. change (8 * 1) with 8 in E1. change (8 * 0) with 0 in E0. rewrite Z.shiftl_0_r in E0.
    rewrite E2, E1, E0.
    destruct i as [|[|[|[|i]]]]; [..|lia]; cbn; by rewrite ?Z.lor_0_r, ?Z.lor_0_l.
Qed.

Example bmp_color_lanes_witness :
  is_color (mkRgba 10 20 30 40) ∧
  (le_bytes 4 (DIBitmap_CvtColor (mkRgba 10 20 30 40)
     (mkSpec 40 1 1 0 32 2 (lane_mask 0) (lane_mask 1) (lane_mask 2) (lane_mask 3)))) !! 3%nat = Some 40.
Proof.
  assert (H : is_color (mkRgba 10 20 30 40)) by (vm_compute; intuition congruence).
  split; [exact H|].
  refine (proj2 (proj2 (proj2 (proj1 (bmp_color_lanes (mkRgba 10 20 30 40)
    (mkSpec 40 1 1 0 32 2 (lane_mask 0) (lane_mask 1) (lane_mask 2) (lane_mask 3)) 0 1 2 3 H _ _ _ _ _ _) _)))).
  - repeat constructor; vm_compute; intuition congruence.
  - apply (bool_decide_unpack _). vm_compute. exact I.
  - reflexivity.
  - reflexivity.
  - reflexivity.
  - reflexivity.
  - reflexivity.
Defined.

(** ** Headers *)
Lemma field_app n v rest : field n (le_bytes n v ++ rest) = (v mod 2 ^ (8 * Z.of_nat n), rest).
Proof.
  unfold field. rewrite take_app_length', drop_app_length' by (by rewrite length_le_bytes).
  by rewrite le_value_bytes.
Qed.

Lemma i32_mod z : INT32_MIN ≤ z ≤ INT32_MAX → i32 (z mod 2 ^ 32) = z.
Proof.
  unfold INT32_MIN, INT32_MAX, swrapN. intros Hz. change (32 - 1) with 31.
  rewrite Z.add_mod_idemp_l by lia. rewrite Z.mod_small by lia. lia.
Qed.

(** The values the fields can hold. *)
Record v4_ok (h : BitmapV4InfoHeader) : Prop := {
  v4_words : Forall (is_u 32) [m_biSize h; m_biCompression h; m_biSizeImage h; m_blClrUsed h; m_blClrImportant h;
    v4_redMask h; v4_greenMask h; v4_blueMask h; v4_alphaMask h; m_csType h; m_gammaRed h; m_gammaGreen h; m_gammaBlue h];
  v4_signed : Forall (λ z, INT32_MIN ≤ z ≤ INT32_MAX)
    [m_biWidth h; m_biHeight h; m_biXPelsPerMeter h; m_biYPelsPerMeter h];
  v4_halves : Forall (is_u 16) [m_biPlanes h; m_biBitCount h];
  v4_endpoints : length (m_colorEndPt h) = 36%nat
}.

(** One hypothesis per element. *)
Ltac destruct_forall :=
  repeat match goal with H : Forall _ (_ :: _) |- _ => apply Forall_cons_iff in H as [? H] end.

(** One goal per element. *)
Ltac split_forall := repeat (apply Forall_cons_iff; split); [..|apply List.Forall_nil].

Lemma v4_roundtrip h rest : v4_ok h → v4_of (v4_bytes h ++ rest) = h.
Proof.
  intros [Hw Hs Hh He]. destruct_forall.
  unfold v4_of, v4_bytes. rewrite <-!(assoc_L (++)).
  do 16 (rewrite field_app; cbv beta iota).
  rewrite take_app_length', drop_app_length' by done.
  do 3 (rewrite field_app; cbv beta iota).
  change (8 * Z.of_nat 4) with 32. change (8 * Z.of_nat 2) with 16. unfold is_u in *.
  rewrite !i32_mod by done. rewrite !Z.mod_small by done. by destruct h.
Qed.

Lemma file_head_roundtrip ty sz rs ob rest :
  is_u 16 ty → is_u 32 sz → is_u 32 rs → is_u 32 ob →
  file_head_of (file_head_bytes (mkFileHead ty sz rs ob) ++ rest) = mkFileHead ty sz rs ob.
Proof.
  intros. unfold file_head_of, file_head_bytes. cbn [m_bfType m_bfSize m_bfReserved m_bfOffBytes].
  rewrite <-!(assoc_L (++)). do 4 (rewrite field_app; cbv beta iota).
  change (8 * Z.of_nat 4) with 32. change (8 * Z.of_nat 2) with 16. by rewrite !Z.mod_small by done.
Qed.

Lemma length_v4_bytes h : length (m_colorEndPt h) = 36%nat → length (v4_bytes h) = 108%nat.
Proof. intros He. unfold v4_bytes. rewrite !length_app, !length_le_bytes, He. done. Qed.
Lemma length_file_head_bytes h : length (file_head_bytes h) = 14%nat.
Proof. unfold file_head_bytes. by rewrite !length_app, !length_le_bytes. Qed.

(** ** Saving and loading *)
Section save_load.
Context (galloc : Z → option Z) (fresh : Z → list Z) (junk_file junk_dib : list Z) (BI_RGB BI_BITFIELDS : Z).
(** The locals have the size of their types, memory has the size asked for. *)
Hypothesis junk_file_size : length junk_file = 14%nat.
Hypothesis junk_dib_size : length junk_dib = 108%nat.
Hypothesis fresh_size : ∀ n, 0 ≤ n → length (fresh n) = Z.to_nat n.
(** The two codes are different words. *)
Hypothesis codes : is_u 32 BI_RGB ∧ is_u 32 BI_BITFIELDS ∧ BI_RGB ≠ BI_BITFIELDS.

(** What [NkDIBitmapCreate] makes: a specification that fits, its stride, its array. *)
Record bitmap_ok (b : DIBitmap) : Prop := {
  bm_fits : spec_fits (m_bSpec b);
  bm_dims : m_bmpWidth (m_bSpec b) ≤ INT32_MAX ∧ m_bmpHeight (m_bSpec b) ≤ INT32_MAX;
  bm_stride : m_bmpStride (m_bSpec b) = DIBitmap_CalculateStride (m_bmpWidth (m_bSpec b)) (m_bitsPerPx (m_bSpec b));
  bm_masks : Forall (is_u 32) [m_redMask (m_bSpec b); m_greenMask (m_bSpec b); m_blueMask (m_bSpec b); m_alphaMask (m_bSpec b)];
  bm_px : Z.of_nat (length (px b)) = m_bmpStride (m_bSpec b) * m_bmpHeight (m_bSpec b)
}.
Definition array_size (b : DIBitmap) : Z := Z.of_nat (length (px b)).
(** The file [NkDIBitmapSave] writes. *)
Definition saved_bytes (b : DIBitmap) : list Z :=
  file_head_bytes (saved_file_head (array_size b)) ++
  v4_bytes (saved_info_head BI_RGB BI_BITFIELDS (m_bSpec b) (array_size b)) ++ px b.
(** The bitmap that comes back from it. *)
Definition reloaded (b : DIBitmap) (addr : Z) : DIBitmap :=
  let s := m_bSpec b in
  let masks := has_flag (m_bmpFlags s) NkBmpFlag_UseBitmasks in
  let height := if m_bmpFlags s / 2 =? 0 then m_bmpHeight s else - m_bmpHeight s in
  mkDIBitmap (mkSpec 40 (m_bmpWidth s) height (m_bmpStride s)
    (m_bitsPerPx s) 0 (if masks then m_redMask s else 0) 0 0 (if masks then m_alphaMask s else 0)) addr (px b).

Lemma raw_size b :
  bitmap_ok b → 0 < array_size b < 2 ^ 32 ∧
  DIBitmap_CalculateRawArraySize (m_bmpWidth (m_bSpec b)) (m_bmpHeight (m_bSpec b)) (m_bitsPerPx (m_bSpec b)) = array_size b.
Proof.
  intros Hok. destruct Hok as [Hf _ Hst _ Hpx]. pose proof (stride_bounds _ Hf) as (HR & _).
  pose proof Hf as (_ & Hh & _ & _ & Hsz). unfold array_size, DIBitmap_CalculateRawArraySize.
  rewrite Hpx, Hst. assert (0 < DIBitmap_CalculateStride (m_bmpWidth (m_bSpec b)) (m_bitsPerPx (m_bSpec b)) * m_bmpHeight (m_bSpec b)) by nia.
  split; [lia|]. apply wrapN_small. split; lia.
Qed.

(** The height changes its sign unless no flag but [Flipped] is set. *)
Lemma adjusted_height h flags :
  0 < h ≤ INT32_MAX → DIBitmap_GetAdjustedHeight h flags = if flags / 2 =? 0 then h else - h.
Proof.
  intros Hh. unfold DIBitmap_GetAdjustedHeight. change (Z.lnot NkBmpFlag_Flipped) with (Z.lnot (Z.ones 1)).
  rewrite <-Z.ldiff_land, Z.ldiff_ones_r, Z.shiftl_mul_pow2, Z.shiftr_div_pow2 by lia. change (2 ^ 1) with 2.
  replace (flags / 2 * 2 =? 0) with (flags / 2 =? 0)
    by (destruct (Z.eqb_spec (flags / 2) 0), (Z.eqb_spec (flags / 2 * 2) 0); lia).
  unfold INT32_MAX, swrapN in *. change (32 - 1) with 31.
  destruct (flags / 2 =? 0); cbn [negb]; rewrite Z.mod_small; lia.
Qed.

Lemma adjusted_height_range h flags : 0 < h ≤ INT32_MAX →
  INT32_MIN ≤ DIBitmap_GetAdjustedHeight h flags ≤ INT32_MAX.
Proof.
  intros _. unfold DIBitmap_GetAdjustedHeight, swrapN, INT32_MIN, INT32_MAX. change (32 - 1) with 31.
  pose proof (Z.mod_pos_bound (h * (if negb (Z.land flags (Z.lnot NkBmpFlag_Flipped) =? 0) then -1 else 1) + 2 ^ 31) (2 ^ 32)). lia.
Qed.

Lemma saved_head_ok b :
  bitmap_ok b → v4_ok (saved_info_head BI_RGB BI_BITFIELDS (m_bSpec b) (array_size b)).
Proof.
  intros Hok. pose proof (raw_size b Hok) as [Ha _]. destruct Hok as [Hf [Hw Hh] _ Hm _]. destruct codes as (H1 & H2 & _).
  destruct Hf as (Hw0 & Hh0 & Hb & _). destruct_forall. unfold saved_info_head. split; cbn.
  - split_forall; first [done | by (unfold DIBitmap_MapToCompressionMethod; case_match) | (split; lia)].
  - unfold INT32_MIN, INT32_MAX in *. split_forall; try lia.
    rewrite wrapN_small by (split; lia). by apply adjusted_height_range.
  - split_forall; [done|]. by destruct Hb as [->| ->].
  - done.
Qed.

Lemma bitmap_save_spec b path fs :
  bitmap_ok b → path ≠ [] → fs_access fs path = true → 122 + array_size b ≤ fs_cap fs →
  NkDIBitmapSave BI_RGB BI_BITFIELDS b path fs =
    Ret (NkErr_Ok, put_file (put_file (put_file (put_file fs (Named path) []) (Named path)
           (file_head_bytes (saved_file_head (array_size b)))) (Named path)
           (file_head_bytes (saved_file_head (array_size b)) ++
            v4_bytes (saved_info_head BI_RGB BI_BITFIELDS (m_bSpec b) (array_size b)))) (Named path) (saved_bytes b)).
Proof.
  intros Hok Hp Ha Hcap. pose proof (raw_size b Hok) as [Hsz Eraw].
  unfold NkDIBitmapSave. rewrite (bool_decide_eq_false_2 (path = [])) by done. cbn [negb NK_ASSERT]. step.
  rewrite Eraw. unfold fopen_s. rewrite Ha. change (mode_has [119; 98] 43) with false.
  change (mode_has [119; 98] 98) with true. change (mode_has [119; 98] 120) with false. rewrite andb_false_r. cbn [negb].
  set (h1 := file_head_bytes (saved_file_head (array_size b))).
  set (h2 := v4_bytes (saved_info_head BI_RGB BI_BITFIELDS (m_bSpec b) (array_size b))).
  assert (L1 : length h1 = 14%nat) by apply length_file_head_bytes.
  assert (L2 : length h2 = 108%nat) by (by apply length_v4_bytes).
  assert (N1 : h1 ≠ []) by (by intros E; rewrite E in L1). assert (N2 : h2 ≠ []) by (by intros E; rewrite E in L2).
  change (saved_bytes b) with (h1 ++ h2 ++ px b). clearbody h1 h2.
  rewrite fwrite_end; cbn [f_id f_pos f_write f_text];
    [|done|done|done|by rewrite file_data_put_eq|cbn; rewrite L1; lia].
  rewrite file_data_put_eq. cbn [app]. unfold set_pos at 1; cbn [f_id f_read f_write f_append f_text f_pos].
  rewrite fwrite_end; cbn [f_id f_pos f_write f_text];
    [|done|done|done|rewrite file_data_put_eq, L1; done|cbn; rewrite L1, L2; lia].
  rewrite file_data_put_eq. unfold set_pos at 1; cbn [f_id f_read f_write f_append f_text f_pos].
  unfold array_size in *. rewrite buf_read_in by lia. rewrite bind_Ret, Nat2Z.id. change (Z.to_nat 0) with 0%nat.
  rewrite drop_0, take_ge by lia.
  rewrite fwrite_end; cbn [f_id f_pos f_write f_text];
    [|done|done|intros E; rewrite E in Hsz; cbn in Hsz; lia|rewrite file_data_put_eq, length_app, L1, L2; done|cbn; rewrite L1, L2; lia].
  rewrite file_data_put_eq, <-(assoc_L (++)). done.
Qed.

(** Reading a whole structure from a position of a binary file. *)
Lemma read_into_block old f fs pre blk post :
  f_read f = true → f_text f = false → file_data fs (f_id f) = pre ++ blk ++ post →
  f_pos f = Z.of_nat (length pre) → length blk = length old →
  read_into old f fs = (blk, set_pos f (Z.of_nat (length pre + length blk))).
Proof.
  intros Hr Ht Hd Hp Hl. unfold read_into.
  rewrite (fread_block _ f fs pre blk post) by (rewrite ?Hl; done).
  rewrite Hl, drop_all, app_nil_r. do 2 f_equal. lia.
Qed.
Lemma seek_to_spec f off fs : 0 ≤ off ≤ INT64_MAX → seek_to f off fs = set_pos f off.
Proof.
  intros. unfold seek_to, fseeki64. change (fseek_base f SEEK_SET fs) with (Some 0). cbn [mbind option_bind].
  rewrite (proj2 (Z.leb_le 0 (0 + off))), (proj2 (Z.leb_le (0 + off) INT64_MAX)) by lia. done.
Qed.

(** Loading from a file that starts with a saved bitmap. *)
Lemma bitmap_load_spec b path fs addr post :
  bitmap_ok b → path ≠ [] → fs_access fs path = true →
  fs_files fs !! Named path = Some (saved_bytes b ++ post) → galloc (array_size b) = Some addr →
  NkDIBitmapLoad galloc fresh junk_file junk_dib BI_BITFIELDS path fs = Ret (NkErr_Ok, Some (reloaded b addr), fs).
Proof.
  intros Hok Hp Ha Hfile Hg. pose proof (raw_size b Hok) as [Hsz _]. pose proof (saved_head_ok b Hok) as Hh.
  set (fh := saved_file_head (array_size b)) in *.
  set (ih := saved_info_head BI_RGB BI_BITFIELDS (m_bSpec b) (array_size b)) in *.
  assert (Hdata : file_data fs (Named path) = file_head_bytes fh ++ v4_bytes ih ++ px b ++ post).
  { unfold file_data. rewrite Hfile. unfold saved_bytes. cbn [default from_option id]. by rewrite <-!(assoc_L (++)). }
  pose proof (length_file_head_bytes fh) as L1. pose proof (length_v4_bytes ih (v4_endpoints _ Hh)) as L2.
  unfold NkDIBitmapLoad. rewrite (bool_decide_eq_false_2 (path = [])) by done. cbn [negb NK_ASSERT]. step.
  unfold fopen_s. rewrite Ha, Hfile. rewrite bool_decide_eq_true_2 by done.
  change (mode_has [114; 98] 98) with true. change (mode_has [114; 98] 43) with false. cbn [negb].
  set (f0 := mkFILE (Named path) true false false false 0).
  rewrite (read_into_block junk_file f0 fs [] (file_head_bytes fh) (v4_bytes ih ++ px b ++ post)) by (done || by rewrite L1).
  assert (Hdata4 : file_data fs (Named path) =
            file_head_bytes fh ++ le_bytes 4 108 ++ (drop 4 (v4_bytes ih) ++ px b ++ post)) by (by rewrite Hdata).
  rewrite (read_into_block (take 4 junk_dib) _ fs (file_head_bytes fh) (le_bytes 4 108) (drop 4 (v4_bytes ih) ++ px b ++ post))
    by (done || by rewrite length_take, junk_dib_size).
  assert (Ebi : m_biSize (v4_of (le_bytes 4 108 ++ drop 4 junk_dib)) = 108) by done.
  rewrite Ebi. cbn [Z.eqb orb sizeof_BitmapInfoHeader sizeof_BitmapV4InfoHeader Pos.eqb].
  rewrite seek_to_spec by (unfold sizeof_BitmapFileHeader, INT64_MAX; lia).
  rewrite (read_into_block (le_bytes 4 108 ++ drop 4 junk_dib) _ fs (file_head_bytes fh) (v4_bytes ih) (px b ++ post));
    [|done|done|done|by rewrite L1|by rewrite length_app, length_drop, length_le_bytes, junk_dib_size].
  pose proof (v4_roundtrip ih [] Hh) as Ev. rewrite app_nil_r in Ev. rewrite !Ev.
  assert (Ef : file_head_of (file_head_bytes fh) = fh).
  { rewrite <-(app_nil_r (file_head_bytes fh)). apply file_head_roundtrip; [done|apply wrapN_range; lia|done|done]. }
  rewrite !Ef.
  change (i32 (m_bfOffBytes fh)) with 122.
  rewrite seek_to_spec by (unfold INT64_MAX; lia).
  change (m_biSizeImage ih) with (array_size b). rewrite (proj2 (Z.eqb_neq (array_size b) 0)) by lia. cbn [negb].
  rewrite (gp_alloc_some _ _ addr), bind_Ret by (done || lia). ok_step.
  rewrite (read_into_block (fresh (array_size b)) _ fs (file_head_bytes fh ++ v4_bytes ih) (px b) post);
    [|done|done|rewrite <-(assoc_L (++)); exact Hdata|by rewrite length_app, L1, L2
     |rewrite fresh_size by lia; unfold array_size; lia].
  destruct Hok as [Hf [_ Hh31] Hst _ _]. destruct Hf as (_ & Hh0 & _).
  change (isOk NkErr_Ok) with true. cbn [negb fclose f_id set_pos].
  do 2 f_equal. f_equal. unfold reloaded. f_equal. rewrite Hst.
  unfold ih, saved_info_head, sizeof_NkBitmapSpecification.
  cbn [m_biWidth m_biHeight m_biBitCount m_biCompression m_biSize v4_redMask v4_alphaMask].
  rewrite wrapN_small by (unfold INT32_MAX in *; split; lia). rewrite adjusted_height by lia.
  rewrite Z.eqb_refl, andb_true_r. unfold DIBitmap_MapToCompressionMethod.
  destruct (has_flag _ NkBmpFlag_UseBitmasks); [by rewrite Z.eqb_refl|].
  by rewrite (proj2 (Z.eqb_neq BI_RGB BI_BITFIELDS)) by apply codes.
Qed.

(** C28: a bitmap saved to a file and loaded back has the same pixels, width, stride and depth.  Of the
    rest of the specification, the flags are lost, with bit masks only the red and the alpha mask come
    back, and the height comes back negative when any flag other than [Flipped] was set.  The file is
    the two headers, 14 and 108 bytes, followed by the pixels. *)
Theorem bmp_save_load b path fs addr :
  bitmap_ok b → path ≠ [] → fs_access fs path = true → 122 + array_size b ≤ fs_cap fs →
  galloc (array_size b) = Some addr →
  ∃ fs', NkDIBitmapSave BI_RGB BI_BITFIELDS b path fs = Ret (NkErr_Ok, fs') ∧
    file_data fs' (Named path) = saved_bytes b ∧ length (saved_bytes b) = (122 + length (px b))%nat ∧
    NkDIBitmapLoad galloc fresh junk_file junk_dib BI_BITFIELDS path fs' = Ret (NkErr_Ok, Some (reloaded b addr), fs').
Proof.
  intros Hok Hp Ha Hcap Hg. pose proof (saved_head_ok b Hok) as Hh. eexists.
  split; [by apply bitmap_save_spec|]. rewrite file_data_put_eq. split; [done|]. split.
  - unfold saved_bytes. rewrite !length_app, length_file_head_bytes, length_v4_bytes; [done|]. apply Hh.
  - apply (bitmap_load_spec b path _ addr []); [done|done|done| |done]. cbn. by rewrite app_nil_r, lookup_insert_eq.
Qed.

(** Creating a bitmap with a clear colour. *)
Lemma bitmap_create_spec s c addr :
  spec_fits s → m_bmpWidth s ≤ INT32_MAX → m_bmpHeight s ≤ INT32_MAX →
  Forall (is_u 32) [m_redMask s; m_greenMask s; m_blueMask s; m_alphaMask s] →
  let size := DIBitmap_CalculateStride (m_bmpWidth s) (m_bitsPerPx s) * m_bmpHeight s in
  galloc size = Some addr →
  ∃ b, NkDIBitmapCreate galloc fresh s (Some c) = Ret (NkErr_Ok, Some b) ∧ bitmap_ok b ∧
    px b = fill_reference s (DIBitmap_CalculateStride (m_bmpWidth s) (m_bitsPerPx s)) c (fresh size) ∧
    (NkDIBitmapGetPixels b).2 = array_size b.
Proof.
  intros Hs Hw Hh Hm size Hg. pose proof (stride_bounds s Hs) as (HR & _). pose proof Hs as (Hw0 & Hh0 & Hb & _ & Hsz).
  unfold NkDIBitmapCreate.
  assert (Hv : DIBitmap_ValidateSpecification s = NkErr_Ok).
  { unfold DIBitmap_ValidateSpecification. rewrite (proj2 (Z.gtb_lt (m_bmpWidth s) 0)), (proj2 (Z.gtb_lt (m_bmpHeight s) 0)) by done.
    by destruct Hb as [->| ->]. }
  rewrite Hv. change (isOk NkErr_Ok) with true. cbn [negb].
  rewrite (Z.mul_comm (m_bmpHeight s)). fold size. fold size in Hsz.
  assert (Hsize : 0 < size) by (unfold size; nia). rewrite wrapN_small by (split; lia).
  rewrite (gp_alloc_some _ _ addr), bind_Ret by (done || lia). ok_step.
  assert (Hl : Z.of_nat (length (fresh size)) = size) by (rewrite fresh_size; lia).
  rewrite (bmp_fill s c (fresh size) _ eq_refl Hs) by (rewrite Hl; unfold size; lia). rewrite bind_Ret.
  eexists. split; [done|].
  assert (Hpx : Z.of_nat (length (fill_reference s (DIBitmap_CalculateStride (m_bmpWidth s) (m_bitsPerPx s)) c (fresh size))) = size).
  { unfold fill_reference. rewrite length_app, length_fmap, length_seq, length_drop.
    assert (Z.to_nat (m_bmpHeight s) * Z.to_nat (DIBitmap_CalculateStride (m_bmpWidth s) (m_bitsPerPx s)) = Z.to_nat size)%nat
      by (rewrite <-Z2Nat.inj_mul by lia; unfold size; f_equal; lia). lia. }
  split; [|split; [done|]].
  - by split.
  - cbn. unfold array_size. cbn. rewrite Hpx. apply wrapN_small. split; [lia|done].
Qed.

(** Saving reports success whenever the file could be opened, whatever the disk takes. *)
Lemma bitmap_save_always_ok b path fs :
  bitmap_ok b → path ≠ [] → fs_access fs path = true →
  ∃ fs', NkDIBitmapSave BI_RGB BI_BITFIELDS b path fs = Ret (NkErr_Ok, fs').
Proof.
  intros Hok Hp Ha. pose proof (raw_size b Hok) as [Hsz Eraw].
  unfold NkDIBitmapSave. rewrite (bool_decide_eq_false_2 (path = [])) by done. cbn [negb NK_ASSERT]. rewrite bind_Ret, Eraw.
  unfold fopen_s. rewrite Ha. change (mode_has [119; 98] 120) with false. rewrite andb_false_r. cbn [negb].
  destruct (fwrite _ _ _) as [[n1 f1] fs1], (fwrite _ f1 fs1) as [[n2 f2] fs2].
  unfold array_size in *. rewrite buf_read_in, bind_Ret by lia.
  destruct (fwrite _ f2 fs2) as [[n3 f3] fs3]. by eexists.
Qed.
End save_load.

(** An allocator that places everything at one address, memory full of ones. *)
Definition one_place : Z → option Z := λ _, Some 4096.
Definition ones (n : Z) : list Z := replicate (Z.to_nat n) 1.
Definition example_bitmap : DIBitmap :=
  mkDIBitmap (mkSpec 40 2 2 8 24 NkBmpFlag_UseBitmasks (lane_mask 2) (lane_mask 1) (lane_mask 0) 0) 64
    [10; 11; 12; 13; 14; 15; 0; 0; 20; 21; 22; 23; 24; 25; 0; 0].
Definition roomy_fs : FileSys := mkFs ∅ 0 (λ _, true) 1024 true (λ _, Some (0, 0, 0)).

Lemma example_bitmap_ok : bitmap_ok example_bitmap.
Proof.
  split; [vm_compute; intuition congruence|vm_compute; intuition congruence|reflexivity| |reflexivity].
  split_forall; vm_compute; intuition congruence.
Qed.

Example bmp_save_load_witness :
  ∃ fs', NkDIBitmapSave 0 3 example_bitmap [97] roomy_fs = Ret (NkErr_Ok, fs') ∧
    file_data fs' (Named [97]) = saved_bytes 0 3 example_bitmap ∧
    length (saved_bytes 0 3 example_bitmap) = (122 + 16)%nat ∧
    NkDIBitmapLoad one_place ones (replicate 14 7) (replicate 108 7) 3 [97] fs' =
      Ret (NkErr_Ok, Some (mkDIBitmap (mkSpec 40 2 (-2) 8 24 0 (lane_mask 2) 0 0 0) 4096 (px example_bitmap)), fs').
Proof.
  refine (bmp_save_load one_place ones (replicate 14 7) (replicate 108 7) 0 3 _ _ _ _ example_bitmap [97] roomy_fs 4096 _ _ _ _ _).
  - reflexivity.
  - reflexivity.
  - intros n Hn. apply length_replicate.
  - vm_compute. intuition congruence.
  - exact example_bitmap_ok.
  - discriminate.
  - reflexivity.
  - vm_compute. discriminate.
  - reflexivity.
Defined.
