(* ===== verification/Log.v ===== *)
(** * [src/Noriko/log.c]: logging devices

    The log context with its 64 device slots, and the devices' methods as a class:
    the lock is released around the calls into a device, so such a call may change
    the whole state (it may itself install devices, and another thread may run).
    The lock is a plain mutex: it is part of the state, taking it twice or releasing
    it when it is free is undefined.  Formatting is a parameter: an operation gets
    the formatted message and the time stamp as byte strings. *)
From S2P Require Import Prelude CStr Util NkOM.

(** ** Data *)
Definition NK_LOG_TSSIZE : Z := 32.
Definition NK_LOG_MSGSIZE : Z := 4096.
Definition NK_LOG_NDEV : Z := 64.

Definition NkLogLvl_None : Z := 0.
Definition NkLogLvl_Trace : Z := 1.
Definition NkLogLvl_Debug : Z := 2.
Definition NkLogLvl_Info : Z := 3.
Definition NkLogLvl_Warn : Z := 4.
Definition NkLogLvl_Error : Z := 5.
Definition NkLogLvl_Critical : Z := 6.
Definition NkLogLvl_Count : Z := 7.

Record LogContext := mkLogContext {
  m_mtxLock : bool;             (* held *)
  m_nOfDev : Z;
  m_glMinLevel : Z;
  m_glMaxLevel : Z;
  m_devArray : list Z
}.
(** The context of the debug configuration. *)
Definition gl_LogContext : LogContext :=
  mkLogContext false 0 NkLogLvl_None NkLogLvl_Critical (replicate (Z.to_nat NK_LOG_NDEV) NULL).

(** The context and what the devices see and change. *)
Record LogState (U : Type) := mkLogState { cxt : LogContext; user : U }.
Arguments mkLogState {U}. Arguments cxt {U}. Arguments user {U}.

(** A view handed to a device: the characters at the pointer and the size field. *)
Record MsgView := mkMsgView { mv_chars : list Z; mv_size : Z }.

(** [NkILogDevice], by interface pointer. *)
Class NkILogDevice (U : Type) := {
  dev_AddRef : Z → LogState U → outcome (LogState U);
  dev_Release : Z → LogState U → outcome (LogState U);
  OnInstall : Z → LogState U → outcome (NkErrorCode * LogState U);
  OnUninstall : Z → LogState U → outcome (NkErrorCode * LogState U);
  OnMessage : Z → Z → MsgView → MsgView → LogState U → outcome (LogState U)
}.

(** ** The lock *)
Definition set_cxt {U} (st : LogState U) (c : LogContext) : LogState U := mkLogState c (user st).
Definition set_user {U} (st : LogState U) (u : U) : LogState U := mkLogState (cxt st) u.
Definition with_lock (c : LogContext) (b : bool) : LogContext :=
  mkLogContext b (m_nOfDev c) (m_glMinLevel c) (m_glMaxLevel c) (m_devArray c).
Definition NK_LOCK {U} (st : LogState U) : outcome (LogState U) :=
  if m_mtxLock (cxt st) then Undef else Ret (set_cxt st (with_lock (cxt st) true)).
Definition NK_UNLOCK {U} (st : LogState U) : outcome (LogState U) :=
  if m_mtxLock (cxt st) then Ret (set_cxt st (with_lock (cxt st) false)) else Undef.

(** ** Searching the slots *)

(** The index of the first slot that holds [d]. *)
Fixpoint slot_of (d : Z) (arr : list Z) (i : Z) : option Z :=
  match arr with
  | [] => None
  | x :: arr => if x =? d then Some i else slot_of d arr (i + 1)
  end.
Definition LogFindDevice (devRef : Z) (c : LogContext) : outcome Z :=
  NK_ASSERT (negb (devRef =? NULL)) NkErr_InParameter;;
  Ret (default SIZE_MAX (slot_of devRef (m_devArray c) 0)).

Section log.
Context {U : Type} `{NkILogDevice U}.
Implicit Types st : LogState U.

(** ** Installing and removing devices *)

(** Putting a device into a slot and counting it. *)
Definition put_device (i d n : Z) (c : LogContext) : outcome LogContext :=
  arr ← buf_set (m_devArray c) i d;
  Ret (mkLogContext (m_mtxLock c) n (m_glMinLevel c) (m_glMaxLevel c) arr).

Definition NkLogInstallDevice (devRef : Z) (st : LogState U) : outcome (NkErrorCode * LogState U) :=
  NK_ASSERT (negb (devRef =? NULL)) NkErr_InOutParameter;;
  st ← NK_LOCK st;
  if m_nOfDev (cxt st) >=? NK_LOG_NDEV then st ← NK_UNLOCK st; Ret (NkErr_CapLimitExceeded, st)
  else
    match slot_of NULL (m_devArray (cxt st)) 0 with
    | None => st ← NK_UNLOCK st; Ret (NkErr_Ok, st)
    | Some i =>
        st ← NK_UNLOCK st;
        '(errorCode, st) ← OnInstall devRef st;
        st ← NK_LOCK st;
        if negb (isOk errorCode) then st ← NK_UNLOCK st; Ret (errorCode, st)
        else
          c ← put_device i devRef (m_nOfDev (cxt st)) (cxt st);
          st ← dev_AddRef devRef (set_cxt st c);
          let c := cxt st in
          let st := set_cxt st (mkLogContext (m_mtxLock c) (u64 (m_nOfDev c + 1)) (m_glMinLevel c) (m_glMaxLevel c) (m_devArray c)) in
          st ← NK_UNLOCK st;
          Ret (errorCode, st)
    end.

(** A device that is not installed: the function returns without [NK_UNLOCK]. *)
Definition NkLogUninstallDevice (devRef : Z) (st : LogState U) : outcome (NkErrorCode * LogState U) :=
  NK_ASSERT (negb (devRef =? NULL)) NkErr_InOutParameter;;
  st ← NK_LOCK st;
  devIndex ← LogFindDevice devRef (cxt st);
  if devIndex =? SIZE_MAX then Ret (NkErr_ItemNotFound, st)
  else
    st ← NK_UNLOCK st;
    '(_, st) ← OnUninstall devRef st;
    st ← dev_Release devRef st;
    st ← NK_LOCK st;
    c ← put_device devIndex NULL (u64 (m_nOfDev (cxt st) - 1)) (cxt st);
    st ← NK_UNLOCK (set_cxt st c);
    Ret (NkErr_Ok, st).

(** ** Messages *)

(** Slots [i], [i + 1], ... of the array, [n] of them; [j] devices were served.  The
    size of the message goes into both views. *)
Fixpoint message_loop (n : nat) (i j lvlId : Z) (ts msg : MsgView) (st : LogState U) : outcome (LogState U) :=
  match n with
  | O => Ret st
  | S n =>
      if j <? m_nOfDev (cxt st) then
        currDev ← buf_get (m_devArray (cxt st)) i;
        if currDev =? NULL then message_loop n (i + 1) j lvlId ts msg st
        else
          st ← NK_UNLOCK st;
          st ← OnMessage currDev lvlId ts msg st;
          st ← NK_LOCK st;
          message_loop n (i + 1) (j + 1) lvlId ts msg st
      else Ret st
  end.
(** [fmtd] is the whole formatted message, of which the buffer holds the part that fits,
    [stamp] the formatted time. *)
Definition NkLogMessage (lvlId : Z) (fmtd stamp : list Z) (st : LogState U) : outcome (LogState U) :=
  NK_ASSERT ((0 <=? lvlId) && (lvlId <? NkLogLvl_Count)) NkErr_InParameter;;
  let msgSize := Z.of_nat (length fmtd) in
  let msg := take (Z.to_nat (NK_LOG_MSGSIZE - 1)) fmtd in
  st ← NK_LOCK st;
  let isEnabled := NK_INRANGE_INCL lvlId (m_glMinLevel (cxt st)) (m_glMaxLevel (cxt st)) in
  st ← (if negb isEnabled || (m_nOfDev (cxt st) =? 0) then Ret st
        else message_loop (Z.to_nat NK_LOG_NDEV) 0 0 lvlId (mkMsgView stamp msgSize) (mkMsgView msg msgSize) st);
  NK_UNLOCK st.

(** ** Startup and shutdown *)
Definition Logging_Startup (gl_ConoutDevice : Z) (st : LogState U) : outcome (NkErrorCode * LogState U) :=
  NkLogInstallDevice gl_ConoutDevice (set_cxt st (with_lock (cxt st) false)).
(** The devices stay in their slots. *)
Fixpoint log_shutdown_loop (n : nat) (i j : Z) (st : LogState U) : outcome (LogState U) :=
  match n with
  | O => Ret st
  | S n =>
      if j <? m_nOfDev (cxt st) then
        currDev ← buf_get (m_devArray (cxt st)) i;
        if currDev =? NULL then log_shutdown_loop n (i + 1) j st
        else
          '(_, st) ← OnUninstall currDev st;
          st ← dev_Release currDev st;
          log_shutdown_loop n (i + 1) (j + 1) st
      else Ret st
  end.
Definition Logging_Shutdown (st : LogState U) : outcome (NkErrorCode * LogState U) :=
  st ← log_shutdown_loop (Z.to_nat NK_LOG_NDEV) 0 0 st;
  Ret (NkErr_Ok, st).
End log.

(** ** The console device *)
Record LogLevelStatic := mkLevel { m_lvlRep : list Z; m_vt100Seq : list Z; m_padding : Z }.
Definition vt (s : string) : list Z := 27 :: bytes_of s.
Definition NK_LOG_PADDING (x : string) : Z := Z.of_nat (String.length "FATAL") - Z.of_nat (String.length x).
Definition gl_LogLevelStaticInfo : list LogLevelStatic :=
  mkLevel [] (vt "[97m") 0 ::
  ((λ p, mkLevel (bytes_of p.1) (vt p.2) (NK_LOG_PADDING p.1)) <$>
   [("TRACE", "[90;40m"); ("DEBUG", "[90;40m"); ("INFO", "[92;40m"); ("WARN", "[33;40m");
    ("ERROR", "[91;40m"); ("FATAL", "[97;41m")])%string.
Definition gl_ResetFmtCmd : list Z := vt "[0m".

Definition NkILogDevice_IID : NkUuid := mk_uuid 0x3b93159f 0x704b 0x4b51 0xa19c31d505d2729a.
Definition ConoutDev_QueryInterface (iId : NkUuid) : NkErrorCode :=
  if NkUuidIsEqual iId NkIBase_IID || NkUuidIsEqual iId NkILogDevice_IID then NkErr_Ok else NkErr_InterfaceNotImpl.
(** What a message adds to the standard output; the strings are printed up to their NUL. *)
Definition ConoutDev_OnMessage (lvlId : Z) (ts msg : MsgView) : outcome (list Z) :=
  NK_ASSERT ((0 <=? lvlId) && (lvlId <? NkLogLvl_Count)) NkErr_InParameter;;
  lvlInfo ← buf_get gl_LogLevelStaticInfo lvlId;
  Ret ((if negb (Z.lxor lvlId NkLogLvl_None =? 0) then
          [91] ++ cut_nul (mv_chars ts) ++ bytes_of "] <" ++ m_vt100Seq lvlInfo ++ m_lvlRep lvlInfo ++ gl_ResetFmtCmd ++
          [62] ++ replicate (Z.to_nat (m_padding lvlInfo + 1)) 32
        else []) ++ cut_nul (mv_chars msg) ++ [10]).

(** ** Slots *)
Lemma slot_of_Some d arr i k :
  slot_of d arr i = Some k → ∃ pre post, arr = pre ++ d :: post ∧ d ∉ pre ∧ k = i + Z.of_nat (length pre).
Proof.
  revert i. induction arr as [|x arr IH]; intros i; simpl; [done|]. destruct (Z.eqb_spec x d) as [->|Hne].
  - intros [= <-]. exists [], arr. split_and!; [done|set_solver|simpl; lia].
  - intros (pre & post & -> & Hpre & ->)%IH. exists (x :: pre), post. split_and!; [done| |simpl; lia].
    rewrite not_elem_of_cons. naive_solver.
Qed.
Lemma slot_of_None d arr i : slot_of d arr i = None ↔ d ∉ arr.
Proof.
  revert i. induction arr as [|x arr IH]; intros i; simpl; [set_solver|]. rewrite not_elem_of_cons.
  destruct (Z.eqb_spec x d) as [->|Hne]; [naive_solver|]. rewrite IH. naive_solver.
Qed.
Lemma slot_of_first d pre post i : d ∉ pre → slot_of d (pre ++ d :: post) i = Some (i + Z.of_nat (length pre)).
Proof.
  revert i. induction pre as [|x pre IH]; intros i Hpre; simpl.
  - rewrite Z.eqb_refl. f_equal. lia.
  - rewrite not_elem_of_cons in Hpre. rewrite (proj2 (Z.eqb_neq x d)) by naive_solver. rewrite IH by naive_solver.
    f_equal. lia.
Qed.

(** The devices, in the order of their slots. *)
Definition devices (arr : list Z) : list Z := filter (λ d, d ≠ NULL) arr.
Definition installed (c : LogContext) : list Z := devices (m_devArray c).

Lemma devices_app a b : devices (a ++ b) = devices a ++ devices b.
Proof. apply list.filter_app. Qed.
Lemma devices_cons d a : devices (d :: a) = if decide (d = NULL) then devices a else d :: devices a.
Proof. unfold devices. rewrite list.filter_cons. destruct (decide (d = NULL)), (decide (d ≠ NULL)); done. Qed.
Lemma devices_full arr : NULL ∉ arr → devices arr = arr.
Proof.
  induction arr as [|d arr IH]; [done|]. rewrite not_elem_of_cons. intros [Hd Ha]. rewrite devices_cons.
  destruct (decide (d = NULL)); [done|]. by rewrite IH.
Qed.
Lemma devices_length arr : (length (devices arr) ≤ length arr)%nat.
Proof. apply list.length_filter. Qed.

(** Between two calls: the lock is free, the array has its size, the count is right, the
    levels are a range. *)
Definition log_ok (c : LogContext) : Prop :=
  m_mtxLock c = false ∧ length (m_devArray c) = 64%nat ∧ m_nOfDev c = Z.of_nat (length (installed c)) ∧
  m_glMinLevel c ≤ m_glMaxLevel c.
Definition set_devices (c : LogContext) (arr : list Z) : LogContext :=
  mkLogContext (m_mtxLock c) (Z.of_nat (length (devices arr))) (m_glMinLevel c) (m_glMaxLevel c) arr.

Lemma set_devices_ok c arr : log_ok c → length arr = 64%nat → log_ok (set_devices c arr).
Proof. by intros (Hl & _ & _ & Hmm) Ha. Qed.

(** ** Devices that do not install or remove devices

    While [OnInstall], [OnUninstall], [Release] (in a removal) and [OnMessage] run, the
    lock of the log is free (log.c 404, 437, 485), so a device may use the log there: read
    it, or log messages of its own.  The theorems are about devices whose methods return
    and leave the devices, the levels and the lock as they find them.  log.h asks for
    nothing of the kind, but a device that installs or removes a device from its own
    methods breaks the log ([install_reentrant]). *)
Class StableDevices (U : Type) `{NkILogDevice U} := {
  install_fn : Z → LogState U → NkErrorCode * U;
  uninstall_fn : Z → LogState U → U;
  addref_fn : Z → U → U;
  release_fn : Z → LogState U → U;
  msg_fn : Z → Z → MsgView → MsgView → LogState U → U;
  OnInstall_stable d st : log_ok (cxt st) → OnInstall d st = Ret ((install_fn d st).1, set_user st (install_fn d st).2);
  OnUninstall_stable d st : log_ok (cxt st) → ∃ e, OnUninstall d st = Ret (e, set_user st (uninstall_fn d st));
  AddRef_stable d st : dev_AddRef d st = Ret (set_user st (addref_fn d (user st)));
  Release_stable d st : log_ok (cxt st) → dev_Release d st = Ret (set_user st (release_fn d st));
  OnMessage_stable d l ts m st : log_ok (cxt st) → OnMessage d l ts m st = Ret (set_user st (msg_fn d l ts m st))
}.

Section stable.
Context {U : Type} `{StableDevices U}.
Implicit Types st : LogState U.

Lemma lock_free st : m_mtxLock (cxt st) = false → NK_LOCK st = Ret (set_cxt st (with_lock (cxt st) true)).
Proof. intros Hl. unfold NK_LOCK. by rewrite Hl. Qed.
Lemma unlock_held st : m_mtxLock (cxt st) = true → NK_UNLOCK st = Ret (set_cxt st (with_lock (cxt st) false)).
Proof. intros Hl. unfold NK_UNLOCK. by rewrite Hl. Qed.
Lemma unlock_locked st c : m_mtxLock (cxt st) = false → cxt st = c →
  NK_UNLOCK (set_cxt st (with_lock c true)) = Ret st.
Proof. intros Hl <-. destruct st as [[l n a b arr] u]. simpl in *. by rewrite Hl. Qed.

Lemma install_full d st :
  log_ok (cxt st) → d ≠ NULL → length (installed (cxt st)) = 64%nat →
  NkLogInstallDevice d st = Ret (NkErr_CapLimitExceeded, st).
Proof.
  intros (Hl & Ha & Hn & _) Hd Hfull. unfold NkLogInstallDevice. rewrite (proj2 (Z.eqb_neq d NULL)) by done. cbn [negb NK_ASSERT].
  rewrite bind_Ret, lock_free, bind_Ret by done. cbn [cxt set_cxt with_lock m_nOfDev].
  rewrite Hn, Hfull. change (Z.of_nat 64 >=? NK_LOG_NDEV) with true. cbv iota. by rewrite unlock_locked.
Qed.

(** The first free slot is used; a device that refuses is not installed. *)
Lemma install_free d st :
  log_ok (cxt st) → d ≠ NULL → (length (installed (cxt st)) < 64)%nat →
  let '(e, u) := install_fn d st in
  ∃ pre post, m_devArray (cxt st) = pre ++ NULL :: post ∧ NULL ∉ pre ∧
    NkLogInstallDevice d st =
      Ret (e, if isOk e then mkLogState (set_devices (cxt st) (pre ++ d :: post)) (addref_fn d u) else set_user st u).
Proof.
  intros Hok Hd Hroom. pose proof Hok as (Hl & Ha & Hn & _). destruct (install_fn d st) as [e u] eqn:Ei.
  destruct (slot_of NULL (m_devArray (cxt st)) 0) as [k|] eqn:Es.
  2: { apply slot_of_None in Es. unfold installed in Hroom. rewrite devices_full in Hroom by done. lia. }
  pose proof Es as Es'. apply slot_of_Some in Es' as (pre & post & Earr & Hpre & ->). exists pre, post. split_and!; [done|done|].
  unfold NkLogInstallDevice. rewrite (proj2 (Z.eqb_neq d NULL)) by done. cbn [negb NK_ASSERT].
  rewrite bind_Ret, lock_free, bind_Ret by done. cbn [cxt set_cxt with_lock m_nOfDev m_devArray].
  rewrite Hn. destruct (Z.geb_spec (Z.of_nat (length (installed (cxt st)))) NK_LOG_NDEV) as [Hbad|_]; [unfold NK_LOG_NDEV in Hbad; lia|].
  rewrite Es, unlock_locked, bind_Ret, OnInstall_stable, Ei, bind_Ret by done. cbn [fst snd].
  rewrite lock_free, bind_Ret by done. destruct (isOk e); cbn [negb].
  2: { change (set_cxt (set_user st u) ?c) with (set_cxt (set_user st u) c). by rewrite unlock_locked. }
  unfold put_device. cbn [cxt set_cxt with_lock m_devArray m_nOfDev set_user m_mtxLock m_glMinLevel m_glMaxLevel].
  rewrite buf_set_in by (rewrite Earr, length_app; cbn [length]; lia). rewrite !bind_Ret, AddRef_stable, bind_Ret.
  rewrite unlock_held by done. rewrite bind_Ret. do 2 f_equal.
  cbn [cxt set_cxt with_lock m_devArray m_nOfDev set_user user m_mtxLock m_glMinLevel m_glMaxLevel].
  rewrite Earr. replace (Z.to_nat (0 + Z.of_nat (length pre))) with (length pre) by lia. rewrite insert_middle.
  unfold set_cxt, set_devices. cbn [user]. f_equal. rewrite Hl. f_equal.
  rewrite Hn. unfold installed in *. rewrite Earr, !devices_app, !devices_cons in *.
  rewrite decide_True in * by done. rewrite decide_False by done. rewrite !length_app in *. cbn [length].
  unfold with_lock. cbn [m_nOfDev m_glMinLevel m_glMaxLevel m_devArray]. f_equal. rewrite wrapN_small by (unfold is_u; lia). lia.
Qed.

Lemma uninstall_present d st :
  log_ok (cxt st) → d ≠ NULL → d ∈ m_devArray (cxt st) →
  ∃ pre post, m_devArray (cxt st) = pre ++ d :: post ∧ d ∉ pre ∧
    NkLogUninstallDevice d st =
      Ret (NkErr_Ok, mkLogState (set_devices (cxt st) (pre ++ NULL :: post)) (release_fn d (set_user st (uninstall_fn d st)))).
Proof.
  intros Hok Hd Hin. pose proof Hok as (Hl & Ha & Hn & _).
  destruct (slot_of d (m_devArray (cxt st)) 0) as [k|] eqn:Es; [|by apply slot_of_None in Es].
  pose proof Es as Es'. apply slot_of_Some in Es' as (pre & post & Earr & Hpre & ->). exists pre, post. split_and!; [done|done|].
  assert (Hlen : (length pre < 64)%nat) by (rewrite <-Ha, Earr, length_app; cbn [length]; lia).
  unfold NkLogUninstallDevice, LogFindDevice. rewrite (proj2 (Z.eqb_neq d NULL)) by done. cbn [negb NK_ASSERT].
  rewrite bind_Ret, lock_free, !bind_Ret by done. cbn [cxt set_cxt with_lock m_devArray]. rewrite Es. cbn [default from_option id].
  rewrite (proj2 (Z.eqb_neq (0 + Z.of_nat (length pre)) SIZE_MAX)) by (unfold SIZE_MAX; lia).
  rewrite unlock_locked, bind_Ret by done. destruct (OnUninstall_stable d st Hok) as [e ->].
  rewrite bind_Ret, Release_stable, bind_Ret, lock_free, bind_Ret by done. unfold put_device.
  cbn [cxt set_cxt with_lock m_devArray m_nOfDev set_user user m_mtxLock m_glMinLevel m_glMaxLevel].
  rewrite buf_set_in by (rewrite Ha; lia). rewrite !bind_Ret, unlock_held, bind_Ret by done. do 2 f_equal.
  unfold set_cxt, set_devices. cbn [cxt user with_lock m_devArray m_nOfDev m_mtxLock m_glMinLevel m_glMaxLevel].
  rewrite Earr. replace (Z.to_nat (0 + Z.of_nat (length pre))) with (length pre) by lia. rewrite insert_middle.
  f_equal. rewrite Hl. f_equal. pose proof (devices_length (m_devArray (cxt st))) as Hdl. rewrite Ha in Hdl.
  rewrite Hn. unfold installed. rewrite Earr, !devices_app, !devices_cons in *.
  rewrite (decide_True (P := NULL = NULL)) by done. rewrite (decide_False (P := d = NULL)) in * by done.
  unfold with_lock. cbn [m_nOfDev m_glMinLevel m_glMaxLevel m_devArray]. f_equal.
  rewrite !length_app in *. cbn [length] in *. rewrite wrapN_small by (unfold is_u; lia). lia.
Qed.

(** ** Delivery *)
Definition deliver (lvlId : Z) (ts msg : MsgView) (ds : list Z) (st : LogState U) : LogState U :=
  foldl (λ st d, set_user st (msg_fn d lvlId ts msg st)) st ds.
Lemma deliver_cxt lvlId ts msg ds st : cxt (deliver lvlId ts msg ds st) = cxt st.
Proof. revert st. induction ds as [|d ds IH]; intros st; [done|]. apply (IH (set_user _ _)). Qed.

(** [st] is the state with the lock free, as the devices see it. *)
Lemma message_loop_spec lvlId ts msg pre rest st :
  log_ok (cxt st) → m_devArray (cxt st) = pre ++ rest →
  message_loop (length rest) (Z.of_nat (length pre)) (Z.of_nat (length (devices pre))) lvlId ts msg (set_cxt st (with_lock (cxt st) true)) =
    Ret (let st' := deliver lvlId ts msg (devices rest) st in set_cxt st' (with_lock (cxt st) true)).
Proof.
  revert pre st. induction rest as [|d rest IH]; intros pre st Hok Harr; cbn [length message_loop].
  { done. }
  pose proof Hok as (Hl & Ha & Hn & _). unfold installed in Hn. rewrite Harr in Hn.
  cbn [cxt set_cxt with_lock m_nOfDev m_devArray].
  rewrite Hn, devices_app, length_app. destruct (Z.ltb_spec (Z.of_nat (length (devices pre)))
    (Z.of_nat (length (devices pre) + length (devices (d :: rest))))) as [Hlt|Hge].
  2: { destruct (devices (d :: rest)) eqn:E; [|cbn [length] in Hge; lia]. done. }
  rewrite (buf_get_lookup _ _ d), bind_Ret by (rewrite ?Harr, ?Nat2Z.id; first [lia | by apply list_lookup_middle]).
  assert (Hpre : Z.of_nat (length (pre ++ [d])) = Z.of_nat (length pre) + 1) by (rewrite length_app; cbn [length]; lia).
  rewrite devices_cons. specialize (IH (pre ++ [d])). rewrite <-(assoc_L (++)), (devices_app pre [d]), Hpre in IH.
  cbn [app] in IH. destruct (Z.eqb_spec d NULL) as [->|Hd].
  - rewrite decide_True by done. change (devices [NULL]) with (@nil Z) in IH. rewrite app_nil_r in IH. by apply IH.
  - rewrite decide_False by done. rewrite unlock_locked, bind_Ret, OnMessage_stable, bind_Ret, lock_free, bind_Ret by done.
    rewrite (devices_cons d []), decide_False, length_app in IH by done. cbn [app] in IH.
    change (length (d :: devices [])) with 1%nat in IH. rewrite Nat2Z.inj_add in IH.
    change (Z.of_nat 1) with 1 in IH. by apply (IH (set_user st (msg_fn d lvlId ts msg st))).
Qed.

Lemma message_spec lvlId fmtd stamp st :
  log_ok (cxt st) → 0 ≤ lvlId < NkLogLvl_Count →
  NkLogMessage lvlId fmtd stamp st =
    Ret (if bool_decide (m_glMinLevel (cxt st) ≤ lvlId ≤ m_glMaxLevel (cxt st))
         then deliver lvlId (mkMsgView stamp (Z.of_nat (length fmtd)))
                (mkMsgView (take (Z.to_nat (NK_LOG_MSGSIZE - 1)) fmtd) (Z.of_nat (length fmtd))) (installed (cxt st)) st
         else st).
Proof.
  intros Hok Hlvl. pose proof Hok as (Hl & Ha & Hn & Hmm). unfold NkLogMessage.
  rewrite (proj2 (Z.leb_le 0 lvlId)), (proj2 (Z.ltb_lt lvlId NkLogLvl_Count)) by lia. cbn [andb NK_ASSERT].
  rewrite bind_Ret, lock_free, bind_Ret by done. cbn [cxt set_cxt with_lock m_glMinLevel m_glMaxLevel m_nOfDev].
  rewrite NK_INRANGE_INCL_spec by done.
  case_bool_decide; cbn [negb orb]; [|by rewrite bind_Ret, unlock_locked].
  destruct (Z.eqb_spec (m_nOfDev (cxt st)) 0) as [E|_].
  - rewrite bind_Ret, unlock_locked by done. f_equal.
    rewrite Hn in E. destruct (installed (cxt st)); [by destruct st|cbn [length] in E; lia].
  - change (Z.to_nat NK_LOG_NDEV) with 64%nat. rewrite <-Ha.
    rewrite (message_loop_spec _ _ _ [] (m_devArray (cxt st)) st), bind_Ret by done. cbv zeta.
    by rewrite unlock_locked by (rewrite deliver_cxt; done).
Qed.

Lemma message_user lvlId fmtd stamp st :
  log_ok (cxt st) → 0 ≤ lvlId < NkLogLvl_Count → ∃ u, NkLogMessage lvlId fmtd stamp st = Ret (set_user st u).
Proof.
  intros Hok Hlvl. rewrite message_spec by done. case_bool_decide; [|exists (user st); by destruct st].
  match goal with |- context [Ret ?s] => exists (user s); pose proof (deliver_cxt lvlId) as Hc; f_equal;
    destruct s as [c u] eqn:E end.
  pose proof (f_equal cxt E) as Hcx. rewrite Hc in Hcx. cbn [cxt user] in *. by subst c.
Qed.


(** ** All sequences of operations *)
Inductive LogOp :=
  | OpInstall (d : Z) | OpUninstall (d : Z) | OpMessage (lvlId : Z) (fmtd stamp : list Z).
Definition log_step (op : LogOp) st : outcome (NkErrorCode * LogState U) :=
  match op with
  | OpInstall d => NkLogInstallDevice d st
  | OpUninstall d => NkLogUninstallDevice d st
  | OpMessage lvlId fmtd stamp => st ← NkLogMessage lvlId fmtd stamp st; Ret (NkErr_Ok, st)
  end.
(** Devices are objects, a device that is uninstalled was installed, levels are levels. *)
Definition op_legal (op : LogOp) st : Prop :=
  match op with
  | OpInstall d => d ≠ NULL
  | OpUninstall d => d ≠ NULL ∧ d ∈ installed (cxt st)
  | OpMessage lvlId _ _ => 0 ≤ lvlId < NkLogLvl_Count
  end.
Inductive log_reach (u : U) : LogState U → Prop :=
  | log_init : log_reach u (mkLogState gl_LogContext u)
  | log_next op st e st' :
      log_reach u st → op_legal op st → log_step op st = Ret (e, st') → log_reach u st'.

(** What an operation does to the installed devices. *)
Definition op_devices (op : LogOp) (e : NkErrorCode) (ds ds' : list Z) : Prop :=
  match op with
  | OpInstall d => if isOk e then ds' ≡ₚ d :: ds else ds' = ds
  | OpUninstall d => ds ≡ₚ d :: ds'
  | OpMessage _ _ _ => ds' = ds
  end.

Lemma devices_middle d pre post : d ≠ NULL → devices (pre ++ d :: post) ≡ₚ d :: devices (pre ++ NULL :: post).
Proof.
  intros Hd. rewrite !devices_app, !devices_cons, decide_False, decide_True by done. by rewrite Permutation_middle.
Qed.

Lemma log_step_spec op st :
  log_ok (cxt st) → op_legal op st →
  ∃ e st', log_step op st = Ret (e, st') ∧ log_ok (cxt st') ∧
    op_devices op e (installed (cxt st)) (installed (cxt st')).
Proof.
  intros Hok Hop. destruct op as [d|d|lvlId fmtd stamp]; cbn [op_legal log_step] in *.
  - pose proof (devices_length (m_devArray (cxt st))) as Hdl. pose proof Hok as (Hl & Ha & _).
    rewrite Ha in Hdl. destruct (decide (length (installed (cxt st)) = 64%nat)) as [Hf|Hf].
    { do 2 eexists. split; [by apply install_full|]. done. }
    pose proof (install_free d st Hok Hop) as Hi. unfold installed in *. specialize (Hi ltac:(lia)).
    destruct (install_fn d st) as [e u]. destruct Hi as (pre & post & Earr & Hpre & ->).
    do 2 eexists. split; [done|]. cbn [op_devices]. destruct (isOk e); [|done]. split.
    + apply set_devices_ok; [done|]. rewrite Earr, length_app in Ha. rewrite length_app. done.
    + cbn. rewrite Earr. by apply devices_middle.
  - destruct Hop as [Hd Hin]. unfold installed, devices in Hin. apply list_elem_of_filter in Hin as [_ Hin].
    pose proof Hok as (Hl & Ha & _).
    destruct (uninstall_present d st Hok Hd Hin) as (pre & post & Earr & Hpre & ->).
    do 2 eexists. split; [done|]. split.
    + apply set_devices_ok; [done|]. rewrite Earr, length_app in Ha. rewrite length_app. done.
    + cbn. unfold installed. rewrite Earr. by apply devices_middle.
  - rewrite message_spec, bind_Ret by done. do 2 eexists. split; [done|].
    case_bool_decide; rewrite ?deliver_cxt; done.
Qed.

(** C22: with devices whose methods return and leave the devices, the levels and the lock of the log as
    they find them, whatever sequence of installations, removals of installed devices and messages is
    run, the number of devices is the number of occupied slots, at most 64, and the lock is free between
    the calls; every further such call returns, and changes the set of devices by exactly the one it
    names.  (A device that installs another from its [OnInstall] breaks the count, [install_reentrant];
    removing a device that is not installed keeps the lock, [log_uninstall_missing].) *)
Theorem log_reachable u st :
  log_reach u st →
  log_ok (cxt st) ∧ (length (installed (cxt st)) ≤ 64)%nat ∧
  ∀ op, op_legal op st → ∃ e st', log_step op st = Ret (e, st') ∧
    op_devices op e (installed (cxt st)) (installed (cxt st')).
Proof.
  intros Hreach.
  assert (Hok : log_ok (cxt st)).
  { induction Hreach as [|op st e st' _ IH Hop Hs]; [done|].
    destruct (log_step_spec op st IH Hop) as (e2 & st2 & E & ? & _).
    rewrite E in Hs. by injection Hs as <- <-. }
  split; [done|]. split.
  - destruct Hok as (_ & <- & _). apply devices_length.
  - intros op Hop. destruct (log_step_spec op st Hok Hop) as (e & st' & ? & _ & ?). eauto.
Qed.
End stable.

(** ** A device that is not installed *)
Section missing.
Context {U : Type} `{NkILogDevice U}.
Implicit Types st : LogState U.

Lemma lock_held st : m_mtxLock (cxt st) = true → NK_LOCK st = Undef.
Proof. intros Hl. unfold NK_LOCK. by rewrite Hl. Qed.

Lemma uninstall_missing d st :
  d ≠ NULL → m_mtxLock (cxt st) = false → d ∉ m_devArray (cxt st) →
  NkLogUninstallDevice d st = Ret (NkErr_ItemNotFound, set_cxt st (with_lock (cxt st) true)).
Proof.
  intros Hd Hl Hin. unfold NkLogUninstallDevice, LogFindDevice. rewrite (proj2 (Z.eqb_neq d NULL)) by done.
  cbn [negb NK_ASSERT]. rewrite bind_Ret. unfold NK_LOCK. rewrite Hl, !bind_Ret. cbn [cxt set_cxt with_lock m_devArray].
  by rewrite (proj2 (slot_of_None d (m_devArray (cxt st)) 0) Hin).
Qed.

(** Removing a device that is not installed answers [NkErr_ItemNotFound], as documented, and leaves
    the lock of the log taken: no installation, removal or message after it is defined. *)
Theorem log_uninstall_missing d st :
  d ≠ NULL → m_mtxLock (cxt st) = false → d ∉ m_devArray (cxt st) →
  ∃ st', NkLogUninstallDevice d st = Ret (NkErr_ItemNotFound, st') ∧
    m_devArray (cxt st') = m_devArray (cxt st) ∧
    (∀ d', d' ≠ NULL → NkLogInstallDevice d' st' = Undef ∧ NkLogUninstallDevice d' st' = Undef) ∧
    ∀ lvlId fmtd stamp, 0 ≤ lvlId < NkLogLvl_Count → NkLogMessage lvlId fmtd stamp st' = Undef.
Proof.
  intros Hd Hl Hin. eexists. split; [by apply uninstall_missing|]. split; [done|]. split.
  - intros d' Hd'. unfold NkLogInstallDevice, NkLogUninstallDevice.
    rewrite !(proj2 (Z.eqb_neq d' NULL)) by done. by rewrite lock_held.
  - intros lvlId fmtd stamp Hlvl. unfold NkLogMessage.
    rewrite (proj2 (Z.leb_le 0 lvlId)), (proj2 (Z.ltb_lt lvlId NkLogLvl_Count)) by lia.
    cbn [andb NK_ASSERT]. by rewrite bind_Ret, lock_held.
Qed.
End missing.

(** ** Concrete devices *)

(** Devices that write down the messages they get; device 13 refuses to be installed. *)
Definition Mailbox : Type := list (Z * list Z).
#[export] Instance mailbox_device : NkILogDevice Mailbox := {|
  dev_AddRef d st := Ret (set_user st (user st));
  dev_Release d st := Ret (set_user st (user st));
  OnInstall d st := Ret (if d =? 13 then NkErr_NoOperation else NkErr_Ok, set_user st (user st));
  OnUninstall d st := Ret (NkErr_Ok, set_user st (user st));
  OnMessage d _ _ m st := Ret (set_user st (user st ++ [(d, mv_chars m)]))
|}.
#[export] Instance mailbox_stable : StableDevices Mailbox := {|
  install_fn d st := (if d =? 13 then NkErr_NoOperation else NkErr_Ok, user st);
  uninstall_fn _ st := user st;
  addref_fn _ u := u;
  release_fn _ st := user st;
  msg_fn d _ _ m st := user st ++ [(d, mv_chars m)];
  OnInstall_stable _ _ _ := eq_refl;
  OnUninstall_stable _ _ _ := ex_intro _ NkErr_Ok eq_refl;
  AddRef_stable _ _ := eq_refl;
  Release_stable _ _ _ := eq_refl;
  OnMessage_stable _ _ _ _ _ _ := eq_refl
|}.

(** Devices that log a message when they are removed: it reaches all installed ones. *)
Definition removal_note (st : LogState Mailbox) : outcome (LogState Mailbox) := NkLogMessage NkLogLvl_Info (bytes_of "bye") [] st.
Definition chatty_device : NkILogDevice Mailbox := {|
  dev_AddRef := dev_AddRef;
  dev_Release := dev_Release;
  OnInstall := OnInstall;
  OnUninstall d st := st ← removal_note st; Ret (NkErr_Ok, st);
  OnMessage := OnMessage
|}.
Definition noted (st : LogState Mailbox) : Mailbox := match removal_note st with Ret st' => user st' | _ => [] end.
Lemma noted_spec st : log_ok (cxt st) → removal_note st = Ret (set_user st (noted st)).
Proof.
  intros Hok. unfold noted, removal_note.
  destruct (message_user NkLogLvl_Info (bytes_of "bye") [] st Hok) as [u ->]; [done|]. done.
Qed.
Lemma chatty_uninstall d st :
  log_ok (cxt st) → ∃ e, @OnUninstall _ chatty_device d st = Ret (e, set_user st (noted st)).
Proof. intros Hok. exists NkErr_Ok. unfold OnUninstall, chatty_device. by rewrite (noted_spec st Hok). Qed.
Definition chatty_stable : @StableDevices Mailbox chatty_device :=
  @Build_StableDevices Mailbox chatty_device install_fn (λ _ st, noted st) addref_fn release_fn msg_fn
    (λ _ _ _, eq_refl) chatty_uninstall (λ _ _, eq_refl) (λ _ _ _, eq_refl) (λ _ _ _ _ _ _, eq_refl).

(** Devices 5 and 7 are installed, 13 refused. *)
Definition two_devices : LogState Mailbox :=
  mkLogState (set_devices gl_LogContext (5 :: 7 :: replicate 62 NULL)) [].
Lemma two_devices_reach : @log_reach Mailbox chatty_device [] two_devices.
Proof.
  eapply (log_next _ (OpInstall 13) two_devices NkErr_NoOperation); [|done|by vm_compute].
  eapply (log_next _ (OpInstall 7) _ NkErr_Ok); [|done|].
  - eapply (log_next _ (OpInstall 5) _ NkErr_Ok); [apply log_init|done|]. by vm_compute.
  - by vm_compute.
Qed.

(** The device that is removed logs: both hear it, and then one is left. *)
Lemma log_reachable_witness :
  @log_reach Mailbox chatty_device [] two_devices ∧
  ∃ e st', @log_step Mailbox chatty_device (OpUninstall 5) two_devices = Ret (e, st') ∧
    installed (cxt two_devices) ≡ₚ 5 :: installed (cxt st') ∧ user st' = [(5, bytes_of "bye"); (7, bytes_of "bye")].
Proof.
  split; [apply two_devices_reach|].
  destruct (@log_reachable Mailbox chatty_device chatty_stable [] two_devices two_devices_reach) as (_ & _ & H).
  destruct (H (OpUninstall 5)) as (e & st' & Hs & ?); [split; [done|apply list_elem_of_here]|]. exists e, st'.
  split_and!; [done|done|]. vm_compute in Hs. by injection Hs as <- <-.
Defined.
Lemma log_uninstall_missing_witness :
  ∃ st', NkLogUninstallDevice 9 two_devices = Ret (NkErr_ItemNotFound, st') ∧ NkLogInstallDevice 9 st' = Undef.
Proof.
  destruct (log_uninstall_missing 9 two_devices) as (st' & E & _ & H & _).
  - done.
  - done.
  - apply (slot_of_None _ _ 0). by vm_compute.
  - exists st'. split; [exact E|]. by apply H.
Defined.

(** A device whose [OnInstall] installs device 9 (the lock is free there): both are counted,
    but the outer installation takes the slot the inner one was given. *)
Definition nested_device : NkILogDevice Mailbox := {|
  dev_AddRef d st := Ret st;
  dev_Release d st := Ret st;
  OnInstall d st := if d =? 8 then NkLogInstallDevice 9 st else Ret (NkErr_Ok, st);
  OnUninstall d st := Ret (NkErr_Ok, st);
  OnMessage d _ _ m st := Ret (set_user st (user st ++ [(d, mv_chars m)]))
|}.
Example install_reentrant :
  match @NkLogInstallDevice Mailbox nested_device 8 (mkLogState gl_LogContext []) with
  | Ret (e, st) => isOk e = true ∧ m_nOfDev (cxt st) = 2 ∧ installed (cxt st) = [8]
  | _ => False
  end.
Proof. by vm_compute. Qed.

(** Every level name and its padding fill the same six columns: the texts are aligned. *)
Lemma console_aligned lvlId info :
  0 < lvlId < NkLogLvl_Count → buf_get gl_LogLevelStaticInfo lvlId = Ret info →
  Z.of_nat (length (m_lvlRep info)) + (m_padding info + 1) = 6.
Proof.
  intros Hl. assert (lvlId = 1 ∨ lvlId = 2 ∨ lvlId = 3 ∨ lvlId = 4 ∨ lvlId = 5 ∨ lvlId = 6)
    as [->|[->|[->|[->|[->| ->]]]]] by (unfold NkLogLvl_Count in Hl; lia); intros E; vm_compute in E; by injection E as <-.
Qed.
