(* ===== verification/Error.v ===== *)
(** * [src/Noriko/error.c]: error codes, their texts, and how the process ends after a failed assertion

    The two tables, the look-ups with their [int] arithmetic, the message of a fatal
    error and [NkFatalTerminate], which logs the message (through [Log]), shows it and
    ends the process, if the log lets it.  A text is the list of its bytes; a view is the text its pointer
    shows together with the size it claims ([MsgView]). *)
From S2P Require Import Prelude CStr Log.

(** ** The codes as numbers *)
Definition all_error_codes : list NkErrorCode := [
  NkErr_Ok; NkErr_Unknown; NkErr_NoOperation; NkErr_ManuallyAborted; NkErr_AccessDenied; NkErr_NotImplemented;
  NkErr_InParameter; NkErr_OutParameter; NkErr_InOutParameter; NkErr_InptrParameter; NkErr_OutptrParameter;
  NkErr_CallbackParameter; NkErr_MemoryAlignment; NkErr_MemoryAllocation; NkErr_MemoryReallocation;
  NkErr_ItemNotFound; NkErr_ArrayOutOfBounds; NkErr_ArrayElemOutOfBounds; NkErr_InvalidRange;
  NkErr_UnsignedWrapAround; NkErr_CapLimitExceeded; NkErr_ComponentState; NkErr_ObjectType; NkErr_ObjectState;
  NkErr_SynchInit; NkErr_UnexpectedCharacter; NkErr_InvalidIdentifier; NkErr_ClosingTokenNotFound;
  NkErr_InterfacePureVirtual; NkErr_InterfaceNotImpl; NkErr_UnknownClass; NkErr_AggregationNotSupp;
  NkErr_ClassAlreadyReg; NkErr_ClassNotReg; NkErr_RegWindowClass; NkErr_CreateNativeWindow;
  NkErr_WndModeNotSupported; NkErr_AdjustClientArea; NkErr_CreateMemDC; NkErr_CreateCompBitmap;
  NkErr_CreateBrush; NkErr_OpenFile; NkErr_ErrorDuringDiskIO; NkErr_UnsupportedFileFormat;
  NkErr_InvImageDimensions; NkErr_InvBitDepth; NkErr_CreateDDBFromDIB; NkErr_CopyDDBPixels;
  NkErr_QueryStdLocation; NkErr_DatabaseOpen; NkErr_SetDatabaseProps; NkErr_DatabaseClose;
  NkErr_CompileSqlStatement; NkErr_DatabaseApplySchema; NkErr_InvalidStreamType; NkErr_CreateDirectory;
  NkErr_FindFileOrDir; NkErr_InvStreamMode; NkErr_InvSeekOrigin; NkErr_StreamSeek; NkErr_StreamFlush ].
Definition NkErr_Count : Z := 61.
Definition code_number (e : NkErrorCode) : Z :=
  match list_find (e =.) all_error_codes with Some (i, _) => Z.of_nat i | None => NkErr_Count end.

(** ** The tables *)
Definition NK_ERROR_MSGBUF : Z := 4096.
Definition gl_c_ErrorCodeStringTable : list string := [
  "NkErr_Ok"; "NkErr_Unknown"; "NkErr_NoOperation"; "NkErr_ManuallyAborted"; "NkErr_AccessDenied";
  "NkErr_NotImplemented"; "NkErr_InParameter"; "NkErr_OutParameter"; "NkErr_InOutParameter";
  "NkErr_InptrParameter"; "NkErr_OutptrParameter"; "NkErr_CallbackParameter"; "NkErr_MemoryAlignment";
  "NkErr_MemoryAllocation"; "NkErr_MemoryReallocation"; "NkErr_ItemNotFound"; "NkErr_ArrayOutOfBounds";
  "NkErr_ArrayElemOutOfBounds"; "NkErr_InvalidRange"; "NkErr_UnsignedWrapAround"; "NkErr_CapLimitExceeded";
  "NkErr_ComponentState"; "NkErr_ObjectType"; "NkErr_ObjectState"; "NkErr_SynchInit";
  "NkErr_UnexpectedCharacter"; "NkErr_InvalidIdentifier"; "NkErr_ClosingTokenNotFound";
  "NkErr_InterfacePureVirtual"; "NkErr_InterfaceNotImpl"; "NkErr_UnknownClass"; "NkErr_AggregationNotSupp";
  "NkErr_ClassAlreadyReg"; "NkErr_ClassNotReg"; "NkErr_RegWindowClass"; "NkErr_CreateNativeWindow";
  "NkErr_WndModeNotSupported"; "NkErr_AdjustClientArea"; "NkErr_CreateMemDC"; "NkErr_CreateCompBitmap";
  "NkErr_CreateBrush"; "NkErr_OpenFile"; "NkErr_ErrorDuringDiskIO"; "NkErr_UnsupportedFileFormat";
  "NkErr_InvImageDimensions"; "NkErr_InvBitDepth"; "NkErr_CreateDDBFromDIB"; "NkErr_CopyDDBPixels";
  "NkErr_QueryStdLocation"; "NkErr_DatabaseOpen"; "NkErr_SetDatabaseProps"; "NkErr_DatabaseClose";
  "NkErr_CompileSqlStatement"; "NkErr_DatabaseApplySchema"; "NkErr_InvalidStreamType"; "NkErr_CreateDirectory";
  "NkErr_FindFileOrDir"; "NkErr_InvStreamMode"; "NkErr_InvSeekOrigin"; "NkErr_StreamSeek"; "NkErr_StreamFlush" ]%string.
Definition gl_c_ErrorCodeDescriptionTable : list string := [
  "not an error";
  "unknown error code or totally unexpected error condition";
  "no operation was carried out";
  "operation was manually aborted by user or callback";
  "cannot access resource";
  "requested feature is not (yet) implemented";
  "at least one erroneous input (read-only) parameter (e.g., int, char *)";
  "at least one erroneous output (write-only) parameter (e.g., void *)";
  "at least one erroneous input/output parameter (e.g., void *)";
  "at least one erroneous input pointer parameter (e.g., void **)";
  "at least one erroneous output pointer parameter (e.g., void **)";
  "invalid callback function pointer passed (must be non-NULL)";
  "invalid memory alignment (must be a power of two)";
  "could not allocate memory block (likely out of memory or too much fragmentation)";
  "could not reallocate memory block (likely out of memory or too much fragmentation)";
  "could not find requested item";
  "array index out of (buffer) bounds";
  "array index out of (element) bounds";
  "erroneous array interval [x, y]";
  "operation caused unsigned integer wrap-around (values passed too big?)";
  "exceeded container capacity limit";
  "invalid component state (not yet initialized/already uninitialized?)";
  "invalid internal object type";
  "invalid object state (likely due to function pre-condition being not satisfied)";
  "error while initializing synchronization object (mtx, ...)";
  "unexpected character during string parsing";
  "invalid/empty identifier during string parsing";
  "closing token for compound literal not found";
  "interface is marked as 'pure-virtual' and cannot be instantiated";
  "current class does not implement the specified interface";
  "class is unknown to the current class factory instance";
  "class does not support NkOM aggregation";
  "class is already registered in the global NkOM runtime";
  "class is not registered in the global NkOM runtime";
  "could not register window class";
  "could not create native window";
  "window mode not supported on the current platform";
  "could not adjust client area size to fit requested viewport";
  "could not create memory device context";
  "failed to create memory bitmap compatible with given device context";
  "failed to create paint brush";
  "could not open file stream";
  "error during disk I/O operation";
  "unsupported file format";
  "invalid image dimensions (zero or negative?)";
  "invalid bit depth (not a power of 2 or unsupported?)";
  "could not copy DIB pixels into DDB pixel buffer (pixel format invalid?)";
  "could not copy pixels from DDB to DIB (pixel format/dimensions invalid?)";
  "failed to retrieve standard folder location";
  "could not open database connection";
  "could not set some database connection properties";
  "could not close database connection";
  "could not successfully compile SQL statement (syntax errors? out of memory? invalid handle?)";
  "failed to apply database schema (invalid syntax/schema conflicts?)";
  "invalid stream type ID";
  "could not create directory (missing permissions? invalid path encoding?";
  "could not find file or directory (invalid path?)";
  "inappropriate stream I/O mode for the requested operation";
  "invalid seek origin identifier";
  "could not seek the given position";
  "could not flush stream" ]%string.

(** ** The look-ups *)
Section lookup.
(** [NK_INRANGE_INCL(code, NkErr_Ok, __NkErr_Count__ - 1)]: the distances and their
    product are [int]s. *)
Definition code_in_range (code : Z) : outcome bool :=
  hi ← int_op (NkErr_Count - 1 - code);
  lo ← int_op (code - 0);
  p ← int_op (hi * lo);
  Ret (p >=? 0).
(** The function calls itself once for a code out of range; [n] bounds the nesting. *)
Fixpoint error_entry (n : nat) (table : list string) (code : Z) : outcome string :=
  match n with
  | O => OutOfFuel
  | S n =>
      ok ← code_in_range code;
      if negb ok then error_entry n table (code_number NkErr_Unknown) else buf_get table code
  end.
Definition NkGetErrorCodeStr : Z → outcome string := error_entry 2 gl_c_ErrorCodeStringTable.
Definition NkGetErrorCodeDesc : Z → outcome string := error_entry 2 gl_c_ErrorCodeDescriptionTable.
End lookup.

(** ** Fatal errors *)
Record NkFatalErrorContext := mkFatal {
  m_errorCode : Z; m_fileLine : Z; m_failedExpr : MsgView; m_additionalDesc : MsgView; m_filePath : MsgView;
  m_namespaceIdent : MsgView; m_functionName : MsgView; mp_reservedPtr : Z
}.
(** [strstr]: the text from the first occurrence on. *)
Fixpoint strstr (hay needle : list Z) : option (list Z) :=
  if bool_decide (needle = take (length needle) hay) then Some hay
  else match hay with [] => None | _ :: hay => strstr hay needle end.
(** [%i]. *)
Fixpoint digits (n : nat) (z : Z) : list Z :=
  match n with
  | O => []
  | S n => (if z / 10 =? 0 then [] else digits n (z / 10)) ++ [48 + z mod 10]
  end.
Definition print_int (z : Z) : list Z := if z <? 0 then 45 :: digits 10 (- z) else digits 10 z.
Definition gl_int_DefExtra : string :=
  "This error signifies abnormal program termination. Please contact the responsible developer, providing the details shown by this error message.".
Definition extra_text (c : NkFatalErrorContext) : list Z :=
  if mv_size (m_additionalDesc c) =? 0 then bytes_of gl_int_DefExtra else mv_chars (m_additionalDesc c).
Definition file_text (c : NkFatalErrorContext) : list Z :=
  default (mv_chars (m_filePath c)) (strstr (mv_chars (m_filePath c)) (bytes_of "Noriko")).
(** One line of the message. *)
Definition message_line (label : string) (text : list Z) : list Z := bytes_of label ++ [9] ++ text ++ [10].
Definition fatal_text (name desc : string) (c : NkFatalErrorContext) : list Z :=
  bytes_of "An unrecoverable error occurred and the application was forced to halt:" ++ [10; 10] ++
  message_line "  Expr:" (mv_chars (m_failedExpr c)) ++
  message_line "  Code:" (bytes_of name ++ bytes_of " (" ++ print_int (m_errorCode c) ++ bytes_of ")") ++
  message_line "  Desc:" (bytes_of desc) ++
  message_line "  File:" (file_text c) ++
  message_line "  Line:" (print_int (i32 (m_fileLine c))) ++
  message_line "  Func:" (mv_chars (m_namespaceIdent c) ++ bytes_of "::" ++ mv_chars (m_functionName c) ++ bytes_of "()") ++
  [10] ++ extra_text c.
(** [snprintf] with a buffer of [size] bytes, the last one for the NUL. *)
Definition snprintf_result (size : Z) (text : list Z) : list Z := take (Z.to_nat (size - 1)) text.
Definition FormatFatalErrorMessage (c : NkFatalErrorContext) : outcome (list Z) :=
  name ← NkGetErrorCodeStr (m_errorCode c);
  desc ← NkGetErrorCodeDesc (m_errorCode c);
  Ret (snprintf_result (NK_ERROR_MSGBUF - 1) (fatal_text name desc c)).

(** What a format makes of itself when no arguments are passed: [%%] is a percent sign,
    any other conversion reads an argument that is not there. *)
Fixpoint format_bare (fmt : list Z) : outcome (list Z) :=
  match fmt with
  | [] => Ret []
  | c :: rest =>
      if c =? 37 then
        match rest with
        | d :: rest => if d =? 37 then r ← format_bare rest; Ret (37 :: r) else Undef
        | [] => Undef
        end
      else r ← format_bare rest; Ret (c :: r)
  end.

Section fatal.
Context {U : Type} `{NkILogDevice U}.
(** Showing a text to the user, until it is dismissed. *)
Context (MessageBoxA : list Z → LogState U → LogState U).
(** The code the process exits with and the state it leaves; [stamp] is the formatted
    time.  The message is the format of the log entry. *)
Definition NkFatalTerminate (stamp : list Z) (errCxtPtr : option NkFatalErrorContext) (st : LogState U) : outcome (Z * LogState U) :=
  match errCxtPtr with
  | None => Ret (code_number NkErr_Unknown, st)
  | Some c =>
      msg ← FormatFatalErrorMessage c;
      fmtd ← format_bare msg;
      st ← NkLogMessage NkLogLvl_Critical fmtd stamp st;
      Ret (m_errorCode c, MessageBoxA msg st)
  end.
End fatal.

(** ** The look-ups answer for every number *)
(** The identifier of a code, the code of a number. *)
Definition code_ident (e : NkErrorCode) : string :=
  match e with
  | NkErr_Ok => "NkErr_Ok" | NkErr_Unknown => "NkErr_Unknown" | NkErr_NoOperation => "NkErr_NoOperation"
  | NkErr_ManuallyAborted => "NkErr_ManuallyAborted" | NkErr_AccessDenied => "NkErr_AccessDenied"
  | NkErr_NotImplemented => "NkErr_NotImplemented" | NkErr_InParameter => "NkErr_InParameter"
  | NkErr_OutParameter => "NkErr_OutParameter" | NkErr_InOutParameter => "NkErr_InOutParameter"
  | NkErr_InptrParameter => "NkErr_InptrParameter" | NkErr_OutptrParameter => "NkErr_OutptrParameter"
  | NkErr_CallbackParameter => "NkErr_CallbackParameter" | NkErr_MemoryAlignment => "NkErr_MemoryAlignment"
  | NkErr_MemoryAllocation => "NkErr_MemoryAllocation" | NkErr_MemoryReallocation => "NkErr_MemoryReallocation"
  | NkErr_ItemNotFound => "NkErr_ItemNotFound" | NkErr_ArrayOutOfBounds => "NkErr_ArrayOutOfBounds"
  | NkErr_ArrayElemOutOfBounds => "NkErr_ArrayElemOutOfBounds" | NkErr_InvalidRange => "NkErr_InvalidRange"
  | NkErr_UnsignedWrapAround => "NkErr_UnsignedWrapAround" | NkErr_CapLimitExceeded => "NkErr_CapLimitExceeded"
  | NkErr_ComponentState => "NkErr_ComponentState" | NkErr_ObjectType => "NkErr_ObjectType"
  | NkErr_ObjectState => "NkErr_ObjectState" | NkErr_SynchInit => "NkErr_SynchInit"
  | NkErr_UnexpectedCharacter => "NkErr_UnexpectedCharacter"
  | NkErr_InvalidIdentifier => "NkErr_InvalidIdentifier"
  | NkErr_ClosingTokenNotFound => "NkErr_ClosingTokenNotFound"
  | NkErr_InterfacePureVirtual => "NkErr_InterfacePureVirtual"
  | NkErr_InterfaceNotImpl => "NkErr_InterfaceNotImpl" | NkErr_UnknownClass => "NkErr_UnknownClass"
  | NkErr_AggregationNotSupp => "NkErr_AggregationNotSupp" | NkErr_ClassAlreadyReg => "NkErr_ClassAlreadyReg"
  | NkErr_ClassNotReg => "NkErr_ClassNotReg" | NkErr_RegWindowClass => "NkErr_RegWindowClass"
  | NkErr_CreateNativeWindow => "NkErr_CreateNativeWindow"
  | NkErr_WndModeNotSupported => "NkErr_WndModeNotSupported" | NkErr_AdjustClientArea => "NkErr_AdjustClientArea"
  | NkErr_CreateMemDC => "NkErr_CreateMemDC" | NkErr_CreateCompBitmap => "NkErr_CreateCompBitmap"
  | NkErr_CreateBrush => "NkErr_CreateBrush" | NkErr_OpenFile => "NkErr_OpenFile"
  | NkErr_ErrorDuringDiskIO => "NkErr_ErrorDuringDiskIO"
  | NkErr_UnsupportedFileFormat => "NkErr_UnsupportedFileFormat"
  | NkErr_InvImageDimensions => "NkErr_InvImageDimensions" | NkErr_InvBitDepth => "NkErr_InvBitDepth"
  | NkErr_CreateDDBFromDIB => "NkErr_CreateDDBFromDIB" | NkErr_CopyDDBPixels => "NkErr_CopyDDBPixels"
  | NkErr_QueryStdLocation => "NkErr_QueryStdLocation" | NkErr_DatabaseOpen => "NkErr_DatabaseOpen"
  | NkErr_SetDatabaseProps => "NkErr_SetDatabaseProps" | NkErr_DatabaseClose => "NkErr_DatabaseClose"
  | NkErr_CompileSqlStatement => "NkErr_CompileSqlStatement"
  | NkErr_DatabaseApplySchema => "NkErr_DatabaseApplySchema"
  | NkErr_InvalidStreamType => "NkErr_InvalidStreamType" | NkErr_CreateDirectory => "NkErr_CreateDirectory"
  | NkErr_FindFileOrDir => "NkErr_FindFileOrDir" | NkErr_InvStreamMode => "NkErr_InvStreamMode"
  | NkErr_InvSeekOrigin => "NkErr_InvSeekOrigin" | NkErr_StreamSeek => "NkErr_StreamSeek"
  | NkErr_StreamFlush => "NkErr_StreamFlush"
  end%string.
Definition code_of (n : Z) : NkErrorCode := if n <? 0 then NkErr_Unknown else default NkErr_Unknown (all_error_codes !! Z.to_nat n).
Lemma code_of_number e : code_of (code_number e) = e.
Proof. by destruct e. Qed.
Lemma code_number_range e : 0 ≤ code_number e < NkErr_Count.
Proof. by destruct e. Qed.

(** The greatest distances for which the product fits an [int]. *)
Definition checkable (code : Z) : Prop := -46310 ≤ code ≤ 46370.
#[export] Instance checkable_dec code : Decision (checkable code).
Proof. unfold checkable. apply _. Defined.
Lemma code_in_range_spec code :
  INT32_MIN ≤ code ≤ INT32_MAX →
  code_in_range code = if decide (checkable code) then Ret (bool_decide (0 ≤ code < NkErr_Count)) else Undef.
Proof.
  unfold code_in_range, checkable, NkErr_Count, INT32_MIN, INT32_MAX. intros Hc. destruct (decide _) as [Hk|Hk].
  - do 3 (rewrite int_op_ok by (unfold INT32_MIN, INT32_MAX; nia); step). f_equal.
    destruct (Z.geb_spec ((61 - 1 - code) * (code - 0)) 0); symmetry; [apply bool_decide_eq_true|apply bool_decide_eq_false]; nia.
  - destruct (int_op (61 - 1 - code)) as [hi| | |] eqn:E1; [|unfold int_op in E1; by destruct (_ && _)..].
    destruct (int_op (code - 0)) as [lo| | |] eqn:E2; [|unfold int_op in E2; by destruct (_ && _)..].
    apply int_op_inv in E1 as [-> _], E2 as [-> _]. step.
    destruct (int_op ((61 - 1 - code) * (code - 0))) as [q| | |] eqn:E3; [|unfold int_op in E3; by destruct (_ && _)..].
    apply int_op_inv in E3 as [-> E3]. unfold INT32_MIN, INT32_MAX in E3. exfalso. nia.
Qed.
Lemma entry_spec table code :
  INT32_MIN ≤ code ≤ INT32_MAX → length table = Z.to_nat NkErr_Count →
  error_entry 2 table code = if decide (checkable code) then buf_get table (code_number (code_of code)) else Undef.
Proof.
  intros Hc Hlen. cbn [error_entry]. rewrite (code_in_range_spec code) by done. destruct (decide (checkable code)) as [Hk|]; [|done]. step.
  destruct (bool_decide_reflect (0 ≤ code < NkErr_Count)) as [Hr|Hr]; cbn [negb].
  - f_equal. unfold code_of. destruct (Z.ltb_spec code 0); [lia|].
    assert (Hall : Forall (λ n, n = code_number (default NkErr_Unknown (all_error_codes !! Z.to_nat n))) (seqZ 0 61))
      by (apply (bool_decide_unpack _); by vm_compute).
    rewrite list.Forall_forall in Hall. apply Hall, elem_of_seqZ. unfold NkErr_Count in Hr. lia.
  - unfold code_of. destruct (Z.ltb_spec code 0) as [|Hn]; [done|]. rewrite lookup_ge_None_2; [done|].
    change (length all_error_codes) with 61%nat. unfold NkErr_Count in Hr. lia.
Qed.
Lemma string_entry e : buf_get gl_c_ErrorCodeStringTable (code_number e) = Ret (code_ident e).
Proof. by destruct e. Qed.

Lemma desc_entry e : ∃ d, gl_c_ErrorCodeDescriptionTable !! Z.to_nat (code_number e) = Some d ∧ d ≠ ""%string ∧
  NkGetErrorCodeDesc (code_number e) = Ret d.
Proof. destruct e; by eexists. Qed.
Lemma descs_differ : NoDup gl_c_ErrorCodeDescriptionTable.
Proof. apply (bool_decide_unpack _). by vm_compute. Qed.

(** Every error code is named by its identifier, and has a description of its own; any other number is
    treated as the unknown error, as long as the range check can be computed at all: for numbers far out of
    range its product overflows. *)
Theorem error_lookups :
  (∀ code, INT32_MIN ≤ code ≤ INT32_MAX →
     NkGetErrorCodeStr code = if decide (checkable code) then Ret (code_ident (code_of code)) else Undef) ∧
  (∀ e, NkGetErrorCodeStr (code_number e) = Ret (code_ident e)) ∧
  (∀ e, ∃ d, NkGetErrorCodeDesc (code_number e) = Ret d ∧ d ≠ ""%string) ∧
  (∀ e1 e2, NkGetErrorCodeDesc (code_number e1) = NkGetErrorCodeDesc (code_number e2) → e1 = e2).
Proof.
  split_and!.
  - intros code Hc. unfold NkGetErrorCodeStr. rewrite entry_spec by done. by rewrite string_entry.
  - by intros [].
  - intros e. destruct (desc_entry e) as (d & _ & Hd & E). eauto.
  - intros e1 e2. destruct (desc_entry e1) as (d1 & H1 & _ & ->), (desc_entry e2) as (d2 & H2 & _ & ->). intros [= <-].
    pose proof (NoDup_lookup _ _ _ _ descs_differ H1 H2) as E. pose proof (code_number_range e1). pose proof (code_number_range e2).
    rewrite <- (code_of_number e1), <- (code_of_number e2). f_equal. lia.
Qed.

(** ** The message *)
Definition digits_value (l : list Z) : Z := foldl (λ v c, 10 * v + (c - 48)) 0 l.
Lemma digits_back n z : 0 ≤ z < 10 ^ Z.of_nat n → digits_value (digits n z) = z.
Proof.
  revert z. induction n as [|n IH]; intros z Hz; [cbn; change (10 ^ Z.of_nat 0) with 1 in Hz; lia|].
  cbn [digits]. unfold digits_value in *. rewrite foldl_app. cbn [foldl]. rewrite Nat2Z.inj_succ, Z.pow_succ_r in Hz by lia.
  destruct (Z.eqb_spec (z / 10) 0) as [E|_]; [cbn; pose proof (Z.div_mod z 10); lia|].
  rewrite IH; [pose proof (Z.div_mod z 10); lia|]. split; [apply Z.div_pos; lia|apply Z.div_lt_upper_bound; lia].
Qed.
Lemma digits_digits n z : Forall (λ c, 48 ≤ c < 58) (digits n z).
Proof.
  revert z. induction n as [|n IH]; intros z; cbn [digits]; [done|]. pose proof (Z.mod_pos_bound z 10).
  apply Forall_app_2; [by case_match|repeat constructor; lia].
Qed.
Lemma digits_length n z : (length (digits n z) ≤ n)%nat.
Proof. revert z. induction n as [|n IH]; intros z; cbn [digits]; [done|]. rewrite length_app. specialize (IH (z / 10)). case_match; cbn [length]; lia. Qed.

(** Texts that a format leaves as they are. *)
Notation clean := (Forall (λ c : Z, c ≠ 37)).
Lemma print_int_clean z : clean (print_int z).
Proof.
  assert (Hd : ∀ n x, clean (digits n x)) by (intros n x; eapply Forall_impl; [|apply (digits_digits n x)]; cbn; lia).
  unfold print_int. case_match; [constructor; [lia|]|]; apply Hd.
Qed.
Lemma print_int_length z : (length (print_int z) ≤ 11)%nat.
Proof. unfold print_int. pose proof (digits_length 10 z). pose proof (digits_length 10 (- z)). case_match; cbn [length]; lia. Qed.
Lemma format_bare_clean l : clean l → format_bare l = Ret l.
Proof. induction 1 as [|c l Hc _ IH]; [done|]. cbn [format_bare]. rewrite (proj2 (Z.eqb_neq _ _) Hc), IH. done. Qed.
Lemma strstr_suffix hay needle r : strstr hay needle = Some r → r `suffix_of` hay.
Proof.
  revert r. induction hay as [|c hay IH]; intros r; cbn [strstr]; case_match; try done.
  - by intros [= <-].
  - by intros [= <-].
  - intros E%IH. by apply suffix_cons_r.
Qed.
Lemma file_text_suffix c : file_text c `suffix_of` mv_chars (m_filePath c).
Proof. unfold file_text. destruct (strstr _ _) eqn:E; cbn [default]; [by eapply strstr_suffix|done]. Qed.

Lemma bytes_of_length s : length (bytes_of s) = String.length s.
Proof. unfold bytes_of. rewrite length_fmap. induction s; cbn; congruence. Qed.
Lemma code_texts e : ∃ desc, NkGetErrorCodeStr (code_number e) = Ret (code_ident e) ∧ NkGetErrorCodeDesc (code_number e) = Ret desc ∧
  clean (bytes_of (code_ident e)) ∧ clean (bytes_of desc) ∧ (String.length (code_ident e) + String.length desc ≤ 200)%nat.
Proof. destruct e; (eexists; split; [reflexivity|]; split; [reflexivity|]; split_and!; apply (bool_decide_unpack _); by vm_compute). Qed.

(** The texts of a context that are copied into the message. *)
Definition context_texts (c : NkFatalErrorContext) : list (list Z) :=
  [mv_chars (m_failedExpr c); mv_chars (m_filePath c); mv_chars (m_namespaceIdent c); mv_chars (m_functionName c); extra_text c].
Ltac clean_text := first [assumption | apply print_int_clean | apply (bool_decide_unpack _); by vm_compute].
Lemma line_clean label text : clean (bytes_of label) → clean text → clean (message_line label text).
Proof. intros Hl Ht. unfold message_line. repeat first [apply Forall_app_2 | clean_text]. Qed.
Lemma fatal_text_clean name desc c :
  clean (bytes_of name) → clean (bytes_of desc) → Forall clean (context_texts c) → clean (fatal_text name desc c).
Proof.
  intros Hn Hd. unfold context_texts. rewrite !Forall_cons_iff. intros (He & Hf & Hs & Hg & Hx & _).
  assert (Hp : clean (file_text c)) by (destruct (file_text_suffix c) as [k E]; rewrite E in Hf; by apply Forall_app in Hf as [_ ?]).
  unfold fatal_text. repeat first [apply line_clean | apply Forall_app_2 | clean_text].
Qed.
Lemma fatal_text_length name desc c :
  (length (fatal_text name desc c) ≤ 300 + String.length name + String.length desc + length (concat (context_texts c)))%nat.
Proof.
  pose proof (suffix_length _ _ (file_text_suffix c)). pose proof (print_int_length (m_errorCode c)). pose proof (print_int_length (i32 (m_fileLine c))).
  unfold fatal_text, message_line, context_texts. cbn [concat]. rewrite !length_app, !bytes_of_length. cbn [String.length length]. lia.
Qed.

(** The lines that tell the code come after the expression, and before everything else that can be long. *)
Definition code_lines (name desc : string) (c : NkFatalErrorContext) : list Z :=
  message_line "  Code:" (bytes_of name ++ bytes_of " (" ++ print_int (m_errorCode c) ++ bytes_of ")") ++ message_line "  Desc:" (bytes_of desc).
Lemma code_lines_kept name desc c :
  (String.length name + String.length desc ≤ 200)%nat → (length (mv_chars (m_failedExpr c)) ≤ 3700)%nat →
  ∃ pre post, snprintf_result (NK_ERROR_MSGBUF - 1) (fatal_text name desc c) = pre ++ code_lines name desc c ++ post.
Proof.
  intros Hn He. pose proof (print_int_length (m_errorCode c)).
  set (pre := bytes_of "An unrecoverable error occurred and the application was forced to halt:" ++ [10; 10] ++ message_line "  Expr:" (mv_chars (m_failedExpr c))).
  exists pre. assert (∃ post, fatal_text name desc c = (pre ++ code_lines name desc c) ++ post) as [post ->].
  { unfold fatal_text, pre, code_lines. eexists. by rewrite <- !app_assoc. }
  unfold snprintf_result. rewrite take_app_ge, <- app_assoc; [by eexists|].
  unfold pre, code_lines, message_line. rewrite !length_app, !bytes_of_length. cbn [String.length length]. change (Z.to_nat (NK_ERROR_MSGBUF - 1 - 1)) with (4094)%nat. lia.
Qed.

Section fatal.
Context {U : Type} `{StableDevices U} (MessageBoxA : list Z → LogState U → LogState U).
(** C40: after a failed assertion whose texts hold no percent sign the process ends with the code of the
    error, when the log's lock is free and its devices leave the log as they find it.  Before, one message
    goes to every installed device, if critical messages are enabled, and is shown.  It is the report of the
    error, cut to the 4094 characters the buffer is told to have: the identifier, the number and the
    description of the code are in it as long as the failed expression has at most 3700 characters, and
    everything when all texts together have at most 3500. *)
Theorem fatal_reported stamp c e (st : LogState U) :
  log_ok (cxt st) → m_errorCode c = code_number e → Forall clean (context_texts c) →
  ∃ desc msg st', NkGetErrorCodeDesc (m_errorCode c) = Ret desc ∧
    NkFatalTerminate MessageBoxA stamp (Some c) st = Ret (m_errorCode c, MessageBoxA msg st') ∧
    st' = (if bool_decide (m_glMinLevel (cxt st) ≤ NkLogLvl_Critical ≤ m_glMaxLevel (cxt st))
           then deliver NkLogLvl_Critical (mkMsgView stamp (Z.of_nat (length msg))) (mkMsgView msg (Z.of_nat (length msg))) (installed (cxt st)) st
           else st) ∧
    msg = take 4094 (fatal_text (code_ident e) desc c) ∧
    ((length (mv_chars (m_failedExpr c)) ≤ 3700)%nat → ∃ pre post, msg = pre ++ code_lines (code_ident e) desc c ++ post) ∧
    ((length (concat (context_texts c)) ≤ 3500)%nat → msg = fatal_text (code_ident e) desc c).
Proof.
  intros Hok Hc Ht. destruct (code_texts e) as (desc & E1 & E2 & K1 & K2 & Hlen).
  set (msg := snprintf_result (NK_ERROR_MSGBUF - 1) (fatal_text (code_ident e) desc c)).
  assert (Hm : (length msg ≤ 4094)%nat) by (unfold msg, snprintf_result, NK_ERROR_MSGBUF; rewrite length_take; lia).
  pose proof (message_spec NkLogLvl_Critical msg stamp st Hok ltac:(done)) as El. rewrite (take_ge msg) in El by (unfold NK_LOG_MSGSIZE; lia).
  exists desc, msg. eexists. split; [by rewrite Hc|]. split; [|split; [reflexivity|split; [reflexivity|split]]].
  - cbn [NkFatalTerminate]. unfold FormatFatalErrorMessage. rewrite Hc, E1, E2. step.
    rewrite format_bare_clean by (apply Forall_take; by apply fatal_text_clean). step. fold msg. by rewrite El.
  - intros He. by apply code_lines_kept.
  - intros Hs. apply take_ge. pose proof (fatal_text_length (code_ident e) desc c). unfold NK_ERROR_MSGBUF. lia.
Qed.
End fatal.

(** The assertion of [NkPoolAlloc] on the block size ([src/Noriko/alloc.c:625]): its
    text holds a percent sign, which the log takes for a conversion. *)
Definition text_view (s : string) : MsgView := mkMsgView (bytes_of s) (Z.of_nat (String.length s)).
Definition pool_block_context : NkFatalErrorContext :=
  mkFatal (code_number NkErr_InParameter) 625 (text_view "blockSize != 0 && blockSize % 8 == 0") (text_view "")
    (text_view "C:\Noriko\src\Noriko\alloc.c") (text_view "nk::alloc") (text_view "NkPoolAlloc") NULL.
Lemma fatal_percent_undefined {U} `{NkILogDevice U} MessageBoxA stamp (st : LogState U) :
  NkFatalTerminate MessageBoxA stamp (Some pool_block_context) st = Undef.
Proof.
  cbn [NkFatalTerminate]. assert (FormatFatalErrorMessage pool_block_context ≫= format_bare = Undef) as E by (by vm_compute).
  destruct (FormatFatalErrorMessage pool_block_context) as [m| | |]; try done. cbn in E. step. by rewrite E.
Qed.

(** Null memory passed to the pool allocator; the message goes to the devices and into
    the box, here a device of its own. *)
Definition null_block_context : NkFatalErrorContext :=
  mkFatal (code_number NkErr_OutptrParameter) 627 (text_view "memPtr != NULL") (text_view "")
    (text_view "C:\\src\\src\\Noriko\\alloc.c") (text_view "nk::alloc") (text_view "NkPoolAlloc") NULL.
Definition message_box (msg : list Z) (st : LogState Mailbox) : LogState Mailbox := set_user st (user st ++ [(1, msg)]).
Lemma fatal_reported_witness :
  let msg := fatal_text "NkErr_OutptrParameter" "at least one erroneous output pointer parameter (e.g., void **)" null_block_context in
  NkFatalTerminate message_box (bytes_of "t") (Some null_block_context) two_devices = Ret (10, set_user two_devices [(5, msg); (7, msg); (1, msg)]).
Proof.
  intros msg. destruct (fatal_reported message_box (bytes_of "t") null_block_context NkErr_OutptrParameter two_devices) as (desc & msg' & st' & Hd & E & Hst & _ & _ & Hm).
  - done.
  - reflexivity.
  - repeat constructor; apply (bool_decide_unpack _); by vm_compute.
  - assert (desc = "at least one erroneous output pointer parameter (e.g., void **)"%string) as -> by (vm_compute in Hd; by injection Hd).
    assert (msg' = msg) as -> by (apply Hm, Nat.leb_le; by vm_compute). rewrite E, Hst. reflexivity.
Defined.
(** With the lock held, which the removal of a missing device leaves behind, no report is made: taking the lock again is undefined. *)
Example fatal_lock_held : NkFatalTerminate message_box [] (Some null_block_context) (set_cxt two_devices (with_lock (cxt two_devices) true)) = Undef.
Proof. by vm_compute. Qed.
(** The number behind the last code, and one for which the check overflows. *)
Lemma error_lookups_witness :
  NkGetErrorCodeStr 61 = Ret "NkErr_Unknown"%string ∧ NkGetErrorCodeStr 65536 = Undef ∧
  NkGetErrorCodeStr (code_number NkErr_StreamFlush) = Ret "NkErr_StreamFlush"%string.
Proof.
  destruct error_lookups as (Hc & He & _). split; [|split].
  - exact (Hc 61 ltac:(unfold INT32_MIN, INT32_MAX; lia)).
  - exact (Hc 65536 ltac:(unfold INT32_MIN, INT32_MAX; lia)).
  - exact (He NkErr_StreamFlush).
Defined.
