(* ===== verification/Platform.v ===== *)
(** * [src/Noriko/platform.c], [platform/windows/winrng.c]: what is known about the build, and the random seed

    The information a caller asks for is copied into its buffer, as bytes; where the
    string literals lie and how the build is configured are parameters.  The seed of the
    random numbers comes from [rand_s], of which only the values are seen. *)
From S2P Require Import Prelude CStr Util Log Error.

(** ** Platform information *)
Definition NK_VER_MAJOR : Z := 0.
Definition NK_VER_MINOR : Z := 0.
Definition NK_VER_PATCH : Z := 1.
Definition NK_VER_ITER : Z := 1.
Definition NK_PRODUCT_ARCHITECTURE : Z := 64.
Definition NK_PRODUCT_NAME : list Z := bytes_of "Noriko".
Definition NK_PRODUCT_COPYRIGHT : list Z := bytes_of "(c) 2024 TophUwO <tophuwo01@gmail.com>. All rights reserved.".
Definition NK_PRODUCT_PLATFORM : list Z := bytes_of "Microsoft Windows".
Definition NK_PRODUCT_VERSION : list Z :=
  print_int NK_VER_MAJOR ++ bytes_of "." ++ print_int NK_VER_MINOR ++ bytes_of "." ++ print_int NK_VER_PATCH ++ bytes_of "-" ++ print_int NK_VER_ITER.
(** The configuration, [_MSC_VER], [__DATE__] and [__TIME__] of a build. *)
Record Build := mkBuild { NK_PRODUCT_CONFIGURATION : list Z; NK_PRODUCT_BTOOLS_VER : Z; build_date : list Z; build_time : list Z }.
Definition sizeof_PlatformInformation : Z := 176.

Section info.
Context (addr : list Z → Z) (B : Build).
Definition NK_PRODUCT_BTOOLS : list Z := bytes_of "Microsoft Visual C v" ++ print_int (NK_PRODUCT_BTOOLS_VER B).
Definition NK_PRODUCT_INFOSTR : list Z :=
  NK_PRODUCT_NAME ++ bytes_of " " ++ NK_PRODUCT_VERSION ++ bytes_of " :: " ++ NK_PRODUCT_PLATFORM ++ bytes_of " (" ++
  print_int NK_PRODUCT_ARCHITECTURE ++ bytes_of "-bit) - " ++ NK_PRODUCT_CONFIGURATION B.
(** [NK_MAKE_STRING_VIEW]. *)
Definition view_bytes (s : list Z) : list Z := le_bytes 8 (addr s) ++ le_bytes 8 (Z.of_nat (length s)).
Definition gl_c_PlatformInfo : list Z :=
  le_bytes 8 sizeof_PlatformInformation ++
  concat (le_bytes 4 <$> [NK_VER_MAJOR; NK_VER_MINOR; NK_VER_PATCH; NK_VER_ITER; NK_PRODUCT_ARCHITECTURE; NK_PRODUCT_BTOOLS_VER B]) ++
  concat (view_bytes <$> [NK_PRODUCT_NAME; NK_PRODUCT_VERSION; NK_PRODUCT_COPYRIGHT; NK_PRODUCT_CONFIGURATION B; NK_PRODUCT_BTOOLS;
                          NK_PRODUCT_PLATFORM; NK_PRODUCT_INFOSTR; build_date B; build_time B]).
(** [platformInfoPtr] is the memory of the caller's buffer. *)
Definition NkQueryPlatformInformation (platformInfoPtr : list Z) : outcome (list Z) :=
  size ← buf_read platformInfoPtr 0 8;
  let m_structSize := le_value size in
  NK_ASSERT (negb (m_structSize =? 0)) NkErr_InOutParameter;;
  let actSize := NK_MIN sizeof_PlatformInformation m_structSize in
  src ← buf_read gl_c_PlatformInfo 0 actSize;
  platformInfoPtr ← buf_write platformInfoPtr 0 src;
  buf_write platformInfoPtr 0 (le_bytes 8 actSize).
End info.

(** ** The random seed *)
Section seed.
Context {Rng : Type} (rand_s : Rng → Z * Rng).
Fixpoint seed_loop (n : nat) (i : Z) (randSeedBuf : list Z) (s : Rng) : outcome (list Z * Rng) :=
  match n with
  | O => Ret (randSeedBuf, s)
  | S n =>
      let '(v, s) := rand_s s in
      randSeedBuf ← buf_write randSeedBuf (4 * i) (le_bytes 4 v);
      seed_loop n (i + 1) randSeedBuf s
  end.
Definition PRNG_GenerateSeed (sizeInBytes : Z) (randSeedBuf : list Z) (s : Rng) : outcome (NkErrorCode * list Z * Rng) :=
  NK_ASSERT (sizeInBytes >? 0) NkErr_InParameter;;
  '(b, s) ← seed_loop (Z.to_nat (sizeInBytes / 4)) 0 randSeedBuf s;
  Ret (NkErr_Ok, b, s).
(** The startup function of the component, with the seed made here. *)
Definition PRNG_Startup_seeded (m_seedArr : list Z) (s : Rng) : outcome (NkErrorCode * RngContext * Rng) :=
  '(e, b, s) ← PRNG_GenerateSeed (Z.of_nat (length m_seedArr)) m_seedArr s;
  Ret (PRNG_Startup (e, b), s).
End seed.

(** ** What the caller of [NkQueryPlatformInformation] gets *)
Section proofs.
Context (addr : list Z → Z) (B : Build).
Lemma info_length : length (gl_c_PlatformInfo addr B) = Z.to_nat sizeof_PlatformInformation.
Proof. reflexivity. Qed.

(** A caller that says how large its buffer is gets the information up to that size and the size that was
    really written in the first field; what lies behind in a larger buffer is left alone, and a smaller buffer,
    of an older version of the structure, is not overrun. *)
Theorem platform_information buf :
  8 ≤ le_value (take 8 buf) ≤ Z.of_nat (length buf) →
  let actSize := NK_MIN sizeof_PlatformInformation (le_value (take 8 buf)) in
  NkQueryPlatformInformation addr B buf =
    Ret (le_bytes 8 actSize ++ take (Z.to_nat actSize - 8) (drop 8 (gl_c_PlatformInfo addr B)) ++ drop (Z.to_nat actSize) buf).
Proof.
  intros Hs. cbv zeta. unfold NkQueryPlatformInformation. rewrite buf_read_in by lia. step. change (Z.to_nat 8) with 8%nat.
  change (Z.to_nat 0) with 0%nat. rewrite drop_0. destruct (Z.eqb_spec (le_value (take 8 buf)) 0) as [|Hne]; [lia|]. cbn [negb NK_ASSERT]. step.
  set (sz := le_value (take 8 buf)) in *. rewrite NK_MIN_spec. set (n := sizeof_PlatformInformation `min` sz).
  assert (Hn : 8 ≤ n ≤ 176 ∧ n ≤ sz) by (unfold n, sizeof_PlatformInformation; lia).
  pose proof info_length as Hl. unfold sizeof_PlatformInformation in Hl.
  rewrite buf_read_in by lia. step. rewrite drop_0.
  assert (Ht : length (take (Z.to_nat n) (gl_c_PlatformInfo addr B)) = Z.to_nat n) by (rewrite length_take; lia).
  rewrite buf_write_in by lia. step. rewrite Ht. cbn [take app Z.to_nat]. rewrite Nat.add_0_l.
  rewrite buf_write_in by (rewrite ?length_app, ?length_le_bytes, ?Ht, ?length_drop; lia).
  rewrite length_le_bytes. change (Z.to_nat 0) with 0%nat. rewrite !take_0, !app_nil_l, Nat.add_0_l.
  rewrite drop_app_le by lia. by rewrite skipn_firstn_comm.
Qed.
End proofs.

(** ** What the seed is made of *)
Section seed_proofs.
Context {Rng : Type} (rand_s : Rng → Z * Rng).
(** The values of [n] calls, and the state after them. *)
Fixpoint draws (n : nat) (s : Rng) : list Z * Rng :=
  match n with
  | O => ([], s)
  | S n => let '(v, s) := rand_s s in let '(vs, s) := draws n s in (v :: vs, s)
  end.
Lemma draws_length n s : length (draws n s).1 = n.
Proof. revert s. induction n as [|n IH]; intros s; [done|]. cbn. destruct (rand_s s) as [v s1]. specialize (IH s1). destruct (draws n s1). cbn in *. lia. Qed.
Lemma seed_loop_spec n filled rest s :
  (4 * n ≤ length rest)%nat → (4 | Z.of_nat (length filled)) →
  seed_loop rand_s n (Z.of_nat (length filled) / 4) (filled ++ rest) s =
    Ret (filled ++ concat (le_bytes 4 <$> (draws n s).1) ++ drop (4 * n) rest, (draws n s).2).
Proof.
  revert filled rest s. induction n as [|n IH]; intros filled rest s Hlen [k Hk]; [done|]. cbn [seed_loop draws].
  destruct (rand_s s) as [v s1]. assert (Hq : 4 * (Z.of_nat (length filled) / 4) = Z.of_nat (length filled)) by (rewrite Hk, Z.div_mul; lia).
  rewrite Hq, buf_write_in by (rewrite ?length_app, ?length_le_bytes; lia). step. rewrite Nat2Z.id, take_app_length, length_le_bytes, drop_app_add.
  rewrite app_assoc. replace (Z.of_nat (length filled) / 4 + 1) with (Z.of_nat (length (filled ++ le_bytes 4 v)) / 4).
  2: { rewrite length_app, length_le_bytes, Nat2Z.inj_add, Hk. change (Z.of_nat 4) with 4. Z.to_euclidean_division_equations; lia. }
  rewrite IH.
  - destruct (draws n s1) as [vs s2]. cbn [fst snd fmap list_fmap concat]. rewrite <- !app_assoc, drop_drop. by rewrite Nat.mul_succ_r, (Nat.add_comm (4 * n)).
  - rewrite length_drop. lia.
  - exists (k + 1). rewrite length_app, length_le_bytes. lia.
Qed.
(** Bytes at the end that make no whole number are not touched. *)
Lemma seed_spec buf s :
  (0 < length buf)%nat → let n := (length buf / 4)%nat in
  PRNG_GenerateSeed rand_s (Z.of_nat (length buf)) buf s =
    Ret (NkErr_Ok, concat (le_bytes 4 <$> (draws n s).1) ++ drop (4 * n) buf, (draws n s).2).
Proof.
  intros Hl. cbv zeta. unfold PRNG_GenerateSeed. destruct (Z.gtb_spec (Z.of_nat (length buf)) 0); [|lia]. cbn [NK_ASSERT]. step.
  replace (Z.to_nat (Z.of_nat (length buf) / 4)) with (length buf / 4)%nat by (rewrite <- (Nat2Z.id (_ / 4)); f_equal; by rewrite Nat2Z.inj_div).
  pose proof (seed_loop_spec (length buf / 4) [] buf s) as E. cbn [length app] in E. change (Z.of_nat 0 / 4) with 0 in E. rewrite E; [done| |exists 0; lia].
  apply Nat.Div0.mul_div_le.
Qed.
Lemma le_value_app a b : le_value (a ++ b) = le_value a + 2 ^ (8 * Z.of_nat (length a)) * le_value b.
Proof.
  induction a as [|x a IH]; cbn [app le_value length]; [change (8 * Z.of_nat 0) with 0; lia|].
  rewrite IH. replace (8 * Z.of_nat (S (length a))) with (8 + 8 * Z.of_nat (length a)) by lia. rewrite Z.pow_add_r by lia. lia.
Qed.
(** The word in the middle of the seed. *)
Lemma word_pair pre x y post :
  le_value (take 8 (drop (length pre) (pre ++ le_bytes 4 x ++ le_bytes 4 y ++ post))) = u32 x + 2 ^ 32 * u32 y.
Proof. rewrite drop_app_length. change (take 8 _) with (le_bytes 4 x ++ le_bytes 4 y). by rewrite le_value_app, !le_value_bytes, length_le_bytes. Qed.
(** The generator starts from eight fresh random numbers, two in each of its words, whatever its memory
    held before. *)
Theorem random_seed_fresh seedArr s v0 v1 v2 v3 v4 v5 v6 v7 s' :
  length seedArr = 32%nat → draws 8 s = ([v0; v1; v2; v3; v4; v5; v6; v7], s') →
  PRNG_Startup_seeded rand_s seedArr s =
    Ret (NkErr_Ok, mkRng (u32 v0 + 2 ^ 32 * u32 v1) (u32 v2 + 2 ^ 32 * u32 v3) (u32 v4 + 2 ^ 32 * u32 v5) (u32 v6 + 2 ^ 32 * u32 v7), s').
Proof.
  intros Hl Hd. unfold PRNG_Startup_seeded. rewrite seed_spec by lia. rewrite Hl. change (32 / 4)%nat with 8%nat. rewrite Hd. step.
  cbn [fst snd fmap list_fmap concat]. change (4 * 8)%nat with 32%nat. rewrite drop_ge, app_nil_r by lia.
  unfold PRNG_Startup. pose (b := le_bytes 4). do 3 f_equal. f_equal.
  - exact (word_pair [] v0 v1 (b v2 ++ b v3 ++ b v4 ++ b v5 ++ b v6 ++ b v7)).
  - exact (word_pair (b v0 ++ b v1) v2 v3 (b v4 ++ b v5 ++ b v6 ++ b v7)).
  - exact (word_pair (b v0 ++ b v1 ++ b v2 ++ b v3) v4 v5 (b v6 ++ b v7)).
  - exact (word_pair (b v0 ++ b v1 ++ b v2 ++ b v3 ++ b v4 ++ b v5) v6 v7 []).
Qed.
End seed_proofs.

(** ** A build, a generator that counts *)
Definition toy_build : Build := mkBuild (bytes_of "Debug") 1942 (bytes_of "Jan  1 2025") (bytes_of "12:00:00").
Definition toy_buffer (n : Z) (len : nat) : list Z := le_bytes 8 n ++ replicate (len - 8) 0xCC.
(** An old caller, whose structure ends behind the version numbers, in the middle of its stack. *)
Lemma platform_information_witness :
  NkQueryPlatformInformation (λ s, 4096) toy_build (toy_buffer 24 40) =
    Ret (le_bytes 8 24 ++ take 16 (drop 8 (gl_c_PlatformInfo (λ s, 4096) toy_build)) ++ replicate 16 0xCC).
Proof.
  rewrite (platform_information (λ s, 4096) toy_build (toy_buffer 24 40)); [by vm_compute|].
  split; apply Z.leb_le; vm_compute; reflexivity.
Defined.
Lemma random_seed_fresh_witness :
  PRNG_Startup_seeded (λ s, (s, s + 1)) (replicate 32 0) 1 =
    Ret (NkErr_Ok, mkRng (1 + 2 ^ 32 * 2) (3 + 2 ^ 32 * 4) (5 + 2 ^ 32 * 6) (7 + 2 ^ 32 * 8), 9).
Proof.
  rewrite (random_seed_fresh (λ s, (s, s + 1)) (replicate 32 0) 1 1 2 3 4 5 6 7 8 9); [reflexivity|reflexivity|reflexivity].
Defined.
