(* ===== verification/Runtime.v ===== *)
(** * [src/NorikoRt/main.c], and the main loop of [application.c] as a whole

    The program of the runtime: startup, main loop, shutdown, and the code the process
    ends with.  The main loop decides with binary32 numbers how often to update; those
    decisions are worked out here, and with them that the loop ends once a quit message
    is on its way. *)
From S2P Require Import Prelude Float32 HTable Util Registry NkOM App Error.

(** ** The program *)
Section main.
Context {R W : Type} `{Registry R} `{NkObjects W} (C : Components W) (E : RunEnv (W := W)).
(** The frequency of the counter, once the timing devices are there. *)
Context (NkTimerGetFrequency : W → Z).
Definition main_specs (argc argv : Z) : NkApplicationSpecification := mkSpec true NkWndMode_All argc argv.
Definition main (tail fuel : nat) (argc argv : Z) (st : Application R W) : outcome (Z * Application R W) :=
  '(errCode, st) ← NkApplicationStartup C tail (main_specs argc argv) st;
  '(code, st) ← (if negb (isOk errCode) then Ret (code_number errCode, st)
                 else '(code, w) ← NkApplicationRun E fuel (NkTimerGetFrequency (app_world st)) (app_world st);
                      Ret (code, with_world st w));
  '(_, st) ← NkApplicationShutdown C st;
  Ret (code, st).
End main.

(** ** Whole numbers as binary32 *)
Lemma digits_spec p : 2 ^ (Zpos (digits2_pos p) - 1) ≤ Zpos p < 2 ^ Zpos (digits2_pos p).
Proof.
  induction p as [p IH|p IH|]; cbn [digits2_pos]; [| |done].
  all: rewrite Pos2Z.inj_succ, Z.pow_succ_r by lia; replace (Z.succ (Zpos (digits2_pos p)) - 1) with (Z.succ (Zpos (digits2_pos p) - 1)) by lia;
    rewrite Z.pow_succ_r by lia; lia.
Qed.
Lemma iter_xO p n : Zpos (Pos.iter xO p n) = Zpos p * 2 ^ Zpos n ∧ Zpos (digits2_pos (Pos.iter xO p n)) = Zpos (digits2_pos p) + Zpos n.
Proof.
  induction n as [|n IH] using Pos.peano_ind; [cbn; lia|]. rewrite Pos.iter_succ. destruct IH as [IH1 IH2].
  rewrite !Pos2Z.inj_succ, Z.pow_succ_r by lia. cbn [digits2_pos]. rewrite (Pos2Z.inj_succ (digits2_pos _)), IH2. lia.
Qed.
(** The mantissa with all its 24 binary digits. *)
Lemma no_shift m e : Zpos (digits2_pos m) = 24 → -149 ≤ e → shr_fexp 24 128 (Zpos m) e loc_Exact = (Build_shr_record (Zpos m) false false, e).
Proof.
  intros Hm He. unfold shr_fexp, fexp, emin. cbn [Zdigits2 shr_record_of_loc]. rewrite Hm.
  replace (Z.max (24 + e - 24) (3 - 128 - 24) - e) with 0 by lia. done.
Qed.
Lemma f32_exact p :
  Zpos (digits2_pos p) ≤ 24 →
  ∃ m, f32_of_Z (Zpos p) = S754_finite false m (Zpos (digits2_pos p) - 24) ∧ Zpos m = Zpos p * 2 ^ (24 - Zpos (digits2_pos p)) ∧
    Zpos (digits2_pos m) = 24.
Proof.
  intros Hd. set (d := Zpos (digits2_pos p)) in *. assert (Hd1 : 1 ≤ d) by (unfold d; lia).
  assert (Hs : ∃ m, shl_align p 0 (fexp 24 128 (d + 0)) = (m, d - 24) ∧ Zpos m = Zpos p * 2 ^ (24 - d) ∧ Zpos (digits2_pos m) = 24).
  { unfold shl_align, fexp, emin. replace (Z.max (d + 0 - 24) (3 - 128 - 24)) with (d - 24) by lia. rewrite Z.sub_0_r.
    destruct (Z.eq_dec d 24) as [E24|Hne]; [exists p; rewrite E24; split; [done|]; split; [lia|exact E24]|].
    destruct (d - 24) as [|k|k] eqn:Ek; [lia|lia|]. exists (Pos.iter xO p k). destruct (iter_xO p k) as [E1 E2]. rewrite E1, E2. fold d.
    replace (24 - d) with (Zpos k) by lia. split; [done|]. split; lia. }
  destruct Hs as (m & Hs & Hm & Hdm). exists m. split; [|done]. unfold f32_of_Z, binary_normalize, binary_round. fold d. rewrite Hs.
  unfold binary_round_aux. rewrite no_shift by lia. cbn [shr_m loc_of_shr_record round_nearest_even]. rewrite no_shift by lia. cbn [shr_m].
  by rewrite (proj2 (Z.leb_le _ _)) by lia.
Qed.

(** ** How often to update

    [T] is the number of ticks of one update as a whole number. *)
Definition whole_rate (tpu : NkFloat) : option Z :=
  match tpu with
  | S754_finite false m e => if (Zpos (digits2_pos m) =? 24) && (-24 <? e) && (e <=? 0) then Some (Z.quot (Zpos m) (2 ^ (- e))) else None
  | _ => None
  end.
Lemma small_digits p : Zpos p < 2 ^ 24 → Zpos (digits2_pos p) ≤ 24.
Proof. intros Hp. pose proof (digits_spec p) as [Hd _]. assert (2 ^ (Zpos (digits2_pos p) - 1) < 2 ^ 24) as K%Z.pow_lt_mono_r_iff by lia; lia. Qed.
(** Two positive numbers with full mantissas are compared by their values. *)
Lemma compare_full m e p :
  Zpos (digits2_pos m) = 24 → Zpos (digits2_pos p) ≤ 24 → -24 ≤ e →
  f_gt (f32_of_Z (Zpos p)) (S754_finite false m e) = (Zpos m * 2 ^ (e + 24) <? Zpos p * 2 ^ 24).
Proof.
  intros Hm Hp He. destruct (f32_exact p Hp) as (mp & -> & Emp & Dmp). set (d := Zpos (digits2_pos p)) in *.
  pose proof (digits_spec m) as Hd. rewrite Hm in Hd. change (2 ^ (24 - 1)) with (2 ^ 23) in Hd.
  pose proof (digits_spec p) as Hdp. fold d in Hdp. assert (1 ≤ d) by (unfold d; lia). clearbody d.
  unfold f_gt, f_lt. cbn [SFcompare]. destruct (Z.compare_spec e (d - 24)) as [He2|He2|He2].
  - assert (K : Zpos p * 2 ^ 24 = Zpos mp * 2 ^ d) by (rewrite Emp, <- Z.mul_assoc, <- Z.pow_add_r by lia; do 2 f_equal; lia).
    replace (e + 24) with d by lia. rewrite K. fold (Pos.compare m mp).
    assert (0 < 2 ^ d) by (apply Z.pow_pos_nonneg; lia).
    destruct (Pos.compare_spec m mp) as [->|Hlt|Hgt]; symmetry; [apply Z.ltb_ge; lia|apply Z.ltb_lt; nia|apply Z.ltb_ge; nia].
  - symmetry. apply Z.ltb_lt. assert (2 ^ (e + 24) ≤ 2 ^ (d - 1)) by (apply Z.pow_le_mono_r; lia).
    assert (0 < 2 ^ (e + 24)) by (apply Z.pow_pos_nonneg; lia). nia.
  - symmetry. apply Z.ltb_ge. assert (2 ^ (d + 1) ≤ 2 ^ (e + 24)) as K by (apply Z.pow_le_mono_r; lia).
    rewrite Z.pow_add_r in K by lia. change (2 ^ 1) with 2 in K. nia.
Qed.
Lemma whole_rate_inv tpu T :
  whole_rate tpu = Some T → 1 ≤ T < 2 ^ 24 ∧ f_trunc tpu = Some T ∧
  ∀ lag, 0 ≤ lag < 2 ^ 24 → f_gt (f32_of_Z lag) tpu = (T <? lag).
Proof.
  unfold whole_rate. destruct tpu as [| | |[] m e]; try done. destruct (_ && _) eqn:Hb; [|done]. intros [= <-].
  apply andb_true_iff in Hb as [[Hm%Z.eqb_eq He1%Z.ltb_lt]%andb_true_iff He2%Z.leb_le].
  pose proof (digits_spec m) as Hd. rewrite Hm in Hd. change (2 ^ (24 - 1)) with (2 ^ 23) in Hd.
  rewrite Z.quot_div_nonneg by lia. set (P := 2 ^ (- e)). assert (HP : 1 ≤ P ≤ 2 ^ 23 ∧ 2 ^ 24 = P * 2 ^ (24 + e) ∧ 2 ≤ 2 ^ (24 + e)).
  { unfold P. split; [|split].
    - split; [change 1 with (2 ^ 0); apply Z.pow_le_mono_r; lia|apply Z.pow_le_mono_r; lia].
    - rewrite <- Z.pow_add_r by lia. f_equal. lia.
    - change 2 with (2 ^ 1) at 1. apply Z.pow_le_mono_r; lia. }
  destruct HP as ((HP1 & HP2) & HP3 & HP4).
  assert (HT : 1 ≤ Zpos m / P) by (apply Z.div_le_lower_bound; lia).
  assert (HT2 : Zpos m / P ≤ Zpos m) by (apply Z.div_le_upper_bound; nia).
  pose proof (Z.div_mod (Zpos m) P ltac:(lia)) as Hq. pose proof (Z.mod_pos_bound (Zpos m) P ltac:(lia)) as Hr.
  split; [lia|]. split.
  { cbn [f_trunc f_signed]. destruct (Z.leb_spec 0 e) as [|]; f_equal.
    - assert (e = 0) as -> by lia. unfold P. change (2 ^ (- 0)) with 1. rewrite Z.div_1_r. lia.
    - by rewrite Z.quot_div_nonneg by (fold P; lia). }
  intros [|p|] Hlag; [|clear HT2|lia].
  { change (f32_of_Z 0) with (S754_zero false). destruct (Z.ltb_spec (Zpos m / P) 0); [lia|done]. }
  rewrite compare_full; [|done|apply small_digits; lia|lia]. rewrite HP3, (Z.add_comm e).
  set (Q := 2 ^ (24 + e)) in *. set (q := Zpos m / P) in *. clearbody Q q P.
  destruct (Z.ltb_spec q (Zpos p)); [apply Z.ltb_lt|apply Z.ltb_ge]; nia.
Qed.
Lemma lag_step_spec tpu T lag :
  whole_rate tpu = Some T → 0 ≤ lag < 2 ^ 24 → lag_step tpu lag = Ret (if T <? lag then Some (lag - T) else None).
Proof.
  intros (HT & Ht & Hg)%whole_rate_inv Hlag. unfold lag_step. rewrite Hg, Ht by done. destruct (Z.ltb_spec T lag); [|done].
  unfold f_to_u. rewrite bool_decide_true by (unfold is_u; lia). step. do 2 f_equal. apply wrapN_small. unfold is_u. lia.
Qed.

(** ** The loop *)
Section loop.
Context {W : Type} (E : RunEnv (W := W)).
(** Every call of the loop returns and keeps [Inv]; [quit_in w] bounds the number of times the
    message queue answers something else, a message or that it is empty, before it hands out the
    quit message with [code].  [Taken] holds while a message is taken and not dispatched, [Ended] when
    the quit message was handed out, [Final] when everything is released. *)
Record LoopLaws (Inv Taken Ended Final : W → Prop) (quit_in : W → nat) (code : Z) : Prop := {
  ll_peek w : Inv w → ∃ r w', peek_message E w = (r, w') ∧
    match r with
    | Some (true, z) => i32 z = code ∧ Ended w'
    | Some (false, _) => Taken w' ∧ (quit_in w' < quit_in w)%nat
    | None => Inv w' ∧ (quit_in w' < quit_in w)%nat
    end;
  ll_ticks w : Inv w → Inv (timer_ticks E w).2 ∧ (quit_in (timer_ticks E w).2 ≤ quit_in w)%nat;
  ll_acquire w : Inv w → ∃ w', acquire_renderer E w = Ret w' ∧ Inv w' ∧ (quit_in w' ≤ quit_in w)%nat;
  ll_dispatch m w : Taken w → ∃ w', dispatch_message E m w = Ret w' ∧ Inv w' ∧ (quit_in w' ≤ quit_in w)%nat;
  ll_update t w : Inv w → ∃ w', on_update E t w = Ret w' ∧ Inv w' ∧ (quit_in w' ≤ quit_in w)%nat;
  ll_render t w : Inv w → ∃ w', on_render E t w = Ret w' ∧ Inv w' ∧ (quit_in w' ≤ quit_in w)%nat;
  ll_begin w : Inv w → ∃ w', begin_draw E w = Ret w' ∧ Inv w' ∧ (quit_in w' ≤ quit_in w)%nat;
  ll_end w : Inv w → ∃ w', end_draw E w = Ret w' ∧ Inv w' ∧ (quit_in w' ≤ quit_in w)%nat;
  ll_release w : Ended w → ∃ w', release_all E w = Ret w' ∧ Final w'
}.
Context {Inv Taken Ended Final : W → Prop} {quit_in : W → nat} {code : Z} (L : LoopLaws Inv Taken Ended Final quit_in code).

(** The pump ends: with the quit message, or having taken at least one answer. *)
Lemma platform_loop_spec fuel w :
  Inv w → (quit_in w < fuel)%nat →
  (∃ w', PlatformLoop E fuel w = Ret (true, code, w') ∧ Ended w') ∨
  (∃ w', PlatformLoop E fuel w = Ret (false, 0, w') ∧ Inv w' ∧ (quit_in w' < quit_in w)%nat).
Proof.
  revert w. induction fuel as [|fuel IH]; intros w Hi Hf; [lia|]. cbn [PlatformLoop].
  destruct (ll_peek _ _ _ _ _ _ L w Hi) as (r & w1 & -> & Hr). destruct r as [[[] z]|].
  - destruct Hr as [<- Hw1]. left. eauto.
  - destruct Hr as [Hi1 Hq1]. destruct (ll_dispatch _ _ _ _ _ _ L (false, z) w1 Hi1) as (w2 & -> & Hi2 & Hq2). step.
    destruct (IH w2 Hi2) as [?|(w3 & -> & Hi3 & ?)]; [lia|by left|right]. exists w3. split; [done|]. split; [done|lia].
  - destruct Hr as [Hi1 Hq1]. right. eauto.
Qed.
(** Catching up takes at most [k] updates when the lag is at most [k + 1] of them. *)
Lemma update_loop_spec tiFreq tpu T k fuel lag w :
  Inv w → whole_rate tpu = Some T → 0 ≤ lag ≤ T + T * Z.of_nat k → lag < 2 ^ 24 → (k < fuel)%nat →
  ∃ lag' w', update_loop E fuel tiFreq tpu lag w = Ret (lag', w') ∧ 0 ≤ lag' ≤ T ∧ Inv w' ∧ (quit_in w' ≤ quit_in w)%nat.
Proof.
  intros Hi HT. pose proof (whole_rate_inv _ _ HT) as (HT1 & _). revert fuel lag w Hi. induction k as [|k IH]; intros fuel lag w Hi Hl1 Hl2 Hf.
  all: destruct fuel as [|fuel]; [lia|]; cbn [update_loop]; rewrite (lag_step_spec _ T) by (done || lia); step; destruct (Z.ltb_spec T lag); [|exists lag, w; split; [done|]; split; [lia|done]].
  - lia.
  - destruct (ll_update _ _ _ _ _ _ L (f32_div tpu tiFreq) w Hi) as (w1 & -> & Hi1 & Hq1). step.
    destruct (IH fuel (lag - T) w1 Hi1) as (lag' & w2 & -> & Hl & Hi2 & Hq2); [lia..|]. exists lag', w2. split; [done|]. split; [done|]. split; [done|lia].
Qed.
Lemma run_loop_spec tiFreq tpu T maxEl k fuel prevTime lag w :
  Inv w → whole_rate tpu = Some T → 0 ≤ maxEl ≤ T * Z.of_nat k → T + maxEl < 2 ^ 24 → 0 ≤ lag ≤ T → (quit_in w + k + 1 ≤ fuel)%nat →
  ∃ w', run_loop E fuel tiFreq tpu maxEl prevTime lag w = Ret (code, w') ∧ Final w'.
Proof.
  intros Hi HT HmaxEl Hsmall. revert prevTime lag w Hi. induction fuel as [|fuel IH]; intros prevTime lag w Hi Hlag Hf; [lia|]. cbn [run_loop].
  destruct (ll_ticks _ _ _ _ _ _ L w Hi) as [Hi1 Hq1]. destruct (timer_ticks E w) as [currTime w1]. cbn [snd] in Hi1, Hq1.
  set (el := NK_MIN _ maxEl). assert (Hel : 0 ≤ el ≤ maxEl).
  { unfold el. rewrite NK_MIN_spec. pose proof (wrapN_range 64 (currTime - prevTime) ltac:(lia)) as [? _]. lia. }
  assert (Hlag2 : u64 (lag + el) = lag + el) by (apply wrapN_small; unfold is_u; lia). rewrite Hlag2. clearbody el.
  destruct (platform_loop_spec (S fuel) w1 Hi1) as [(w2 & -> & He2)|(w2 & -> & Hi2 & Hq2)]; [lia| |]; step.
  { destruct (ll_release _ _ _ _ _ _ L w2 He2) as (w3 & -> & ?). step. eauto. }
  destruct (update_loop_spec tiFreq tpu T k (S fuel) (lag + el) w2 Hi2) as (lag' & w3 & -> & Hlag' & Hi3 & Hq3); [done|lia|lia|lia|]. step.
  destruct (ll_begin _ _ _ _ _ _ L w3 Hi3) as (w4 & -> & Hi4 & Hq4). step.
  destruct (ll_render _ _ _ _ _ _ L (f32_div (f32_of_Z lag') tpu) w4 Hi4) as (w5 & -> & Hi5 & Hq5). step.
  destruct (ll_end _ _ _ _ _ _ L w5 Hi5) as (w6 & -> & Hi6 & Hq6). step. apply IH; [done|done|lia].
Qed.
(** Once a quit message is on its way, the main loop ends and returns the code of that message, after
    finitely many steps: whatever the clock shows, no frame makes more updates than fit into the longest time a
    frame may count for, and the pump takes the messages in front of the quit message one after the other. *)
Theorem main_loop_leaves freq T maxEl fuel w :
  Inv w → whole_rate (ticksPerUpdate (f32_of_Z freq)) = Some T → maxElapsed (f32_of_Z freq) = Ret maxEl → T + maxEl < 2 ^ 24 →
  (quit_in w + Z.to_nat (maxEl / T) + 2 ≤ fuel)%nat →
  ∃ w', NkApplicationRun E fuel freq w = Ret (code, w') ∧ Final w'.
Proof.
  intros Hi HT Hmax Hsmall Hf. pose proof (whole_rate_inv _ _ HT) as (HT1 & _). unfold NkApplicationRun.
  destruct (ll_acquire _ _ _ _ _ _ L w Hi) as (w1 & -> & Hi1 & Hq1). step. rewrite Hmax. step.
  destruct (ll_ticks _ _ _ _ _ _ L w1 Hi1) as [Hi2 Hq2]. destruct (timer_ticks E w1) as [prevTime w2]. cbn [snd] in Hi2, Hq2.
  assert (0 ≤ maxEl).
  { unfold maxElapsed, f_to_u in Hmax. destruct (f_trunc _) as [z|]; [|done]. case_bool_decide as K; [|done]. injection Hmax as <-. apply K. }
  apply (run_loop_spec _ _ T _ (Z.to_nat (maxEl / T) + 1)); [done|done| |done|lia|lia].
  pose proof (Z.div_pos maxEl T). rewrite Nat2Z.inj_add, Z2Nat.id by lia. Z.to_euclidean_division_equations; nia.
Qed.
End loop.

(** ** The program as a whole *)
Section program.
Context {R W : Type} `{RegistryLaws R} `{NkObjectLaws W} (C : Components W) (E : RunEnv (W := W)) (freq : W → Z).
Implicit Types st : Application R W.

(** C8: the code the program ends with.  When everything started, the main loop is entered, and on every queue, window
    and renderer that keep the laws of the loop ([LoopLaws], at a frequency of the counter at which it is exact) the
    program ends with the code of the quit message; when a component failed to start, with the code of that failure,
    which is not 0, and the main loop is not entered.  The shutdown runs in both cases, on the state that was reached,
    and its own result is not reported; after a full startup it runs all the stages that undo it, if it succeeds. *)
Theorem main_exit_code {Inv Taken Ended Final : W → Prop} {quit_in : W → nat} {code : Z} (L : LoopLaws E Inv Taken Ended Final quit_in code)
    tail fuel argc argv st e st1 T maxEl :
  NkApplicationStartup C tail (main_specs argc argv) st = Ret (e, st1) →
  (e = NkErr_Ok → Inv (app_world st1) ∧ whole_rate (ticksPerUpdate (f32_of_Z (freq (app_world st1)))) = Some T ∧
     maxElapsed (f32_of_Z (freq (app_world st1))) = Ret maxEl ∧ T + maxEl < 2 ^ 24 ∧
     (quit_in (app_world st1) + Z.to_nat (maxEl / T) + 2 ≤ fuel)%nat) →
  ∃ st2, main C E freq tail fuel argc argv st =
      ('(_, st') ← NkApplicationShutdown C st2; Ret (if isOk e then code else code_number e, st')) ∧
    (if isOk e then ∃ w, st2 = with_world st1 w ∧ Final w else code_number e ≠ 0 ∧ st2 = st1) ∧
    (e = NkErr_Ok → ∀ st', NkApplicationShutdown C st2 = Ret (NkErr_Ok, st') →
       stage_log st' = stage_log st ++ concat (startup_of (R:=R) C <$> zrange 0 15) ++ concat (shutdown_of (R:=R) C <$> reverse (zrange 0 15))).
Proof.
  intros Hs Hok. unfold main. rewrite Hs. step. unfold isOk. case_bool_decide as He; cbn [negb].
  - destruct (Hok He) as (Hi & HT & Hmax & Hsmall & Hf).
    destruct (main_loop_leaves E L _ T maxEl fuel (app_world st1) Hi HT Hmax Hsmall Hf) as (w & -> & HF). step.
    exists (with_world st1 w). split; [done|]. split; [by exists w|]. intros _ st' Hd. subst e. revert Hs Hd.
    unfold NkApplicationStartup, NkApplicationShutdown.
    destruct (isOk (ValidateAppSpecification _)) eqn:Hv; cbn [negb]; [|intros [= K _]; by rewrite K in Hv].
    intros Hs Hd. apply startup_loop_spec in Hs. change (isOk NkErr_Ok) with true in Hs. destruct Hs as (Hl & Hi' & Hf').
    cbn [with_world m_compIndex] in Hd. rewrite Hi' in Hd. apply (shutdown_loop_spec C 15) in Hd as (l & Hl2 & _ & Hall).
    rewrite Hl2. cbn [with_world stage_log m_compSucc] in *. rewrite Hall, Hl by done. by rewrite <- app_assoc.
  - step. exists st1. split; [done|]. split; [split; [by destruct e|done]|done].
Qed.
End program.

(** ** Worlds to run in *)
(** The number of answers of the message queue before it says to quit with code 7; every second one is a message. *)
Definition toy_run : RunEnv (W := nat) := {|
  acquire_renderer w := Ret w;
  timer_ticks w := (12345, w);
  peek_message w := match w with O => (Some (true, 7), O) | S n => (if Nat.even n then None else Some (false, 0), n) end;
  dispatch_message _ w := Ret w;
  on_update _ w := Ret w;
  on_render _ w := Ret w;
  begin_draw w := Ret w;
  end_draw w := Ret w;
  release_all _ := Ret O;
  post_quit_message _ w := w
|}.
Lemma toy_run_laws : LoopLaws toy_run (λ _, True) (λ _, True) (λ _, True) (λ w, w = O) (λ w, S w) 7.
Proof.
  split; cbn; intros; try by eauto.
  - destruct w as [|n]; [by do 2 eexists|]. do 2 eexists. split; [done|]. destruct (Nat.even n); (split; [done|lia]).
Qed.
(** The counter of Windows runs at ten megahertz. *)
Lemma main_loop_leaves_witness : ∃ w', NkApplicationRun toy_run 9 10000000 5%nat = Ret (7, w') ∧ w' = O.
Proof.
  apply (main_loop_leaves toy_run toy_run_laws 10000000 83330 160000 9%nat 5%nat).
  - exact I.
  - vm_compute. reflexivity.
  - vm_compute. reflexivity.
  - lia.
  - apply Nat.leb_le. vm_compute. reflexivity.
Defined.
(** A quit message with code 7 at once. *)
Definition quit_run : RunEnv (W := gmap Z Z) := {|
  acquire_renderer w := Ret w;
  timer_ticks w := (0, w);
  peek_message w := (Some (true, 7), w);
  dispatch_message _ w := Ret w;
  on_update _ w := Ret w;
  on_render _ w := Ret w;
  begin_draw w := Ret w;
  end_draw w := Ret w;
  release_all w := Ret w;
  post_quit_message _ w := w
|}.
Notation toy_main C := (@main _ _ example_registry (example_objects []) C quit_run (λ _, 10000000) 5 3 1 1000 example_app).
Definition toy_ended (C : Components (gmap Z Z)) : Application NkHashtable (gmap Z Z) := match toy_main C with Ret (_, st) => st | _ => example_app end.
Lemma quit_run_laws w0 : LoopLaws quit_run (λ w, w = w0) (λ _, False) (λ w, w = w0) (λ w, w = w0) (λ _, O) 7.
Proof. split; cbn; intros; try done; subst; eauto. by do 2 eexists. Qed.
Definition toy_started (C : Components (gmap Z Z)) : Application NkHashtable (gmap Z Z) :=
  match @NkApplicationStartup _ _ example_registry (example_objects []) C 5 (main_specs 1 1000) example_app with Ret (_, st1) => st1 | _ => example_app end.
(** The quit message after a full startup, and a path service that fails to start. *)
Lemma main_exit_code_witness :
  toy_main example_components = Ret (7, toy_ended example_components) ∧
  toy_main failing_components = Ret (code_number NkErr_OpenFile, toy_ended failing_components).
Proof.
  split.
  - destruct (@main_exit_code _ _ example_registry (example_objects []) example_components quit_run (λ _, 10000000)
      _ _ _ _ _ _ (quit_run_laws (app_world (toy_started example_components))) 5 3 1 1000 example_app NkErr_Ok (toy_started example_components) 83330 160000)
      as (st2 & Hm & (w & -> & ->) & _).
    + vm_compute. reflexivity.
    + intros _. split; [reflexivity|]. split; [vm_compute; reflexivity|]. split; [vm_compute; reflexivity|]. split; [lia|]. apply Nat.leb_le. vm_compute. reflexivity.
    + rewrite Hm. vm_compute. reflexivity.
  - destruct (@main_exit_code _ _ example_registry (example_objects []) failing_components quit_run (λ _, 10000000)
      _ _ _ _ _ _ (quit_run_laws ∅) 5 3 1 1000 example_app NkErr_OpenFile (toy_started failing_components) 0 0)
      as (st2 & Hm & (_ & ->) & _).
    + vm_compute. reflexivity.
    + intros K. discriminate K.
    + rewrite Hm. vm_compute. reflexivity.
Defined.
Example main_quits : match toy_main example_components with Ret (c, _) => c | _ => 0 end = 7.
Proof. vm_compute. reflexivity. Qed.
