(* ===== verification/NkStr.v ===== *)
(** * [src/Noriko/dstruct/string.c]: mutable run-time strings

    Strings in a memory of blocks.  The signedness of [char] is a parameter of the
    model, since the size table of the UTF-8 characters is indexed with a [char];
    so is the number of bytes the allocator really hands out for a request. *)
From S2P Require Import Prelude CStr Float32 Alloc.

(** ** Data *)

(** Blocks of memory by their address, and what the allocator does: the address for a
    request, the size of the block behind it, the address after a reallocation. *)
Abbreviation memory := (gmap Z (list Z)).
Class Allocator := {
  galloc : Z → option Z;
  grealloc : Z → Z → option Z;
  usable : Z → Z
}.
Record NkString := mkString {
  m_currSize : Z;
  m_currLen : Z;
  mp_charBuf : Z
}.
(** A view: the offset of its first byte in the string's buffer and its size. *)
Record SubView := mkSubView { mp_dataPtr : Z; m_sizeInBytes : Z }.

Definition resize_block (n : Z) (b : list Z) : list Z := resize (Z.to_nat n) (0 : Z) b.

Section string.
Context `{CharType} `{Allocator}.

(** ** Characters *)

(** Eight rows of 32 entries. *)
Definition gl_c_Utf8CharSizes : list Z :=
  replicate 128 1%Z ++ replicate 64 0%Z ++ (replicate 2 0%Z ++ replicate 30 2%Z) ++
  (replicate 16 3%Z ++ replicate 5 4%Z ++ replicate 11 0%Z).

(** A pointer into a block [b] is an offset. *)
Definition CharSize (b : list Z) (encChar : Z) : outcome Z :=
  c ← buf_get b encChar;
  buf_get gl_c_Utf8CharSizes (char_value c).

Fixpoint goto_loop (off : nat) (b : list Z) (u8Str : Z) : outcome Z :=
  c ← buf_get b u8Str;
  match off with
  | O => Ret u8Str
  | S off =>
      if c =? 0 then Ret u8Str
      else n ← CharSize b u8Str; goto_loop off b (u8Str + n)
  end.
Definition Goto (b : list Z) (u8Str off : Z) : outcome Z := goto_loop (Z.to_nat off) b u8Str.

Definition CalcSubstr (b : list Z) (strPtr start maxCount : Z) : outcome SubView :=
  NK_ASSERT (maxCount >? 0) NkErr_InParameter;;
  startPtr ← Goto b strPtr start;
  endPtr ← Goto b startPtr (maxCount - 1);
  Ret (mkSubView startPtr (endPtr - startPtr)).

Fixpoint strlen_loop (fuel : nat) (b : list Z) (strPtr currLen : Z) : outcome Z :=
  match fuel with
  | O => OutOfFuel
  | S fuel =>
      c ← buf_get b strPtr;
      if c =? 0 then Ret currLen
      else n ← CharSize b strPtr; strlen_loop fuel b (strPtr + n) (u32 (currLen + 1))
  end.
(** Every character takes at least one byte of the block, unless the loop stands still. *)
Definition Strlen (b : list Z) (strPtr : Z) : outcome Z := strlen_loop (S (length b)) b strPtr 0.

(** ** Creating and destroying *)

Fixpoint create_loop (n : nat) (i count : Z) (src buf : list Z) : outcome (list Z) :=
  match n with
  | O => Ret buf
  | S n => buf ← buf_write buf (i * count) src; create_loop n (i + 1) count src buf
  end.
(** [fromStr] is a C string, without its NUL. *)
Definition NkStringCreate (fromStr : option (list Z)) (count : Z) (mem : memory)
    : outcome (NkErrorCode * option NkString * memory) :=
  NK_ASSERT (count >? 0) NkErr_InParameter;;
  let len := match fromStr with Some s => Z.of_nat (length s) | None => 1 end in
  let bufSize := u64 (u64 (len * count) + 1) in
  '(errCode, charBuf) ← NkGPAlloc galloc bufSize 0;
  if negb (isOk errCode) then Ret (errCode, None, mem)
  else
    let buf := replicate (Z.to_nat (usable bufSize)) 0%Z in
    buf ← match fromStr with
          | Some s => create_loop (Z.to_nat count) 0 count (take (Z.to_nat ((bufSize - 1) / count)) s) buf
          | None => Ret buf
          end;
    buf ← buf_set buf bufSize 0;
    Ret (NkErr_Ok,
         Some (mkString (u32 bufSize) (if fromStr then u32 bufSize else 0) charBuf),
         <[charBuf := buf]> mem).

Definition NkStringCreateView (srcPtr : NkString) (start maxCount : Z) (mem : memory)
    : outcome (NkErrorCode * SubView) :=
  b ← get_or Undef (mem !! mp_charBuf srcPtr);
  v ← CalcSubstr b 0 start maxCount;
  Ret (NkErr_Ok, v).

Definition NkStringDestroy (strPtr : option NkString) (mem : memory) : memory :=
  match strPtr with Some s => delete (mp_charBuf s) mem | None => mem end.

(** ** Changing *)
Definition NkStringClear (s : NkString) (mem : memory) : outcome (NkString * memory) :=
  b ← get_or Undef (mem !! mp_charBuf s);
  b ← buf_set b 0 0;
  Ret (mkString (m_currSize s) 0 (mp_charBuf s), <[mp_charBuf s := b]> mem).

(** The memory after a reallocation of the block at [old] that moved it to [new]. *)
Definition move_block (old new n : Z) (b : list Z) (mem : memory) : memory :=
  <[new := resize_block (usable n) b]> (delete old mem).

(** Growing the buffer for [reqBufSize] bytes: the new address stays in a local variable. *)
Definition join_grow (s : NkString) (reqBufSize : Z) (mem : memory) : outcome (NkString * memory * option NkErrorCode) :=
  newSize ← f_to_u 32 (f_trunc (f32_mul (f32_of_Z reqBufSize) (f32_lit 3 2)));
  b ← get_or Undef (mem !! mp_charBuf s);
  '(errCode, newBuf) ← NkGPRealloc grealloc newSize (mp_charBuf s);
  let mem := if isOk errCode then move_block (mp_charBuf s) newBuf newSize b mem else mem in
  if newBuf =? NULL then Ret (s, mem, Some errCode)
  else Ret (mkString newSize (m_currLen s) (mp_charBuf s), mem, None).
Definition join_copy (s : NkString) (elemStr : list Z) (elemStrlen : Z) (mem : memory) : outcome (NkString * memory) :=
  b ← get_or Undef (mem !! mp_charBuf s);
  src ← buf_read elemStr 0 (u32 (elemStrlen + 1));
  b ← buf_write b (m_currLen s) src;
  Ret (mkString (m_currSize s) (u32 (m_currLen s + elemStrlen)) (mp_charBuf s), <[mp_charBuf s := b]> mem).
(** [elemStr] is the block from the pointer on, its [strlen] is taken for [UINT32_MAX]. *)
Definition NkStringJoin (s : NkString) (elemStr : list Z) (strLen : Z) (mem : memory)
    : outcome (NkErrorCode * NkString * memory) :=
  c ← buf_get elemStr 0;
  if c =? 0 then Ret (NkErr_NoOperation, s, mem)
  else
    let elemStrlen := if strLen =? UINT32_MAX then u32 (Z.of_nat (length (cut_nul elemStr))) else strLen in
    let '(fits, reqBufSize) := NkCheckedUint32Add (m_currLen s) elemStrlen in
    if negb fits then Ret (NkErr_UnsignedWrapAround, s, mem)
    else
      '(s, mem, failed) ← (if reqBufSize >? m_currSize s then join_grow s reqBufSize mem else Ret (s, mem, None));
      match failed with
      | Some errCode => Ret (errCode, s, mem)
      | None => '(s, mem) ← join_copy s elemStr elemStrlen mem; Ret (NkErr_Ok, s, mem)
      end.

(** ** Reading *)
Definition NkStringGetLength (s : NkString) (mem : memory) : outcome Z :=
  b ← get_or Undef (mem !! mp_charBuf s);
  Strlen b 0.

(** The end of the string is tested on the pointer, not on the character. *)
Fixpoint at_loop (off : nat) (base : Z) (b : list Z) (currIter : Z) : outcome Z :=
  match off with
  | O => Ret (base + currIter)
  | S off =>
      n ← CharSize b currIter;
      if base + (currIter + n) =? NULL then Ret NULL
      else at_loop off base b (currIter + n)
  end.
Definition NkStringAt (s : NkString) (off : Z) (mem : memory) : outcome Z :=
  b ← get_or Undef (mem !! mp_charBuf s);
  at_loop (Z.to_nat off) (mp_charBuf s) b 0.

(** [None] is the null pointer. *)
Definition NkStringIterate (b : list Z) (strPtr : Z) : outcome (option Z) :=
  c ← buf_get b strPtr;
  if c =? 0 then Ret None else p ← Goto b strPtr 1; Ret (Some p).
End string.

(** ** UTF-8 text *)
Definition utf8_enc (c : Z) : list Z :=
  if c <? 128 then [c]
  else if c <? 2048 then [192 + c / 64; 128 + c mod 64]
  else if c <? 65536 then [224 + c / 4096; 128 + c / 64 mod 64; 128 + c mod 64]
  else [240 + c / 262144; 128 + c / 4096 mod 64; 128 + c / 64 mod 64; 128 + c mod 64].
Definition utf8 (cs : list Z) : list Z := cs ≫= utf8_enc.

(** The characters the size table is right for: code points other than NUL, and only
    ASCII where [char] is signed. *)
Definition char_ok `{CharType} (c : Z) : Prop := 0 < c < 1114112 ∧ (char_is_signed = true → c < 128).

Lemma utf8_cons c cs : utf8 (c :: cs) = utf8_enc c ++ utf8 cs.
Proof. done. Qed.
Lemma utf8_app cs ds : utf8 (cs ++ ds) = utf8 cs ++ utf8 ds.
Proof. apply bind_app. Qed.
Lemma utf8_enc_cons c : ∃ x l, utf8_enc c = x :: l.
Proof. unfold utf8_enc. repeat case_match; eauto. Qed.
Lemma utf8_ascii cs : Forall (λ c, c < 128) cs → utf8 cs = cs.
Proof.
  induction 1 as [|c cs Hc _ IH]; [done|]. rewrite utf8_cons, IH. unfold utf8_enc.
  by rewrite (proj2 (Z.ltb_lt c 128)).
Qed.
Lemma utf8_lead c : 0 < c < 1114112 →
  ∃ x l, utf8_enc c = x :: l ∧ 0 < x < 256 ∧ buf_get gl_c_Utf8CharSizes x = Ret (Z.of_nat (length (utf8_enc c))) ∧
    (c < 128 → x = c).
Proof.
  intros Hc. pose proof (zrange_all (λ x, buf_get gl_c_Utf8CharSizes x = Ret 1) 0 128) as H1.
  pose proof (zrange_all (λ x, buf_get gl_c_Utf8CharSizes x = Ret 2) 194 30) as H2.
  pose proof (zrange_all (λ x, buf_get gl_c_Utf8CharSizes x = Ret 3) 224 16) as H3.
  pose proof (zrange_all (λ x, buf_get gl_c_Utf8CharSizes x = Ret 4) 240 5) as H4.
  unfold utf8_enc. destruct (Z.ltb_spec c 128) as [|Hc1]; [|destruct (Z.ltb_spec c 2048) as [|Hc2];
    [|destruct (Z.ltb_spec c 65536)]]; do 2 eexists; (split; [done|]);
    (split; [Z.to_euclidean_division_equations; lia|]); (split; [|lia]).
  - apply H1; [repeat constructor|lia].
  - apply H2; [repeat constructor|Z.to_euclidean_division_equations; lia].
  - apply H3; [repeat constructor|Z.to_euclidean_division_equations; lia].
  - apply H4; [repeat constructor|Z.to_euclidean_division_equations; lia].
Qed.

Section utf8.
Context `{CharType}.

(** The character at a position: its first byte is not NUL and its size is right. *)
Lemma utf8_char_at pre c post :
  char_ok c → ∃ x, x ≠ 0 ∧ buf_get (pre ++ utf8_enc c ++ post) (Z.of_nat (length pre)) = Ret x ∧
    CharSize (pre ++ utf8_enc c ++ post) (Z.of_nat (length pre)) = Ret (Z.of_nat (length (utf8_enc c))).
Proof.
  intros [Hc Hs]. destruct (utf8_lead c Hc) as (x & l & E & Hx & Hsz & Hasc). exists x. split; [lia|].
  assert (Hget : buf_get (pre ++ utf8_enc c ++ post) (Z.of_nat (length pre)) = Ret x)
    by (rewrite E; apply buf_get_middle).
  split; [done|]. unfold CharSize. rewrite Hget, bind_Ret, char_value_ok; [done|lia|].
  intros Hsig. rewrite Hasc by auto. auto.
Qed.

(** A position reached by walking over whole characters. *)
Lemma pos_next pre c : Z.of_nat (length pre) + Z.of_nat (length (utf8_enc c)) = Z.of_nat (length (pre ++ utf8_enc c)).
Proof. rewrite length_app. lia. Qed.

Lemma goto_loop_spec off pre cs post :
  Forall char_ok cs →
  goto_loop off (pre ++ utf8 cs ++ 0 :: post) (Z.of_nat (length pre)) =
    Ret (Z.of_nat (length pre) + Z.of_nat (length (utf8 (take off cs)))).
Proof.
  intros Hcs. revert off pre. induction Hcs as [|c cs Hc _ IH]; intros off pre.
  - replace (take off (@nil Z)) with (@nil Z) by (by destruct off). change (utf8 [] ++ 0 :: post) with (0 :: post).
    destruct off; cbn [goto_loop]; rewrite buf_get_middle, bind_Ret; simpl; f_equal; lia.
  - rewrite utf8_cons, <-(assoc_L (++)). destruct (utf8_char_at pre c (utf8 cs ++ 0 :: post) Hc) as (x & Hx & Hget & Hsz).
    destruct off as [|off]; cbn [goto_loop take]; rewrite Hget, bind_Ret; [f_equal; simpl; lia|].
    rewrite (proj2 (Z.eqb_neq x 0)), Hsz, bind_Ret, pos_next by done.
    rewrite (assoc_L (++) pre), IH, utf8_cons, !length_app. f_equal. lia.
Qed.
Lemma goto_spec off pre cs post :
  Forall char_ok cs → 0 ≤ off →
  Goto (pre ++ utf8 cs ++ 0 :: post) (Z.of_nat (length pre)) off =
    Ret (Z.of_nat (length (pre ++ utf8 (take (Z.to_nat off) cs)))).
Proof. intros Hcs Hoff. unfold Goto. rewrite goto_loop_spec, length_app by done. f_equal. lia. Qed.

Lemma strlen_loop_spec fuel pre cs post n :
  Forall char_ok cs → (length cs < fuel)%nat → is_u 32 n →
  strlen_loop fuel (pre ++ utf8 cs ++ 0 :: post) (Z.of_nat (length pre)) n = Ret (u32 (n + Z.of_nat (length cs))).
Proof.
  intros Hcs. revert fuel pre n. induction Hcs as [|c cs Hc _ IH]; intros [|fuel] pre n Hf Hn; cbn [length] in Hf;
    [lia| |lia|]; cbn [strlen_loop].
  - change (utf8 [] ++ 0 :: post) with (0 :: post). rewrite buf_get_middle, bind_Ret, Z.eqb_refl.
    change (Z.of_nat (length (@nil Z))) with 0. by rewrite Z.add_0_r, wrapN_small.
  - rewrite utf8_cons, <-(assoc_L (++)). destruct (utf8_char_at pre c (utf8 cs ++ 0 :: post) Hc) as (x & Hx & -> & ->).
    rewrite !bind_Ret, (proj2 (Z.eqb_neq x 0)), pos_next by done.
    rewrite (assoc_L (++) pre), IH; [|lia|by apply wrapN_range]. f_equal. unfold wrapN.
    rewrite Zplus_mod_idemp_l. f_equal. cbn [length]. lia.
Qed.
Lemma utf8_length cs : (length cs ≤ length (utf8 cs))%nat.
Proof.
  induction cs as [|c cs IH]; [done|]. rewrite utf8_cons, length_app. destruct (utf8_enc_cons c) as (x & l & ->).
  cbn [length]. lia.
Qed.
Lemma strlen_spec cs post :
  Forall char_ok cs → Strlen (utf8 cs ++ 0 :: post) 0 = Ret (u32 (Z.of_nat (length cs))).
Proof.
  intros Hcs. unfold Strlen. pose proof (utf8_length cs).
  apply (strlen_loop_spec _ [] cs post 0); [done| |done]. rewrite length_app. lia.
Qed.

Lemma at_loop_spec off base pre cs post :
  Forall char_ok cs → (off ≤ length cs)%nat → 0 < base →
  at_loop off base (pre ++ utf8 cs ++ 0 :: post) (Z.of_nat (length pre)) =
    Ret (base + Z.of_nat (length (pre ++ utf8 (take off cs)))).
Proof.
  intros Hcs. revert off pre. induction Hcs as [|c cs Hc _ IH]; intros [|off] pre Hoff Hb; cbn [length] in Hoff;
    cbn [at_loop take]; try lia; [by rewrite app_nil_r..|].
  rewrite !utf8_cons, <-(assoc_L (++)). destruct (utf8_char_at pre c (utf8 cs ++ 0 :: post) Hc) as (x & _ & _ & ->).
  rewrite bind_Ret, pos_next, (proj2 (Z.eqb_neq _ NULL)) by (unfold NULL; lia).
  rewrite (assoc_L (++) pre), IH by (done || lia). by rewrite <-(assoc_L (++)).
Qed.
End utf8.

(** ** Reading a text *)

(** The string's buffer holds the text of these characters. *)
Definition holds `{CharType} (mem : memory) (s : NkString) (cs : list Z) : Prop :=
  0 < mp_charBuf s ∧ Forall char_ok cs ∧ Z.of_nat (length cs) < 2 ^ 32 ∧
  ∃ post, mem !! mp_charBuf s = Some (utf8 cs ++ 0 :: post).

Section reading.
Context `{CharType}.

(** One step of the iteration, and its end. *)
Lemma iterate_next pre c es post :
  char_ok c → Forall char_ok es →
  NkStringIterate (pre ++ utf8_enc c ++ utf8 es ++ 0 :: post) (Z.of_nat (length pre)) =
    Ret (Some (Z.of_nat (length (pre ++ utf8_enc c)))).
Proof.
  intros Hc Hes. unfold NkStringIterate.
  destruct (utf8_char_at pre c (utf8 es ++ 0 :: post) Hc) as (x & Hx & -> & _).
  rewrite bind_Ret, (proj2 (Z.eqb_neq x 0)) by done.
  pose proof (goto_spec 1 pre (c :: es) post) as Hg. rewrite utf8_cons, <-(assoc_L (++)) in Hg.
  rewrite Hg by (done || by constructor). change (Z.to_nat 1) with 1%nat. cbn [take].
  by rewrite bind_Ret, utf8_cons, app_nil_r.
Qed.
Lemma iterate_end pre post : NkStringIterate (pre ++ 0 :: post) (Z.of_nat (length pre)) = Ret None.
Proof. unfold NkStringIterate. by rewrite buf_get_middle. Qed.

(** C30: on a buffer with the UTF-8 text of [cs], [NkStringGetLength] counts the characters,
    [NkStringAt] returns the address of the character with the given index (of the NUL for the length),
    and [NkStringIterate] goes from each character to the next and ends at the NUL.  Where [char] is
    signed this is about ASCII text only. *)
Theorem string_utf8_reference mem s cs :
  holds mem s cs →
  NkStringGetLength s mem = Ret (Z.of_nat (length cs)) ∧
  (∀ off, 0 ≤ off ≤ Z.of_nat (length cs) →
     NkStringAt s off mem = Ret (mp_charBuf s + Z.of_nat (length (utf8 (take (Z.to_nat off) cs))))) ∧
  ∀ b, mem !! mp_charBuf s = Some b →
    (∀ ds c es, cs = ds ++ c :: es →
       NkStringIterate b (Z.of_nat (length (utf8 ds))) = Ret (Some (Z.of_nat (length (utf8 (ds ++ [c])))))) ∧
    NkStringIterate b (Z.of_nat (length (utf8 cs))) = Ret None.
Proof.
  intros (Hb & Hcs & Hlen & post & Hm). split_and!.
  - unfold NkStringGetLength. rewrite Hm. cbn [get_or]. rewrite bind_Ret, strlen_spec, wrapN_small by (done || (split; lia)). done.
  - intros off Hoff. unfold NkStringAt. rewrite Hm. cbn [get_or]. rewrite bind_Ret.
    by rewrite (at_loop_spec _ _ [] cs post) by (done || lia).
  - intros b E. rewrite Hm in E. injection E as <-. split.
    + intros ds c es ->. rewrite Forall_app, Forall_cons_iff in Hcs. destruct Hcs as (Hds & Hc & Hes).
      rewrite utf8_app, utf8_cons, <-!(assoc_L (++)), iterate_next by done. by rewrite utf8_app, utf8_cons, app_nil_r.
    + apply iterate_end.
Qed.

(** A view of [maxCount] characters from character [start] on has one character less: it
    starts at the character [start] and holds the text of the [maxCount - 1] characters from there. *)
Theorem string_view_short mem s cs start maxCount :
  holds mem s cs → 0 ≤ start → 0 < maxCount →
  ∃ b v, mem !! mp_charBuf s = Some b ∧ NkStringCreateView s start maxCount mem = Ret (NkErr_Ok, v) ∧
    mp_dataPtr v = Z.of_nat (length (utf8 (take (Z.to_nat start) cs))) ∧
    buf_read b (mp_dataPtr v) (m_sizeInBytes v) = Ret (utf8 (take (Z.to_nat (maxCount - 1)) (drop (Z.to_nat start) cs))).
Proof.
  intros (Hb & Hcs & Hlen & post & Hm) Hst Hmax. unfold NkStringCreateView. rewrite Hm. cbn [get_or]. rewrite bind_Ret.
  unfold CalcSubstr. rewrite (proj2 (Z.gtb_lt maxCount 0)) by done. cbn [NK_ASSERT]. rewrite bind_Ret.
  rewrite (goto_spec start [] cs post), bind_Ret by done. cbn [app].
  assert (Hd : Forall char_ok (drop (Z.to_nat start) cs)) by by apply Forall_drop.
  pose proof (goto_spec (maxCount - 1) (utf8 (take (Z.to_nat start) cs)) _ post Hd) as Hg.
  rewrite (assoc_L (++)), <-utf8_app, take_drop in Hg. rewrite Hg, bind_Ret by lia.
  do 2 eexists. split_and!; [done..|]. cbn [mp_dataPtr m_sizeInBytes].
  set (vs := utf8 (take (Z.to_nat (maxCount - 1)) (drop (Z.to_nat start) cs))).
  assert (E : utf8 cs ++ 0 :: post = utf8 (take (Z.to_nat start) cs) ++ vs ++
    (utf8 (drop (Z.to_nat (maxCount - 1)) (drop (Z.to_nat start) cs)) ++ 0 :: post)).
  { unfold vs. rewrite !(assoc_L (++)), <-(assoc_L (++) (utf8 _) (utf8 _) (utf8 _)), <-utf8_app, take_drop, <-utf8_app.
    by rewrite take_drop. }
  rewrite E, length_app. clearbody vs.
  replace (Z.of_nat (length (utf8 (take (Z.to_nat start) cs)) + length vs) - _) with (Z.of_nat (length vs)) by lia.
  destruct (decide (vs = [])) as [->|Hne]; [done|].
  rewrite buf_read_in by (rewrite ?length_app; lia). by rewrite !Nat2Z.id, drop_app_length, take_app_length.
Qed.
End reading.

(** *** Signed characters *)

(** Where [char] is signed, as it is for the Windows compilers, the first byte of any character
    outside ASCII is a negative index into the size table: the length of a string with such a character
    is undefined, and so is going past it. *)
Theorem string_signed_non_ascii `{CharType} mem s cs x post :
  char_is_signed = true → Forall char_ok cs → Z.of_nat (length cs) < 2 ^ 32 → 128 ≤ x < 256 →
  mem !! mp_charBuf s = Some (utf8 cs ++ x :: post) →
  NkStringGetLength s mem = Undef ∧
  NkStringIterate (utf8 cs ++ x :: post) (Z.of_nat (length (utf8 cs))) = Undef.
Proof.
  intros Hsig Hcs Hlen Hx Hm.
  assert (Hbad : ∀ pre, CharSize (pre ++ x :: post) (Z.of_nat (length pre)) = Undef).
  { intros pre. unfold CharSize. rewrite buf_get_middle, bind_Ret. apply buf_get_out. unfold char_value. rewrite Hsig.
    unfold swrapN. change (2 ^ (8 - 1)) with 128. change (2 ^ 8) with 256. Z.to_euclidean_division_equations; lia. }
  split.
  - unfold NkStringGetLength. rewrite Hm. cbn [get_or]. rewrite bind_Ret. unfold Strlen.
    assert (Hgen : ∀ fuel pre n, (length cs < fuel)%nat →
      strlen_loop fuel (pre ++ utf8 cs ++ x :: post) (Z.of_nat (length pre)) n = Undef).
    { clear Hm Hlen. induction Hcs as [|c cs Hc _ IH]; intros [|fuel] pre n Hf; cbn [length] in Hf; [lia| |lia|];
        cbn [strlen_loop].
      - change (utf8 [] ++ x :: post) with (x :: post). rewrite buf_get_middle, bind_Ret.
        by rewrite (proj2 (Z.eqb_neq x 0)), Hbad by lia.
      - rewrite utf8_cons, <-(assoc_L (++)). destruct (utf8_char_at pre c (utf8 cs ++ x :: post) Hc) as (y & Hy & -> & ->).
        rewrite !bind_Ret, (proj2 (Z.eqb_neq y 0)), pos_next by done. rewrite (assoc_L (++) pre). apply IH. lia. }
    apply (Hgen _ []). rewrite length_app. pose proof (utf8_length cs). lia.
  - unfold NkStringIterate. rewrite buf_get_middle, bind_Ret, (proj2 (Z.eqb_neq x 0)) by lia. unfold Goto.
    change (Z.to_nat 1) with 1%nat. cbn [goto_loop]. rewrite buf_get_middle, bind_Ret, (proj2 (Z.eqb_neq x 0)) by lia.
    by rewrite Hbad.
Qed.

(** *** Unsigned characters that are not UTF-8 *)

(** A byte with size 0 in the table stops the loop on the spot: it never ends. *)
Lemma strlen_stuck `{CharType} fuel x post n :
  char_is_signed = false → x ≠ 0 → buf_get gl_c_Utf8CharSizes x = Ret 0 →
  strlen_loop fuel (x :: post) 0 n = OutOfFuel.
Proof.
  intros Hsig Hx Hsz. pose proof (buf_get_middle [] post x) as Hg. cbn [app length] in Hg. change (Z.of_nat 0) with 0 in Hg.
  revert n. induction fuel as [|fuel IH]; intros n; cbn [strlen_loop]; [done|].
  unfold CharSize, char_value. rewrite !Hg, !bind_Ret, (proj2 (Z.eqb_neq x 0)), Hsig, Hsz, bind_Ret by done.
  apply IH.
Qed.

(** ** Creating *)
Section creating.
Context `{CharType} `{Allocator}.

Lemma cut_nul_app t post : Forall (λ x, x ≠ 0) t → cut_nul (t ++ 0 :: post) = t.
Proof. induction 1 as [|x t Hx _ IH]; [done|]. cbn [app cut_nul]. by rewrite (proj2 (Z.eqb_neq x 0)), IH. Qed.

(** One copy of [t] at the start of a fresh buffer. *)
Lemma create_once t n : (length t ≤ n)%nat →
  create_loop 1 0 1 t (replicate n 0) = Ret (t ++ replicate (n - length t) 0).
Proof.
  intros Hn. cbn [create_loop]. destruct (decide (t = [])) as [->|Ht].
  - unfold buf_write. cbn [length Nat.eqb]. rewrite bind_Ret, Nat.sub_0_r. done.
  - rewrite buf_write_in by (rewrite ?length_replicate; lia). rewrite bind_Ret. f_equal.
    change (Z.to_nat (0 * 1)) with 0%nat. cbn [take app Nat.add]. by rewrite drop_replicate.
Qed.

(** [NkStringCreate] writes the final NUL one byte behind the memory it asked for: undefined on an
    allocator that gives exactly what is asked.  When there is a byte more, the text is copied and
    terminated, but the length recorded is one more than the length of the text. *)
Theorem string_create_off_by_one t mem base :
  Forall (λ x, x ≠ 0) t → Z.of_nat (length t) < 2 ^ 32 - 1 →
  galloc (Z.of_nat (length t) + 1) = Some base →
  let n := Z.of_nat (length t) + 1 in
  (usable n = n → NkStringCreate (Some t) 1 mem = Undef) ∧
  (n < usable n → ∃ b, NkStringCreate (Some t) 1 mem = Ret (NkErr_Ok, Some (mkString n n base), <[base := b]> mem) ∧
     cut_nul b = t ∧ length b = Z.to_nat (usable n)).
Proof.
  intros Ht Hlen Hal n. unfold NkStringCreate. change (1 >? 0) with true. cbn [NK_ASSERT]. rewrite bind_Ret.
  rewrite Z.mul_1_r, (wrapN_small 64 (Z.of_nat (length t))), (wrapN_small 64 (Z.of_nat (length t) + 1)) by (split; lia).
  fold n. rewrite (gp_alloc_some galloc n base), bind_Ret by (done || lia). ok_step.
  rewrite Z.div_1_r. replace (take (Z.to_nat (n - 1)) t) with t by (symmetry; apply take_ge; lia).
  change (Z.to_nat 1) with 1%nat. split; intros Hu.
  - rewrite Hu, create_once, bind_Ret by lia. unfold buf_set, in_buf.
    rewrite (proj2 (Z.ltb_ge n _)), andb_false_r by (rewrite length_app, length_replicate; lia). done.
  - rewrite create_once, bind_Ret by lia.
    rewrite buf_set_in, bind_Ret by (rewrite length_app, length_replicate; lia). rewrite (wrapN_small 32 n) by (split; lia).
    eexists. split; [done|]. split; [|rewrite length_insert, length_app, length_replicate; lia].
    replace (Z.to_nat (usable n) - length t)%nat with (S (S (Z.to_nat (usable n) - length t - 2))) by lia.
    replace (Z.to_nat n) with (length t + 1)%nat by lia. rewrite insert_app_r. cbn [replicate insert list_insert].
    by apply cut_nul_app.
Qed.

(** ** Joining *)

(** A string that is being built, in a block of [n] bytes: the length recorded is the length of the text,
    as it is for an empty string made from the null pointer and after [NkStringClear]. *)
Definition builder (n : nat) (mem : memory) (s : NkString) (t : list Z) : Prop :=
  0 ≤ m_currSize s < 2 ^ 32 - 1 ∧ m_currLen s = Z.of_nat (length t) ∧ Forall (λ x, x ≠ 0) t ∧
  ∃ post, mem !! mp_charBuf s = Some (t ++ 0 :: post) ∧
    length (t ++ 0 :: post) = n ∧ m_currSize s ≤ Z.of_nat n.

(** The text in the buffer. *)
Lemma builder_text n mem s t b : builder n mem s t → mem !! mp_charBuf s = Some b → cut_nul b = t.
Proof. intros (_ & _ & Ht & post & Hm & _) E. rewrite Hm in E. injection E as <-. by apply cut_nul_app. Qed.

(** Writing a terminated text behind another one. *)
Lemma write_tail t post e rest :
  (length e ≤ length post)%nat →
  buf_write (t ++ 0 :: post) (Z.of_nat (length t)) (take (S (length e)) (e ++ 0 :: rest)) =
    Ret ((t ++ e) ++ 0 :: drop (length e) post).
Proof.
  intros Hl. assert (E : take (S (length e)) (e ++ 0 :: rest) = e ++ [0]).
  { replace (S (length e)) with (length (e ++ [0])) by (rewrite length_app; cbn [length]; lia).
    by rewrite (assoc_L (++) e [0] rest : e ++ 0 :: rest = (e ++ [0]) ++ rest), take_app_length. }
  rewrite E, buf_write_in by (rewrite ?length_app; cbn [length]; lia). f_equal. rewrite Nat2Z.id, take_app_length.
  rewrite <-!(assoc_L (++)). do 2 f_equal. cbn [app]. f_equal.
  rewrite drop_app_ge by lia. replace (length t + length (e ++ [0%Z]) - length t)%nat with (S (length e))
    by (rewrite length_app; cbn [length]; lia). done.
Qed.

(** The way to the copy, for a whole terminated element. *)
Lemma join_start mem s e rest :
  e ≠ [] → Forall (λ x, x ≠ 0) e → 0 ≤ m_currLen s → m_currLen s + Z.of_nat (length e) < 2 ^ 32 - 1 →
  NkStringJoin s (e ++ 0 :: rest) UINT32_MAX mem =
    ('(s, mem, failed) ← (if m_currLen s + Z.of_nat (length e) >? m_currSize s
                          then join_grow s (m_currLen s + Z.of_nat (length e)) mem else Ret (s, mem, None));
     match failed with
     | Some errCode => Ret (errCode, s, mem)
     | None => '(s, mem) ← join_copy s (e ++ 0 :: rest) (Z.of_nat (length e)) mem; Ret (NkErr_Ok, s, mem)
     end).
Proof.
  intros He Hnz Hlen0 Hlen. unfold NkStringJoin. destruct e as [|x e]; [done|].
  pose proof Hnz as Hnz'. apply Forall_cons_iff in Hnz' as [Hx _].
  rewrite (buf_get_middle [] (e ++ 0 :: rest) x : buf_get ((x :: e) ++ 0 :: rest) 0 = Ret x), bind_Ret.
  rewrite (proj2 (Z.eqb_neq x 0)), Z.eqb_refl, cut_nul_app by done. set (el := x :: e) in *.
  rewrite (wrapN_small 32 (Z.of_nat (length el))) by (split; lia).
  unfold NkCheckedUint32Add. rewrite (proj2 (Z.geb_le _ _)) by (unfold UINT32_MAX; lia). cbn [negb].
  by rewrite (wrapN_small 32 (m_currLen s + Z.of_nat (length el))) by (split; lia).
Qed.
Lemma copy_block mem s e rest b :
  mem !! mp_charBuf s = Some b → 0 ≤ m_currLen s → m_currLen s + Z.of_nat (length e) < 2 ^ 32 - 1 →
  join_copy s (e ++ 0 :: rest) (Z.of_nat (length e)) mem =
    (b ← buf_write b (m_currLen s) (take (S (length e)) (e ++ 0 :: rest));
     Ret (mkString (m_currSize s) (m_currLen s + Z.of_nat (length e)) (mp_charBuf s), <[mp_charBuf s := b]> mem)).
Proof.
  intros Hm Hlen0 Hlen. unfold join_copy. rewrite Hm. cbn [get_or].
  rewrite bind_Ret, (wrapN_small 32 (Z.of_nat (length e) + 1)) by (split; lia).
  rewrite buf_read_in, bind_Ret by (rewrite ?length_app; cbn [length]; lia).
  rewrite (wrapN_small 32 (m_currLen s + Z.of_nat (length e))) by (split; lia).
  change (Z.to_nat 0) with 0%nat. rewrite drop_0. by replace (Z.to_nat (Z.of_nat (length e) + 1)) with (S (length e)) by lia.
Qed.

(** Joining within the buffer: there must be room in the block for the NUL, too. *)
Lemma join_fits n mem s t e rest :
  builder n mem s t → e ≠ [] → Forall (λ x, x ≠ 0) e → Z.of_nat (length t + length e) ≤ m_currSize s →
  (length t + length e < n)%nat →
  ∃ s' b', NkStringJoin s (e ++ 0 :: rest) UINT32_MAX mem = Ret (NkErr_Ok, s', <[mp_charBuf s := b']> mem) ∧
    builder n (<[mp_charBuf s := b']> mem) s' (t ++ e) ∧ m_currSize s' = m_currSize s ∧ mp_charBuf s' = mp_charBuf s.
Proof.
  intros (Hsz & Hlen & Ht & post & Hm & Hn & Hroom) He Hnz Hfit Hlt.
  rewrite length_app in Hn. cbn [length] in Hn. rewrite join_start by (done || lia). rewrite Hlen.
  destruct (Z.gtb_spec (Z.of_nat (length t) + Z.of_nat (length e)) (m_currSize s)); [lia|].
  rewrite bind_Ret, (copy_block _ _ _ _ _ Hm), Hlen, write_tail, !bind_Ret by lia. do 2 eexists. split; [done|]. split; [|done].
  split; [done|]. split; [cbn [m_currLen]; rewrite length_app; lia|]. split; [by apply Forall_app|].
  exists (drop (length e) post). cbn [mp_charBuf m_currSize]. rewrite lookup_insert_eq. split; [done|].
  rewrite !length_app. cbn [length]. rewrite length_drop. lia.
Qed.
(** A text that fills the block: the NUL is written behind it. *)
Lemma join_fills n mem s t e rest :
  builder n mem s t → e ≠ [] → Forall (λ x, x ≠ 0) e → Z.of_nat (length t + length e) ≤ m_currSize s →
  (n ≤ length t + length e)%nat →
  NkStringJoin s (e ++ 0 :: rest) UINT32_MAX mem = Undef.
Proof.
  intros (Hsz & Hlen & Ht & post & Hm & Hn & Hroom) He Hnz Hfit Hge.
  rewrite join_start by (done || lia). rewrite Hlen.
  destruct (Z.gtb_spec (Z.of_nat (length t) + Z.of_nat (length e)) (m_currSize s)); [lia|].
  rewrite bind_Ret, (copy_block _ _ _ _ _ Hm), Hlen by lia. unfold buf_write.
  rewrite length_take, length_app, Hn. cbn [length].
  replace (S (length e) `min` (length e + S (length rest)))%nat with (S (length e)) by lia. cbn [Nat.eqb].
  rewrite (proj2 (Z.leb_gt (_ + _) (Z.of_nat n))) by lia. by rewrite andb_false_r.
Qed.

(** The elements one after the other, up to the first error. *)
Fixpoint join_all (es : list (list Z)) (s : NkString) (mem : memory) : outcome (NkErrorCode * NkString * memory) :=
  match es with
  | [] => Ret (NkErr_Ok, s, mem)
  | e :: es =>
      '(errCode, s, mem) ← NkStringJoin s (e ++ [0]) UINT32_MAX mem;
      if isOk errCode then join_all es s mem else Ret (errCode, s, mem)
  end.

Lemma joins_fit es n mem s t :
  builder n mem s t → Forall (λ e, e ≠ [] ∧ Forall (λ x, x ≠ 0) e) es →
  Z.of_nat (length t + length (concat es)) ≤ m_currSize s → (length t + length (concat es) < n)%nat →
  ∃ s' mem', join_all es s mem = Ret (NkErr_Ok, s', mem') ∧ builder n mem' s' (t ++ concat es) ∧
    m_currSize s' = m_currSize s ∧ mp_charBuf s' = mp_charBuf s ∧ delete (mp_charBuf s) mem' = delete (mp_charBuf s) mem.
Proof.
  intros Hb Hes. revert mem s t Hb. induction Hes as [|e es [He Hnz] _ IH]; intros mem s t Hb Hfit Hlt.
  - exists s, mem. split; [done|]. cbn [concat]. by rewrite app_nil_r.
  - cbn [concat join_all] in *. rewrite length_app in Hfit, Hlt.
    destruct (join_fits n mem s t e [] Hb He Hnz) as (s1 & b1 & -> & Hb1 & Hsz & Hbuf); [lia..|].
    rewrite bind_Ret. ok_step. destruct (IH _ s1 (t ++ e) Hb1) as (s2 & mem2 & E & Hb2 & Hsz2 & Hbuf2 & Hd).
    + rewrite length_app, Hsz. lia.
    + rewrite length_app. lia.
    + exists s2, mem2. split; [exact E|]. rewrite <-(assoc_L (++)) in Hb2. rewrite Hbuf in Hbuf2, Hd.
      split; [done|]. split; [congruence|]. split; [done|]. rewrite Hd. apply delete_insert_eq.
Qed.
Lemma joins_fill es n mem s t :
  builder n mem s t → Forall (λ e, e ≠ [] ∧ Forall (λ x, x ≠ 0) e) es →
  Z.of_nat (length t + length (concat es)) ≤ m_currSize s → (n ≤ length t + length (concat es))%nat →
  join_all es s mem = Undef.
Proof.
  intros Hb Hes. revert mem s t Hb. induction Hes as [|e es [He Hnz] _ IH]; intros mem s t Hb Hfit Hge.
  - destruct Hb as (_ & _ & _ & post & _ & Hn & _). rewrite length_app in Hn. cbn [concat length] in *. lia.
  - cbn [concat join_all] in *. rewrite length_app in Hfit, Hge.
    destruct (decide (length t + length e < n)%nat) as [Hlt|Hnlt].
    + destruct (join_fits n mem s t e [] Hb He Hnz) as (s1 & b1 & -> & Hb1 & Hsz & Hbuf); [lia..|].
      rewrite bind_Ret. ok_step. apply (IH _ s1 (t ++ e) Hb1); rewrite length_app; [rewrite Hsz|]; lia.
    + by rewrite (join_fills n mem s t e [] Hb He Hnz) by lia.
Qed.

(** C29: joining non-empty elements to a string that is being built appends them all in order, as long
    as the whole text fits into the recorded size and, with its NUL, into the block: what the string
    then holds is the concatenation.  A text that fills the block to its last byte (which takes an
    allocator that gives no byte more than the recorded size) is undefined: its NUL is written behind
    the block. *)
Theorem string_joins_concat es n mem s t :
  builder n mem s t → Forall (λ e, e ≠ [] ∧ Forall (λ x, x ≠ 0) e) es →
  Z.of_nat (length t + length (concat es)) ≤ m_currSize s →
  if decide (length t + length (concat es) < n)%nat
  then ∃ s' mem' b, join_all es s mem = Ret (NkErr_Ok, s', mem') ∧ builder n mem' s' (t ++ concat es) ∧
    m_currSize s' = m_currSize s ∧ mem' !! mp_charBuf s = Some b ∧ cut_nul b = t ++ concat es ∧
    delete (mp_charBuf s) mem' = delete (mp_charBuf s) mem
  else join_all es s mem = Undef.
Proof.
  intros Hb Hes Hfit. case_decide as Hlt; [|by apply (joins_fill es n mem s t Hb Hes Hfit); lia].
  destruct (joins_fit es n mem s t Hb Hes Hfit Hlt) as (s' & mem' & E & Hb' & Hsz & Hbuf & Hd).
  pose proof Hb' as (_ & _ & _ & post & Hm & _). rewrite Hbuf in Hm. exists s', mem'. eexists.
  split; [done|]. split; [done|]. split; [done|]. split; [done|]. split; [|done].
  eapply builder_text; [done|]. by rewrite Hbuf.
Qed.

(** Joining to a string that was created from a text succeeds and is lost: the recorded length
    counts the NUL of the text, so the element goes behind it and the string still reads as before. *)
Theorem string_join_after_create_lost mem s t e post :
  Forall (λ x, x ≠ 0) t → e ≠ [] → Forall (λ x, x ≠ 0) e →
  m_currLen s = Z.of_nat (length t) + 1 → mem !! mp_charBuf s = Some (t ++ 0 :: post) →
  m_currSize s < 2 ^ 32 - 1 → Z.of_nat (length t + length e) + 1 ≤ m_currSize s → (length e < length post)%nat →
  ∃ s' mem' b, NkStringJoin s (e ++ [0]) UINT32_MAX mem = Ret (NkErr_Ok, s', mem') ∧
    m_currLen s' = m_currLen s + Z.of_nat (length e) ∧ mem' !! mp_charBuf s' = Some b ∧ cut_nul b = t.
Proof.
  intros Ht He Hnz Hlen Hm Hmax Hfit Hpost.
  rewrite join_start by (done || lia). rewrite Hlen.
  destruct (Z.gtb_spec (Z.of_nat (length t) + 1 + Z.of_nat (length e)) (m_currSize s)); [lia|].
  rewrite bind_Ret, (copy_block _ _ _ _ _ Hm), Hlen by lia.
  rewrite buf_write_in by (rewrite ?length_take, ?length_app; cbn [length]; lia). rewrite !bind_Ret.
  do 3 eexists. split; [done|]. cbn [m_currLen mp_charBuf]. rewrite lookup_insert_eq. split; [done|]. split; [done|].
  replace (Z.to_nat (Z.of_nat (length t) + 1)) with (length (t ++ [0])) by (rewrite length_app; cbn [length]; lia).
  rewrite (assoc_L (++) t [0] post : t ++ 0 :: post = (t ++ [0]) ++ post), take_app_length.
  rewrite <-(assoc_L (++)). by apply cut_nul_app.
Qed.

(** Joining beyond the buffer stores the address of the grown buffer in a local variable only: when
    the reallocation moved the block the text is copied into freed memory. *)
Theorem string_join_moved mem s e newSize new b :
  e ≠ [] → Forall (λ x, x ≠ 0) e → 0 ≤ m_currLen s → m_currLen s + Z.of_nat (length e) < 2 ^ 32 - 1 →
  m_currSize s < m_currLen s + Z.of_nat (length e) →
  f_to_u 32 (f_trunc (f32_mul (f32_of_Z (m_currLen s + Z.of_nat (length e))) (f32_lit 3 2))) = Ret newSize →
  newSize ≠ 0 → mp_charBuf s ≠ NULL → mem !! mp_charBuf s = Some b →
  grealloc (mp_charBuf s) newSize = Some new → new ≠ NULL → new ≠ mp_charBuf s →
  NkStringJoin s (e ++ [0]) UINT32_MAX mem = Undef.
Proof.
  intros He Hnz Hlen0 Hlen Hbig Hnew Hns Hbuf Hm Hre Hnn Hmoved. rewrite join_start by done.
  rewrite (proj2 (Z.gtb_lt _ _)) by done. unfold join_grow. rewrite Hnew, bind_Ret, Hm. cbn [get_or]. rewrite bind_Ret.
  unfold NkGPRealloc. rewrite (proj2 (Z.eqb_neq (mp_charBuf s) NULL)), (proj2 (Z.eqb_neq newSize 0)) by done.
  cbn [negb NK_ASSERT]. rewrite !bind_Ret, Hre. ok_step.
  rewrite (proj2 (Z.eqb_neq new NULL)), bind_Ret by done. unfold join_copy, move_block. cbn [mp_charBuf].
  by rewrite lookup_insert_ne, lookup_delete_eq by congruence.
Qed.
End creating.

(** ** Concrete strings *)
(** An allocator that gives exactly what is asked, and one that gives eight bytes more. *)
Definition tight : Allocator := {| galloc n := Some 4096; grealloc a n := Some (a + 65536); usable n := n |}.
Definition roomy : Allocator := {| galloc n := Some 4096; grealloc a n := Some (a + 65536); usable n := n + 8 |}.

(** One character of each size. *)
Definition four_chars : list Z := [97; 233; 8364; 128512].
Definition four_string : NkString := mkString 11 11 4096.
Definition four_mem : memory := {[ 4096 := [97; 195; 169; 226; 130; 172; 240; 159; 152; 128; 0; 0] ]}.
Lemma four_holds : @holds unsigned_char four_mem four_string four_chars.
Proof. split; [done|]. split; [repeat constructor; done|]. split; [done|]. by exists [0]. Qed.

Lemma string_utf8_reference_witness :
  @NkStringGetLength unsigned_char four_string four_mem = Ret 4 ∧
  @NkStringAt unsigned_char four_string 3 four_mem = Ret (4096 + 6).
Proof.
  destruct (@string_utf8_reference unsigned_char _ _ _ four_holds) as (Hl & Ha & _).
  split; [exact Hl|]. rewrite Ha; done.
Defined.
Lemma string_view_short_witness :
  ∃ v, @NkStringCreateView unsigned_char four_string 1 2 four_mem = Ret (NkErr_Ok, v) ∧ mp_dataPtr v = 1.
Proof.
  destruct (@string_view_short unsigned_char _ _ _ 1 2 four_holds) as (b & v & _ & E & Hd & _); [done..|].
  exists v. split; [exact E|]. by rewrite Hd.
Defined.
Lemma string_signed_non_ascii_witness :
  @NkStringGetLength signed_char (mkString 3 3 4096) {[ 4096 := [97; 195; 169; 0] ]} = Undef.
Proof.
  apply (@string_signed_non_ascii signed_char _ _ [97] 195 [169; 0]); [done| |done|done|done].
  constructor; [|constructor]. split; [lia|]. done.
Defined.
Lemma string_create_off_by_one_witness :
  @NkStringCreate tight (Some [97; 98]) 1 ∅ = Undef ∧
  ∃ b, @NkStringCreate roomy (Some [97; 98]) 1 ∅ = Ret (NkErr_Ok, Some (mkString 3 3 4096), {[ 4096 := b ]}) ∧
    cut_nul b = [97; 98].
Proof.
  assert (Hnz : Forall (λ x, x ≠ 0) [97; 98]) by (repeat constructor; done).
  split.
  - by apply (@string_create_off_by_one tight [97; 98] ∅ 4096).
  - destruct (@string_create_off_by_one roomy [97; 98] ∅ 4096) as [_ H]; [done..|].
    destruct H as (b & E & Hb & _); [done|]. by exists b.
Defined.

(** An empty string of five bytes, in a block of 13 and in one of five. *)
Definition empty_string : NkString := mkString 5 0 4096.
Definition empty_mem (n : nat) : memory := {[ 4096 := replicate n 0 ]}.
Lemma empty_builder n : (5 ≤ n)%nat → builder n (empty_mem n) empty_string [].
Proof.
  intros Hn. split; [done|]. split; [done|]. split; [constructor|]. destruct n as [|n]; [lia|]. exists (replicate n 0).
  split; [done|]. cbn [length app m_currSize empty_string]. rewrite length_replicate. lia.
Defined.
Lemma string_joins_concat_witness :
  (∃ s' mem' b, @join_all roomy [[97; 98]; [99; 100; 101]] empty_string (empty_mem 13) = Ret (NkErr_Ok, s', mem') ∧
    mem' !! 4096 = Some b ∧ cut_nul b = [97; 98; 99; 100; 101]) ∧
  @join_all tight [[97; 98]; [99; 100; 101]] empty_string (empty_mem 5) = Undef.
Proof.
  split.
  - pose proof (@string_joins_concat roomy [[97; 98]; [99; 100; 101]] _ _ _ _ (empty_builder 13 ltac:(lia))
      ltac:(repeat constructor; done) ltac:(done)) as Hj.
    rewrite decide_True in Hj by (simpl; lia). destruct Hj as (s' & mem' & b & E & _ & _ & Hm & Hc & _).
    exists s', mem', b. by split_and!.
  - pose proof (@string_joins_concat tight [[97; 98]; [99; 100; 101]] _ _ _ _ (empty_builder 5 ltac:(lia))
      ltac:(repeat constructor; done) ltac:(done)) as Hj.
    by rewrite decide_False in Hj by (simpl; lia).
Defined.
Lemma string_join_after_create_lost_witness :
  ∃ s' mem' b, @NkStringJoin roomy (mkString 11 3 4096) [99; 0] UINT32_MAX
      {[ 4096 := [97; 98; 0; 0; 0; 0; 0; 0; 0; 0; 0; 0] ]} = Ret (NkErr_Ok, s', mem') ∧
    mem' !! mp_charBuf s' = Some b ∧ cut_nul b = [97; 98].
Proof.
  destruct (@string_join_after_create_lost roomy {[ 4096 := [97; 98; 0; 0; 0; 0; 0; 0; 0; 0; 0; 0] ]}
    (mkString 11 3 4096) [97; 98] [99] (replicate 9 0)) as (s' & mem' & b & E & _ & Hm & Hc);
    [repeat constructor; done|done|repeat constructor; done|done|done|done|done|simpl; lia|].
  exists s', mem', b. by split_and!.
Defined.
Lemma string_join_moved_witness :
  @NkStringJoin roomy (mkString 3 0 4096) [97; 98; 99; 100; 0] UINT32_MAX {[ 4096 := replicate 11 0 ]} = Undef.
Proof.
  by apply (@string_join_moved roomy _ _ [97; 98; 99; 100] 6 69632 (replicate 11 0));
    [|repeat constructor| | | |vm_compute| | | | | |].
Defined.

(** Several copies are put [count] bytes apart, not the length of the text. *)
Example create_twice :
  match @NkStringCreate roomy (Some [97; 98; 99]) 2 ∅ with
  | Ret (_, Some s, mem) => cut_nul (default [] (mem !! mp_charBuf s)) = [97; 98; 97; 98; 99]
  | _ => False
  end.
Proof. by vm_compute. Qed.
