(* ===== verification/Path.v ===== *)
(** * [src/Noriko/path.c], [src/Noriko/platform/windows/winpath.c]: paths

    Building paths out of components over the mutable strings, turning separators into
    native ones, and the table of standard locations.  The shell's folders and the
    addresses of new allocations are parameters; the heap is the set of live blocks. *)
From S2P Require Import Prelude CStr Float32 Alloc NkStr.

(** ** Tables ([include/Noriko/path.h]) *)
Definition NkStdLoc_Unknown : Z := 0.
Definition NkStdLoc_SystemRoot : Z := 1.
Definition NkStdLoc_AppDir : Z := 10.
Definition NkStdLoc_GameSaves : Z := 11.
Definition NkStdLoc_GameRoot : Z := 12.
Definition NkStdLoc_Count : Z := 19.
Definition NkGameDir_Count : Z := 9.

Definition gl_c_GameLocs : list Z := [11; 12; 13; 14; 15; 16; 17; 18].
Definition gl_c_DefPathSize : Z := 64.
(** The null pointer where the table has no entry. *)
Definition gl_c_GameDirs : list (option (list Z)) :=
  None :: ((λ s, Some (bytes_of s)) <$> ["bin"; "data"; "docs"; "cache"; "ext"; "assets"; "maps"; "tilesets"])%string.
Definition gl_c_LocIdStrReps : list (list Z) :=
  (λ s, bytes_of (String.append "NkStdLoc_" s)) <$>
  ["Unknown"; "SystemRoot"; "Desktop"; "Documents"; "Home"; "Music"; "Videos"; "Downloads"; "Fonts"; "AppData"; "AppDir";
   "GameSaves"; "GameRoot"; "GameBin"; "GameData"; "GameDocs"; "GameCache"; "GameAssets"; "GameExt"]%string.

Definition NkPathQueryGameDirectory (dirId : Z) : outcome (option (list Z)) :=
  NK_ASSERT ((dirId >=? 0) && (dirId <? NkGameDir_Count)) NkErr_InParameter;;
  buf_get gl_c_GameDirs dirId.
Definition NkPathQueryStandardLocIdStr (locId : Z) : outcome (list Z) :=
  NK_ASSERT ((locId >=? NkStdLoc_Unknown) && (locId <? NkStdLoc_Count)) NkErr_InParameter;;
  buf_get gl_c_LocIdStrReps locId.

(** ** Building paths *)
Definition native_sep : list Z := [92].
Definition is_null {A} (x : option A) : bool := match x with None => true | Some _ => false end.

Section build.
Context `{Allocator}.

(** The components before the terminating null pointer; a component is a C string. *)
Fixpoint stem_loop (comps : list (list Z)) (sepCh : list Z) (s : NkString) (mem : memory)
    : outcome (NkErrorCode * NkString * memory) :=
  match comps with
  | [] => Ret (NkErr_Ok, s, mem)
  | c :: rest =>
      '(errCode, s, mem) ← NkStringJoin s (c ++ [0]) UINT32_MAX mem;
      if negb (isOk errCode) then Ret (errCode, s, mem)
      else
        '(errCode, s, mem) ← (match rest with
                              | [] => Ret (NkErr_Ok, s, mem)
                              | _ => NkStringJoin s (sepCh ++ [0]) UINT32_MAX mem
                              end);
        if negb (isOk errCode) then Ret (errCode, s, mem) else stem_loop rest sepCh s mem
  end.
Fixpoint tail_loop (tailStrs : list (option (list Z))) (s : NkString) (mem : memory)
    : outcome (NkErrorCode * NkString * memory) :=
  match tailStrs with
  | [] => Ret (NkErr_Ok, s, mem)
  | None :: tailStrs => tail_loop tailStrs s mem
  | Some e :: tailStrs =>
      '(errCode, s, mem) ← NkStringJoin s (e ++ [0]) UINT32_MAX mem;
      if negb (isOk errCode) then Ret (errCode, s, mem) else tail_loop tailStrs s mem
  end.
Definition NkPathBuild (sepCh : option (list Z)) (stemCompArr : option (list (list Z))) (fileName extStr : option (list Z))
    (mem : memory) : outcome (NkErrorCode * option NkString * memory) :=
  let comps := default [] stemCompArr in
  let noStem := match comps with [] => true | _ => false end in
  if noStem && is_null fileName && is_null extStr then Ret (NkErr_InParameter, None, mem)
  else
    '(errCode, resStr, mem) ← NkStringCreate None gl_c_DefPathSize mem;
    match resStr with
    | None => Ret (errCode, None, mem)
    | Some s =>
        let sepCh := default native_sep sepCh in
        '(errCode, s, mem) ← stem_loop comps sepCh s mem;
        if negb (isOk errCode) then Ret (errCode, None, NkStringDestroy (Some s) mem)
        else
          let tailStrs :=
            [if negb (is_null fileName) && negb noStem then Some sepCh else None;
             fileName;
             if negb (is_null extStr) && is_null fileName && negb noStem then Some sepCh else None;
             (if extStr then Some [46] else None);
             extStr] in
          '(errCode, s, mem) ← tail_loop tailStrs s mem;
          if negb (isOk errCode) then Ret (errCode, None, NkStringDestroy (Some s) mem)
          else Ret (NkErr_Ok, Some s, mem)
    end.
End build.

(** ** Native separators *)
Definition Path_IsSeparator (sepCh : Z) : bool := (sepCh =? 47) || (sepCh =? 92).

Section native.
Context `{CharType}.
Fixpoint native_loop (fuel : nat) (b : list Z) (currCh : Z) : outcome (list Z) :=
  match fuel with
  | O => OutOfFuel
  | S fuel =>
      c ← buf_get b currCh;
      b ← (if Path_IsSeparator c then x ← buf_get native_sep 0; buf_set b currCh x else Ret b);
      next ← NkStringIterate b currCh;
      match next with None => Ret b | Some p => native_loop fuel b p end
  end.
Definition NkPathToNativeSeparators (s : NkString) (mem : memory) : outcome (NkString * memory) :=
  b ← get_or Undef (mem !! mp_charBuf s);
  currCh ← NkStringAt s 0 mem;
  b ← native_loop (S (length b)) b (currCh - mp_charBuf s);
  Ret (s, <[mp_charBuf s := b]> mem).
End native.

(** ** Standard locations *)

(** A string view of the table: its pointer and size. *)
Record LocView := mkLoc { lv_ptr : Z; lv_size : Z }.
(** [NK_MAKE_STRING_VIEW(NULL)]: the size of a pointer less one. *)
Definition null_view : LocView := mkLoc NULL (sizeof_ptr - 1).
Definition gl_StandardPaths : list LocView := mkLoc NULL 0 :: replicate 18 null_view.

(** The live blocks of the heap. *)
Abbreviation blocks := (gset Z).
Class PathHost := {
  (* the path of a folder in UTF-8 with its NUL, or [None] when the shell fails *)
  SHGetKnownFolderPath : Z → option (list Z);
  (* the address of a new block *)
  new_block : blocks → Z → option Z
}.
Class PathHostLaws `{PathHost} : Prop := {
  new_block_fresh live n a : new_block live n = Some a → a ≠ NULL ∧ a ∉ live;
  folder_nonempty loc l : SHGetKnownFolderPath loc = Some l → l ≠ []
}.

(** [NkGPFree]. *)
Definition free_block (p : Z) (live : blocks) : outcome blocks :=
  if p =? NULL then Ret live else if bool_decide (p ∈ live) then Ret (live ∖ {[ p ]}) else Undef.

(** The locations that are known folders: their index stands for the GUID. *)
Definition MapToKNOWNFOLDERID (locId : Z) : outcome (option Z) :=
  NK_ASSERT ((locId >=? 0) && (locId <? NkStdLoc_Count)) NkErr_InParameter;;
  Ret (if (NkStdLoc_SystemRoot <=? locId) && (locId <=? NkStdLoc_AppDir) then Some locId else None).

Definition clear_ptr (stdLocs : list LocView) (loc : Z) : outcome (list LocView) :=
  v ← buf_get stdLocs loc; buf_set stdLocs loc (mkLoc NULL (lv_size v)).
(** Freeing the string of an entry. *)
Definition destroy_entry (stdLocs : list LocView) (loc : Z) (live : blocks) : outcome (list LocView * blocks) :=
  v ← buf_get stdLocs loc;
  live ← free_block (lv_ptr v) live;
  stdLocs ← clear_ptr stdLocs loc;
  Ret (stdLocs, live).

Fixpoint destroy_loop (n : nat) (currLoc : Z) (stdLocs : list LocView) (live : blocks) : outcome (list LocView * blocks) :=
  match n with
  | O => Ret (stdLocs, live)
  | S n =>
      kf ← MapToKNOWNFOLDERID currLoc;
      '(stdLocs, live) ← (match kf with None => Ret (stdLocs, live) | Some _ => destroy_entry stdLocs currLoc live end);
      destroy_loop n (currLoc + 1) stdLocs live
  end.
Definition StandardPaths_DestroyPlatformLocs (stdLocs : list LocView) (live : blocks) : outcome (list LocView * blocks) :=
  destroy_loop (Z.to_nat (NkStdLoc_Count - 1)) (NkStdLoc_Unknown + 1) stdLocs live.

Section host.
Context `{PathHost}.

Fixpoint query_loop (n : nat) (currLoc : Z) (stdLocs : list LocView) (live : blocks)
    : outcome (NkErrorCode * list LocView * blocks) :=
  match n with
  | O => Ret (NkErr_Ok, stdLocs, live)
  | S n =>
      kfGuid ← MapToKNOWNFOLDERID currLoc;
      match kfGuid with
      | None => query_loop n (currLoc + 1) stdLocs live
      | Some id =>
          match SHGetKnownFolderPath id with
          | None =>
              '(stdLocs, live) ← StandardPaths_DestroyPlatformLocs stdLocs live;
              Ret (NkErr_QueryStdLocation, stdLocs, live)
          | Some stdLoc =>
              let reqBytes := Z.of_nat (length stdLoc) in
              '(errCode, stdLocUtf8) ← NkGPAlloc (new_block live) reqBytes 0;
              if negb (isOk errCode) then
                '(stdLocs, live) ← StandardPaths_DestroyPlatformLocs stdLocs live;
                Ret (errCode, stdLocs, live)
              else
                stdLocs ← buf_set stdLocs currLoc (mkLoc stdLocUtf8 (reqBytes - 1));
                query_loop n (currLoc + 1) stdLocs ({[ stdLocUtf8 ]} ∪ live)
          end
      end
  end.
Definition StandardPaths_QueryPlatformLocs (stdLocs : list LocView) (live : blocks) : outcome (NkErrorCode * list LocView * blocks) :=
  query_loop (Z.to_nat (NkStdLoc_Count - 1)) (NkStdLoc_Unknown + 1) stdLocs live.

Fixpoint game_loop (locs : list Z) (gameRootDir : LocView) (stdLocs : list LocView) : outcome (list LocView) :=
  match locs with
  | [] => Ret stdLocs
  | currLoc :: locs =>
      v ← buf_get stdLocs currLoc;
      if negb (lv_ptr v =? NULL) then NK_ASSERT false NkErr_Unknown;; game_loop locs gameRootDir stdLocs
      else
        stdLocs ← (if currLoc =? NkStdLoc_GameRoot then buf_set stdLocs currLoc gameRootDir else Ret stdLocs);
        game_loop locs gameRootDir stdLocs
  end.
Definition PathSrv_Startup (gameRootDir : LocView) (stdLocs : list LocView) (live : blocks)
    : outcome (NkErrorCode * list LocView * blocks) :=
  '(errCode, stdLocs, live) ← StandardPaths_QueryPlatformLocs stdLocs live;
  if negb (isOk errCode) then Ret (errCode, stdLocs, live)
  else stdLocs ← game_loop gl_c_GameLocs gameRootDir stdLocs; Ret (NkErr_Ok, stdLocs, live).
End host.

Fixpoint game_destroy_loop (locs : list Z) (stdLocs : list LocView) (live : blocks) : outcome (list LocView * blocks) :=
  match locs with
  | [] => Ret (stdLocs, live)
  | currLoc :: locs => '(stdLocs, live) ← destroy_entry stdLocs currLoc live; game_destroy_loop locs stdLocs live
  end.
Definition PathSrv_Shutdown (stdLocs : list LocView) (live : blocks) : outcome (NkErrorCode * list LocView * blocks) :=
  '(stdLocs, live) ← StandardPaths_DestroyPlatformLocs stdLocs live;
  '(stdLocs, live) ← game_destroy_loop gl_c_GameLocs stdLocs live;
  Ret (NkErr_Ok, stdLocs, live).
Definition NkPathQueryStdLocation (stdLocs : list LocView) (locId : Z) : outcome LocView :=
  NK_ASSERT ((locId >=? 0) && (locId <? NkStdLoc_Count)) NkErr_InParameter;;
  buf_get stdLocs locId.

(** ** What a path consists of *)

(** Components with separators between them. *)
Fixpoint interleave (sep : list Z) (comps : list (list Z)) : list (list Z) :=
  match comps with
  | [] => []
  | [c] => [c]
  | c :: comps => c :: sep :: interleave sep comps
  end.
(** The last component: the file name and the extension, in one. *)
Definition last_comp (file ext : option (list Z)) : list (list Z) :=
  match file, ext with
  | None, None => []
  | _, _ => [default [] file ++ match ext with Some e => 46 :: e | None => [] end]
  end.
Definition path_text (sep : list Z) (comps : list (list Z)) (file ext : option (list Z)) : list Z :=
  concat (interleave sep (comps ++ last_comp file ext)).
(** The pieces in the order in which they are joined. *)
Definition path_tail (sep : list Z) (comps : list (list Z)) (file ext : option (list Z)) : list (list Z) :=
  (match comps, file, ext with [], _, _ | _, None, None => [] | _, _, _ => [sep] end) ++
  match file with Some f => [f] | None => [] end ++ match ext with Some e => [[46]; e] | None => [] end.
Definition path_pieces (sep : list Z) (comps : list (list Z)) (file ext : option (list Z)) : list (list Z) :=
  interleave sep comps ++ path_tail sep comps file ext.

Lemma interleave_cons sep c d comps : interleave sep (c :: d :: comps) = c :: sep :: interleave sep (d :: comps).
Proof. done. Qed.
Lemma interleave_snoc sep c comps x :
  concat (interleave sep ((c :: comps) ++ [x])) = concat (interleave sep (c :: comps)) ++ sep ++ x.
Proof.
  revert c. induction comps as [|d comps IH]; intros c.
  - cbn [app interleave concat]. by rewrite !app_nil_r.
  - cbn [app] in *. rewrite !interleave_cons. cbn [concat]. rewrite (IH d). by rewrite !(assoc_L (++)).
Qed.
Lemma pieces_text sep comps file ext : concat (path_pieces sep comps file ext) = path_text sep comps file ext.
Proof.
  unfold path_pieces, path_text. rewrite concat_app. destruct comps as [|c comps].
  - destruct file, ext; unfold path_tail; cbn [last_comp default from_option id app concat interleave];
      by rewrite ?app_nil_r.
  - destruct file as [f|], ext as [e|]; unfold path_tail; cbn [last_comp default from_option id app concat];
      rewrite ?app_nil_r; try done; rewrite app_comm_cons, interleave_snoc; cbn [app]; by rewrite ?(assoc_L (++)).
Qed.

Section building.
Context `{Allocator}.

Lemma join_all_app es fs s mem :
  join_all (es ++ fs) s mem =
    ('(errCode, s, mem) ← join_all es s mem; if isOk errCode then join_all fs s mem else Ret (errCode, s, mem)).
Proof.
  revert s mem. induction es as [|e es IH]; intros s mem; [done|]. cbn [app join_all]. rewrite bind_assoc.
  apply bind_ext. intros [[errCode s1] mem1] _. destruct (isOk errCode) eqn:E; [apply IH|]. by rewrite bind_Ret, E.
Qed.
Lemma stem_loop_joins comps sep s mem : stem_loop comps sep s mem = join_all (interleave sep comps) s mem.
Proof.
  revert s mem. induction comps as [|c comps IH]; intros s mem; [done|]. destruct comps as [|d comps].
  - cbn [stem_loop interleave join_all]. apply bind_ext. intros [[e1 s1] mem1] _.
    destruct (isOk e1); cbn [negb]; [|done]. rewrite bind_Ret. by ok_step.
  - rewrite interleave_cons. cbn [join_all]. cbn [stem_loop]. apply bind_ext. intros [[e1 s1] mem1] _.
    destruct (isOk e1); cbn [negb]; [|done]. apply bind_ext. intros [[e2 s2] mem2] _.
    destruct (isOk e2); cbn [negb]; [|done]. apply IH.
Qed.
Lemma tail_loop_joins l s mem : tail_loop l s mem = join_all (omap id l) s mem.
Proof.
  revert s mem. induction l as [|[e|] l IH]; intros s mem; [done| |apply IH]. cbn [tail_loop omap list_omap id join_all].
  apply bind_ext. intros [[e1 s1] mem1] _. destruct (isOk e1); [apply IH|done].
Qed.

(** A fresh string of the default size. *)
Lemma create_default base mem :
  galloc 65 = Some base → 65 < usable 65 →
  ∃ post n, (65 < n)%nat ∧ NkStringCreate None gl_c_DefPathSize mem = Ret (NkErr_Ok, Some (mkString 65 0 base), <[base := 0 :: post]> mem) ∧
    builder n (<[base := 0 :: post]> mem) (mkString 65 0 base) [].
Proof.
  intros Hal Hu. unfold NkStringCreate. change (gl_c_DefPathSize >? 0) with true. cbn [NK_ASSERT]. rewrite bind_Ret.
  change (u64 (u64 (1 * gl_c_DefPathSize) + 1)) with 65. rewrite (gp_alloc_some galloc 65 base), bind_Ret by done. ok_step.
  rewrite bind_Ret, buf_set_in, bind_Ret by (rewrite length_replicate; lia).
  destruct (Z.to_nat (usable 65)) as [|u] eqn:Eu; [lia|]. exists (<[64%nat := 0]> (replicate u 0)), (S u). split; [lia|]. split; [done|].
  split; [done|]. split; [done|]. split; [constructor|]. eexists. rewrite lookup_insert_eq. split; [done|].
  cbn [m_currSize app length]. rewrite length_insert, length_replicate. lia.
Qed.

(** On an allocator that gives exactly what is asked for, already the empty string is undefined. *)
Lemma create_default_tight base mem :
  galloc 65 = Some base → usable 65 = 65 → NkStringCreate None gl_c_DefPathSize mem = Undef.
Proof.
  intros Hal Hu. unfold NkStringCreate. change (gl_c_DefPathSize >? 0) with true. cbn [NK_ASSERT]. rewrite bind_Ret.
  change (u64 (u64 (1 * gl_c_DefPathSize) + 1)) with 65. rewrite (gp_alloc_some galloc 65 base), bind_Ret by done. ok_step.
  by rewrite Hu, bind_Ret.
Qed.

(** The path build as a sequence of joins. *)
Lemma path_build_joins sepCh comps file ext base mem :
  galloc 65 = Some base → 65 < usable 65 →
  comps ≠ [] ∨ file ≠ None ∨ ext ≠ None →
  ∃ post n, (65 < n)%nat ∧ builder n (<[base := 0 :: post]> mem) (mkString 65 0 base) [] ∧
    NkPathBuild sepCh (Some comps) file ext mem =
      ('(errCode, s, mem) ← join_all (path_pieces (default native_sep sepCh) comps file ext) (mkString 65 0 base) (<[base := 0 :: post]> mem);
       if isOk errCode then Ret (NkErr_Ok, Some s, mem) else Ret (errCode, None, delete (mp_charBuf s) mem)).
Proof.
  intros Hal Hu Hne. destruct (create_default base mem Hal Hu) as (post & n & Hn & Ec & Hb). exists post, n. split; [done|]. split; [done|].
  unfold NkPathBuild. cbn [default from_option id]. set (sep := default native_sep sepCh).
  replace (_ && is_null file && is_null ext) with false
    by (destruct comps, file, ext; try done; destruct Hne as [?|[?|?]]; done).
  rewrite Ec, bind_Ret, stem_loop_joins. unfold path_pieces. rewrite join_all_app, bind_assoc.
  apply bind_ext. intros [[e1 s1] mem1] _. destruct (isOk e1) eqn:E1; cbn [negb]; [|by rewrite bind_Ret, E1].
  rewrite tail_loop_joins.
  replace (omap id _) with (path_tail sep comps file ext) by (by destruct comps, file, ext).
  apply bind_ext. intros [[e2 s2] mem2] _. by destruct (isOk e2).
Qed.

(** C21: building a path out of non-empty parts that fit into the initial buffer gives the parts with
    exactly one separator between neighbours, the extension being attached to the file name with a dot
    (to the last directory as a part of its own when there is no file name), when the allocator gives
    at least one byte more than the 65 asked for.  When it gives exactly those, every build is
    undefined: the NUL of the empty string is written behind the block. *)
Theorem path_build_reference sepCh comps file ext base mem :
  galloc 65 = Some base → 65 ≤ usable 65 →
  comps ≠ [] ∨ file ≠ None ∨ ext ≠ None →
  let sep := default native_sep sepCh in
  Forall (λ e, e ≠ [] ∧ Forall (λ x, x ≠ 0) e) (path_pieces sep comps file ext) →
  (length (path_text sep comps file ext) ≤ 65)%nat →
  if decide (65 < usable 65)
  then ∃ s mem' b, NkPathBuild sepCh (Some comps) file ext mem = Ret (NkErr_Ok, Some s, mem') ∧
    mem' !! mp_charBuf s = Some b ∧ cut_nul b = path_text sep comps file ext ∧ delete base mem' = delete base mem
  else NkPathBuild sepCh (Some comps) file ext mem = Undef.
Proof.
  intros Hal Hu Hne sep Hp Hlen. case_decide as Hroom.
  2: { unfold NkPathBuild. cbn [default from_option id].
       replace (_ && is_null file && is_null ext) with false
         by (destruct comps, file, ext; try done; destruct Hne as [?|[?|?]]; done).
       by rewrite (create_default_tight base mem Hal) by lia. }
  destruct (path_build_joins sepCh comps file ext base mem Hal Hroom Hne) as (post & n & Hn & Hb & ->).
  rewrite <-pieces_text in Hlen. fold sep.
  destruct (joins_fit (path_pieces sep comps file ext) _ _ _ _ Hb Hp) as (s & mem' & -> & Hb' & _ & Hbuf & Hd);
    [cbn [length m_currSize]; lia|cbn [length]; lia|]. rewrite bind_Ret. ok_step.
  pose proof Hb' as (_ & _ & _ & post' & Hm & _). exists s, mem'. eexists. split; [done|]. split; [exact Hm|].
  cbn [mp_charBuf] in Hd. rewrite delete_insert_eq in Hd. split; [|done]. rewrite <-pieces_text.
  by apply (builder_text _ _ _ _ _ Hb').
Qed.

(** An empty part (the first one, at any place, for instance an empty file name) makes the whole
    build fail with [NkErr_NoOperation]; the string is destroyed, the memory is as before. *)
Theorem path_build_empty_part sepCh comps file ext base mem pre post :
  galloc 65 = Some base → 65 < usable 65 → mem !! base = None →
  comps ≠ [] ∨ file ≠ None ∨ ext ≠ None →
  path_pieces (default native_sep sepCh) comps file ext = pre ++ [] :: post →
  Forall (λ e, e ≠ [] ∧ Forall (λ x, x ≠ 0) e) pre → (length (concat pre) ≤ 65)%nat →
  NkPathBuild sepCh (Some comps) file ext mem = Ret (NkErr_NoOperation, None, mem).
Proof.
  intros Hal Hu Hfresh Hne Hp Hpre Hlen. destruct (path_build_joins sepCh comps file ext base mem Hal Hu Hne) as (l & n & Hn & Hb & ->).
  rewrite Hp, join_all_app.
  destruct (joins_fit pre _ _ _ _ Hb Hpre) as (s & mem' & -> & Hb' & _ & Hbuf & Hd); [cbn [length m_currSize]; lia|cbn [length]; lia|].
  rewrite bind_Ret. ok_step. cbn [join_all]. change (NkStringJoin s ([] ++ [0]) UINT32_MAX mem') with
    (Ret (NkErr_NoOperation, s, mem')). rewrite bind_Ret. change (isOk NkErr_NoOperation) with false. cbv iota.
  rewrite bind_Ret. change (isOk NkErr_NoOperation) with false. cbv iota.
  cbn [mp_charBuf] in *. rewrite Hbuf, Hd, delete_insert_eq. by rewrite delete_id.
Qed.
End building.

(** ** Native separators *)
Definition to_native (c : Z) : Z := if Path_IsSeparator c then 92 else c.

Section separators.
Context `{CharType}.

Lemma to_native_ok c : char_ok c → char_ok (to_native c).
Proof. unfold to_native, char_ok. intros [Hc Hs]. destruct (Path_IsSeparator c); [|done]. split; [lia|]. intros; lia. Qed.

(** Replacing the character at a position. *)
Lemma native_step pre c post : char_ok c →
  ∃ x, buf_get (pre ++ utf8_enc c ++ post) (Z.of_nat (length pre)) = Ret x ∧
    (if Path_IsSeparator x then y ← buf_get native_sep 0; buf_set (pre ++ utf8_enc c ++ post) (Z.of_nat (length pre)) y
     else Ret (pre ++ utf8_enc c ++ post)) = Ret (pre ++ utf8_enc (to_native c) ++ post).
Proof.
  intros [Hc _]. destruct (utf8_lead c Hc) as (x & l & E & Hx & Hsz & Hasc). exists x.
  split; [rewrite E; apply buf_get_middle|]. unfold to_native. destruct (Z.ltb_spec c 128) as [Hlt|Hge].
  - assert (Ec : utf8_enc c = [c]) by (unfold utf8_enc; by rewrite (proj2 (Z.ltb_lt c 128))).
    rewrite Ec in *. injection E as <- <-. destruct (Path_IsSeparator c) eqn:Es; [|by rewrite Ec].
    change (buf_get native_sep 0) with (Ret 92). rewrite bind_Ret. apply buf_set_middle.
  - assert (Hx2 : 192 ≤ x) by (unfold utf8_enc in E; repeat case_match; simplify_eq; Z.to_euclidean_division_equations; lia).
    unfold Path_IsSeparator. rewrite !(proj2 (Z.eqb_neq x _)), !(proj2 (Z.eqb_neq c _)) by lia. done.
Qed.

Lemma native_loop_spec fuel pre cs post :
  Forall char_ok cs → (length cs < fuel)%nat →
  native_loop fuel (pre ++ utf8 cs ++ 0 :: post) (Z.of_nat (length pre)) =
    Ret (pre ++ utf8 (to_native <$> cs) ++ 0 :: post).
Proof.
  intros Hcs. revert fuel pre. induction Hcs as [|c cs Hc Hcs IH]; intros [|fuel] pre Hf; cbn [length] in Hf;
    [lia| |lia|]; cbn [native_loop].
  - change (utf8 [] ++ 0 :: post) with (0 :: post). rewrite buf_get_middle, bind_Ret. cbn [Path_IsSeparator].
    change (Path_IsSeparator 0) with false. cbv iota. by rewrite bind_Ret, iterate_end, bind_Ret.
  - rewrite utf8_cons, <-(assoc_L (++)). destruct (native_step pre c (utf8 cs ++ 0 :: post) Hc) as (x & -> & E).
    rewrite bind_Ret, E, bind_Ret, iterate_next, bind_Ret by (done || by apply to_native_ok).
    rewrite (assoc_L (++) pre), IH by lia. rewrite fmap_cons, utf8_cons. by rewrite <-!(assoc_L (++)).
Qed.

(** All the slashes and backslashes of a text become backslashes, nothing else changes, and the
    string has as many characters as before. *)
Theorem path_native_separators mem s cs :
  holds mem s cs →
  ∃ mem', NkPathToNativeSeparators s mem = Ret (s, mem') ∧ holds mem' s (to_native <$> cs) ∧
    delete (mp_charBuf s) mem' = delete (mp_charBuf s) mem ∧
    NkStringGetLength s mem' = NkStringGetLength s mem.
Proof.
  intros (Hb & Hcs & Hlen & post & Hm).
  assert (Hcs' : Forall char_ok (to_native <$> cs)) by (apply Forall_fmap; eapply List.Forall_impl; [intros c; apply to_native_ok|exact Hcs]).
  exists (<[mp_charBuf s := utf8 (to_native <$> cs) ++ 0 :: post]> mem). split_and!.
  - unfold NkPathToNativeSeparators, NkStringAt. rewrite Hm. cbn [get_or]. rewrite !bind_Ret. change (Z.to_nat 0) with 0%nat.
    cbn [at_loop]. rewrite bind_Ret, Z.add_0_r, Z.sub_diag.
    rewrite (native_loop_spec _ [] cs post), bind_Ret; [done..|]. rewrite length_app. pose proof (utf8_length cs). lia.
  - split; [done|]. split; [done|]. split; [by rewrite length_fmap|]. exists post. apply lookup_insert_eq.
  - apply delete_insert_eq.
  - unfold NkStringGetLength. rewrite lookup_insert_eq, Hm. cbn [get_or]. rewrite !bind_Ret.
    by rewrite !strlen_spec, length_fmap by done.
Qed.
End separators.

(** ** Ownership of the platform locations *)

(** The location is a known folder. *)
Definition known (loc : Z) : bool := (NkStdLoc_SystemRoot <=? loc) && (loc <=? NkStdLoc_AppDir).
(** The pointers of the known folders among the entries from index [i] on, and those entries without them. *)
Fixpoint owned (i : Z) (locs : list LocView) : list Z :=
  match locs with
  | [] => []
  | v :: locs => (if known i && negb (lv_ptr v =? NULL) then [lv_ptr v] else []) ++ owned (i + 1) locs
  end.
Fixpoint cleared (i : Z) (locs : list LocView) : list LocView :=
  match locs with
  | [] => []
  | v :: locs => (if known i then mkLoc NULL (lv_size v) else v) :: cleared (i + 1) locs
  end.

Lemma map_known loc : 0 ≤ loc < NkStdLoc_Count → MapToKNOWNFOLDERID loc = Ret (if known loc then Some loc else None).
Proof.
  intros [H1 H2]. unfold MapToKNOWNFOLDERID. rewrite (proj2 (Z.geb_le loc 0)), (proj2 (Z.ltb_lt loc NkStdLoc_Count)) by lia.
  done.
Qed.

(** Freeing one entry of a table. *)
Lemma destroy_entry_spec pre v post live :
  lv_ptr v = NULL ∨ lv_ptr v ∈ live →
  destroy_entry (pre ++ v :: post) (Z.of_nat (length pre)) live =
    Ret (pre ++ mkLoc NULL (lv_size v) :: post, if lv_ptr v =? NULL then live else live ∖ {[ lv_ptr v ]}).
Proof.
  intros Hv. unfold destroy_entry, clear_ptr, free_block. rewrite buf_get_middle, bind_Ret.
  destruct (Z.eqb_spec (lv_ptr v) NULL); [|rewrite bool_decide_eq_true_2 by naive_solver];
    by rewrite !bind_Ret, buf_set_middle, bind_Ret.
Qed.

Lemma destroy_loop_spec pre rest live0 :
  Z.of_nat (length pre + length rest) = NkStdLoc_Count →
  NoDup (owned (Z.of_nat (length pre)) rest) → list_to_set (owned (Z.of_nat (length pre)) rest) ## live0 →
  destroy_loop (length rest) (Z.of_nat (length pre)) (pre ++ rest)
    (list_to_set (owned (Z.of_nat (length pre)) rest) ∪ live0) =
    Ret (pre ++ cleared (Z.of_nat (length pre)) rest, live0).
Proof.
  revert pre. induction rest as [|v rest IH]; intros pre Hlen Hnd Hdisj.
  { cbn [length destroy_loop owned cleared list_to_set]. by rewrite union_empty_l_L. }
  assert (Hnext : ∀ w, Z.of_nat (length (pre ++ [w])) = Z.of_nat (length pre) + 1)
    by (intros w; rewrite length_app; cbn [length]; lia).
  assert (IH' : ∀ (w : LocView), NoDup (owned (Z.of_nat (length pre) + 1) rest) →
    list_to_set (owned (Z.of_nat (length pre) + 1) rest) ## live0 →
    destroy_loop (length rest) (Z.of_nat (length pre) + 1) (pre ++ w :: rest)
      (list_to_set (owned (Z.of_nat (length pre) + 1) rest) ∪ live0) =
    Ret (pre ++ w :: cleared (Z.of_nat (length pre) + 1) rest, live0)).
  { intros w H1 H2. specialize (IH (pre ++ [w])). rewrite Hnext, <-!(assoc_L (++)) in IH. apply IH; [|done|done].
    rewrite length_app in *. cbn [length] in *. lia. }
  clear IH. cbn [length] in Hlen. cbn [length destroy_loop owned cleared] in *.
  rewrite map_known, bind_Ret by lia. destruct (known (Z.of_nat (length pre))); cbn [andb] in *.
  2: { rewrite bind_Ret. by apply IH'. }
  destruct (Z.eqb_spec (lv_ptr v) NULL) as [Hn|Hn]; cbn [negb app] in *.
  - rewrite destroy_entry_spec, bind_Ret, Hn by (by left). cbv iota. by apply IH'.
  - rewrite list.NoDup_cons in Hnd. destruct Hnd as [Hin Hnd]. cbn [list_to_set foldr] in *.
    rewrite destroy_entry_spec by (right; set_solver). rewrite bind_Ret, (proj2 (Z.eqb_neq _ _)) by done.
    replace (_ ∖ {[ lv_ptr v ]}) with (list_to_set (owned (Z.of_nat (length pre) + 1) rest) ∪ live0 : blocks).
    + apply IH'; set_solver.
    + rewrite <-(elem_of_list_to_set (C := blocks)) in Hin. set_solver.
Qed.

Definition no_ptr (v : LocView) : Prop := lv_ptr v = NULL.

Lemma owned_app i a b : owned i (a ++ b) = owned i a ++ owned (i + Z.of_nat (length a)) b.
Proof.
  revert i. induction a as [|v a IH]; intros i; cbn [app owned length].
  - by rewrite Z.add_0_r.
  - rewrite IH, <-(assoc_L (++)). do 3 f_equal. lia.
Qed.
Lemma owned_none i l : Forall no_ptr l → owned i l = [].
Proof.
  intros Hl. revert i. induction Hl as [|v l Hv _ IH]; intros i; [done|]. cbn [owned]. rewrite IH, Hv.
  by rewrite andb_false_r.
Qed.
Lemma cleared_none i l :
  (∀ j v, l !! j = Some v → known (i + Z.of_nat j) = true ∨ no_ptr v) → Forall no_ptr (cleared i l) ∧ length (cleared i l) = length l.
Proof.
  revert i. induction l as [|v l IH]; intros i Hl; [done|]. cbn [cleared]. destruct (IH (i + 1)) as [H1 H2].
  { intros j w Hw. destruct (Hl (S j) w Hw) as [H|H]; [left; rewrite <-H; f_equal; lia|by right]. }
  split; [|cbn [length]; by rewrite H2]. constructor; [|done]. destruct (known i) eqn:E; [done|].
  destruct (Hl 0%nat v eq_refl) as [H|H]; [|done]. rewrite Z.add_0_r in H. congruence.
Qed.

Lemma destroy_platform_spec locs live0 :
  length locs = 19%nat → NoDup (owned 0 locs) → list_to_set (owned 0 locs) ## live0 →
  StandardPaths_DestroyPlatformLocs locs (list_to_set (owned 0 locs) ∪ live0) = Ret (cleared 0 locs, live0).
Proof.
  intros Hlen Hnd Hdisj. destruct locs as [|u rest]; [done|]. injection Hlen as Hlen.
  pose proof (destroy_loop_spec [u] rest live0) as Hd. change (Z.of_nat (length [u])) with 1 in Hd.
  unfold StandardPaths_DestroyPlatformLocs. change (Z.to_nat (NkStdLoc_Count - 1)) with 18%nat. rewrite <-Hlen.
  change (owned 0 (u :: rest)) with (owned 1 rest) in *. apply Hd; [by rewrite Hlen|done|done].
Qed.

Lemma owned_lookup i locs j v :
  locs !! j = Some v → known (i + Z.of_nat j) = true → lv_ptr v ≠ NULL → lv_ptr v ∈ owned i locs.
Proof.
  revert i j. induction locs as [|w locs IH]; intros i [|j] Hl Hk Hp; try done; cbn [owned].
  - injection Hl as ->. rewrite Z.add_0_r in Hk. rewrite Hk, (proj2 (Z.eqb_neq (lv_ptr v) NULL)) by done. cbn. set_solver.
  - apply elem_of_app. right. apply (IH (i + 1) j Hl); [|done]. rewrite <-Hk. f_equal. lia.
Qed.
Lemma owned_distinct i locs j k v w :
  NoDup (owned i locs) → locs !! j = Some v → locs !! k = Some w → j ≠ k →
  known (i + Z.of_nat j) = true → lv_ptr v ≠ NULL → known (i + Z.of_nat k) = true → lv_ptr w ≠ NULL → lv_ptr v ≠ lv_ptr w.
Proof.
  revert i j k. induction locs as [|x locs IH]; intros i j k Hnd Hj Hk Hne Kj Pj Kk Pk; [done|].
  cbn [owned] in Hnd. rewrite list.NoDup_app in Hnd. destruct Hnd as (_ & Hdisj & Hnd).
  destruct j as [|j], k as [|k]; [done| | |].
  - injection Hj as ->. rewrite Z.add_0_r in Kj. rewrite Kj, (proj2 (Z.eqb_neq _ NULL)) in Hdisj by done.
    intros Heq. eapply Hdisj; [by apply list_elem_of_here|]. rewrite Heq. eapply owned_lookup; [exact Hk| |done]. rewrite <-Kk. f_equal. lia.
  - injection Hk as ->. rewrite Z.add_0_r in Kk. rewrite Kk, (proj2 (Z.eqb_neq _ NULL)) in Hdisj by done.
    intros Heq. eapply Hdisj; [by apply list_elem_of_here|]. rewrite <-Heq. eapply owned_lookup; [exact Hj| |done]. rewrite <-Kj. f_equal. lia.
  - eapply (IH (i + 1) j k); try done; [lia|rewrite <-Kj; f_equal; lia|rewrite <-Kk; f_equal; lia].
Qed.

Section startup.
Context `{PathHost} `{!PathHostLaws}.

(** An entry after a successful query. *)
Definition entry_ok (i : Z) (v : LocView) : Prop :=
  if known i then lv_ptr v ≠ NULL ∧ ∃ l, SHGetKnownFolderPath i = Some l ∧ lv_size v = Z.of_nat (length l) - 1
  else no_ptr v.
Definition query_result (live0 : blocks) (e : NkErrorCode) (locs : list LocView) (live : blocks) : Prop :=
  length locs = 19%nat ∧
  if isOk e then (∀ j v, locs !! j = Some v → entry_ok (Z.of_nat j) v) ∧ NoDup (owned 0 locs) ∧
    list_to_set (owned 0 locs) ## live0 ∧ live = list_to_set (owned 0 locs) ∪ live0
  else live = live0 ∧ Forall no_ptr locs.

Lemma entries_snoc pre v :
  (∀ j w, pre !! j = Some w → entry_ok (Z.of_nat j) w) → entry_ok (Z.of_nat (length pre)) v →
  ∀ j w, (pre ++ [v]) !! j = Some w → entry_ok (Z.of_nat j) w.
Proof.
  intros Hpre Hv j w. rewrite lookup_app_Some, list_lookup_singleton_Some. intros [?|(? & ? & <-)]; [by apply Hpre|].
  by replace j with (length pre) by lia.
Qed.

(** A failure frees what was allocated so far. *)
Lemma query_failure e pre rest live0 :
  isOk e = false → Z.of_nat (length pre + length rest) = NkStdLoc_Count → Forall no_ptr rest →
  (∀ j v, pre !! j = Some v → entry_ok (Z.of_nat j) v) → NoDup (owned 0 pre) → list_to_set (owned 0 pre) ## live0 →
  ∃ locs live,
    ('(stdLocs, live) ← StandardPaths_DestroyPlatformLocs (pre ++ rest) (list_to_set (owned 0 pre) ∪ live0);
     Ret (e, stdLocs, live)) = Ret (e, locs, live) ∧ query_result live0 e locs live.
Proof.
  intros He Hlen Hrest Hpre Hnd Hdisj.
  assert (E : owned 0 pre = owned 0 (pre ++ rest)) by (rewrite owned_app, (owned_none _ rest), app_nil_r; done).
  assert (Hl : length (pre ++ rest) = 19%nat) by (rewrite length_app; unfold NkStdLoc_Count in Hlen; lia).
  rewrite E in *. rewrite destroy_platform_spec, bind_Ret by done. do 2 eexists. split; [done|].
  destruct (cleared_none 0 (pre ++ rest)) as [H1 H2].
  { intros j v. rewrite lookup_app_Some. intros [Hv|[_ Hv]].
    - apply Hpre in Hv. unfold entry_ok in Hv. rewrite Z.add_0_l. destruct (known (Z.of_nat j)); [by left|by right].
    - right. by apply (Forall_lookup_1 _ _ _ _ Hrest Hv). }
  split; [congruence|]. by rewrite He.
Qed.

Lemma query_loop_spec pre rest live0 :
  Z.of_nat (length pre + length rest) = NkStdLoc_Count → Forall no_ptr rest →
  (∀ j v, pre !! j = Some v → entry_ok (Z.of_nat j) v) → NoDup (owned 0 pre) → list_to_set (owned 0 pre) ## live0 →
  ∃ e locs live, query_loop (length rest) (Z.of_nat (length pre)) (pre ++ rest) (list_to_set (owned 0 pre) ∪ live0) =
    Ret (e, locs, live) ∧ query_result live0 e locs live.
Proof.
  revert pre. induction rest as [|v rest IH]; intros pre Hlen Hrest Hpre Hnd Hdisj.
  { cbn [length query_loop]. rewrite app_nil_r. do 3 eexists. split; [done|]. split; [|done].
    unfold NkStdLoc_Count in Hlen. cbn [length] in Hlen. lia. }
  pose proof Hrest as Hrest'. rewrite Forall_cons_iff in Hrest'. destruct Hrest' as [Hv Hrest'].
  assert (Hstep : ∀ w, entry_ok (Z.of_nat (length pre)) w → NoDup (owned 0 (pre ++ [w])) →
    list_to_set (owned 0 (pre ++ [w])) ## live0 → ∃ e locs live,
    query_loop (length rest) (Z.of_nat (length pre) + 1) (pre ++ w :: rest) (list_to_set (owned 0 (pre ++ [w])) ∪ live0) =
      Ret (e, locs, live) ∧ query_result live0 e locs live).
  { intros w Hw H1 H2. specialize (IH (pre ++ [w])). rewrite <-(assoc_L (++)) in IH.
    replace (Z.of_nat (length pre) + 1) with (Z.of_nat (length (pre ++ [w]))) by (rewrite length_app; cbn [length]; lia).
    apply IH; [rewrite length_app in *; cbn [length] in *; lia|done|by apply entries_snoc|done|done]. }
  assert (Hown : ∀ w, owned 0 (pre ++ [w]) =
    owned 0 pre ++ (if known (Z.of_nat (length pre)) && negb (lv_ptr w =? NULL) then [lv_ptr w] else []))
    by (intros w; rewrite owned_app, Z.add_0_l; cbn [owned]; by rewrite app_nil_r).
  cbn [length query_loop]. rewrite map_known, bind_Ret by (cbn [length] in Hlen; lia).
  destruct (known (Z.of_nat (length pre))) eqn:Ek.
  2: { specialize (Hown v). rewrite Hv, app_nil_r in Hown. rewrite <-Hown. apply Hstep; rewrite ?Hown; try done.
       unfold entry_ok. by rewrite Ek. }
  destruct (SHGetKnownFolderPath (Z.of_nat (length pre))) as [l|] eqn:Ef.
  2: { destruct (query_failure NkErr_QueryStdLocation pre (v :: rest) live0) as (locs & live & -> & Hq); [done..|]. by exists NkErr_QueryStdLocation, locs, live. }
  pose proof (folder_nonempty _ _ Ef) as Hne. set (live := list_to_set (owned 0 pre) ∪ live0).
  assert (Hl : Z.of_nat (length l) ≠ 0) by (destruct l; [done|cbn [length]; lia]).
  destruct (new_block live (Z.of_nat (length l))) as [a|] eqn:Ea.
  2: { rewrite (gp_alloc_none _ _ Hl Ea), bind_Ret. change (isOk NkErr_MemoryAllocation) with false. cbn [negb].
       destruct (query_failure NkErr_MemoryAllocation pre (v :: rest) live0) as (locs & live1 & E & Hq); [done..|].
       exists NkErr_MemoryAllocation, locs, live1. split; [exact E|exact Hq]. }
  rewrite (gp_alloc_some _ _ _ Hl Ea), bind_Ret. ok_step. apply new_block_fresh in Ea as [Ha Hfresh].
  rewrite buf_set_middle, bind_Ret.
  set (w := mkLoc a (Z.of_nat (length l) - 1)). specialize (Hown w). cbn [lv_ptr w] in Hown.
  rewrite (proj2 (Z.eqb_neq a NULL)) in Hown by done. cbn [andb negb] in Hown.
  replace ({[ a ]} ∪ live) with (list_to_set (owned 0 (pre ++ [w])) ∪ live0 : blocks).
  - assert (Hin : a ∉ owned 0 pre) by (rewrite <-(elem_of_list_to_set (C := blocks)); unfold live in Hfresh; set_solver).
    apply Hstep.
    + unfold entry_ok. rewrite Ek. split; [done|]. by exists l.
    + rewrite Hown. apply list.NoDup_app. split; [done|]. split; [|apply list.NoDup_singleton]. set_solver.
    + rewrite Hown, list_to_set_app_L. unfold live in Hfresh. set_solver.
  - rewrite Hown, list_to_set_app_L. unfold live. set_solver.
Qed.

Lemma query_spec live0 :
  ∃ e locs live, StandardPaths_QueryPlatformLocs gl_StandardPaths live0 = Ret (e, locs, live) ∧ query_result live0 e locs live.
Proof.
  destruct (query_loop_spec [mkLoc NULL 0] (replicate 18 null_view) live0) as (e & locs & live & E & Hq).
  - done.
  - by repeat constructor.
  - intros [|j] v Hv; [|done]. by injection Hv as <-.
  - constructor.
  - set_solver.
  - exists e, locs, live. split; [|done]. rewrite <-E. unfold StandardPaths_QueryPlatformLocs. f_equal.
    change (owned 0 [mkLoc NULL 0]) with (@nil Z). by rewrite list_to_set_nil, union_empty_l_L.
Qed.

(** The game locations, the root being set. *)
Lemma game_loop_spec ls root locs :
  NoDup ls → length locs = 19%nat →
  (∀ i, i ∈ ls → 0 ≤ i < 19 ∧ ∀ v, locs !! Z.to_nat i = Some v → no_ptr v) →
  game_loop ls root locs = Ret (if bool_decide (NkStdLoc_GameRoot ∈ ls) then <[Z.to_nat NkStdLoc_GameRoot := root]> locs else locs).
Proof.
  intros Hnd. revert locs. induction ls as [|i ls IH]; intros locs Hlen Hls; [done|].
  rewrite list.NoDup_cons in Hnd. destruct Hnd as [Hi Hnd].
  destruct (Hls i (list_elem_of_here _ _)) as [Hr Hv].
  assert (Hls' : ∀ j, j ∈ ls → 0 ≤ j < 19 ∧ ∀ v, locs !! Z.to_nat j = Some v → no_ptr v) by (intros j Hj; apply Hls; by right).
  cbn [game_loop]. destruct (buf_get_in locs i) as (v & Hget & Hl); [lia|]. rewrite Hget, bind_Ret, (Hv v Hl).
  change (NULL =? NULL) with true. cbn [negb]. destruct (Z.eqb_spec i NkStdLoc_GameRoot) as [->|Hne].
  - rewrite buf_set_in, bind_Ret by (unfold NkStdLoc_GameRoot; lia). rewrite IH; [|done|by rewrite length_insert|].
    + rewrite bool_decide_eq_false_2 by done. by rewrite bool_decide_eq_true_2 by apply list_elem_of_here.
    + intros j Hj. destruct (Hls' j Hj) as [Hj1 Hw]. split; [done|]. intros w.
      rewrite list_lookup_insert_ne; [apply Hw|]. intros Heq. apply Hi.
      replace NkStdLoc_GameRoot with j; [done|]. unfold NkStdLoc_GameRoot in *. lia.
  - rewrite bind_Ret, IH by done. rewrite (bool_decide_ext (NkStdLoc_GameRoot ∈ i :: ls) (NkStdLoc_GameRoot ∈ ls)); [done|].
    rewrite elem_of_cons. naive_solver.
Qed.

Lemma known_lookup i root (locs : list LocView) v :
  known i = true → <[Z.to_nat NkStdLoc_GameRoot := root]> locs !! Z.to_nat i = Some v → locs !! Z.to_nat i = Some v ∧ 0 ≤ i.
Proof.
  unfold known, NkStdLoc_SystemRoot, NkStdLoc_AppDir, NkStdLoc_GameRoot. rewrite andb_true_iff, !Z.leb_le. intros Hi Hv.
  rewrite list_lookup_insert_ne in Hv by lia. split; [done|lia].
Qed.

Lemma owned_root root (locs : list LocView) : owned 0 (<[Z.to_nat NkStdLoc_GameRoot := root]> locs) = owned 0 locs.
Proof. change (Z.to_nat NkStdLoc_GameRoot) with 12%nat. by do 13 (destruct locs as [|? locs]; [done|]). Qed.
Lemma cleared_root root (locs : list LocView) :
  cleared 0 (<[Z.to_nat NkStdLoc_GameRoot := root]> locs) = <[Z.to_nat NkStdLoc_GameRoot := root]> (cleared 0 locs).
Proof. change (Z.to_nat NkStdLoc_GameRoot) with 12%nat. by do 13 (destruct locs as [|? locs]; [done|]). Qed.

(** Starting the service: what the query did, and the root directory as it is given. *)
Lemma startup_spec root live0 :
  ∃ e locs live, query_result live0 e locs live ∧
    PathSrv_Startup root gl_StandardPaths live0 =
      Ret (e, if isOk e then <[Z.to_nat NkStdLoc_GameRoot := root]> locs else locs, live).
Proof.
  destruct (query_spec live0) as (e & locs & live & E & Hlen & Hq). exists e, locs, live. split; [done|].
  unfold PathSrv_Startup. rewrite E, bind_Ret. destruct (isOk e) eqn:Ee; cbn [negb]; [|done].
  assert (e = NkErr_Ok) as -> by by apply bool_decide_eq_true in Ee.
  rewrite game_loop_spec, bind_Ret.
  - by rewrite bool_decide_eq_true_2 by (unfold gl_c_GameLocs; set_solver).
  - unfold gl_c_GameLocs. repeat (apply list.NoDup_cons; split; [set_solver|]). by apply list.NoDup_nil.
  - done.
  - intros i Hi. assert (11 ≤ i ≤ 18) by (unfold gl_c_GameLocs in Hi; set_solver by lia). split; [lia|].
    intros v Hv. apply (proj1 Hq) in Hv. unfold entry_ok in Hv. rewrite Z2Nat.id in Hv by lia.
    replace (known i) with false in Hv; [done|]. unfold known, NkStdLoc_SystemRoot, NkStdLoc_AppDir.
    symmetry. apply andb_false_iff. right. apply Z.leb_gt. lia.
Qed.

(** Starting the path service either succeeds, with the path of every known folder in a new block of
    its own and the root directory as the application gave it, or it fails and leaves the heap as it was,
    without a pointer in the table. *)
Theorem path_startup_all_or_nothing root live0 :
  ∃ e locs live, PathSrv_Startup root gl_StandardPaths live0 = Ret (e, locs, live) ∧
    if isOk e then
      locs !! Z.to_nat NkStdLoc_GameRoot = Some root ∧ live0 ⊆ live ∧
      (∀ i v, known i = true → locs !! Z.to_nat i = Some v →
         lv_ptr v ≠ NULL ∧ lv_ptr v ∉ live0 ∧ lv_ptr v ∈ live ∧
         (∃ l, SHGetKnownFolderPath i = Some l ∧ lv_size v = Z.of_nat (length l) - 1) ∧
         ∀ j w, known j = true → i ≠ j → locs !! Z.to_nat j = Some w → lv_ptr w ≠ lv_ptr v)
    else live = live0 ∧ Forall no_ptr locs.
Proof.
  destruct (startup_spec root live0) as (e & locs & live & (Hlen & Hq) & ->). do 3 eexists. split; [done|].
  destruct (isOk e); [|done]. destruct Hq as (Hok & Hnd & Hdisj & ->).
  split; [apply list_lookup_insert_eq; rewrite Hlen; unfold NkStdLoc_GameRoot; lia|]. split; [set_solver|].
  intros i v Hi Hv. apply known_lookup in Hv as [Hv Hi0]; [|done].
  pose proof (Hok _ _ Hv) as He. unfold entry_ok in He. rewrite Z2Nat.id, Hi in He by lia. destruct He as [Hp Hl].
  assert (Hin : lv_ptr v ∈ owned 0 locs) by (eapply owned_lookup; [exact Hv| |done]; rewrite Z2Nat.id by lia; done).
  rewrite <-(elem_of_list_to_set (C := blocks)) in Hin. split; [done|]. split; [set_solver|]. split; [set_solver|].
  split; [done|]. intros j w Hj Hne Hw. apply known_lookup in Hw as [Hw Hj0]; [|done].
  pose proof (Hok _ _ Hw) as He. unfold entry_ok in He. rewrite Z2Nat.id, Hj in He by lia. destruct He as [Hp2 _].
  eapply (owned_distinct 0 locs); [done|exact Hw|exact Hv|lia|rewrite ?Z2Nat.id by lia; done..].
Qed.

(** Destroying entries without pointers frees nothing. *)
Lemma game_destroy_none ls locs live :
  length locs = 19%nat → Forall no_ptr locs → Forall (λ i, 0 ≤ i < 19) ls →
  ∃ locs', game_destroy_loop ls locs live = Ret (locs', live) ∧ Forall no_ptr locs' ∧ length locs' = 19%nat.
Proof.
  intros Hlen Hnp Hls. revert locs Hlen Hnp. induction Hls as [|i ls Hi _ IH]; intros locs Hlen Hnp; [by exists locs|].
  cbn [game_destroy_loop]. destruct (buf_get_in locs i) as (v & _ & Hl); [lia|].
  assert (E : locs = take (Z.to_nat i) locs ++ v :: drop (S (Z.to_nat i)) locs) by (symmetry; by apply take_drop_middle).
  assert (Hi2 : i = Z.of_nat (length (take (Z.to_nat i) locs))) by (rewrite length_take; lia).
  pose proof (Forall_lookup_1 _ _ _ _ Hnp Hl) as Hv. unfold no_ptr in Hv.
  pose proof (destroy_entry_spec (take (Z.to_nat i) locs) v (drop (S (Z.to_nat i)) locs) live (or_introl Hv)) as Hd.
  rewrite <-E, <-Hi2, Hv in Hd. rewrite Hd, bind_Ret. cbv iota.
  destruct (IH (take (Z.to_nat i) locs ++ mkLoc NULL (lv_size v) :: drop (S (Z.to_nat i)) locs)) as (locs' & El & ?).
  - rewrite length_app, length_take. cbn [length]. rewrite length_drop. lia.
  - apply Forall_app. split; [by apply Forall_take|]. constructor; [done|by apply Forall_drop].
  - exists locs'. split; [|done]. exact El.
Qed.

(** Shutting down with a root directory [root]: the platform's blocks are freed first. *)
Lemma shutdown_spec root live0 locs live :
  PathSrv_Startup root gl_StandardPaths live0 = Ret (NkErr_Ok, locs, live) →
  ∃ locs1, PathSrv_Shutdown locs live =
      ('(stdLocs, live) ← game_destroy_loop gl_c_GameLocs (<[Z.to_nat NkStdLoc_GameRoot := root]> locs1) live0;
       Ret (NkErr_Ok, stdLocs, live)) ∧ length locs1 = 19%nat ∧ Forall no_ptr locs1.
Proof.
  intros Hst. destruct (startup_spec root live0) as (e & locs0 & live1 & (Hlen & Hq) & E). rewrite E in Hst.
  injection Hst as -> <- <-. destruct Hq as (Hok & Hnd & Hdisj & ->). change (isOk NkErr_Ok) with true. cbv iota.
  destruct (cleared_none 0 locs0) as [H1 H2].
  { intros j v Hv. apply Hok in Hv. unfold entry_ok in Hv. rewrite Z.add_0_l. destruct (known (Z.of_nat j)); [by left|by right]. }
  exists (cleared 0 locs0). split; [|split; [congruence|done]]. unfold PathSrv_Shutdown.
  rewrite <-(owned_root root locs0), destroy_platform_spec, bind_Ret, cleared_root; [done| | |].
  - by rewrite length_insert.
  - by rewrite owned_root.
  - by rewrite owned_root.
Qed.

(** The entries around the root's. *)
Lemma split_entries (locs : list LocView) root :
  length locs = 19%nat →
  ∃ pre v post, length pre = 11%nat ∧ <[Z.to_nat NkStdLoc_GameRoot := root]> locs = pre ++ v :: root :: post ∧ In v locs.
Proof.
  intros Hlen. assert (∃ v, locs !! 11%nat = Some v) as [v Hv] by (apply lookup_lt_is_Some; lia).
  exists (take 11 locs), v, (drop 13 locs). split; [rewrite length_take; lia|]. split.
  - change (Z.to_nat NkStdLoc_GameRoot) with 12%nat. do 13 (destruct locs as [|? locs]; [done|]). by injection Hv as ->.
  - apply list_elem_of_In. by eapply list_elem_of_lookup_2.
Qed.
Lemma destroy_entry_bad pre v post live :
  lv_ptr v ≠ NULL → lv_ptr v ∉ live → destroy_entry (pre ++ v :: post) (Z.of_nat (length pre)) live = Undef.
Proof.
  intros Hv Hl. unfold destroy_entry, free_block. rewrite buf_get_middle, bind_Ret, (proj2 (Z.eqb_neq _ NULL)) by done.
  by rewrite bool_decide_eq_false_2.
Qed.

(** Shutting the service down after a successful start gives back exactly the blocks the start took
    when the application has no root directory; a root directory that is not a heap block is passed to
    [NkGPFree] all the same. *)
Theorem path_shutdown_root root live0 locs live :
  PathSrv_Startup root gl_StandardPaths live0 = Ret (NkErr_Ok, locs, live) →
  (lv_ptr root = NULL → ∃ locs', PathSrv_Shutdown locs live = Ret (NkErr_Ok, locs', live0) ∧ Forall no_ptr locs') ∧
  (lv_ptr root ≠ NULL → lv_ptr root ∉ live0 → PathSrv_Shutdown locs live = Undef).
Proof.
  intros Hst. destruct (shutdown_spec root live0 locs live Hst) as (locs1 & -> & Hlen & Hnp). split.
  - intros Hr. destruct (game_destroy_none gl_c_GameLocs (<[Z.to_nat NkStdLoc_GameRoot := root]> locs1) live0)
      as (locs' & -> & Hnp' & _).
    + by rewrite length_insert.
    + by apply Forall_insert.
    + unfold gl_c_GameLocs. repeat constructor; lia.
    + rewrite bind_Ret. by exists locs'.
  - intros Hr Hlive. change gl_c_GameLocs with (11 :: 12 :: [13; 14; 15; 16; 17; 18]). cbn [game_destroy_loop].
    destruct (split_entries locs1 root Hlen) as (pre & v & post & Hpre & E & Hin). rewrite E.
    pose proof (proj1 (List.Forall_forall _ _) Hnp v Hin) as Hv.
    pose proof (destroy_entry_spec pre v (root :: post) live0 (or_introl Hv)) as Hd. rewrite Hpre, Hv in Hd.
    change (Z.of_nat 11) with 11 in Hd. rewrite Hd, !bind_Ret.
    pose proof (destroy_entry_bad (pre ++ [mkLoc NULL (lv_size v)]) root post live0 Hr Hlive) as Hb.
    rewrite length_app, Hpre, <-(assoc_L (++)) in Hb. change (Z.of_nat (11 + length [mkLoc NULL (lv_size v)])) with 12 in Hb.
    cbn [app] in Hb. change (NULL =? NULL) with true. cbv iota. by rewrite Hb.
Qed.
End startup.

(** ** Concrete paths *)
Definition demo_comps : list (list Z) := bytes_of <$> ["assets"; "maps"]%string.
Lemma path_build_reference_witness :
  (∃ s mem' b, @NkPathBuild roomy None (Some demo_comps) (Some (bytes_of "town")) (Some (bytes_of "map")) ∅ =
      Ret (NkErr_Ok, Some s, mem') ∧
    mem' !! mp_charBuf s = Some b ∧ cut_nul b = bytes_of "assets\maps\town.map") ∧
  @NkPathBuild tight None (Some demo_comps) (Some (bytes_of "town")) (Some (bytes_of "map")) ∅ = Undef.
Proof.
  assert (Hp : Forall (λ e, e ≠ [] ∧ Forall (λ x, x ≠ 0) e) (path_pieces native_sep demo_comps (Some (bytes_of "town")) (Some (bytes_of "map"))))
    by (vm_compute; repeat constructor; done).
  split.
  - pose proof (@path_build_reference roomy None demo_comps (Some (bytes_of "town")) (Some (bytes_of "map")) 4096 ∅
      eq_refl ltac:(done) ltac:(by left) Hp ltac:(vm_compute; lia)) as Hb.
    rewrite decide_True in Hb by done. destruct Hb as (s & mem' & b & E & Hm & Hc & _).
    exists s, mem', b. split; [exact E|]. split; [exact Hm|]. rewrite Hc. by vm_compute.
  - pose proof (@path_build_reference tight None demo_comps (Some (bytes_of "town")) (Some (bytes_of "map")) 4096 ∅
      eq_refl ltac:(done) ltac:(by left) Hp ltac:(vm_compute; lia)) as Hb.
    by rewrite decide_False in Hb by done.
Defined.
Lemma path_build_empty_part_witness :
  @NkPathBuild roomy None (Some demo_comps) (Some []) None ∅ = Ret (NkErr_NoOperation, None, ∅).
Proof.
  apply (@path_build_empty_part roomy None demo_comps (Some []) None 4096 ∅
    [bytes_of "assets"; native_sep; bytes_of "maps"; native_sep] []).
  - done.
  - done.
  - done.
  - by left.
  - done.
  - vm_compute. repeat constructor; done.
  - vm_compute. lia.
Defined.
Lemma path_native_separators_witness :
  ∃ mem', @NkPathToNativeSeparators unsigned_char (mkString 6 6 4096) {[ 4096 := [97; 47; 195; 169; 92; 0] ]} =
      Ret (mkString 6 6 4096, mem') ∧
    @holds unsigned_char mem' (mkString 6 6 4096) [97; 92; 233; 92].
Proof.
  destruct (@path_native_separators unsigned_char {[ 4096 := [97; 47; 195; 169; 92; 0] ]} (mkString 6 6 4096) [97; 47; 233; 92])
    as (mem' & E & Hh & _).
  - split; [done|]. split; [repeat constructor; done|]. split; [done|]. by exists [].
  - by exists mem'.
Defined.

(** A host whose shell knows every folder as "C:" and whose heap gives the first free of 32 addresses. *)
#[export] Instance demo_host : PathHost := {|
  SHGetKnownFolderPath loc := Some [67; 58; 0];
  new_block live n := head (filter (λ a, a ∉ live) (zrange 1 32))
|}.
#[export] Instance demo_host_laws : PathHostLaws.
Proof.
  split; [|by intros loc l [= <-]]. intros live n a Ha. cbn [new_block demo_host] in Ha.
  assert (Hin : a ∈ filter (λ a, a ∉ live) (zrange 1 32)) by (apply head_Some_elem_of; exact Ha).
  apply list_elem_of_filter in Hin as [Hl Hz]. split; [|done]. intros ->.
  vm_compute in Hz. apply list_elem_of_In in Hz. cbn in Hz. intuition discriminate.
Qed.
Lemma path_startup_all_or_nothing_witness :
  ∃ locs live, PathSrv_Startup null_view gl_StandardPaths {[ 3 ]} = Ret (NkErr_Ok, locs, live) ∧
    locs !! 12%nat = Some null_view.
Proof.
  destruct (path_startup_all_or_nothing null_view {[ 3 ]}) as (e & locs & live & E & H).
  assert (e = NkErr_Ok) as -> by (vm_compute in E; by injection E as <- _ _).
  change (isOk NkErr_Ok) with true in H. exists locs, live. split; [exact E|]. apply H.
Defined.
Lemma path_shutdown_root_witness :
  (∃ locs live locs', PathSrv_Startup null_view gl_StandardPaths {[ 3 ]} = Ret (NkErr_Ok, locs, live) ∧
     PathSrv_Shutdown locs live = Ret (NkErr_Ok, locs', {[ 3 ]})) ∧
  ∃ locs live, PathSrv_Startup (mkLoc 77 4) gl_StandardPaths {[ 3 ]} = Ret (NkErr_Ok, locs, live) ∧
     PathSrv_Shutdown locs live = Undef.
Proof.
  split.
  - destruct (PathSrv_Startup null_view gl_StandardPaths {[ 3 ]}) as [[[e locs] live]| | |] eqn:E; try (vm_compute in E; done).
    assert (e = NkErr_Ok) as -> by (vm_compute in E; by injection E as <- _ _).
    destruct (path_shutdown_root null_view {[ 3 ]} locs live E) as [H _]. destruct (H eq_refl) as (locs' & Es & _).
    exists locs, live, locs'. done.
  - destruct (PathSrv_Startup (mkLoc 77 4) gl_StandardPaths {[ 3 ]}) as [[[e locs] live]| | |] eqn:E; try (vm_compute in E; done).
    assert (e = NkErr_Ok) as -> by (vm_compute in E; by injection E as <- _ _).
    destruct (path_shutdown_root (mkLoc 77 4) {[ 3 ]} locs live E) as [_ H].
    exists locs, live. split; [done|]. apply H; [done|]. cbn. set_solver.
Defined.
