(* ===== verification/Input.v ===== *)
(** * [src/Noriko/input.c], [src/Noriko/platform/windows/wininput.c]: keyboard and mouse

    The key codes, the translation tables between them and the native key codes, and
    the queries of the input abstraction layer.  The native codes ([VK_*], of the
    Windows headers) and the state of the keys are parameters. *)
From S2P Require Import Prelude Util NkOM.

(** ** Codes ([include/Noriko/input.h]) *)
Definition NK_MAX_NUM_KEY_CODES : Z := 0x400.
Definition NK_MAX_NUM_MOUSE_BTNS : Z := 0x020.

Inductive NkKeyboardKey : Set :=
  | NkKey_Unknown | NkKey_Backspace | NkKey_Enter | NkKey_Escape | NkKey_Tab | NkKey_CapsLock | NkKey_LShift
  | NkKey_RShift | NkKey_LControl | NkKey_RControl | NkKey_LAlt | NkKey_RAlt | NkKey_LSuper | NkKey_RSuper
  | NkKey_Context | NkKey_F1 | NkKey_F2 | NkKey_F3 | NkKey_F4 | NkKey_F5 | NkKey_F6 | NkKey_F7 | NkKey_F8
  | NkKey_F9 | NkKey_F10 | NkKey_F11 | NkKey_F12 | NkKey_Home | NkKey_End | NkKey_PageUp | NkKey_PageDown
  | NkKey_Insert | NkKey_Delete | NkKey_PrintScreen | NkKey_Scroll | NkKey_Pause | NkKey_Up | NkKey_Down
  | NkKey_Left | NkKey_Right | NkKey_NumLock | NkKey_Numpad0 | NkKey_Numpad1 | NkKey_Numpad2 | NkKey_Numpad3
  | NkKey_Numpad4 | NkKey_Numpad5 | NkKey_Numpad6 | NkKey_Numpad7 | NkKey_Numpad8 | NkKey_Numpad9
  | NkKey_NumpadPlus | NkKey_NumpadMinus | NkKey_NumpadMultiply | NkKey_NumpadDivide | NkKey_NumpadSeparator
  | NkKey_NumpadDecimal | NkKey_Space | NkKey_Alnum0 | NkKey_Alnum1 | NkKey_Alnum2 | NkKey_Alnum3
  | NkKey_Alnum4 | NkKey_Alnum5 | NkKey_Alnum6 | NkKey_Alnum7 | NkKey_Alnum8 | NkKey_Alnum9 | NkKey_AlnumA
  | NkKey_AlnumB | NkKey_AlnumC | NkKey_AlnumD | NkKey_AlnumE | NkKey_AlnumF | NkKey_AlnumG | NkKey_AlnumH
  | NkKey_AlnumI | NkKey_AlnumJ | NkKey_AlnumK | NkKey_AlnumL | NkKey_AlnumM | NkKey_AlnumN | NkKey_AlnumO
  | NkKey_AlnumP | NkKey_AlnumQ | NkKey_AlnumR | NkKey_AlnumS | NkKey_AlnumT | NkKey_AlnumU | NkKey_AlnumV
  | NkKey_AlnumW | NkKey_AlnumX | NkKey_AlnumY | NkKey_AlnumZ | NkKey_Oem1 | NkKey_Oem2 | NkKey_Oem3
  | NkKey_Oem4 | NkKey_Oem5 | NkKey_Oem6 | NkKey_Oem7 | NkKey_Oem8 | NkKey_Oem9 | NkKey_Oem10 | NkKey_Oem11.

(** The enumerators in the order of their values. *)
Definition all_keys : list NkKeyboardKey :=
  [NkKey_Unknown; NkKey_Backspace; NkKey_Enter; NkKey_Escape; NkKey_Tab; NkKey_CapsLock; NkKey_LShift;
   NkKey_RShift; NkKey_LControl; NkKey_RControl; NkKey_LAlt; NkKey_RAlt; NkKey_LSuper; NkKey_RSuper;
   NkKey_Context; NkKey_F1; NkKey_F2; NkKey_F3; NkKey_F4; NkKey_F5; NkKey_F6; NkKey_F7; NkKey_F8; NkKey_F9;
   NkKey_F10; NkKey_F11; NkKey_F12; NkKey_Home; NkKey_End; NkKey_PageUp; NkKey_PageDown; NkKey_Insert;
   NkKey_Delete; NkKey_PrintScreen; NkKey_Scroll; NkKey_Pause; NkKey_Up; NkKey_Down; NkKey_Left; NkKey_Right;
   NkKey_NumLock; NkKey_Numpad0; NkKey_Numpad1; NkKey_Numpad2; NkKey_Numpad3; NkKey_Numpad4; NkKey_Numpad5;
   NkKey_Numpad6; NkKey_Numpad7; NkKey_Numpad8; NkKey_Numpad9; NkKey_NumpadPlus; NkKey_NumpadMinus;
   NkKey_NumpadMultiply; NkKey_NumpadDivide; NkKey_NumpadSeparator; NkKey_NumpadDecimal; NkKey_Space;
   NkKey_Alnum0; NkKey_Alnum1; NkKey_Alnum2; NkKey_Alnum3; NkKey_Alnum4; NkKey_Alnum5; NkKey_Alnum6;
   NkKey_Alnum7; NkKey_Alnum8; NkKey_Alnum9; NkKey_AlnumA; NkKey_AlnumB; NkKey_AlnumC; NkKey_AlnumD;
   NkKey_AlnumE; NkKey_AlnumF; NkKey_AlnumG; NkKey_AlnumH; NkKey_AlnumI; NkKey_AlnumJ; NkKey_AlnumK;
   NkKey_AlnumL; NkKey_AlnumM; NkKey_AlnumN; NkKey_AlnumO; NkKey_AlnumP; NkKey_AlnumQ; NkKey_AlnumR;
   NkKey_AlnumS; NkKey_AlnumT; NkKey_AlnumU; NkKey_AlnumV; NkKey_AlnumW; NkKey_AlnumX; NkKey_AlnumY;
   NkKey_AlnumZ; NkKey_Oem1; NkKey_Oem2; NkKey_Oem3; NkKey_Oem4; NkKey_Oem5; NkKey_Oem6; NkKey_Oem7;
   NkKey_Oem8; NkKey_Oem9; NkKey_Oem10; NkKey_Oem11].
Definition key_code (k : NkKeyboardKey) : Z :=
  match k with
  | NkKey_Unknown => 0 | NkKey_Backspace => 1 | NkKey_Enter => 2 | NkKey_Escape => 3 | NkKey_Tab => 4
  | NkKey_CapsLock => 5 | NkKey_LShift => 6 | NkKey_RShift => 7 | NkKey_LControl => 8 | NkKey_RControl => 9
  | NkKey_LAlt => 10 | NkKey_RAlt => 11 | NkKey_LSuper => 12 | NkKey_RSuper => 13 | NkKey_Context => 14
  | NkKey_F1 => 15 | NkKey_F2 => 16 | NkKey_F3 => 17 | NkKey_F4 => 18 | NkKey_F5 => 19 | NkKey_F6 => 20
  | NkKey_F7 => 21 | NkKey_F8 => 22 | NkKey_F9 => 23 | NkKey_F10 => 24 | NkKey_F11 => 25 | NkKey_F12 => 26
  | NkKey_Home => 27 | NkKey_End => 28 | NkKey_PageUp => 29 | NkKey_PageDown => 30 | NkKey_Insert => 31
  | NkKey_Delete => 32 | NkKey_PrintScreen => 33 | NkKey_Scroll => 34 | NkKey_Pause => 35 | NkKey_Up => 36
  | NkKey_Down => 37 | NkKey_Left => 38 | NkKey_Right => 39 | NkKey_NumLock => 40 | NkKey_Numpad0 => 41
  | NkKey_Numpad1 => 42 | NkKey_Numpad2 => 43 | NkKey_Numpad3 => 44 | NkKey_Numpad4 => 45 | NkKey_Numpad5 => 46
  | NkKey_Numpad6 => 47 | NkKey_Numpad7 => 48 | NkKey_Numpad8 => 49 | NkKey_Numpad9 => 50
  | NkKey_NumpadPlus => 51 | NkKey_NumpadMinus => 52 | NkKey_NumpadMultiply => 53 | NkKey_NumpadDivide => 54
  | NkKey_NumpadSeparator => 55 | NkKey_NumpadDecimal => 56 | NkKey_Space => 57 | NkKey_Alnum0 => 58
  | NkKey_Alnum1 => 59 | NkKey_Alnum2 => 60 | NkKey_Alnum3 => 61 | NkKey_Alnum4 => 62 | NkKey_Alnum5 => 63
  | NkKey_Alnum6 => 64 | NkKey_Alnum7 => 65 | NkKey_Alnum8 => 66 | NkKey_Alnum9 => 67 | NkKey_AlnumA => 68
  | NkKey_AlnumB => 69 | NkKey_AlnumC => 70 | NkKey_AlnumD => 71 | NkKey_AlnumE => 72 | NkKey_AlnumF => 73
  | NkKey_AlnumG => 74 | NkKey_AlnumH => 75 | NkKey_AlnumI => 76 | NkKey_AlnumJ => 77 | NkKey_AlnumK => 78
  | NkKey_AlnumL => 79 | NkKey_AlnumM => 80 | NkKey_AlnumN => 81 | NkKey_AlnumO => 82 | NkKey_AlnumP => 83
  | NkKey_AlnumQ => 84 | NkKey_AlnumR => 85 | NkKey_AlnumS => 86 | NkKey_AlnumT => 87 | NkKey_AlnumU => 88
  | NkKey_AlnumV => 89 | NkKey_AlnumW => 90 | NkKey_AlnumX => 91 | NkKey_AlnumY => 92 | NkKey_AlnumZ => 93
  | NkKey_Oem1 => 94 | NkKey_Oem2 => 95 | NkKey_Oem3 => 96 | NkKey_Oem4 => 97 | NkKey_Oem5 => 98
  | NkKey_Oem6 => 99 | NkKey_Oem7 => 100 | NkKey_Oem8 => 101 | NkKey_Oem9 => 102 | NkKey_Oem10 => 103
  | NkKey_Oem11 => 104
  end.

Inductive NkMouseButton : Set :=
  | NkBtn_Unknown | NkBtn_LeftButton | NkBtn_MiddleButton | NkBtn_RightButton | NkBtn_Button4 | NkBtn_Button5.
Definition btn_code (b : NkMouseButton) : Z :=
  match b with
  | NkBtn_Unknown => 0 | NkBtn_LeftButton => 1 | NkBtn_MiddleButton => 2 | NkBtn_RightButton => 3
  | NkBtn_Button4 => 4 | NkBtn_Button5 => 5
  end.

Definition NkModKey_LShift : Z := Z.shiftl 1 0.
Definition NkModKey_RShift : Z := Z.shiftl 1 1.
Definition NkModKey_LCtrl : Z := Z.shiftl 1 2.
Definition NkModKey_RCtrl : Z := Z.shiftl 1 3.
Definition NkModKey_Menu : Z := Z.shiftl 1 4.
Definition NkModKey_LAlt : Z := Z.shiftl 1 5.
Definition NkModKey_RAlt : Z := Z.shiftl 1 6.
Definition NkModKey_LSuper : Z := Z.shiftl 1 7.
Definition NkModKey_RSuper : Z := Z.shiftl 1 8.

(** ** The host *)

(** The names of the native codes. *)
Inductive vkey : Set :=
  | VK_BACK | VK_TAB | VK_RETURN | VK_PAUSE | VK_CAPITAL | VK_ESCAPE | VK_SPACE | VK_PRIOR | VK_NEXT | VK_END
  | VK_HOME | VK_LEFT | VK_UP | VK_RIGHT | VK_DOWN | VK_SNAPSHOT | VK_INSERT | VK_DELETE | VK_LWIN | VK_RWIN
  | VK_NUMPAD0 | VK_NUMPAD1 | VK_NUMPAD2 | VK_NUMPAD3 | VK_NUMPAD4 | VK_NUMPAD5 | VK_NUMPAD6 | VK_NUMPAD7
  | VK_NUMPAD8 | VK_NUMPAD9 | VK_MULTIPLY | VK_ADD | VK_SEPARATOR | VK_SUBTRACT | VK_DECIMAL | VK_DIVIDE
  | VK_F1 | VK_F2 | VK_F3 | VK_F4 | VK_F5 | VK_F6 | VK_F7 | VK_F8 | VK_F9 | VK_F10 | VK_F11 | VK_F12
  | VK_NUMLOCK | VK_SCROLL | VK_LSHIFT | VK_RSHIFT | VK_LCONTROL | VK_RCONTROL | VK_LMENU | VK_RMENU | VK_OEM_1
  | VK_OEM_PLUS | VK_OEM_COMMA | VK_OEM_MINUS | VK_OEM_PERIOD | VK_OEM_2 | VK_OEM_3 | VK_OEM_4 | VK_OEM_5
  | VK_OEM_6 | VK_OEM_7 | VK_LBUTTON | VK_MBUTTON | VK_RBUTTON | VK_XBUTTON1 | VK_XBUTTON2.
Definition all_vkeys : list vkey :=
  [VK_BACK; VK_TAB; VK_RETURN; VK_PAUSE; VK_CAPITAL; VK_ESCAPE; VK_SPACE; VK_PRIOR; VK_NEXT; VK_END; VK_HOME;
   VK_LEFT; VK_UP; VK_RIGHT; VK_DOWN; VK_SNAPSHOT; VK_INSERT; VK_DELETE; VK_LWIN; VK_RWIN; VK_NUMPAD0;
   VK_NUMPAD1; VK_NUMPAD2; VK_NUMPAD3; VK_NUMPAD4; VK_NUMPAD5; VK_NUMPAD6; VK_NUMPAD7; VK_NUMPAD8; VK_NUMPAD9;
   VK_MULTIPLY; VK_ADD; VK_SEPARATOR; VK_SUBTRACT; VK_DECIMAL; VK_DIVIDE; VK_F1; VK_F2; VK_F3; VK_F4; VK_F5;
   VK_F6; VK_F7; VK_F8; VK_F9; VK_F10; VK_F11; VK_F12; VK_NUMLOCK; VK_SCROLL; VK_LSHIFT; VK_RSHIFT;
   VK_LCONTROL; VK_RCONTROL; VK_LMENU; VK_RMENU; VK_OEM_1; VK_OEM_PLUS; VK_OEM_COMMA; VK_OEM_MINUS;
   VK_OEM_PERIOD; VK_OEM_2; VK_OEM_3; VK_OEM_4; VK_OEM_5; VK_OEM_6; VK_OEM_7; VK_LBUTTON; VK_MBUTTON;
   VK_RBUTTON; VK_XBUTTON1; VK_XBUTTON2].
Definition vkey_index (v : vkey) : Z :=
  match v with
  | VK_BACK => 0 | VK_TAB => 1 | VK_RETURN => 2 | VK_PAUSE => 3 | VK_CAPITAL => 4 | VK_ESCAPE => 5
  | VK_SPACE => 6 | VK_PRIOR => 7 | VK_NEXT => 8 | VK_END => 9 | VK_HOME => 10 | VK_LEFT => 11 | VK_UP => 12
  | VK_RIGHT => 13 | VK_DOWN => 14 | VK_SNAPSHOT => 15 | VK_INSERT => 16 | VK_DELETE => 17 | VK_LWIN => 18
  | VK_RWIN => 19 | VK_NUMPAD0 => 20 | VK_NUMPAD1 => 21 | VK_NUMPAD2 => 22 | VK_NUMPAD3 => 23
  | VK_NUMPAD4 => 24 | VK_NUMPAD5 => 25 | VK_NUMPAD6 => 26 | VK_NUMPAD7 => 27 | VK_NUMPAD8 => 28
  | VK_NUMPAD9 => 29 | VK_MULTIPLY => 30 | VK_ADD => 31 | VK_SEPARATOR => 32 | VK_SUBTRACT => 33
  | VK_DECIMAL => 34 | VK_DIVIDE => 35 | VK_F1 => 36 | VK_F2 => 37 | VK_F3 => 38 | VK_F4 => 39 | VK_F5 => 40
  | VK_F6 => 41 | VK_F7 => 42 | VK_F8 => 43 | VK_F9 => 44 | VK_F10 => 45 | VK_F11 => 46 | VK_F12 => 47
  | VK_NUMLOCK => 48 | VK_SCROLL => 49 | VK_LSHIFT => 50 | VK_RSHIFT => 51 | VK_LCONTROL => 52
  | VK_RCONTROL => 53 | VK_LMENU => 54 | VK_RMENU => 55 | VK_OEM_1 => 56 | VK_OEM_PLUS => 57
  | VK_OEM_COMMA => 58 | VK_OEM_MINUS => 59 | VK_OEM_PERIOD => 60 | VK_OEM_2 => 61 | VK_OEM_3 => 62
  | VK_OEM_4 => 63 | VK_OEM_5 => 64 | VK_OEM_6 => 65 | VK_OEM_7 => 66 | VK_LBUTTON => 67 | VK_MBUTTON => 68
  | VK_RBUTTON => 69 | VK_XBUTTON1 => 70 | VK_XBUTTON2 => 71
  end.
(** Native codes are named, or the codes of characters. *)
Inductive native : Set := Vk (v : vkey) | Chr (c : Z).

Class NativeInput := {
  VK : vkey → Z;
  (* the 16 bits of the state of a key *)
  GetAsyncKeyState : Z → Z;
  GetCursorPos : Z * Z
}.
(** What the Windows headers promise: the names are different codes of one byte, none of them
    the code of a digit or a capital letter; the codes of the mouse buttons are the first ones. *)
Class NativeInputLaws `{NativeInput} : Prop := {
  VK_inj v w : VK v = VK w → v = w;
  VK_range v : 0 < VK v < 256;
  VK_alnum v c : (48 ≤ c ≤ 57 ∨ 65 ≤ c ≤ 90) → VK v ≠ c;
  VK_mouse v : v ∈ [VK_LBUTTON; VK_MBUTTON; VK_RBUTTON; VK_XBUTTON1; VK_XBUTTON2] → VK v < 32
}.

(** ** Tables *)

(** An array with designated initialisers, all other cells being zero. *)
Definition designated (entries : list (Z * Z)) (i : Z) : Z :=
  foldl (λ acc e, if e.1 =? i then e.2 else acc) 0 entries.

Definition gl_Nt2NkKeyMapping : list (native * NkKeyboardKey) :=
  [(Vk VK_BACK, NkKey_Backspace); (Vk VK_TAB, NkKey_Tab); (Vk VK_RETURN, NkKey_Enter);
   (Vk VK_PAUSE, NkKey_Pause); (Vk VK_CAPITAL, NkKey_CapsLock); (Vk VK_ESCAPE, NkKey_Escape);
   (Vk VK_SPACE, NkKey_Space); (Chr 48, NkKey_Alnum0); (Chr 49, NkKey_Alnum1); (Chr 50, NkKey_Alnum2);
   (Chr 51, NkKey_Alnum3); (Chr 52, NkKey_Alnum4); (Chr 53, NkKey_Alnum5); (Chr 54, NkKey_Alnum6);
   (Chr 55, NkKey_Alnum7); (Chr 56, NkKey_Alnum8); (Chr 57, NkKey_Alnum9); (Chr 65, NkKey_AlnumA);
   (Chr 66, NkKey_AlnumB); (Chr 67, NkKey_AlnumC); (Chr 68, NkKey_AlnumD); (Chr 69, NkKey_AlnumE);
   (Chr 70, NkKey_AlnumF); (Chr 71, NkKey_AlnumG); (Chr 72, NkKey_AlnumH); (Chr 73, NkKey_AlnumI);
   (Chr 74, NkKey_AlnumJ); (Chr 75, NkKey_AlnumK); (Chr 76, NkKey_AlnumL); (Chr 77, NkKey_AlnumM);
   (Chr 78, NkKey_AlnumN); (Chr 79, NkKey_AlnumO); (Chr 80, NkKey_AlnumP); (Chr 81, NkKey_AlnumQ);
   (Chr 82, NkKey_AlnumR); (Chr 83, NkKey_AlnumS); (Chr 84, NkKey_AlnumT); (Chr 85, NkKey_AlnumU);
   (Chr 86, NkKey_AlnumV); (Chr 87, NkKey_AlnumW); (Chr 88, NkKey_AlnumX); (Chr 89, NkKey_AlnumY);
   (Chr 90, NkKey_AlnumZ); (Vk VK_PRIOR, NkKey_PageUp); (Vk VK_NEXT, NkKey_PageDown); (Vk VK_END, NkKey_End);
   (Vk VK_HOME, NkKey_Home); (Vk VK_LEFT, NkKey_Left); (Vk VK_UP, NkKey_Up); (Vk VK_RIGHT, NkKey_Right);
   (Vk VK_DOWN, NkKey_Down); (Vk VK_SNAPSHOT, NkKey_PrintScreen); (Vk VK_INSERT, NkKey_Insert);
   (Vk VK_DELETE, NkKey_Delete); (Vk VK_LWIN, NkKey_LSuper); (Vk VK_RWIN, NkKey_RSuper);
   (Vk VK_NUMPAD0, NkKey_Numpad0); (Vk VK_NUMPAD1, NkKey_Numpad1); (Vk VK_NUMPAD2, NkKey_Numpad2);
   (Vk VK_NUMPAD3, NkKey_Numpad3); (Vk VK_NUMPAD4, NkKey_Numpad4); (Vk VK_NUMPAD5, NkKey_Numpad5);
   (Vk VK_NUMPAD6, NkKey_Numpad6); (Vk VK_NUMPAD7, NkKey_Numpad7); (Vk VK_NUMPAD8, NkKey_Numpad8);
   (Vk VK_NUMPAD9, NkKey_Numpad9); (Vk VK_MULTIPLY, NkKey_NumpadMultiply); (Vk VK_ADD, NkKey_NumpadPlus);
   (Vk VK_SEPARATOR, NkKey_NumpadSeparator); (Vk VK_SUBTRACT, NkKey_NumpadMinus);
   (Vk VK_DECIMAL, NkKey_NumpadDecimal); (Vk VK_DIVIDE, NkKey_NumpadDivide); (Vk VK_F1, NkKey_F1);
   (Vk VK_F2, NkKey_F2); (Vk VK_F3, NkKey_F3); (Vk VK_F4, NkKey_F4); (Vk VK_F5, NkKey_F5);
   (Vk VK_F6, NkKey_F6); (Vk VK_F7, NkKey_F7); (Vk VK_F8, NkKey_F8); (Vk VK_F9, NkKey_F9);
   (Vk VK_F10, NkKey_F10); (Vk VK_F11, NkKey_F11); (Vk VK_F12, NkKey_F12); (Vk VK_NUMLOCK, NkKey_NumLock);
   (Vk VK_SCROLL, NkKey_Scroll); (Vk VK_LSHIFT, NkKey_LShift); (Vk VK_RSHIFT, NkKey_RShift);
   (Vk VK_LCONTROL, NkKey_LControl); (Vk VK_RCONTROL, NkKey_RControl); (Vk VK_LMENU, NkKey_LAlt);
   (Vk VK_RMENU, NkKey_RAlt); (Vk VK_OEM_1, NkKey_Oem1); (Vk VK_OEM_PLUS, NkKey_Oem2);
   (Vk VK_OEM_COMMA, NkKey_Oem3); (Vk VK_OEM_MINUS, NkKey_Oem4); (Vk VK_OEM_PERIOD, NkKey_Oem5);
   (Vk VK_OEM_2, NkKey_Oem6); (Vk VK_OEM_3, NkKey_Oem7); (Vk VK_OEM_4, NkKey_Oem8); (Vk VK_OEM_5, NkKey_Oem9);
   (Vk VK_OEM_6, NkKey_Oem10); (Vk VK_OEM_7, NkKey_Oem11)].
Definition gl_Nk2NtKeyMapping : list (NkKeyboardKey * native) :=
  [(NkKey_Backspace, Vk VK_BACK); (NkKey_Tab, Vk VK_TAB); (NkKey_Enter, Vk VK_RETURN);
   (NkKey_Pause, Vk VK_PAUSE); (NkKey_CapsLock, Vk VK_CAPITAL); (NkKey_Escape, Vk VK_ESCAPE);
   (NkKey_Space, Vk VK_SPACE); (NkKey_Alnum0, Chr 48); (NkKey_Alnum1, Chr 49); (NkKey_Alnum2, Chr 50);
   (NkKey_Alnum3, Chr 51); (NkKey_Alnum4, Chr 52); (NkKey_Alnum5, Chr 53); (NkKey_Alnum6, Chr 54);
   (NkKey_Alnum7, Chr 55); (NkKey_Alnum8, Chr 56); (NkKey_Alnum9, Chr 57); (NkKey_AlnumA, Chr 65);
   (NkKey_AlnumB, Chr 66); (NkKey_AlnumC, Chr 67); (NkKey_AlnumD, Chr 68); (NkKey_AlnumE, Chr 69);
   (NkKey_AlnumF, Chr 70); (NkKey_AlnumG, Chr 71); (NkKey_AlnumH, Chr 72); (NkKey_AlnumI, Chr 73);
   (NkKey_AlnumJ, Chr 74); (NkKey_AlnumK, Chr 75); (NkKey_AlnumL, Chr 76); (NkKey_AlnumM, Chr 77);
   (NkKey_AlnumN, Chr 78); (NkKey_AlnumO, Chr 79); (NkKey_AlnumP, Chr 80); (NkKey_AlnumQ, Chr 81);
   (NkKey_AlnumR, Chr 82); (NkKey_AlnumS, Chr 83); (NkKey_AlnumT, Chr 84); (NkKey_AlnumU, Chr 85);
   (NkKey_AlnumV, Chr 86); (NkKey_AlnumW, Chr 87); (NkKey_AlnumX, Chr 88); (NkKey_AlnumY, Chr 89);
   (NkKey_AlnumZ, Chr 90); (NkKey_PageUp, Vk VK_PRIOR); (NkKey_PageDown, Vk VK_NEXT); (NkKey_End, Vk VK_END);
   (NkKey_Home, Vk VK_HOME); (NkKey_Left, Vk VK_LEFT); (NkKey_Up, Vk VK_UP); (NkKey_Right, Vk VK_RIGHT);
   (NkKey_Down, Vk VK_DOWN); (NkKey_PrintScreen, Vk VK_SNAPSHOT); (NkKey_Insert, Vk VK_INSERT);
   (NkKey_Delete, Vk VK_DELETE); (NkKey_LSuper, Vk VK_LWIN); (NkKey_RSuper, Vk VK_RWIN);
   (NkKey_Numpad0, Vk VK_NUMPAD0); (NkKey_Numpad1, Vk VK_NUMPAD1); (NkKey_Numpad2, Vk VK_NUMPAD2);
   (NkKey_Numpad3, Vk VK_NUMPAD3); (NkKey_Numpad4, Vk VK_NUMPAD4); (NkKey_Numpad5, Vk VK_NUMPAD5);
   (NkKey_Numpad6, Vk VK_NUMPAD6); (NkKey_Numpad7, Vk VK_NUMPAD7); (NkKey_Numpad8, Vk VK_NUMPAD8);
   (NkKey_Numpad9, Vk VK_NUMPAD9); (NkKey_NumpadMultiply, Vk VK_MULTIPLY); (NkKey_NumpadPlus, Vk VK_ADD);
   (NkKey_NumpadSeparator, Vk VK_SEPARATOR); (NkKey_NumpadMinus, Vk VK_SUBTRACT);
   (NkKey_NumpadDecimal, Vk VK_DECIMAL); (NkKey_NumpadDivide, Vk VK_DIVIDE); (NkKey_F1, Vk VK_F1);
   (NkKey_F2, Vk VK_F2); (NkKey_F3, Vk VK_F3); (NkKey_F4, Vk VK_F4); (NkKey_F5, Vk VK_F5);
   (NkKey_F6, Vk VK_F6); (NkKey_F7, Vk VK_F7); (NkKey_F8, Vk VK_F8); (NkKey_F9, Vk VK_F9);
   (NkKey_F10, Vk VK_F10); (NkKey_F11, Vk VK_F11); (NkKey_F12, Vk VK_F12); (NkKey_NumLock, Vk VK_NUMLOCK);
   (NkKey_Scroll, Vk VK_SCROLL); (NkKey_LShift, Vk VK_LSHIFT); (NkKey_RShift, Vk VK_RSHIFT);
   (NkKey_LControl, Vk VK_LCONTROL); (NkKey_RControl, Vk VK_RCONTROL); (NkKey_LAlt, Vk VK_LMENU);
   (NkKey_RAlt, Vk VK_RMENU); (NkKey_Oem1, Vk VK_OEM_1); (NkKey_Oem2, Vk VK_OEM_PLUS);
   (NkKey_Oem3, Vk VK_OEM_COMMA); (NkKey_Oem4, Vk VK_OEM_MINUS); (NkKey_Oem5, Vk VK_OEM_PERIOD);
   (NkKey_Oem6, Vk VK_OEM_2); (NkKey_Oem7, Vk VK_OEM_3); (NkKey_Oem8, Vk VK_OEM_4); (NkKey_Oem9, Vk VK_OEM_5);
   (NkKey_Oem10, Vk VK_OEM_6); (NkKey_Oem11, Vk VK_OEM_7)].
Definition gl_Nt2NkMouseBtnMapping : list (native * NkMouseButton) :=
  [(Vk VK_LBUTTON, NkBtn_LeftButton); (Vk VK_MBUTTON, NkBtn_MiddleButton); (Vk VK_RBUTTON, NkBtn_RightButton);
   (Vk VK_XBUTTON1, NkBtn_Button4); (Vk VK_XBUTTON2, NkBtn_Button5)].
Definition gl_Nk2NtMouseBtnMapping : list (NkMouseButton * native) :=
  [(NkBtn_LeftButton, Vk VK_LBUTTON); (NkBtn_MiddleButton, Vk VK_MBUTTON); (NkBtn_RightButton, Vk VK_RBUTTON);
   (NkBtn_Button4, Vk VK_XBUTTON1); (NkBtn_Button5, Vk VK_XBUTTON2)].
(** The names of the keys; the other cells are null views. *)
Definition gl_KeyCodeStrs : list (NkKeyboardKey * string) :=
  [(NkKey_Backspace, "NkKey_Backspace"); (NkKey_Enter, "NkKey_Enter"); (NkKey_Escape, "NkKey_Escape");
   (NkKey_Tab, "NkKey_Tab"); (NkKey_CapsLock, "NkKey_CapsLock"); (NkKey_LShift, "NkKey_LShift");
   (NkKey_RShift, "NkKey_RShift"); (NkKey_LControl, "NkKey_LControl"); (NkKey_RControl, "NkKey_RControl");
   (NkKey_LAlt, "NkKey_LAlt"); (NkKey_RAlt, "NkKey_RAlt"); (NkKey_LSuper, "NkKey_LSuper");
   (NkKey_RSuper, "NkKey_RSuper"); (NkKey_Context, "NkKey_Context"); (NkKey_F1, "NkKey_F1");
   (NkKey_F2, "NkKey_F2"); (NkKey_F3, "NkKey_F3"); (NkKey_F4, "NkKey_F4"); (NkKey_F5, "NkKey_F5");
   (NkKey_F6, "NkKey_F6"); (NkKey_F7, "NkKey_F7"); (NkKey_F8, "NkKey_F8"); (NkKey_F9, "NkKey_F9");
   (NkKey_F10, "NkKey_F10"); (NkKey_F11, "NkKey_F11"); (NkKey_F12, "NkKey_F12"); (NkKey_Home, "NkKey_Home");
   (NkKey_End, "NkKey_End"); (NkKey_PageUp, "NkKey_PageUp"); (NkKey_PageDown, "NkKey_PageDown");
   (NkKey_Insert, "NkKey_Insert"); (NkKey_Delete, "NkKey_Delete"); (NkKey_PrintScreen, "NkKey_PrintScreen");
   (NkKey_Scroll, "NkKey_Scroll"); (NkKey_Pause, "NkKey_Pause"); (NkKey_Up, "NkKey_Up");
   (NkKey_Down, "NkKey_Down"); (NkKey_Left, "NkKey_Left"); (NkKey_Right, "NkKey_Right");
   (NkKey_NumLock, "NkKey_NumLock"); (NkKey_Numpad0, "NkKey_Numpad0"); (NkKey_Numpad1, "NkKey_Numpad1");
   (NkKey_Numpad2, "NkKey_Numpad2"); (NkKey_Numpad3, "NkKey_Numpad3"); (NkKey_Numpad4, "NkKey_Numpad4");
   (NkKey_Numpad5, "NkKey_Numpad5"); (NkKey_Numpad6, "NkKey_Numpad6"); (NkKey_Numpad7, "NkKey_Numpad7");
   (NkKey_Numpad8, "NkKey_Numpad8"); (NkKey_Numpad9, "NkKey_Numpad9"); (NkKey_NumpadPlus, "NkKey_NumpadPlus");
   (NkKey_NumpadMinus, "NkKey_NumpadMinus"); (NkKey_NumpadMultiply, "NkKey_NumpadMultiply");
   (NkKey_NumpadDivide, "NkKey_NumpadDivide"); (NkKey_NumpadSeparator, "NkKey_NumpadSeparator");
   (NkKey_NumpadDecimal, "NkKey_NumpadDecimal"); (NkKey_Space, "NkKey_Space"); (NkKey_Alnum0, "NkKey_Alnum0");
   (NkKey_Alnum1, "NkKey_Alnum1"); (NkKey_Alnum2, "NkKey_Alnum2"); (NkKey_Alnum3, "NkKey_Alnum3");
   (NkKey_Alnum4, "NkKey_Alnum4"); (NkKey_Alnum5, "NkKey_Alnum5"); (NkKey_Alnum6, "NkKey_Alnum6");
   (NkKey_Alnum7, "NkKey_Alnum7"); (NkKey_Alnum8, "NkKey_Alnum8"); (NkKey_Alnum9, "NkKey_Alnum9");
   (NkKey_AlnumA, "NkKey_AlnumA"); (NkKey_AlnumB, "NkKey_AlnumB"); (NkKey_AlnumC, "NkKey_AlnumC");
   (NkKey_AlnumD, "NkKey_AlnumD"); (NkKey_AlnumE, "NkKey_AlnumE"); (NkKey_AlnumF, "NkKey_AlnumF");
   (NkKey_AlnumG, "NkKey_AlnumG"); (NkKey_AlnumH, "NkKey_AlnumH"); (NkKey_AlnumI, "NkKey_AlnumI");
   (NkKey_AlnumJ, "NkKey_AlnumJ"); (NkKey_AlnumK, "NkKey_AlnumK"); (NkKey_AlnumL, "NkKey_AlnumL");
   (NkKey_AlnumM, "NkKey_AlnumM"); (NkKey_AlnumN, "NkKey_AlnumN"); (NkKey_AlnumO, "NkKey_AlnumO");
   (NkKey_AlnumP, "NkKey_AlnumP"); (NkKey_AlnumQ, "NkKey_AlnumQ"); (NkKey_AlnumR, "NkKey_AlnumR");
   (NkKey_AlnumS, "NkKey_AlnumS"); (NkKey_AlnumT, "NkKey_AlnumT"); (NkKey_AlnumU, "NkKey_AlnumU");
   (NkKey_AlnumV, "NkKey_AlnumV"); (NkKey_AlnumW, "NkKey_AlnumW"); (NkKey_AlnumX, "NkKey_AlnumX");
   (NkKey_AlnumY, "NkKey_AlnumY"); (NkKey_AlnumZ, "NkKey_AlnumZ"); (NkKey_Oem1, "NkKey_Oem1");
   (NkKey_Oem2, "NkKey_Oem2"); (NkKey_Oem3, "NkKey_Oem3"); (NkKey_Oem4, "NkKey_Oem4");
   (NkKey_Oem5, "NkKey_Oem5"); (NkKey_Oem6, "NkKey_Oem6"); (NkKey_Oem7, "NkKey_Oem7");
   (NkKey_Oem8, "NkKey_Oem8"); (NkKey_Oem9, "NkKey_Oem9"); (NkKey_Oem10, "NkKey_Oem10");
   (NkKey_Oem11, "NkKey_Oem11")]%string.
Definition gl_MouseBtnStrs : list (NkMouseButton * string) :=
  [(NkBtn_LeftButton, "NkBtn_LeftButton"); (NkBtn_MiddleButton, "NkBtn_MiddleButton");
   (NkBtn_RightButton, "NkBtn_RightButton"); (NkBtn_Button4, "NkBtn_Button4"); (NkBtn_Button5, "NkBtn_Button5")]%string.
Definition designated_str {K} (code : K → Z) (entries : list (K * string)) (i : Z) : option string :=
  foldl (λ acc e, if code e.1 =? i then Some e.2 else acc) None entries.

Definition NkInputQueryKeyString (keyCode : Z) : outcome (option string) :=
  NK_ASSERT ((keyCode >=? 0) && (keyCode <? NK_MAX_NUM_KEY_CODES)) NkErr_InParameter;;
  Ret (designated_str key_code gl_KeyCodeStrs (Z.land keyCode (NK_MAX_NUM_KEY_CODES - 1))).
Definition NkInputQueryMouseButtonString (mouseBtn : Z) : outcome (option string) :=
  NK_ASSERT ((mouseBtn >=? 0) && (mouseBtn <? NK_MAX_NUM_MOUSE_BTNS)) NkErr_InParameter;;
  Ret (designated_str btn_code gl_MouseBtnStrs (Z.land mouseBtn (NK_MAX_NUM_MOUSE_BTNS - 1))).

(** ** The input abstraction layer *)
Definition NkIInput_IID : NkUuid := mk_uuid 0xe2bf3aeb 0x584a 0x474e 0xa7673b6edd3fc3e3.
Definition WindowsInput_AddRef : Z := 1.
Definition WindowsInput_Release : Z := 1.
Definition WindowsInput_QueryInterface (iId : NkUuid) : NkErrorCode :=
  if NkUuidIsEqual iId NkIBase_IID || NkUuidIsEqual iId NkIInput_IID then NkErr_Ok else NkErr_InterfaceNotImpl.

Section host.
Context `{NativeInput}.
Definition native_code (n : native) : Z := match n with Vk v => VK v | Chr c => c end.

Definition MapFromNativeKey (ntKeyCode : Z) : Z :=
  designated ((λ e, (native_code e.1, key_code e.2)) <$> gl_Nt2NkKeyMapping) (Z.land ntKeyCode (NK_MAX_NUM_KEY_CODES - 1)).
Definition MapFromNativeMouseButton (ntMouseBtn : Z) : Z :=
  designated ((λ e, (native_code e.1, btn_code e.2)) <$> gl_Nt2NkMouseBtnMapping) (Z.land ntMouseBtn (NK_MAX_NUM_MOUSE_BTNS - 1)).
Definition MapToNativeKey (keyCode : Z) : Z :=
  designated ((λ e, (key_code e.1, native_code e.2)) <$> gl_Nk2NtKeyMapping) (Z.land keyCode (NK_MAX_NUM_KEY_CODES - 1)).
Definition MapToNativeMouseButton (mouseBtn : Z) : Z :=
  designated ((λ e, (btn_code e.1, native_code e.2)) <$> gl_Nk2NtMouseBtnMapping) (Z.land mouseBtn (NK_MAX_NUM_MOUSE_BTNS - 1)).

Definition IsKeyPressed (keyCode : Z) : outcome bool :=
  NK_ASSERT ((keyCode >=? 0) && (keyCode <? NK_MAX_NUM_KEY_CODES)) NkErr_InParameter;;
  Ret (negb (Z.land (GetAsyncKeyState (MapToNativeKey keyCode)) 0x8000 =? 0)).
Definition IsMouseButtonPressed (mouseBtn : Z) : outcome bool :=
  NK_ASSERT ((mouseBtn >=? 0) && (mouseBtn <? NK_MAX_NUM_MOUSE_BTNS)) NkErr_InParameter;;
  Ret (negb (Z.land (GetAsyncKeyState (MapToNativeMouseButton mouseBtn)) 0x8000 =? 0)).
Definition GetMousePosition : Z * Z := GetCursorPos.
(** The state of key [k], moved to bit [n]. *)
Definition mod_bit (k : NkKeyboardKey) (n : Z) : outcome Z :=
  p ← IsKeyPressed (key_code k); Ret (Z.shiftl (Z.b2z p) n).
Definition GetModifierKeyStates : outcome Z :=
  b0 ← mod_bit NkKey_LShift 0; b1 ← mod_bit NkKey_RShift 1; b2 ← mod_bit NkKey_LControl 2; b3 ← mod_bit NkKey_RControl 3;
  b4 ← mod_bit NkKey_Context 4; b5 ← mod_bit NkKey_LAlt 5; b6 ← mod_bit NkKey_RAlt 6; b7 ← mod_bit NkKey_LSuper 7;
  b8 ← mod_bit NkKey_RSuper 8;
  Ret (Z.lor (Z.lor (Z.lor (Z.lor (Z.lor (Z.lor (Z.lor (Z.lor b0 b1) b2) b3) b4) b5) b6) b7) b8).
End host.

(** ** Tables with designated initialisers *)
Lemma designated_snoc es k v i : designated (es ++ [(k, v)]) i = if k =? i then v else designated es i.
Proof. unfold designated. by rewrite foldl_app. Qed.
Lemma designated_elem es i : designated es i ≠ 0 → (i, designated es i) ∈ es.
Proof.
  induction es as [|[k v] es IH] using rev_ind; [done|]. rewrite designated_snoc, elem_of_app.
  destruct (Z.eqb_spec k i) as [->|]; intros Hd; [right; apply list_elem_of_here|left; auto].
Qed.
Lemma designated_in es k v : NoDup (fst <$> es) → (k, v) ∈ es → designated es k = v.
Proof.
  induction es as [|[k' v'] es IH] using rev_ind; [by intros _ ?%not_elem_of_nil|].
  rewrite fmap_app, list.NoDup_app, elem_of_app, designated_snoc. intros (Hnd & Hdisj & _) [Hin|Hin].
  - destruct (Z.eqb_spec k' k) as [->|]; [|by apply IH]. destruct (Hdisj k); [|apply list_elem_of_here].
    apply list_elem_of_fmap. by exists (k, v).
  - apply list_elem_of_singleton in Hin. injection Hin as -> ->. by rewrite Z.eqb_refl.
Qed.
Lemma designated_out es i : i ∉ fst <$> es → designated es i = 0.
Proof.
  intros Hi. destruct (decide (designated es i = 0)) as [|Hne]; [done|]. destruct Hi.
  apply list_elem_of_fmap. exists (i, designated es i). split; [done|by apply designated_elem].
Qed.

(** *** The names of the codes *)
Lemma vkey_at v : all_vkeys !! Z.to_nat (vkey_index v) = Some v.
Proof. by destruct v. Qed.
Lemma key_at k : all_keys !! Z.to_nat (key_code k) = Some k.
Proof. by destruct k. Qed.
Lemma vkey_index_inj v w : vkey_index v = vkey_index w → v = w.
Proof. intros E. pose proof (vkey_at v) as Hv. rewrite E, vkey_at in Hv. by injection Hv. Qed.
Lemma key_code_inj j k : key_code j = key_code k → j = k.
Proof. intros E. pose proof (key_at j) as Hj. rewrite E, key_at in Hj. by injection Hj. Qed.
#[export] Instance vkey_eq_dec : EqDecision vkey.
Proof. refine (λ v w, cast_if (decide (vkey_index v = vkey_index w))); [by apply vkey_index_inj|congruence]. Defined.
#[export] Instance key_eq_dec : EqDecision NkKeyboardKey.
Proof. refine (λ j k, cast_if (decide (key_code j = key_code k))); [by apply key_code_inj|congruence]. Defined.
#[export] Instance btn_eq_dec : EqDecision NkMouseButton.
Proof. solve_decision. Defined.
#[export] Instance native_eq_dec : EqDecision native.
Proof. solve_decision. Defined.

Section codes.
Context `{NativeInput} `{!NativeInputLaws}.

(** The characters of the table are digits and capital letters. *)
Definition native_ok (n : native) : Prop :=
  match n with Vk _ => True | Chr c => 48 ≤ c ≤ 57 ∨ 65 ≤ c ≤ 90 end.
#[local] Instance native_ok_dec n : Decision (native_ok n).
Proof. destruct n; apply _. Defined.

Lemma native_code_inj m n : native_ok m → native_ok n → native_code m = native_code n → m = n.
Proof.
  destruct m as [v|c], n as [w|d]; cbn; intros Hm Hn E.
  - f_equal. by apply VK_inj.
  - by destruct (VK_alnum v d).
  - by destruct (VK_alnum w c).
  - by subst.
Qed.
Lemma native_code_range n : native_ok n → 0 < native_code n < 256.
Proof. destruct n; cbn; [intros; apply VK_range|lia]. Qed.

Lemma natives_ok : Forall native_ok (fst <$> gl_Nt2NkKeyMapping).
Proof. apply (bool_decide_unpack _). by vm_compute. Qed.
Lemma NoDup_natives {A} (es : list (native * A)) :
  Forall native_ok (fst <$> es) → NoDup (fst <$> es) → ∀ f : A → Z, NoDup (fst <$> ((λ e, (native_code e.1, f e.2)) <$> es)).
Proof.
  intros Hok Hnd f. rewrite <-list_fmap_compose.
  replace (fst ∘ (λ e : native * A, (native_code e.1, f e.2)) <$> es) with (native_code <$> (fst <$> es))
    by (by rewrite <-list_fmap_compose).
  apply NoDup_fmap_2_strong; [|done]. rewrite list.Forall_forall in Hok. intros m n Hm Hn. apply native_code_inj; auto.
Qed.
Lemma NoDup_native_keys : NoDup (fst <$> ((λ e, (native_code e.1, key_code e.2)) <$> gl_Nt2NkKeyMapping)).
Proof. apply NoDup_natives; [apply natives_ok|]. apply (bool_decide_unpack _). by vm_compute. Qed.
Lemma NoDup_keys : NoDup (fst <$> ((λ e, (key_code e.1, native_code e.2)) <$> gl_Nk2NtKeyMapping)).
Proof.
  rewrite <-list_fmap_compose.
  replace (_ <$> gl_Nk2NtKeyMapping) with (key_code <$> (fst <$> gl_Nk2NtKeyMapping)) by (by rewrite <-list_fmap_compose).
  apply (bool_decide_unpack _). by vm_compute.
Qed.

(** The two key tables are each other's mirror image. *)
Lemma tables_mirrored : gl_Nk2NtKeyMapping = (λ e, (e.2, e.1)) <$> gl_Nt2NkKeyMapping.
Proof. done. Qed.
Lemma mouse_tables_mirrored : gl_Nk2NtMouseBtnMapping = (λ e, (e.2, e.1)) <$> gl_Nt2NkMouseBtnMapping.
Proof. done. Qed.

Lemma mask_small w z : 0 ≤ w → 0 ≤ z < 2 ^ w → Z.land z (2 ^ w - 1) = z.
Proof. intros Hw Hz. replace (2 ^ w - 1) with (Z.ones w) by (rewrite Z.ones_equiv; lia). rewrite Z.land_ones, Z.mod_small by lia. done. Qed.
Lemma key_code_range k : 0 ≤ key_code k < 105.
Proof. by destruct k. Qed.

(** An entry of the table, read in both directions. *)
Lemma key_entry n k :
  (n, k) ∈ gl_Nt2NkKeyMapping → MapFromNativeKey (native_code n) = key_code k ∧ MapToNativeKey (key_code k) = native_code n.
Proof.
  intros Hin.
  assert (Hn : native_ok n).
  { pose proof natives_ok as Hok. rewrite list.Forall_forall in Hok. apply Hok. apply list_elem_of_fmap. by exists (n, k). }
  apply native_code_range in Hn. pose proof (key_code_range k).
  unfold MapFromNativeKey, MapToNativeKey. change (NK_MAX_NUM_KEY_CODES - 1) with (2 ^ 10 - 1).
  rewrite !mask_small by lia. split.
  - apply designated_in; [apply NoDup_native_keys|]. apply list_elem_of_fmap. by exists (n, k).
  - apply designated_in; [apply NoDup_keys|]. rewrite tables_mirrored. apply list_elem_of_fmap.
    exists (k, n). split; [done|]. apply list_elem_of_fmap. by exists (n, k).
Qed.
Definition mapped_keys : list NkKeyboardKey := snd <$> gl_Nt2NkKeyMapping.
Lemma mapped_all k : k ≠ NkKey_Unknown → k ≠ NkKey_Context → k ∈ mapped_keys.
Proof. intros H1 H2. apply (bool_decide_unpack _). by destruct k. Qed.

Lemma context_unmapped : MapToNativeKey (key_code NkKey_Context) = 0.
Proof.
  unfold MapToNativeKey. apply designated_out. change (Z.land (key_code NkKey_Context) (NK_MAX_NUM_KEY_CODES - 1)) with 14.
  rewrite <-list_fmap_compose.
  replace (_ <$> gl_Nk2NtKeyMapping) with (key_code <$> (fst <$> gl_Nk2NtKeyMapping)) by (by rewrite <-list_fmap_compose).
  apply (bool_decide_unpack _). by vm_compute.
Qed.

(** The two translation tables of the keyboard are inverse to each other: every key but the
    context-menu key survives the way to its native code and back, and so does every native code that is
    translated at all; the context-menu key has no native code and is sent to code 0. *)
Theorem input_keys_roundtrip :
  (∀ k, k ≠ NkKey_Unknown → k ≠ NkKey_Context → MapFromNativeKey (MapToNativeKey (key_code k)) = key_code k) ∧
  (∀ c, 0 ≤ c < NK_MAX_NUM_KEY_CODES → MapFromNativeKey c ≠ 0 → MapToNativeKey (MapFromNativeKey c) = c) ∧
  MapToNativeKey (key_code NkKey_Context) = 0.
Proof.
  split; [|split].
  - intros k H1 H2. pose proof (mapped_all k H1 H2) as Hin. apply list_elem_of_fmap in Hin as ([n k'] & -> & Hin).
    destruct (key_entry n k' Hin) as [E1 E2]. cbn [snd]. by rewrite E2, E1.
  - intros c Hc Hne. unfold MapFromNativeKey at 1 in Hne. change (NK_MAX_NUM_KEY_CODES - 1) with (2 ^ 10 - 1) in Hne.
    rewrite mask_small in Hne by (unfold NK_MAX_NUM_KEY_CODES in Hc; lia).
    apply designated_elem, list_elem_of_fmap in Hne as ([n k] & E & Hin). injection E as Ec _. cbn in Ec. rewrite Ec.
    destruct (key_entry n k Hin) as [E1 E2]. by rewrite E1, E2.
  - apply context_unmapped.
Qed.

(** *** Modifier keys *)
Definition pressed (c : Z) : bool := Z.testbit (GetAsyncKeyState c) 15.
Lemma is_key_pressed k : IsKeyPressed (key_code k) = Ret (pressed (MapToNativeKey (key_code k))).
Proof.
  pose proof (key_code_range k). unfold IsKeyPressed, pressed, NK_MAX_NUM_KEY_CODES.
  rewrite (proj2 (Z.geb_le _ _)), (proj2 (Z.ltb_lt _ _)) by lia. cbn [andb NK_ASSERT]. rewrite bind_Ret. f_equal.
  set (s := GetAsyncKeyState _). change 0x8000 with (2 ^ 15). destruct (Z.testbit s 15) eqn:E.
  - destruct (Z.eqb_spec (Z.land s (2 ^ 15)) 0) as [E0|]; [|done].
    assert (Hb : Z.testbit (Z.land s (2 ^ 15)) 15 = true) by by rewrite Z.land_spec, E, Z.pow2_bits_true by lia.
    by rewrite E0 in Hb.
  - replace (Z.land s (2 ^ 15)) with 0; [done|]. symmetry. apply Z.bits_inj'. intros i Hi.
    rewrite Z.land_spec, Z.bits_0, Z.pow2_bits_eqb by lia. destruct (Z.eqb_spec 15 i) as [<-|]; [by rewrite E|by rewrite andb_false_r].
Qed.

(** The bits of a combination of nine flags. *)
Lemma nine_flags (f : Z → bool) i :
  0 ≤ i < 9 →
  Z.testbit (Z.lor (Z.lor (Z.lor (Z.lor (Z.lor (Z.lor (Z.lor (Z.lor (Z.shiftl (Z.b2z (f 0)) 0) (Z.shiftl (Z.b2z (f 1)) 1))
    (Z.shiftl (Z.b2z (f 2)) 2)) (Z.shiftl (Z.b2z (f 3)) 3)) (Z.shiftl (Z.b2z (f 4)) 4)) (Z.shiftl (Z.b2z (f 5)) 5))
    (Z.shiftl (Z.b2z (f 6)) 6)) (Z.shiftl (Z.b2z (f 7)) 7)) (Z.shiftl (Z.b2z (f 8)) 8)) i = f i.
Proof.
  intros Hi. assert (i = 0 ∨ i = 1 ∨ i = 2 ∨ i = 3 ∨ i = 4 ∨ i = 5 ∨ i = 6 ∨ i = 7 ∨ i = 8)
    as [->|[->|[->|[->|[->|[->|[->|[->| ->]]]]]]]] by lia;
  destruct (f 0), (f 1), (f 2), (f 3), (f 4), (f 5), (f 6), (f 7), (f 8); reflexivity.
Qed.
(** The keys of the nine modifier bits. *)
Definition modifier_keys : list NkKeyboardKey :=
  [NkKey_LShift; NkKey_RShift; NkKey_LControl; NkKey_RControl; NkKey_Context; NkKey_LAlt; NkKey_RAlt; NkKey_LSuper; NkKey_RSuper].

(** Bit [n] of the modifier state says whether the [n]-th modifier key is down, in the order of the
    enumerators of [NkModifierKeys]; the bit of the menu key, which has no native code, is the state the
    host reports for code 0. *)
Theorem input_modifiers :
  ∃ m, GetModifierKeyStates = Ret m ∧
    (∀ n k, modifier_keys !! n = Some k → Z.testbit m (Z.of_nat n) = pressed (MapToNativeKey (key_code k))) ∧
    Z.testbit m 4 = pressed 0.
Proof.
  set (f := λ i, pressed (MapToNativeKey (key_code (default NkKey_Unknown (modifier_keys !! Z.to_nat i))))).
  eexists. split; [|split].
  - unfold GetModifierKeyStates, mod_bit. rewrite !is_key_pressed, !bind_Ret. reflexivity.
  - intros n k Hk. assert (Hn : (n < 9)%nat) by (apply lookup_lt_Some in Hk; done).
    etransitivity; [apply (nine_flags f); lia|]. unfold f. by rewrite Nat2Z.id, Hk.
  - etransitivity; [apply (nine_flags f); lia|]. unfold f. change (Z.to_nat 4) with 4%nat. cbn [modifier_keys lookup list_lookup].
    change (default NkKey_Unknown (Some NkKey_Context)) with NkKey_Context. by rewrite context_unmapped.
Qed.
End codes.

(** ** A concrete host: the codes of the Windows headers; the left shift key is down. *)
Definition windows_code (v : vkey) : Z :=
  default 0 ([8; 9; 13; 19; 20; 27; 32; 33; 34; 35; 36; 37; 38; 39; 40; 44; 45; 46; 91; 92; 96; 97; 98; 99; 100; 101; 102;
    103; 104; 105; 106; 107; 108; 109; 110; 111; 112; 113; 114; 115; 116; 117; 118; 119; 120; 121; 122; 123; 144; 145;
    160; 161; 162; 163; 164; 165; 186; 187; 188; 189; 190; 191; 192; 219; 220; 221; 222; 1; 4; 2; 5; 6]
    !! Z.to_nat (vkey_index v)).
#[export] Instance windows_input : NativeInput := {|
  VK := windows_code;
  GetAsyncKeyState c := if c =? 160 then 0x8001 else 0;
  GetCursorPos := (0, 0)
|}.
Definition vkey_of_code (c : Z) : option vkey := List.find (λ v, windows_code v =? c) all_vkeys.
Lemma vkey_of_windows v : vkey_of_code (windows_code v) = Some v.
Proof. by destruct v. Qed.
#[export] Instance windows_input_laws : NativeInputLaws.
Proof.
  split; cbn [VK windows_input].
  - intros v w E. pose proof (vkey_of_windows v) as Hv. rewrite E, vkey_of_windows in Hv. by injection Hv.
  - intros v. by destruct v.
  - intros v c Hc E. assert (Hb : ((48 <=? windows_code v) && (windows_code v <=? 57) || (65 <=? windows_code v) && (windows_code v <=? 90)) = false)
      by by destruct v.
    rewrite E in Hb. destruct Hc as [[H1 H2]|[H1 H2]];
      rewrite (proj2 (Z.leb_le _ _) H1), (proj2 (Z.leb_le _ _) H2) in Hb; [done|]. by rewrite orb_true_r in Hb.
  - intros v Hv. repeat (apply elem_of_cons in Hv as [->|Hv]; [done|]). by apply not_elem_of_nil in Hv.
Qed.
Lemma input_keys_roundtrip_witness : MapFromNativeKey (MapToNativeKey (key_code NkKey_F11)) = key_code NkKey_F11.
Proof. by apply input_keys_roundtrip. Defined.
Lemma input_modifiers_witness :
  ∃ m, GetModifierKeyStates = Ret m ∧ Z.testbit m 0 = true ∧ Z.testbit m 1 = false.
Proof.
  destruct input_modifiers as (m & E & H & _). exists m. split; [exact E|].
  split; [apply (H 0%nat NkKey_LShift eq_refl)|apply (H 1%nat NkKey_RShift eq_refl)].
Defined.

(** Every key but the unknown one has a name of its own; no other code has one. *)
Definition name_of (c : Z) : option string := designated_str key_code gl_KeyCodeStrs c.
Lemma key_names :
  (∀ k, k ≠ NkKey_Unknown → is_Some (name_of (key_code k))) ∧
  NoDup (name_of <$> (key_code <$> all_keys)) ∧
  Forall (λ c, name_of c = None) (zrange 105 919).
Proof.
  split; [intros k Hk; by destruct k; try (eexists; reflexivity)|]. split; apply (bool_decide_unpack _); by vm_compute.
Qed.
