(* ===== verification/World.v ===== *)
(** * [src/Noriko/world.c]: the world layer

    The movement of the player, the drawing of the tiles, and the layer's methods.  The
    window, the renderer and bitmaps are reached through a class of operations on the
    world; the keyboard is the input abstraction layer.  Coordinates are binary32. *)
From S2P Require Import Prelude Float32 Rounding Vector Util NkOM Layer Timer Event Input.

(** ** Data *)
Definition N (x y : Z) : Z := u32 (Z.lor (Z.land (u16 x) 0xFFFF) (Z.shiftl (Z.land (u16 y) 0xFFFF) 16)).

Record NkRectF := mkRect { m_xCoord : Z; m_yCoord : Z; m_width : Z; m_height : Z }.
Record WorldLayer := mkWorldLayer {
  mp_rdTarget : Z;
  mp_rdRef : Z;
  mp_ialRef : Z;
  mp_mainTexAtlas : Z;
  mp_texAtlasMask : Z;
  mp_playerAtlas : Z;
  mp_plAtlasMask : Z;
  m_prevPos : NkVec2F;
  m_playerPos : NkVec2F;
  m_targetPos : NkVec2F;
  m_isMoving : bool;
  m_lvel : NkVec2F;
  m_vel : NkVec2F;
  m_dir : Z;
  wl_t : NkTimer;
  m_moveSpeed : NkFloat;
  wl_t2 : NkTimer;
  wl_state : Z
}.

(** *** The four quarters of the map *)
Definition gl_TestMap1 : list Z :=
  [N 2 0; N 2 0; N 2 0; N 2 0; N 2 0; N 2 0; N 2 0; N 2 0; N 2 0; N 2 0; N 2 0; N 2 0; N 2 0; N 2 0; N 2 0; N 2 0;
   N 2 0; N 2 0; N 2 0; N 2 0; N 2 0; N 2 0; N 2 0; N 2 0; N 2 0; N 2 0; N 2 0; N 2 0; N 2 0; N 2 0; N 2 0; N 5 0;
   N 2 0; N 2 0; N 2 0; N 2 0; N 2 0; N 2 0; N 2 0; N 2 0; N 2 0; N 2 0; N 2 0; N 2 0; N 2 0; N 2 0; N 0 0; N 2 0;
   N 2 0; N 2 0; N 2 0; N 2 0; N 2 0; N 2 0; N 2 0; N 2 0; N 2 0; N 2 0; N 2 0; N 2 0; N 2 0; N 2 0; N 2 0; N 0 0;
   N 2 0; N 2 0; N 2 0; N 2 0; N 2 0; N 2 0; N 2 0; N 2 0; N 2 0; N 2 0; N 2 0; N 2 0; N 2 0; N 2 0; N 2 0; N 2 0;
   N 2 0; N 2 0; N 2 0; N 2 0; N 2 0; N 2 0; N 2 0; N 2 0; N 2 0; N 2 0; N 2 0; N 2 0; N 2 0; N 2 0; N 2 0; N 2 0;
   N 2 0; N 2 0; N 2 0; N 2 0; N 2 0; N 2 0; N 2 0; N 2 0; N 2 0; N 2 0; N 2 0; N 2 0; N 2 0; N 2 0; N 2 0; N 2 0;
   N 2 0; N 2 0; N 2 0; N 2 0; N 2 0; N 2 0; N 2 0; N 5 0; N 2 0; N 2 0; N 2 0; N 2 0; N 2 0; N 2 0; N 2 0; N 2 0;
   N 2 0; N 2 0; N 2 0; N 2 0; N 2 0; N 2 0; N 2 0; N 2 0; N 5 0; N 2 0; N 5 0; N 2 0; N 6 3; N 7 3; N 7 3; N 7 3;
   N 2 0; N 2 0; N 2 0; N 2 0; N 2 0; N 2 0; N 2 0; N 2 0; N 2 0; N 5 0; N 2 0; N 2 0; N 6 4; N 7 4; N 7 4; N 7 4;
   N 2 0; N 2 0; N 2 0; N 2 0; N 2 0; N 2 0; N 2 0; N 2 0; N 6 3; N 7 3; N 7 3; N 7 3; N 8 2; N 7 6; N 7 4; N 7 4;
   N 2 0; N 2 0; N 2 0; N 2 0; N 2 0; N 2 0; N 2 0; N 2 0; N 6 4; N 7 4; N 7 4; N 7 4; N 7 4; N 7 4; N 7 4; N 7 4;
   N 2 0; N 2 0; N 2 0; N 2 0; N 2 0; N 2 0; N 2 0; N 2 0; N 6 4; N 7 4; N 7 4; N 7 4; N 7 4; N 5 6; N 7 4; N 7 4;
   N 2 0; N 2 0; N 2 0; N 2 0; N 2 0; N 2 0; N 2 0; N 2 0; N 6 5; N 7 5; N 7 5; N 8 1; N 7 4; N 7 4; N 7 6; N 7 4;
   N 2 0; N 2 0; N 2 0; N 2 0; N 2 0; N 2 0; N 2 0; N 2 0; N 2 0; N 2 0; N 2 0; N 6 4; N 7 4; N 6 6; N 7 4; N 7 4;
   N 2 0; N 2 0; N 2 0; N 2 0; N 2 0; N 2 0; N 2 0; N 2 0; N 2 0; N 2 0; N 2 0; N 6 4; N 7 4; N 7 4; N 7 4; N 7 4].
Definition gl_TestMap3 : list Z :=
  [N 2 0; N 2 0; N 2 0; N 2 0; N 2 0; N 2 0; N 2 0; N 2 0; N 2 0; N 2 0; N 2 0; N 6 4; N 7 4; N 7 4; N 7 4; N 7 4;
   N 2 0; N 2 0; N 2 0; N 2 0; N 2 0; N 2 0; N 2 0; N 2 0; N 2 0; N 2 0; N 2 0; N 6 4; N 7 4; N 7 4; N 7 4; N 7 4;
   N 2 0; N 2 0; N 2 0; N 2 0; N 2 0; N 2 0; N 2 0; N 2 0; N 2 0; N 2 0; N 2 0; N 6 4; N 7 4; N 7 4; N 7 4; N 7 4;
   N 2 0; N 2 0; N 2 0; N 2 0; N 2 0; N 2 0; N 2 0; N 2 0; N 2 0; N 2 0; N 2 0; N 6 5; N 7 5; N 7 5; N 8 1; N 7 4;
   N 2 0; N 2 0; N 2 0; N 5 0; N 2 0; N 2 0; N 2 0; N 2 0; N 2 0; N 2 0; N 2 0; N 2 0; N 2 0; N 2 0; N 6 4; N 7 4;
   N 2 0; N 2 0; N 2 0; N 2 0; N 2 0; N 2 0; N 2 0; N 2 0; N 2 0; N 2 0; N 2 0; N 2 0; N 2 0; N 2 0; N 6 4; N 7 4;
   N 2 0; N 2 0; N 2 0; N 2 0; N 2 0; N 2 0; N 2 0; N 2 0; N 2 0; N 2 0; N 2 0; N 2 0; N 2 0; N 2 0; N 6 4; N 7 4;
   N 2 0; N 2 0; N 2 0; N 2 0; N 2 0; N 2 0; N 2 0; N 5 0; N 2 0; N 2 0; N 2 0; N 2 0; N 2 0; N 2 0; N 6 4; N 7 4;
   N 2 0; N 2 0; N 2 0; N 2 0; N 2 0; N 2 0; N 2 0; N 2 0; N 2 0; N 2 0; N 2 0; N 2 0; N 2 0; N 2 0; N 6 5; N 7 5;
   N 2 0; N 2 0; N 2 0; N 2 0; N 2 0; N 2 0; N 2 0; N 2 0; N 2 0; N 2 0; N 2 0; N 2 0; N 2 0; N 2 0; N 2 0; N 2 0;
   N 2 0; N 2 0; N 2 0; N 2 0; N 2 0; N 2 0; N 2 0; N 2 0; N 2 0; N 2 0; N 2 0; N 2 0; N 2 0; N 2 0; N 2 0; N 2 0;
   N 2 0; N 2 0; N 2 0; N 2 0; N 5 0; N 2 0; N 2 0; N 2 0; N 5 0; N 5 0; N 2 0; N 2 0; N 2 0; N 2 0; N 2 0; N 2 0;
   N 2 0; N 2 0; N 2 0; N 5 0; N 5 0; N 2 0; N 2 0; N 2 0; N 2 0; N 2 0; N 2 0; N 2 0; N 2 0; N 2 0; N 2 0; N 2 0;
   N 2 0; N 2 0; N 2 0; N 2 0; N 2 0; N 2 0; N 2 0; N 2 0; N 2 0; N 2 0; N 2 0; N 2 0; N 2 0; N 2 0; N 2 0; N 2 0;
   N 2 0; N 2 0; N 2 0; N 2 0; N 2 0; N 2 0; N 2 0; N 2 0; N 2 0; N 2 0; N 2 0; N 2 0; N 2 0; N 2 0; N 5 0; N 2 0;
   N 2 0; N 2 0; N 2 0; N 2 0; N 2 0; N 2 0; N 2 0; N 2 0; N 2 0; N 2 0; N 2 0; N 2 0; N 2 0; N 2 0; N 2 0; N 2 0].
Definition gl_TestMap2 : list Z :=
  [N 2 0; N 2 0; N 2 0; N 2 0; N 2 0; N 2 0; N 2 0; N 2 0; N 2 0; N 2 0; N 2 0; N 2 0; N 2 0; N 2 0; N 2 0; N 2 0;
   N 2 0; N 2 0; N 2 0; N 2 0; N 2 0; N 2 0; N 2 0; N 2 0; N 2 0; N 2 0; N 2 0; N 2 0; N 2 0; N 2 0; N 2 0; N 2 0;
   N 2 0; N 2 0; N 2 0; N 2 0; N 2 0; N 2 0; N 2 0; N 2 0; N 2 0; N 2 0; N 2 0; N 2 0; N 2 0; N 2 0; N 2 0; N 2 0;
   N 2 0; N 2 0; N 2 0; N 2 0; N 2 0; N 2 0; N 2 0; N 2 0; N 2 0; N 2 0; N 2 0; N 2 0; N 2 0; N 2 0; N 2 0; N 2 0;
   N 2 0; N 2 0; N 2 0; N 2 0; N 2 0; N 6 3; N 7 3; N 7 3; N 7 3; N 7 3; N 7 3; N 8 3; N 2 0; N 2 0; N 2 0; N 2 0;
   N 2 0; N 2 0; N 6 1; N 2 0; N 2 0; N 6 4; N 7 4; N 7 4; N 7 4; N 7 4; N 7 4; N 8 4; N 2 0; N 2 0; N 2 0; N 2 0;
   N 2 0; N 2 0; N 2 0; N 2 0; N 2 0; N 6 4; N 7 4; N 7 4; N 7 4; N 7 4; N 7 4; N 8 4; N 2 0; N 2 0; N 2 0; N 2 0;
   N 2 0; N 2 0; N 2 0; N 2 0; N 2 0; N 6 4; N 7 4; N 7 4; N 7 4; N 7 4; N 7 4; N 8 4; N 2 0; N 2 0; N 2 0; N 2 0;
   N 7 3; N 7 3; N 7 3; N 7 3; N 7 3; N 8 2; N 7 4; N 7 4; N 7 4; N 7 4; N 7 4; N 8 4; N 2 0; N 2 0; N 2 0; N 2 0;
   N 7 4; N 7 4; N 7 4; N 7 4; N 7 4; N 7 4; N 7 4; N 7 4; N 7 4; N 7 4; N 7 4; N 8 4; N 2 0; N 2 0; N 2 0; N 2 0;
   N 7 4; N 7 4; N 7 4; N 7 4; N 7 4; N 7 4; N 7 4; N 7 4; N 7 4; N 7 1; N 7 5; N 8 5; N 2 0; N 2 0; N 2 0; N 2 0;
   N 7 4; N 7 4; N 7 4; N 7 4; N 7 4; N 7 4; N 7 4; N 7 4; N 7 4; N 8 4; N 2 0; N 2 0; N 0 0; N 2 0; N 2 0; N 2 0;
   N 7 4; N 7 4; N 7 4; N 7 4; N 7 4; N 5 6; N 7 4; N 7 4; N 7 4; N 8 4; N 2 0; N 0 0; N 5 0; N 2 0; N 2 0; N 2 0;
   N 7 4; N 7 4; N 7 4; N 7 4; N 7 4; N 7 4; N 7 4; N 7 4; N 7 4; N 8 4; N 2 0; N 2 0; N 2 0; N 2 0; N 2 0; N 2 0;
   N 7 4; N 7 4; N 7 4; N 7 4; N 7 4; N 7 4; N 7 4; N 7 4; N 7 4; N 8 4; N 2 0; N 2 0; N 2 0; N 2 0; N 2 0; N 2 0;
   N 7 4; N 7 4; N 7 4; N 3 6; N 7 4; N 7 4; N 7 4; N 7 4; N 7 4; N 8 4; N 2 0; N 2 0; N 2 0; N 2 0; N 2 0; N 2 0].
Definition gl_TestMap4 : list Z :=
  [N 7 4; N 7 4; N 7 4; N 7 4; N 7 1; N 7 5; N 7 5; N 7 5; N 7 5; N 8 5; N 2 0; N 2 0; N 2 0; N 2 0; N 2 0; N 2 0;
   N 7 4; N 7 4; N 7 4; N 7 4; N 8 4; N 2 0; N 2 0; N 2 0; N 2 0; N 2 0; N 2 0; N 2 0; N 2 0; N 2 0; N 2 0; N 2 0;
   N 7 4; N 7 4; N 7 4; N 7 4; N 8 4; N 2 0; N 2 0; N 2 0; N 2 0; N 2 0; N 2 0; N 2 0; N 2 0; N 2 0; N 2 0; N 2 0;
   N 7 4; N 7 4; N 7 4; N 7 4; N 8 4; N 2 0; N 2 0; N 2 0; N 2 0; N 2 0; N 2 0; N 2 0; N 2 0; N 2 0; N 2 0; N 2 0;
   N 7 4; N 7 4; N 7 4; N 7 4; N 8 4; N 2 0; N 2 0; N 2 0; N 2 0; N 2 0; N 2 0; N 2 0; N 2 0; N 2 0; N 2 0; N 2 0;
   N 7 4; N 7 4; N 7 4; N 7 4; N 8 4; N 2 0; N 2 0; N 2 0; N 2 0; N 2 0; N 2 0; N 2 0; N 2 0; N 2 0; N 2 0; N 2 0;
   N 7 4; N 7 4; N 7 4; N 7 4; N 8 4; N 2 0; N 2 0; N 2 0; N 2 0; N 2 0; N 2 0; N 2 0; N 2 0; N 2 0; N 2 0; N 2 0;
   N 7 4; N 7 4; N 7 4; N 7 4; N 8 4; N 2 0; N 2 0; N 5 0; N 2 0; N 2 0; N 2 0; N 2 0; N 2 0; N 2 0; N 2 0; N 2 0;
   N 7 5; N 7 5; N 7 5; N 7 5; N 8 5; N 2 0; N 2 0; N 2 0; N 5 0; N 2 0; N 5 0; N 2 0; N 6 3; N 7 3; N 7 3; N 7 3;
   N 2 0; N 2 0; N 2 0; N 2 0; N 2 0; N 2 0; N 2 0; N 2 0; N 2 0; N 5 0; N 2 0; N 2 0; N 6 4; N 7 4; N 7 4; N 7 4;
   N 2 0; N 2 0; N 2 0; N 2 0; N 2 0; N 2 0; N 2 0; N 2 0; N 6 3; N 7 3; N 7 3; N 7 3; N 8 2; N 7 6; N 7 4; N 7 4;
   N 2 0; N 2 0; N 2 0; N 2 0; N 2 0; N 2 0; N 2 0; N 2 0; N 6 4; N 7 4; N 7 4; N 7 4; N 7 4; N 7 4; N 7 4; N 7 4;
   N 2 0; N 2 0; N 2 0; N 2 0; N 2 0; N 2 0; N 2 0; N 2 0; N 6 4; N 7 4; N 7 4; N 7 4; N 7 4; N 7 4; N 7 4; N 7 4;
   N 2 0; N 2 0; N 2 0; N 2 0; N 2 0; N 2 0; N 2 0; N 2 0; N 6 5; N 7 5; N 7 5; N 8 1; N 7 4; N 7 4; N 7 6; N 7 4;
   N 2 0; N 2 0; N 2 0; N 6 2; N 2 0; N 2 0; N 2 0; N 2 0; N 2 0; N 2 0; N 2 0; N 6 4; N 7 4; N 6 6; N 7 4; N 7 4;
   N 2 0; N 2 0; N 2 0; N 2 0; N 2 0; N 2 0; N 2 0; N 2 0; N 2 0; N 2 0; N 2 0; N 6 4; N 7 4; N 7 4; N 7 4; N 7 4].

(** ** Floating-point helpers *)
Definition f32_sqrt : NkFloat → NkFloat := SFsqrt 24 128.
(** Promotion of a binary32 value. *)
Definition f64_of_f32 (x : NkFloat) : NkDouble :=
  match x with S754_finite s m e => binary_normalize 53 1024 (f_signed s m) e s | _ => x end.
Definition fl (z : Z) : NkFloat := f32_of_Z z.
Definition grid (i : Z) : NkFloat := f32_of_Z (32 * i).

(** ** Updating *)
Section update.
Context `{NativeInput}.

Definition WL_MoveSpeed (shift : bool) : NkFloat := if shift then f32_mul (fl 8) (fl 32) else f32_mul (fl 4) (fl 32).
(** One axis: [neg] and [pos] are the keys of its two directions. *)
Definition axis (neg pos : bool) : NkFloat := if neg then fl (-1) else if pos then fl 1 else fl 0.
Definition axis_keys (k1 k2 : NkKeyboardKey) : outcome NkFloat :=
  neg ← IsKeyPressed (key_code k1);
  pos ← (if neg : bool then Ret false else IsKeyPressed (key_code k2));
  Ret (axis neg pos).
Definition new_dir (vel : NkVec2F) (dir : Z) : Z :=
  if f32_eq (m_xVal vel) (fl 1) then 2
  else if f32_eq (m_xVal vel) (fl (-1)) then 1
  else if f32_eq (m_yVal vel) (fl 1) then 0
  else if f32_eq (m_yVal vel) (fl (-1)) then 3
  else dir.

(** Choosing a new target for a player that stands still. *)
Definition start_move (now1 now2 : Z) (w : WorldLayer) : outcome WorldLayer :=
  axisX ← axis_keys NkKey_AlnumA NkKey_AlnumD;
  axisY ← axis_keys NkKey_AlnumW NkKey_AlnumS;
  let axisY := if negb (f32_eq axisX (fl 0)) then fl 0 else axisY in
  let vel := if negb (f32_eq (m_xVal (m_vel w)) axisX) || negb (f32_eq (m_yVal (m_vel w)) axisY) then mkVec axisX axisY else m_vel w in
  if negb (f32_eq (m_xVal vel) (fl 0)) || negb (f32_eq (m_yVal vel) (fl 0)) then
    t ← NkTimerRestart now1 now2 (wl_t w);
    Ret (mkWorldLayer (mp_rdTarget w) (mp_rdRef w) (mp_ialRef w) (mp_mainTexAtlas w) (mp_texAtlasMask w) (mp_playerAtlas w)
           (mp_plAtlasMask w) (m_prevPos w) (m_playerPos w)
           (mkVec (f32_add (m_xVal (m_playerPos w)) (f32_mul axisX (fl 32))) (f32_add (m_yVal (m_playerPos w)) (f32_mul axisY (fl 32))))
           true (m_lvel w) vel (new_dir vel (m_dir w)) t (m_moveSpeed w) (wl_t2 w) (wl_state w))
  else
    Ret (mkWorldLayer (mp_rdTarget w) (mp_rdRef w) (mp_ialRef w) (mp_mainTexAtlas w) (mp_texAtlasMask w) (mp_playerAtlas w)
           (mp_plAtlasMask w) (m_prevPos w) (m_playerPos w) (m_targetPos w)
           (m_isMoving w) (m_lvel w) vel (m_dir w) (wl_t w) (m_moveSpeed w) (wl_t2 w) (wl_state w)).

(** The new position on the way from [pos] to [target], or [None] on arrival. *)
Definition move_towards (pos target : NkVec2F) (speed updTime : NkFloat) : option NkVec2F :=
  let dx := f32_sub (m_xVal target) (m_xVal pos) in
  let dy := f32_sub (m_yVal target) (m_yVal pos) in
  let sq := f32_add (f32_mul dx dx) (f32_mul dy dy) in
  let mag := f32_sqrt sq in
  if f_gt (f64_of_f32 sq) (f64_lit 1 1000) then
    if f_lt mag (f32_mul speed updTime) || f32_eq mag (fl 0) then None
    else Some (mkVec (f32_add (m_xVal pos) (f32_mul (f32_div dx mag) (f32_mul speed updTime)))
                     (f32_add (m_yVal pos) (f32_mul (f32_div dy mag) (f32_mul speed updTime))))
  else None.
Definition continue_move (updTime : NkFloat) (w : WorldLayer) : WorldLayer :=
  match move_towards (m_playerPos w) (m_targetPos w) (m_moveSpeed w) updTime with
  | Some p =>
      mkWorldLayer (mp_rdTarget w) (mp_rdRef w) (mp_ialRef w) (mp_mainTexAtlas w) (mp_texAtlasMask w) (mp_playerAtlas w)
        (mp_plAtlasMask w) (m_playerPos w) p (m_targetPos w) (m_isMoving w) (m_lvel w) (m_vel w) (m_dir w) (wl_t w)
        (m_moveSpeed w) (wl_t2 w) (wl_state w)
  | None =>
      mkWorldLayer (mp_rdTarget w) (mp_rdRef w) (mp_ialRef w) (mp_mainTexAtlas w) (mp_texAtlasMask w) (mp_playerAtlas w)
        (mp_plAtlasMask w) (m_prevPos w) (m_targetPos w) (m_targetPos w) false (m_lvel w) (m_vel w) (m_dir w) (wl_t w)
        (m_moveSpeed w) (wl_t2 w) (wl_state w)
  end.

Definition with_speed (w : WorldLayer) (s : NkFloat) : WorldLayer :=
  mkWorldLayer (mp_rdTarget w) (mp_rdRef w) (mp_ialRef w) (mp_mainTexAtlas w) (mp_texAtlasMask w) (mp_playerAtlas w)
    (mp_plAtlasMask w) (m_prevPos w) (m_playerPos w) (m_targetPos w) (m_isMoving w) (m_lvel w) (m_vel w) (m_dir w) (wl_t w)
    s (wl_t2 w) (wl_state w).
(** [__NkInt_WorldLayer_UpdAnim] only declares three constants. *)
Definition WorldLayer_UpdAnim (w : WorldLayer) : WorldLayer := w.
Definition WorldLayer_OnUpdate (updTime : NkFloat) (now1 now2 : Z) (w : WorldLayer) : outcome (NkErrorCode * WorldLayer) :=
  shift ← IsKeyPressed (key_code NkKey_LShift);
  let w := with_speed w (WL_MoveSpeed shift) in
  w ← (if m_isMoving w then Ret w else start_move now1 now2 w);
  let w := if m_isMoving w then continue_move updTime w else w in
  Ret (NkErr_Ok, WorldLayer_UpdAnim w).
End update.

(** ** Drawing *)
Definition WorldLayer_GetAnimPos (w : WorldLayer) : NkVec2F := mkVec (fl 1) (fl (m_dir w)).

(** A texture to be drawn: where to, and from where in the atlas; the coordinates are integers. *)
Record Draw := mkDraw { draw_dst : NkRectF; draw_src : NkRectF }.
(** The draw of the tile at the map coordinates [tsx], [tsy] (in pixels), if it is on the map. *)
Definition draw_tile (x y tsx tsy : Z) : outcome (list Draw) :=
  if (tsx <? 0) || (tsx >? 31 * 32) || (tsy <? 0) || (tsy >? 31 * 32) then Ret []
  else
    let ix := Z.quot (Z.quot tsx 32) 16 in
    let iy := Z.quot (Z.quot tsy 32) 16 in
    let c := if ix =? 0 then if iy =? 0 then gl_TestMap1 else gl_TestMap3 else if iy =? 0 then gl_TestMap2 else gl_TestMap4 in
    t ← buf_get c (16 * Z.rem (Z.quot tsy 32) 16 + Z.rem (Z.quot tsx 32) 16);
    Ret [mkDraw (mkRect (x + 8 * 32) (y + 8 * 32) 32 32)
                (mkRect (32 * Z.land t 0xFFFF) (32 * Z.shiftr t 16) 32 32)].
(** The two loops; [fuel] bounds the number of their passes: a view of 512 pixels has
    at most 18 tiles in a row. *)
Definition world_fuel : nat := 20.
Fixpoint draw_column (fuel : nat) (x y tsx tsy ydim : Z) : outcome (list Draw) :=
  match fuel with
  | O => OutOfFuel
  | S fuel =>
      if y <? ydim then
        d ← draw_tile x y tsx tsy;
        y ← int_op (y + 32);
        tsy ← int_op (tsy + 32);
        ds ← draw_column fuel x y tsx tsy ydim;
        Ret (d ++ ds)
      else Ret []
  end.
Fixpoint draw_columns (fuel : nat) (x tsx oriy tsy0 xdim ydim : Z) : outcome (list Draw) :=
  match fuel with
  | O => OutOfFuel
  | S fuel =>
      if x <? xdim then
        d ← draw_column world_fuel x oriy tsx tsy0 ydim;
        x ← int_op (x + 32);
        tsx ← int_op (tsx + 32);
        ds ← draw_columns fuel x tsx oriy tsy0 xdim ydim;
        Ret (d ++ ds)
      else Ret []
  end.
(** [NK_MIN(16 * 32, dim) - 8 * 32] is computed with 64 unsigned bits. *)
Definition view_dim (dim : Z) : Z := i32 (u64 ((if 16 * 32 >? dim then dim else 16 * 32) - 8 * 32)).
Definition WorldLayer_DrawTiles (vpWidth vpHeight : Z) (w : WorldLayer) : outcome (list Draw) :=
  px ← f_to_int (m_xVal (m_playerPos w));
  py ← f_to_int (m_yVal (m_playerPos w));
  nx ← int_op (- px);
  ny ← int_op (- py);
  let orix := Z.rem nx 32 - 8 * 32 in
  let oriy := Z.rem ny 32 - 8 * 32 in
  tsx ← int_op (Z.quot px 32 * 32 - 8 * 32);
  tsy ← int_op (Z.quot py 32 * 32 - 8 * 32);
  draw_columns world_fuel orix tsx oriy tsy (view_dim vpWidth) (view_dim vpHeight).

(** ** The layer's methods *)

(** What the layer uses of the application: the registered objects, the window, its
    renderer and bitmaps.  A bitmap that could not be loaded or grabbed is [None]: the
    structure is as uninitialised as before. *)
Class WorldHost (W Bmp : Type) := {
  query_window : W → outcome (Z * W);
  query_input : W → outcome (Z * W);
  input_of : Z → W → NativeInput;
  GetRenderer : Z → W → outcome (Z * W);
  GetClientDimensions : Z → W → outcome (Z * Z);
  wnd_Release : Z → W → outcome W;
  rd_Release : Z → W → outcome W;
  ial_Release : Z → W → outcome W;
  bmp_load : string → W → outcome (NkErrorCode * option Bmp * W);
  bmp_save : Bmp → string → W → outcome (NkErrorCode * W);
  bmp_destroy : Bmp → W → outcome W;
  CreateTexture : Z → Bmp → W → outcome (NkErrorCode * Z * W);
  CreateTextureMask : Z → Z → Z * Z * Z → W → outcome (NkErrorCode * Z * W);
  DeleteResource : Z → Z → W → outcome W;
  GrabFramebuffer : Z → W → outcome (NkErrorCode * option Bmp * W);
  DrawTexture : Z → NkRectF → Z → NkRectF → W → outcome W;
  DrawMaskedTexture : Z → NkRectF → Z → NkVec2F → Z → NkVec2F → W → outcome W;
  app_exit : Z → W → W;
  ticks_now : W → Z * W
}.

Section layer.
Context {W Bmp : Type} `{WorldHost W Bmp}.

(** Calling a method through a pointer. *)
Definition deref (p : Z) : outcome unit := if p =? NULL then Undef else Ret tt.

Definition WorldLayer_DeleteResources (wl : WorldLayer) (w : W) : outcome W :=
  deref (mp_rdRef wl);;
  w ← DeleteResource (mp_rdRef wl) (mp_mainTexAtlas wl) w;
  w ← DeleteResource (mp_rdRef wl) (mp_texAtlasMask wl) w;
  w ← DeleteResource (mp_rdRef wl) (mp_playerAtlas wl) w;
  w ← DeleteResource (mp_rdRef wl) (mp_plAtlasMask wl) w;
  deref (mp_ialRef wl);;
  w ← ial_Release (mp_ialRef wl) w;
  w ← rd_Release (mp_rdRef wl) w;
  deref (mp_rdTarget wl);;
  wnd_Release (mp_rdTarget wl) w.

Definition WorldLayer_ActionScreenshot (wl : WorldLayer) (filePath : string) (w : W) : outcome W :=
  NK_ASSERT (negb (bool_decide (filePath = ""%string))) NkErr_InParameter;;
  deref (mp_rdRef wl);;
  '(errCode, newScreenshot, w) ← GrabFramebuffer (mp_rdRef wl) w;
  if negb (isOk errCode) then
    (* the bitmap, initialised or not, is destroyed *)
    match newScreenshot with Some b => bmp_destroy b w | None => Undef end
  else
    b ← get_or Undef newScreenshot;
    '(_, w) ← bmp_save b filePath w;
    bmp_destroy b w.

Definition WorldLayer_AddRef : Z := 1.
Definition WorldLayer_Release : Z := 1.
Definition NkILayer_IID : NkUuid := mk_uuid 0x50eba425 0x5f11 0x4fdb 0x9c292e0eb49d3204.
Definition world_ImplInfos : list (option NkUuid) := [Some NkIBase_IID; Some NkILayer_IID; None].
Definition WorldLayer_QueryInterface (self : Z) (iId : NkUuid) : outcome (NkErrorCode * Z) :=
  i ← NkOMQueryImplementationIndex world_ImplInfos iId;
  Ret (if negb (i =? SIZE_MAX) then (NkErr_Ok, self) else (NkErr_InterfaceNotImpl, NULL)).

Definition start_pos : NkVec2F := mkVec (f32_mul (fl 11) (fl 32)) (f32_mul (fl 9) (fl 32)).
(** The layer after a successful push; the unnamed fields are zero. *)
Definition new_world (wnd rd ial main mask player plmask : Z) (t t2 : NkTimer) : WorldLayer :=
  mkWorldLayer wnd rd ial main mask player plmask start_pos start_pos start_pos false
    (mkVec (fl 0) (fl 1)) (mkVec (fl 0) (fl 1)) 0 t (f32_mul (fl 3) (fl 32)) t2 0.

Definition push_failed (errCode : NkErrorCode) (wl : WorldLayer) (mainWnd mainRd : Z) (w : W)
    : outcome (NkErrorCode * WorldLayer * W) :=
  w ← rd_Release mainRd w;
  w ← wnd_Release mainWnd w;
  Ret (errCode, wl, w).
Definition WorldLayer_OnPush (wl : WorldLayer) (w : W) : outcome (NkErrorCode * WorldLayer * W) :=
  '(mainWnd, w) ← query_window w;
  deref mainWnd;;
  '(mainRd, w) ← GetRenderer mainWnd w;
  '(errCode, mainTs, w) ← bmp_load "../res/def/ts_main.bmp" w;
  if negb (isOk errCode) then deref mainRd;; push_failed errCode wl mainWnd mainRd w
  else
    mainTs ← get_or Undef mainTs;
    deref mainRd;;
    '(errCode, mainTsRes, w) ← CreateTexture mainRd mainTs w;
    if negb (isOk errCode) then w ← bmp_destroy mainTs w; push_failed errCode wl mainWnd mainRd w
    else
      w ← bmp_destroy mainTs w;
      '(_, atlasTs, w) ← bmp_load "../res/def/ts_player.bmp" w;
      '(_, mainTsMask, w) ← CreateTextureMask mainRd mainTsRes (255, 255, 255) w;
      atlasTs ← get_or Undef atlasTs;
      '(_, plAtlas, w) ← CreateTexture mainRd atlasTs w;
      '(_, plAtlasMask, w) ← CreateTextureMask mainRd plAtlas (255, 0, 255) w;
      w ← bmp_destroy atlasTs w;
      '(ial, w) ← query_input w;
      let '(now1, w) := ticks_now w in
      '(_, t) ← NkTimerCreate NkTiType_Elapsed true now1;
      let '(now2, w) := ticks_now w in
      '(_, t2) ← NkTimerCreate NkTiType_Elapsed true now2;
      Ret (NkErr_Ok, new_world mainWnd mainRd ial mainTsRes mainTsMask plAtlas plAtlasMask t t2, w).

Definition WorldLayer_OnPop (wl : WorldLayer) : NkErrorCode := NkErr_Ok.

(** [m_vKeyCode] of the event's data. *)
Definition ev_vKeyCode (evPtr : NkEvent) : Z := le_value (take 4 (drop 8 (ev_data evPtr))).
Definition WorldLayer_OnEvent (evPtr : NkEvent) (wl : WorldLayer) (w : W) : outcome (NkErrorCode * W) :=
  if bool_decide (ev_type evPtr = NkEv_KeyboardKeyDown) && (ev_vKeyCode evPtr =? key_code NkKey_F11) then
    w ← WorldLayer_ActionScreenshot wl "latestScreenshot.bmp" w; Ret (NkErr_Ok, w)
  else if bool_decide (ev_type evPtr = NkEv_KeyboardKeyDown) && (ev_vKeyCode evPtr =? key_code NkKey_F4) then
    Ret (NkErr_Ok, app_exit 0 w)
  else Ret (NkErr_NoOperation, w).

(** [OnUpdate]; the two readings a new move takes from the counter are taken first. *)
Definition world_update (updTime : NkFloat) (wl : WorldLayer) (w : W) : outcome (NkErrorCode * WorldLayer * W) :=
  deref (mp_ialRef wl);;
  let '(now1, w) := ticks_now w in
  let '(now2, w) := ticks_now w in
  '(e, wl) ← @WorldLayer_OnUpdate (input_of (mp_ialRef wl) w) updTime now1 now2 wl;
  Ret (e, wl, w).

Fixpoint draw_all (ds : list Draw) (wl : WorldLayer) (w : W) : outcome W :=
  match ds with
  | [] => Ret w
  | d :: ds => w ← DrawTexture (mp_rdRef wl) (draw_dst d) (mp_mainTexAtlas wl) (draw_src d) w; draw_all ds wl w
  end.
Definition WorldLayer_OnRender (wl : WorldLayer) (w : W) : outcome (NkErrorCode * W) :=
  deref (mp_rdTarget wl);;
  '(vpWidth, vpHeight) ← GetClientDimensions (mp_rdTarget wl) w;
  ds ← WorldLayer_DrawTiles vpWidth vpHeight wl;
  deref (mp_rdRef wl);;
  w ← draw_all ds wl w;
  let charFrame := WorldLayer_GetAnimPos wl in
  let off := mkVec (f32_mul (m_xVal charFrame) (fl 32)) (f32_mul (m_yVal charFrame) (fl 32)) in
  w ← DrawMaskedTexture (mp_rdRef wl) (mkRect (8 * 32) (8 * 32) 32 32) (mp_playerAtlas wl) off (mp_plAtlasMask wl) off w;
  Ret (NkErr_Ok, w).

(** *** The component *)
Context (gl_WorldLayer : Z) {Ev : Type}.
(** The state the layer stack and its layers share has the world layer in it. *)
Context {User : Type} (VT : @NkILayer Ev User) (get_wl : User → WorldLayer) (get_w : User → W) (set_w : W → User → User).
Definition WorldLayer_Startup (h : heap) (st : LayerStack User) : outcome (NkErrorCode * LayerStack User) :=
  NkLayerstackPush VT h gl_WorldLayer NK_AS_NORMAL st.
(** The popped layer is taken for the world layer. *)
Definition WorldLayer_Shutdown (st : LayerStack User) : outcome (NkErrorCode * LayerStack User) :=
  worldLayerIndex ← NkLayerstackQueryIndex gl_WorldLayer st;
  if worldLayerIndex =? SIZE_MAX then Ret (NkErr_ArrayElemOutOfBounds, st)
  else
    '(popped, st) ← NkLayerstackPop worldLayerIndex st;
    if bool_decide (popped = Some gl_WorldLayer) then
      w ← WorldLayer_DeleteResources (get_wl (user st)) (get_w (user st));
      Ret (NkErr_Ok, mkLayerStack (mp_layerStack st) (set_w w (user st)))
    else Undef.
End layer.

(** ** Standing and moving *)

(** The velocities: at rest or along one axis. *)
Definition straight (v : NkVec2F) : Prop :=
  ∃ x y, v = mkVec (fl x) (fl y) ∧ -1 ≤ x ≤ 1 ∧ -1 ≤ y ≤ 1 ∧ (x = 0 ∨ y = 0).
(** A position on the tile with these coordinates, at most [n] tiles from the origin. *)
Definition on_grid (n : Z) (p : NkVec2F) : Prop :=
  ∃ i j, p = mkVec (grid i) (grid j) ∧ - n ≤ i ≤ n ∧ - n ≤ j ≤ n.
Definition max_tile : Z := 1024.

Record world_ok (n : Z) (w : WorldLayer) : Prop := {
  ok_rest : m_isMoving w = false → m_playerPos w = m_targetPos w;
  ok_vel : straight (m_vel w);
  ok_dir : 0 ≤ m_dir w ≤ 3;
  ok_target : on_grid n (m_targetPos w);
  ok_timer : m_isRunning (wl_t w) = true
}.

(** Adding one tile is exact as long as the coordinates are moderate. *)
Lemma grid_step i d :
  - max_tile ≤ i ≤ max_tile → -1 ≤ d ≤ 1 → f32_add (grid i) (f32_mul (fl d) (fl 32)) = grid (i + d).
Proof.
  assert (Hall : Forall (λ d, Forall (λ i, f32_add (grid i) (f32_mul (fl d) (fl 32)) = grid (i + d)) (zrange (- max_tile) 2049)) (zrange (-1) 3)).
  { apply (bool_decide_unpack _). by vm_compute. }
  intros Hi Hd. assert (H1 := zrange_all _ _ _ d Hall ltac:(lia)). cbn beta in H1.
  apply (zrange_all _ _ _ i H1). unfold max_tile in *. lia.
Qed.

Lemma fl_zero d : -1 ≤ d ≤ 1 → f32_eq (fl d) (fl 0) = (d =? 0).
Proof. intros Hd. assert (d = -1 ∨ d = 0 ∨ d = 1) as [->|[->| ->]] by lia; reflexivity. Qed.

Lemma axis_keys_spec `{NativeInput} k1 k2 : ∃ d, axis_keys k1 k2 = Ret (fl d) ∧ -1 ≤ d ≤ 1.
Proof.
  unfold axis_keys. rewrite !is_key_pressed, bind_Ret. destruct (pressed (MapToNativeKey (key_code k1))).
  - exists (-1). rewrite bind_Ret. done.
  - rewrite bind_Ret. destruct (pressed (MapToNativeKey (key_code k2))); [exists 1|exists 0]; done.
Qed.
Lemma new_dir_range v d : 0 ≤ d ≤ 3 → 0 ≤ new_dir v d ≤ 3.
Proof. unfold new_dir. intros. repeat case_match; lia. Qed.
Lemma restart_running now1 now2 t :
  m_isRunning t = true → ∃ t', NkTimerRestart now1 now2 t = Ret t' ∧ m_isRunning t' = true.
Proof.
  intros Hr. unfold NkTimerRestart, NkTimerStop, NkTimerStart. rewrite Hr. cbn [NK_ASSERT].
  rewrite !bind_Ret. cbn [m_isRunning negb NK_ASSERT]. rewrite bind_Ret. by eexists.
Qed.

(** A player that stands still: it stays, or it gets a neighbouring tile as its target. *)
Lemma start_move_spec `{NativeInput} now1 now2 n w :
  world_ok n w → m_isMoving w = false → n ≤ max_tile →
  ∃ w', start_move now1 now2 w = Ret w' ∧ world_ok (n + 1) w' ∧ m_playerPos w' = m_playerPos w ∧
    (m_isMoving w' = false → m_targetPos w' = m_targetPos w).
Proof.
  intros [Hrest (vx & vy & Hv & Hvx & Hvy & Hstr) Hdir (i & j & Ht & Hi & Hj) Htm] Hm Hn. specialize (Hrest Hm).
  destruct (axis_keys_spec NkKey_AlnumA NkKey_AlnumD) as (dx & Ex & Hdx).
  destruct (axis_keys_spec NkKey_AlnumW NkKey_AlnumS) as (dy & Ey & Hdy).
  unfold start_move. rewrite Ex, Ey, !bind_Ret, fl_zero by done.
  set (ay := if negb (dx =? 0) then fl 0 else fl dy).
  assert (Hay : ∃ e, ay = fl e ∧ -1 ≤ e ≤ 1 ∧ (dx = 0 ∨ e = 0)).
  { unfold ay. destruct (Z.eqb_spec dx 0); cbn [negb]; [exists dy|exists 0]; split; auto; lia. }
  clearbody ay. destruct Hay as (e & -> & He & Hde).
  set (vel := if negb (f32_eq (m_xVal (m_vel w)) (fl dx)) || negb (f32_eq (m_yVal (m_vel w)) (fl e)) then mkVec (fl dx) (fl e) else m_vel w).
  assert (Hvel : straight vel) by (unfold vel; case_match; [exists dx, e|exists vx, vy]; done).
  clearbody vel. case_match.
  - destruct (restart_running now1 now2 (wl_t w) Htm) as (t' & -> & Ht'). rewrite bind_Ret. eexists. split; [done|].
    split; [|done]. split; cbn [m_isMoving m_playerPos m_targetPos m_vel m_dir wl_t]; [done|done|by apply new_dir_range| |done].
    exists (i + dx), (j + e). rewrite Hrest, Ht. cbn [m_xVal m_yVal]. rewrite !grid_step by lia. split; [done|lia].
  - eexists. split; [done|]. split; [|done]. split; cbn [m_isMoving m_playerPos m_targetPos m_vel m_dir wl_t]; try done.
    exists i, j. split; [done|lia].
Qed.

Lemma continue_move_spec n updTime w :
  world_ok n w → m_isMoving w = true →
  world_ok n (continue_move updTime w) ∧ m_targetPos (continue_move updTime w) = m_targetPos w ∧ m_vel (continue_move updTime w) = m_vel w.
Proof.
  intros [Hrest Hv Hdir Ht Htm] Hm. unfold continue_move. destruct (move_towards _ _ _ _); (split; [|done]);
    split; cbn [m_isMoving m_playerPos m_targetPos m_vel m_dir wl_t]; try done. congruence.
Qed.
Lemma with_speed_ok n w s : world_ok n w → world_ok n (with_speed w s).
Proof. by intros [? ? ? ? ?]. Qed.

Lemma update_spec `{NativeInput} n updTime now1 now2 w :
  world_ok n w → n ≤ max_tile →
  ∃ w', WorldLayer_OnUpdate updTime now1 now2 w = Ret (NkErr_Ok, w') ∧ world_ok (n + 1) w' ∧
    (m_isMoving w = true → m_targetPos w' = m_targetPos w).
Proof.
  intros Hok Hn. unfold WorldLayer_OnUpdate. rewrite is_key_pressed, bind_Ret.
  set (w1 := with_speed w _). assert (Hok1 : world_ok n w1) by by apply with_speed_ok.
  assert (Hmv : m_isMoving w1 = m_isMoving w) by done. assert (Htg : m_targetPos w1 = m_targetPos w) by done. clearbody w1.
  rewrite Hmv. destruct (m_isMoving w) eqn:Em.
  - rewrite bind_Ret, Hmv. destruct (continue_move_spec n updTime w1 Hok1 Hmv) as (Hok2 & Ht2 & _).
    eexists. split; [done|]. split; [|intros _; etransitivity; [exact Ht2|exact Htg]]. destruct Hok2 as [? ? ? (i & j & ? & ? & ?) ?]. split; try done.
    exists i, j. split; [done|lia].
  - destruct (start_move_spec now1 now2 n w1 Hok1 Hmv Hn) as (w2 & -> & Hok2 & _ & _). rewrite bind_Ret.
    eexists. split; [done|]. split; [|done]. destruct (m_isMoving w2) eqn:E2; [|done]. by apply continue_move_spec.
Qed.

(** [n] updates from the state after the push, each with any state of the keys. *)
Inductive world_reach : nat → WorldLayer → Prop :=
  | world_pushed wnd rd ial a b c d t t2 : m_isRunning t = true → world_reach 0 (new_world wnd rd ial a b c d t t2)
  | world_updated n w I updTime now1 now2 e w' :
      world_reach n w → @WorldLayer_OnUpdate I updTime now1 now2 w = Ret (e, w') → world_reach (S n) w'.

Lemma reach_ok n w : world_reach n w → Z.of_nat n ≤ 1000 → world_ok (11 + Z.of_nat n) w.
Proof.
  induction 1 as [wnd rd ial a b c d t t2 Ht|n w I updTime now1 now2 e w' _ IH E]; intros Hn.
  - split; cbn [new_world m_isMoving m_playerPos m_targetPos m_vel m_dir wl_t]; try done.
    + exists 0, 1. split; [done|lia].
    + exists 11, 9. split; [by vm_compute|lia].
  - destruct (@update_spec I (11 + Z.of_nat n) updTime now1 now2 w) as (w2 & E2 & Hok & _); [apply IH; lia|unfold max_tile; lia|].
    rewrite E in E2. injection E2 as -> ->. by replace (11 + Z.of_nat (S n)) with (11 + Z.of_nat n + 1) by lia.
Qed.

(** C16: whatever keys are pressed during the first thousand updates: every update returns; a player that
    does not move stands exactly on its target, which is a whole tile; the velocity is at rest or along one
    axis, never diagonal; the direction is one of the four rows of the player's atlas; and an update during
    a move does not change the target. *)
Theorem world_reachable n w :
  world_reach n w → Z.of_nat n ≤ 1000 →
  (m_isMoving w = false → m_playerPos w = m_targetPos w) ∧ straight (m_vel w) ∧ 0 ≤ m_dir w ≤ 3 ∧
  on_grid (11 + Z.of_nat n) (m_targetPos w) ∧
  ∀ I updTime now1 now2, ∃ w', @WorldLayer_OnUpdate I updTime now1 now2 w = Ret (NkErr_Ok, w') ∧
    (m_isMoving w = true → m_targetPos w' = m_targetPos w).
Proof.
  intros Hr Hn. pose proof (reach_ok n w Hr Hn) as Hok. pose proof Hok as [? ? ? ? ?].
  do 4 (split; [done|]). intros I updTime now1 now2.
  destruct (@update_spec I _ updTime now1 now2 w Hok) as (w' & ? & _ & ?); [unfold max_tile; lia|]. eauto.
Qed.

(** ** Arriving *)

(** The time of an update in the main loop: [ticksPerUpdate / tiFreq] (application.c 452
    and 491) for a counter of [freq] ticks per second, and the values it has: rounding
    leaves 8.333 milliseconds or one of its two neighbours. *)
Definition update_time (freq : Z) : NkFloat :=
  let tiFreq := f32_of_Z freq in
  let ticksPerUpdate := f32_mul (f32_div (f32_lit 8333 1000) (fl 1000)) tiFreq in
  f32_div ticksPerUpdate tiFreq.
Definition update_times : list NkFloat :=
  [S754_finite false 8947490 (-30); S754_finite false 8947491 (-30); S754_finite false 8947492 (-30)].

Lemma update_time_near freq : 0 < freq < 2 ^ 63 → update_time freq ∈ update_times.
Proof.
  intros Hf. unfold update_time. change (f32_div (f32_lit 8333 1000) (fl 1000)) with (S754_finite false 8947491 (-30)).
  destruct (mul_div_neighbour 8947491 (-30) freq) as (r & Hr & ->); [lia|lia|done|].
  assert (r = 8947490 ∨ r = 8947491 ∨ r = 8947492) as [->|[->| ->]] by lia;
    repeat first [by apply list_elem_of_here | apply list_elem_of_further].
Qed.

(** The position [p] on the axis that changes, [c] on the other one. *)
Definition along (first : bool) (p c : NkFloat) : NkVec2F := if first then mkVec p c else mkVec c p.
(** One step of length [step] along an axis: [Some None] on arrival, [None] when the other
    coordinate would not be left exactly as it is. *)
Definition near : NkDouble := Eval vm_compute in f64_lit 1 1000.
Definition one_axis (p t step : NkFloat) : option (option NkFloat) :=
  let d := f32_sub t p in
  let sq := f32_add (f32_mul d d) (fl 0) in
  let mag := f32_sqrt sq in
  if f_gt (f64_of_f32 sq) near then
    if f_lt mag step || f32_eq mag (fl 0) then Some None
    else if bool_decide (f32_mul (f32_div (fl 0) mag) step = fl 0) then Some (Some (f32_add p (f32_mul (f32_div d mag) step)))
    else None
  else Some None.
(** The positions after one more update from those in [ps], at either speed, without those
    that arrive; [None] when some step is none. *)
Definition step_into (r : option (option NkFloat)) (acc : option (list NkFloat)) : option (list NkFloat) :=
  match r, acc with
  | Some None, _ => acc
  | Some (Some q), Some qs => Some (if bool_decide (q ∈ qs) then qs else q :: qs)
  | _, _ => None
  end.
Fixpoint step_all (ps : list NkFloat) (t slow fast : NkFloat) : option (list NkFloat) :=
  match ps with
  | [] => Some []
  | p :: ps => step_into (one_axis p t slow) (step_into (one_axis p t fast) (step_all ps t slow fast))
  end.
(** Whatever the speeds, from every position in [ps] the target is reached in [n] updates. *)
Fixpoint arrives (n : nat) (ps : list NkFloat) (t slow fast : NkFloat) : bool :=
  match ps, n with
  | [], _ => true
  | _, O => false
  | _, S n => match step_all ps t slow fast with Some qs => arrives n qs t slow fast | None => false end
  end.
(** A coordinate that a zero difference leaves alone. *)
Definition still (c : NkFloat) : Prop := f32_sub c c = fl 0 ∧ f32_add c (fl 0) = c.

Lemma zero_add x : f32_add (fl 0) x = f32_add x (fl 0).
Proof. by destruct x as [[]|[]| |[]]. Qed.
Lemma one_axis_move first p t c speed updTime r :
  still c → one_axis p t (f32_mul speed updTime) = Some r →
  move_towards (along first p c) (along first t c) speed updTime = (λ q, along first q c) <$> r.
Proof.
  intros [Hs Ha] E. unfold move_towards. unfold one_axis in E. change near with (f64_lit 1 1000) in E.
  destruct first; cbn [along m_xVal m_yVal]; rewrite Hs; change (f32_mul (fl 0) (fl 0)) with (fl 0); rewrite ?zero_add;
    destruct (f_gt _ _); [|by injection E as <-| |by injection E as <-];
    (destruct (_ || _); [by injection E as <-|]); case_bool_decide as Hz; try done; injection E as <-; rewrite Hz, Ha; done.
Qed.

(** A sequence of updates, each with its own keys and counter readings. *)
Fixpoint updates (updTime : NkFloat) (ins : list (NativeInput * Z * Z)) (w : WorldLayer) : outcome WorldLayer :=
  match ins with
  | [] => Ret w
  | (keys, now1, now2) :: ins => '(_, w) ← @WorldLayer_OnUpdate keys updTime now1 now2 w; updates updTime ins w
  end.

Lemma step_into_in r acc qs : step_into r acc = Some qs →
  (∃ r', r = Some r' ∧ ∀ q, r' = Some q → q ∈ qs) ∧ ∃ qs', acc = Some qs' ∧ ∀ q, q ∈ qs' → q ∈ qs.
Proof.
  destruct r as [[q|]|], acc as [qs'|]; cbn [step_into]; try done.
  - case_bool_decide as Hq; intros [= <-].
    + split; [exists (Some q); split; [done|by intros ? [= <-]]|by exists qs'].
    + split; [exists (Some q); split; [done|intros ? [= <-]; set_solver]|exists qs'; set_solver].
  - intros [= <-]. split; [by exists None|by exists qs'].
Qed.
Lemma step_all_in ps t slow fast qs p (shift : bool) : step_all ps t slow fast = Some qs → p ∈ ps →
  ∃ r, one_axis p t (if shift then fast else slow) = Some r ∧ ∀ q, r = Some q → q ∈ qs.
Proof.
  revert qs. induction ps as [|p' ps IH]; intros qs E Hp; [by apply elem_of_nil in Hp|].
  cbn [step_all] in E. apply step_into_in in E as [(r1 & E1 & H1) (qs1 & E & Hsub1)].
  apply step_into_in in E as [(r2 & E2 & H2) (qs2 & E & Hsub2)]. apply elem_of_cons in Hp as [->|Hp].
  - destruct shift; [exists r2|exists r1]; (split; [done|]); intros q Hq; auto.
  - destruct (IH qs2 E Hp) as (r & Er & Hr). exists r. split; [done|]. intros q Hq. auto.
Qed.

Lemma arrives_spec n first ps p t c updTime ins w :
  still c → arrives n ps t (f32_mul (WL_MoveSpeed false) updTime) (f32_mul (WL_MoveSpeed true) updTime) = true → p ∈ ps →
  m_isMoving w = true → m_playerPos w = along first p c → m_targetPos w = along first t c → (n ≤ length ins)%nat →
  ∃ k w', (k ≤ n)%nat ∧ updates updTime (take k ins) w = Ret w' ∧ m_isMoving w' = false ∧
    m_playerPos w' = m_targetPos w ∧ m_targetPos w' = m_targetPos w.
Proof.
  intros Hc. revert ps p ins w. induction n as [|n IH]; intros ps p ins w Ha Hin Hm Hp Ht Hlen.
  { destruct ps; [by apply elem_of_nil in Hin|done]. }
  destruct ins as [|[[keys now1] now2] ins]; [cbn [length] in Hlen; lia|]. cbn [length] in Hlen.
  destruct ps as [|p0 ps]; [by apply elem_of_nil in Hin|]. cbn [arrives] in Ha.
  destruct (step_all _ _ _ _) as [qs|] eqn:E; [|done].
  set (shift := @pressed keys (MapToNativeKey (key_code NkKey_LShift))).
  destruct (step_all_in _ _ _ _ _ p shift E Hin) as (r & Er & Hr).
  replace (if shift then _ else _) with (f32_mul (WL_MoveSpeed shift) updTime) in Er by (by destruct shift).
  apply (one_axis_move first _ _ c) in Er; [|done].
  assert (Hu : ∀ k, updates updTime (take (S k) ((keys, now1, now2) :: ins)) w =
    updates updTime (take k ins) (continue_move updTime (with_speed w (WL_MoveSpeed shift)))).
  { intros k. cbn [updates take]. unfold WorldLayer_OnUpdate. rewrite is_key_pressed, bind_Ret. fold shift. cbn [with_speed m_isMoving].
    rewrite Hm, bind_Ret. cbn [with_speed m_isMoving]. by rewrite Hm, bind_Ret. }
  unfold continue_move in Hu. cbn [with_speed m_playerPos m_targetPos m_moveSpeed] in Hu. rewrite Hp, Ht, Er in Hu.
  destruct r as [q|]; cbn [fmap option_fmap option_map] in Hu.
  - edestruct (IH qs q ins) as (k & w' & Hk & Eu & Hend & Hpos & Htgt); [exact Ha|by apply Hr| | | |lia|].
    4: { exists (S k), w'. split; [lia|]. rewrite Hu. split; [exact Eu|]. split; [done|].
         cbn [m_targetPos] in Hpos, Htgt. by rewrite Hpos, Htgt, Ht. }
    + done.
    + done.
    + done.
  - exists 1%nat. rewrite Hu. cbn [updates take]. eexists. split; [lia|]. split; [done|]. by rewrite Ht.
Qed.

(** Every single step of a tile on the map, by computation. *)
Lemma still_grid j : 0 ≤ j ≤ 31 → still (grid j).
Proof.
  assert (Hall : Forall (λ j, f32_sub (grid j) (grid j) = fl 0 ∧ f32_add (grid j) (fl 0) = grid j) (zrange 0 32))
    by (apply (bool_decide_unpack _); by vm_compute).
  intros Hj. apply (zrange_all _ _ _ j Hall). lia.
Qed.
Lemma arrives_grid d i updTime :
  updTime ∈ update_times → d = -1 ∨ d = 1 → 0 ≤ i ≤ 31 →
  arrives 31 [grid i] (grid (i + d)) (f32_mul (WL_MoveSpeed false) updTime) (f32_mul (WL_MoveSpeed true) updTime) = true.
Proof.
  assert (Hall : ∀ d, d = -1 ∨ d = 1 → Forall (λ u, Forall (λ i,
    arrives 31 [grid i] (grid (i + d)) (f32_mul (WL_MoveSpeed false) u) (f32_mul (WL_MoveSpeed true) u) = true) (zrange 0 32)) update_times).
  { intros d0 [->| ->]; apply (bool_decide_unpack _); by vm_compute. }
  intros Hu Hd Hi. specialize (Hall d Hd). rewrite list.Forall_forall in Hall.
  apply (zrange_all _ _ _ i (Hall updTime Hu)). lia.
Qed.

(** C35: a move that has begun ends: from any tile of the map to any of its four neighbours the player
    stands exactly on the target after at most 31 updates of the main loop, whichever keys are down at
    each of them (walking and running may alternate) and whatever the frequency of the counter is. *)
Theorem world_arrives freq first i j d ins w :
  0 < freq < 2 ^ 63 → length ins = 31%nat →
  m_isMoving w = true → 0 ≤ i ≤ 31 → 0 ≤ j ≤ 31 → d = -1 ∨ d = 1 →
  m_playerPos w = along first (grid i) (grid j) → m_targetPos w = along first (grid (i + d)) (grid j) →
  ∃ k w', (k ≤ 31)%nat ∧ updates (update_time freq) (take k ins) w = Ret w' ∧ m_isMoving w' = false ∧
    m_playerPos w' = along first (grid (i + d)) (grid j).
Proof.
  intros Hu%update_time_near Hl Hm Hi Hj Hd Hp Ht.
  destruct (arrives_spec 31 first [grid i] (grid i) (grid (i + d)) (grid j) (update_time freq) ins w) as (k & w' & Hk & E & He & Hpos & _);
    [by apply still_grid|by apply arrives_grid|set_solver|done..|lia|].
  exists k, w'. by rewrite Hpos, Ht.
Qed.

(** ** The map and what is drawn of it *)

(** The whole map, row by row: 32 rows of 32 tiles. *)
Definition rows (l : list Z) (r : list Z) : list Z :=
  seq 0 16 ≫= λ k, take 16 (drop (16 * k) l) ++ take 16 (drop (16 * k) r).
Definition world_map : list Z := rows gl_TestMap1 gl_TestMap2 ++ rows gl_TestMap3 gl_TestMap4.
Definition map_tile (tx ty : Z) : Z := default 0 (world_map !! Z.to_nat (32 * ty + tx)).
Definition on_map (t : Z) : bool := (0 <=? t) && (t <=? 31).

(** The draw of a tile for a camera at [px], [py]: the player's place on the screen is (256, 256). *)
Definition tile_draw (px py tx ty : Z) : list Draw :=
  if on_map tx && on_map ty then
    [mkDraw (mkRect (32 * tx - px + 256) (32 * ty - py + 256) 32 32)
            (mkRect (32 * Z.land (map_tile tx ty) 0xFFFF) (32 * Z.shiftr (map_tile tx ty) 16) 32 32)]
  else [].
(** The tiles [8] before the player's up to the edge of the view. *)
Definition in_view (p dim t : Z) : bool := (Z.quot p 32 - 8 <=? t) && (32 * t - p <? dim).
Definition scene (px py xdim ydim : Z) : list Draw :=
  zrange 0 32 ≫= λ tx, if in_view px xdim tx then
    zrange 0 32 ≫= λ ty, if in_view py ydim ty then tile_draw px py tx ty else [] else [].

(** The chunk and the index in it are the tile of the whole map. *)
Lemma draw_tile_spec px py tx ty :
  draw_tile (32 * tx - px) (32 * ty - py) (32 * tx) (32 * ty) = Ret (tile_draw px py tx ty).
Proof.
  assert (Hall : Forall (λ tx, Forall (λ ty,
    buf_get (if Z.quot (Z.quot (32 * tx) 32) 16 =? 0 then if Z.quot (Z.quot (32 * ty) 32) 16 =? 0 then gl_TestMap1 else gl_TestMap3
             else if Z.quot (Z.quot (32 * ty) 32) 16 =? 0 then gl_TestMap2 else gl_TestMap4)
      (16 * Z.rem (Z.quot (32 * ty) 32) 16 + Z.rem (Z.quot (32 * tx) 32) 16) = Ret (map_tile tx ty)) (zrange 0 32)) (zrange 0 32)).
  { apply (bool_decide_unpack _). by vm_compute. }
  unfold draw_tile, tile_draw, on_map.
  destruct ((32 * tx <? 0) || (32 * tx >? 31 * 32) || (32 * ty <? 0) || (32 * ty >? 31 * 32)) eqn:E.
  - replace (_ && _) with false; [done|]. symmetry. apply not_true_is_false. rewrite !andb_true_iff, !Z.leb_le.
    rewrite !orb_true_iff, !Z.ltb_lt, !Z.gtb_lt in E. lia.
  - rewrite !orb_false_iff, !Z.ltb_ge, !Z.gtb_ltb, !Z.ltb_ge in E.
    replace (_ && _) with true by (symmetry; rewrite !andb_true_iff, !Z.leb_le; lia).
    pose proof (zrange_all _ _ _ tx Hall ltac:(lia)) as H1. cbn beta in H1.
    pose proof (zrange_all _ _ _ ty H1 ltac:(lia)) as H2. cbn beta in H2. cbv zeta. rewrite H2, bind_Ret. done.
Qed.

(** *** The loops *)

(** The passes of a loop from tile [t0] on: as long as the tile begins before the end of the view. *)
Definition passes (n : nat) (t0 p dim : Z) : Prop :=
  (∀ t, t0 ≤ t < t0 + Z.of_nat n → 32 * t - p < dim) ∧ dim ≤ 32 * (t0 + Z.of_nat n) - p.
Definition small (z : Z) : Prop := - 2 ^ 30 ≤ z ≤ 2 ^ 30.

Lemma int_op_small z : small z → int_op (z + 32) = Ret (z + 32).
Proof.
  unfold small, int_op, INT32_MIN, INT32_MAX. intros Hz.
  rewrite (proj2 (Z.leb_le _ _)), (proj2 (Z.leb_le _ _)) by lia. done.
Qed.

Lemma draw_column_spec fuel px py tx ty ydim :
  small (32 * ty) → small (32 * ty + 32 * Z.of_nat fuel) → -512 ≤ 32 * ty - py → ydim ≤ 256 →
  ydim - (32 * ty - py) ≤ 32 * (Z.of_nat fuel - 1) → (0 < fuel)%nat →
  ∃ n, draw_column fuel (32 * tx - px) (32 * ty - py) (32 * tx) (32 * ty) ydim = Ret (zrange ty n ≫= tile_draw px py tx) ∧
    passes n ty py ydim.
Proof.
  revert ty. induction fuel as [|fuel IH]; intros ty Hs Hs' Hy Hdim Hf Hpos; [lia|]. cbn [draw_column].
  destruct (Z.ltb_spec (32 * ty - py) ydim) as [Hlt|Hge].
  - rewrite draw_tile_spec, bind_Ret, !int_op_small, !bind_Ret by (unfold small in *; lia).
    replace (32 * ty - py + 32) with (32 * (ty + 1) - py) by lia. replace (32 * ty + 32) with (32 * (ty + 1)) by lia.
    destruct (IH (ty + 1)) as (n & -> & Hn1 & Hn2); [unfold small in *; lia..|]. exists (S n). rewrite bind_Ret. split.
    + by rewrite zrange_S.
    + split; [|lia]. intros t Ht. destruct (decide (t = ty)) as [->|]; [done|]. apply Hn1. lia.
  - exists 0%nat. split; [done|]. split; lia.
Qed.

Lemma draw_columns_spec fuel px tx ty py xdim ydim (col : Z → list Draw) :
  (∀ tx, draw_column world_fuel (32 * tx - px) (32 * ty - py) (32 * tx) (32 * ty) ydim = Ret (col tx)) →
  small (32 * tx) → small (32 * tx + 32 * Z.of_nat fuel) → -512 ≤ 32 * tx - px → xdim ≤ 256 →
  xdim - (32 * tx - px) ≤ 32 * (Z.of_nat fuel - 1) → (0 < fuel)%nat →
  ∃ n, draw_columns fuel (32 * tx - px) (32 * tx) (32 * ty - py) (32 * ty) xdim ydim = Ret (zrange tx n ≫= col) ∧
    passes n tx px xdim.
Proof.
  intros Hcol. revert tx. induction fuel as [|fuel IH]; intros tx Hs Hs' Hx Hdim Hf Hpos; [lia|]. cbn [draw_columns].
  destruct (Z.ltb_spec (32 * tx - px) xdim) as [Hlt|Hge].
  - rewrite Hcol, bind_Ret, !int_op_small, !bind_Ret by (unfold small in *; lia).
    replace (32 * tx - px + 32) with (32 * (tx + 1) - px) by lia. replace (32 * tx + 32) with (32 * (tx + 1)) by lia.
    destruct (IH (tx + 1)) as (n & -> & Hn1 & Hn2); [unfold small in *; lia..|]. exists (S n). rewrite bind_Ret. split.
    + by rewrite zrange_S.
    + split; [|lia]. intros t Ht. destruct (decide (t = tx)) as [->|]; [done|]. apply Hn1. lia.
  - exists 0%nat. split; [done|]. split; lia.
Qed.

(** The passes are the tiles in view. *)
Lemma passes_view {B} (f : Z → list B) n p dim :
  passes n (Z.quot p 32 - 8) p dim → (∀ t, on_map t = false → f t = []) →
  (zrange (Z.quot p 32 - 8) n ≫= f) = (zrange 0 32 ≫= λ t, if in_view p dim t then f t else []).
Proof.
  intros [H1 H2] Hf. rewrite (bind_zrange_ext f (λ t, if in_view p dim t then f t else [])).
  - apply bind_zrange_same.
    + intros t Ht. unfold in_view. destruct (Z.leb_spec (Z.quot p 32 - 8) t); [|done].
      destruct (Z.ltb_spec (32 * t - p) dim); [lia|done].
    + intros t Ht. rewrite Hf; [by case_match|]. unfold on_map. apply not_true_is_false. rewrite andb_true_iff, !Z.leb_le. lia.
  - intros t Ht. unfold in_view. rewrite (proj2 (Z.leb_le _ _)), (proj2 (Z.ltb_lt _ _)) by (auto with lia). done.
Qed.

Lemma view_dim_range d : 0 ≤ d < 2 ^ 64 → -256 ≤ view_dim d ≤ 256.
Proof.
  intros Hd. unfold view_dim, wrapN, swrapN. change (2 ^ 64) with 18446744073709551616 in *.
  change (2 ^ 32) with 4294967296. change (2 ^ (32 - 1)) with 2147483648.
  destruct (Z.gtb_spec (16 * 32) d); Z.to_euclidean_division_equations; lia.
Qed.
(** The start of the loops: a whole tile, eight tiles before the player's. *)
Lemma loop_start p : Z.rem (- p) 32 - 8 * 32 = 32 * (Z.quot p 32 - 8) - p.
Proof. rewrite Z.rem_opp_l by lia. pose proof (Z.quot_rem p 32 ltac:(lia)). lia. Qed.

(** C17: with the camera at the player's position, the tiles drawn are, column by column, exactly the
    tiles of the 32 x 32 map that are in view, each once, each at its distance from the player on the
    screen, and each taken from its place in the atlas; tiles off the map are skipped, and no access is
    outside the four quarter maps. *)
Theorem world_draws_scene vpWidth vpHeight w px py :
  0 ≤ vpWidth < 2 ^ 64 → 0 ≤ vpHeight < 2 ^ 64 →
  f_trunc (m_xVal (m_playerPos w)) = Some px → f_trunc (m_yVal (m_playerPos w)) = Some py →
  - 2 ^ 29 ≤ px ≤ 2 ^ 29 → - 2 ^ 29 ≤ py ≤ 2 ^ 29 →
  WorldLayer_DrawTiles vpWidth vpHeight w = Ret (scene px py (view_dim vpWidth) (view_dim vpHeight)).
Proof.
  intros Hw Hh Ex Ey Hx Hy. apply view_dim_range in Hw, Hh.
  assert (Hi : ∀ z, - 2 ^ 30 ≤ z ≤ 2 ^ 30 → (INT32_MIN <=? z) && (z <=? INT32_MAX) = true)
    by (intros z Hz; rewrite andb_true_iff, !Z.leb_le; unfold INT32_MIN, INT32_MAX; lia).
  pose proof (Z.quot_rem px 32 ltac:(lia)) as Qx. pose proof (Z.rem_bound_abs px 32 ltac:(lia)) as Rx.
  pose proof (Z.quot_rem py 32 ltac:(lia)) as Qy. pose proof (Z.rem_bound_abs py 32 ltac:(lia)) as Ry.
  unfold WorldLayer_DrawTiles, f_to_int, int_op. rewrite Ex, Ey.
  rewrite (Hi px), bind_Ret, (Hi py), bind_Ret, (Hi (- px)), bind_Ret, (Hi (- py)), bind_Ret by lia. cbv zeta.
  rewrite !loop_start, !Hi, !bind_Ret by lia.
  replace (Z.quot px 32 * 32 - 8 * 32) with (32 * (Z.quot px 32 - 8)) by lia.
  replace (Z.quot py 32 * 32 - 8 * 32) with (32 * (Z.quot py 32 - 8)) by lia.
  set (f := λ tx, zrange 0 32 ≫= λ ty, if in_view py (view_dim vpHeight) ty then tile_draw px py tx ty else []).
  assert (Hcol : ∀ tx, draw_column world_fuel (32 * tx - px) (32 * (Z.quot py 32 - 8) - py) (32 * tx) (32 * (Z.quot py 32 - 8))
    (view_dim vpHeight) = Ret (f tx)).
  { intros tx. destruct (draw_column_spec world_fuel px py tx (Z.quot py 32 - 8) (view_dim vpHeight)) as (n & -> & Hp);
      [unfold small, world_fuel; lia..|]. f_equal. apply passes_view; [done|].
    intros t Ht. unfold tile_draw. by rewrite Ht, andb_false_r. }
  destruct (draw_columns_spec world_fuel px (Z.quot px 32 - 8) (Z.quot py 32 - 8) py (view_dim vpWidth) (view_dim vpHeight) f Hcol)
    as (n & -> & Hp); [unfold small, world_fuel; lia..|]. f_equal. apply passes_view; [done|].
  intros t Ht. unfold f. apply bind_zrange_nil. intros ty _. unfold tile_draw. rewrite Ht. by case_match.
Qed.

(** ** Errors around the bitmaps *)
Section errors.
Context {W Bmp : Type} `{WorldHost W Bmp}.

(** A first bitmap that cannot be loaded is reported and the objects are released; the result of
    loading the second one is not looked at: without it the push is undefined. *)
Lemma world_push_outcomes wl w wnd w1 rd w2 e bmp w3 :
  query_window w = Ret (wnd, w1) → wnd ≠ NULL → GetRenderer wnd w1 = Ret (rd, w2) → rd ≠ NULL →
  bmp_load "../res/def/ts_main.bmp" w2 = Ret (e, bmp, w3) →
  (isOk e = false → ∀ w4 w5, rd_Release rd w3 = Ret w4 → wnd_Release wnd w4 = Ret w5 →
     WorldLayer_OnPush wl w = Ret (e, wl, w5)) ∧
  (∀ b tex w4 w5 e2 w6 e3 mask w7, isOk e = true → bmp = Some b → CreateTexture rd b w3 = Ret (NkErr_Ok, tex, w4) →
     bmp_destroy b w4 = Ret w5 → bmp_load "../res/def/ts_player.bmp" w5 = Ret (e2, None, w6) →
     CreateTextureMask rd tex (255, 255, 255) w6 = Ret (e3, mask, w7) →
     WorldLayer_OnPush wl w = Undef).
Proof.
  intros E1 Hwnd E2 Hrd E3. unfold WorldLayer_OnPush, deref. rewrite E1, bind_Ret, (proj2 (Z.eqb_neq wnd NULL)), bind_Ret by done.
  rewrite E2, bind_Ret, E3, bind_Ret, !(proj2 (Z.eqb_neq rd NULL)) by done. split.
  - intros He w4 w5 E4 E5. rewrite He. cbn [negb]. unfold push_failed. by rewrite bind_Ret, E4, bind_Ret, E5, bind_Ret.
  - intros b tex w4 w5 e2 w6 e3 mask w7 He -> E4 E5 E6 E7. rewrite He. cbn [negb get_or].
    rewrite !bind_Ret, E4, bind_Ret. ok_step. by rewrite E5, bind_Ret, E6, bind_Ret, E7, bind_Ret.
Qed.
(** A framebuffer that could not be grabbed leaves the bitmap uninitialised, and it is destroyed. *)
Lemma screenshot_failed wl path w e w' :
  path ≠ ""%string → mp_rdRef wl ≠ NULL → GrabFramebuffer (mp_rdRef wl) w = Ret (e, None, w') → isOk e = false →
  WorldLayer_ActionScreenshot wl path w = Undef.
Proof.
  intros Hp Hrd Eg He. unfold WorldLayer_ActionScreenshot, deref. rewrite bool_decide_eq_false_2 by done. cbn [negb NK_ASSERT].
  rewrite bind_Ret, (proj2 (Z.eqb_neq _ _)), bind_Ret, Eg, bind_Ret by done. by rewrite He.
Qed.
End errors.

(** ** Concrete worlds *)
Definition demo_timer : NkTimer := mkTimer NkTiType_Elapsed true 0 0.
Definition demo_world : WorldLayer := new_world 1 2 3 4 5 6 7 demo_timer demo_timer.
(** The left shift key and D are down: the player runs to the right. *)
Definition running_right : NativeInput := {|
  VK := windows_code;
  GetAsyncKeyState c := if (c =? 160) || (c =? 68) then 0x8000 else 0;
  GetCursorPos := (0, 0)
|}.
Definition demo_moving : WorldLayer :=
  match @WorldLayer_OnUpdate running_right (update_time 10000000) 0 0 demo_world with Ret (_, w) => w | _ => demo_world end.

Lemma world_reachable_witness :
  world_reach 1 demo_moving ∧ m_isMoving demo_moving = true ∧ straight (m_vel demo_moving) ∧
  on_grid 12 (m_targetPos demo_moving).
Proof.
  assert (Hr : world_reach 1 demo_moving).
  { eapply (world_updated 0 demo_world running_right (update_time 10000000) 0 0 NkErr_Ok); [by constructor|]. by vm_compute. }
  destruct (world_reachable 1 demo_moving Hr) as (_ & Hv & _ & Ht & _); [done|].
  split; [exact Hr|]. split; [by vm_compute|]. split; [exact Hv|exact Ht].
Defined.
Definition about_to_move : WorldLayer :=
  mkWorldLayer 1 2 3 4 5 6 7 start_pos (mkVec (grid 11) (grid 9)) (mkVec (grid 12) (grid 9)) true
    (mkVec (fl 0) (fl 1)) (mkVec (fl 1) (fl 0)) 2 demo_timer (fl 256) demo_timer 0.
(** Every second update with the left shift key down. *)
Definition nothing_pressed : NativeInput := {| VK := windows_code; GetAsyncKeyState c := 0; GetCursorPos := (0, 0) |}.
Definition now_and_then : list (NativeInput * Z * Z) :=
  (λ k, (if Nat.even k then running_right else nothing_pressed, 0, 0)) <$> seq 0 31.
Lemma world_arrives_witness :
  ∃ k w', (k ≤ 31)%nat ∧ updates (update_time 10000000) (take k now_and_then) about_to_move = Ret w' ∧ m_isMoving w' = false ∧
    m_playerPos w' = mkVec (grid 12) (grid 9).
Proof.
  apply (world_arrives 10000000 true 11 9 1 now_and_then about_to_move).
  - lia.
  - done.
  - done.
  - lia.
  - lia.
  - by right.
  - done.
  - done.
Defined.
Lemma world_draws_scene_witness :
  ∃ ds, WorldLayer_DrawTiles 512 512 demo_world = Ret ds ∧ length ds = 256%nat.
Proof.
  exists (scene 352 288 (view_dim 512) (view_dim 512)). split; [|by vm_compute].
  apply (world_draws_scene 512 512 demo_world 352 288).
  - lia.
  - lia.
  - by vm_compute.
  - by vm_compute.
  - lia.
  - lia.
Defined.
