(* ===== verification/Renderer.v ===== *)
(** * [src/Noriko/renderer.c], [src/Noriko/platform/windows/wingdi.c]: the GDI renderer

    The Windows functions the renderer calls are the methods of [Gdi], acting on the
    system's own state; what their documentation promises about handles is [GdiLaws].
    The window is reached through [RdWindow].  There is one window and so one renderer:
    it is at [self], and gone once its last reference is.  The resources are found by
    their address.  The configuration modelled is the one with debugging aids (the
    viewport has a background). *)
From S2P Require Import Prelude Float32 Util Registry NkOM Alloc Bmp.

(** ** Windows *)
Definition COLORONCOLOR : Z := 3.
Definition HALFTONE : Z := 4.
Definition SRCCOPY : Z := 0x00CC0020.
Definition NOTSRCCOPY : Z := 0x00330008.
Definition BI_RGB : Z := 0.
Definition RGB (r g b : Z) : Z := Z.lor (Z.lor r (Z.shiftl g 8)) (Z.shiftl b 16).
Definition MAKEROP4 (fore back : Z) : Z := Z.lor (Z.land (Z.shiftl back 8) 0xFF000000) fore.

Record RECT := mkRECT { rc_left : Z; rc_top : Z; rc_right : Z; rc_bottom : Z }.
Record BITMAPINFO := mkInfoHeader { bi_width : Z; bi_height : Z; bi_bitCount : Z; bi_compression : Z; bi_sizeImage : Z }.
(** What is drawn: device contexts, rectangles, offsets and raster operations. *)
Inductive GdiDraw :=
  | FillRect (dc : Z) (r : RECT) (br : Z)
  | BitBlt (dst x y w h src sx sy rop : Z)
  | StretchBlt (dst x y w h src sx sy sw sh rop : Z)
  | MaskBlt (dst x y w h src sx sy mask mx my rop : Z)
  | SetStretchBltMode (dc mode : Z)
  | GdiFlush
  | DwmFlush.

(** A handle of 0 is a failure.  [GetCurrentObject] is the one of [OBJ_BITMAP],
    [GetObject] gives the width and height of a bitmap, [CreateBitmap] a monochrome one. *)
Class Gdi (G : Type) := {
  GetDC : Z → G → Z * G;
  ReleaseDC : Z → Z → G → G;
  CreateCompatibleDC : Z → G → Z * G;
  DeleteDC : Z → G → G;
  CreateCompatibleBitmap : Z → Z → Z → G → Z * G;
  CreateBitmap : Z → Z → G → Z * G;
  CreateSolidBrush : Z → G → Z * G;
  SelectObject : Z → Z → G → Z * G;
  DeleteObject : Z → G → G;
  GetCurrentObject : Z → G → Z;
  GetObject : Z → G → Z * Z;
  SetBkColor : Z → Z → G → Z * G;
  SetDIBits : Z → Z → list Z → BITMAPINFO → G → Z * G;
  GetDIBits : Z → Z → Z → BITMAPINFO → G → Z * list Z * G;
  draw : GdiDraw → G → G
}.
(** The live memory device contexts with the bitmap selected into each, the bitmaps, the
    brushes, and the window device contexts not yet released; a fresh memory context holds
    the stock bitmap. *)
Class GdiState (G : Type) := { dcs : G → gmap Z Z; bmps : G → gset Z; brushes : G → gset Z; wdcs : G → gset Z; stock : Z }.
Record gdi_is `{GdiState G} (g' : G) (D : gmap Z Z) (B R W : gset Z) : Prop := {
  is_dcs : dcs g' = D; is_bmps : bmps g' = B; is_brushes : brushes g' = R; is_wdcs : wdcs g' = W
}.
Definition same_gdi `{GdiState G} (g g' : G) : Prop := gdi_is g' (dcs g) (bmps g) (brushes g) (wdcs g).
(** A bitmap can be selected into one memory context at a time, the stock bitmap into any. *)
Definition selectable `{GdiState G} (c b : Z) (g : G) : Prop :=
  b = stock ∨ b ∈ bmps g ∧ ∀ c', dcs g !! c' = Some b → c' = c.
Class GdiLaws (G : Type) `{Gdi G} `{GdiState G} : Prop := {
  get_dc_law wnd g c g' : GetDC wnd g = (c, g') →
    if decide (c = NULL) then same_gdi g g' else c ∉ wdcs g ∧ gdi_is g' (dcs g) (bmps g) (brushes g) ({[c]} ∪ wdcs g);
  release_dc_law wnd c g : gdi_is (ReleaseDC wnd c g) (dcs g) (bmps g) (brushes g) (wdcs g ∖ {[c]});
  create_dc_law dc g c g' : CreateCompatibleDC dc g = (c, g') →
    if decide (c = NULL) then same_gdi g g' else dcs g !! c = None ∧ gdi_is g' (<[c := stock]> (dcs g)) (bmps g) (brushes g) (wdcs g);
  delete_dc_law c g : gdi_is (DeleteDC c g) (delete c (dcs g)) (bmps g) (brushes g) (wdcs g);
  create_compatible_law dc w h g b g' : CreateCompatibleBitmap dc w h g = (b, g') →
    if decide (b = NULL) then same_gdi g g'
    else b ∉ bmps g ∧ b ∉ brushes g ∧ b ≠ stock ∧ gdi_is g' (dcs g) ({[b]} ∪ bmps g) (brushes g) (wdcs g);
  create_bitmap_law w h g b g' : CreateBitmap w h g = (b, g') →
    if decide (b = NULL) then same_gdi g g'
    else b ∉ bmps g ∧ b ∉ brushes g ∧ b ≠ stock ∧ gdi_is g' (dcs g) ({[b]} ∪ bmps g) (brushes g) (wdcs g);
  create_brush_law col g b g' : CreateSolidBrush col g = (b, g') →
    if decide (b = NULL) then same_gdi g g'
    else b ∉ bmps g ∧ b ∉ brushes g ∧ gdi_is g' (dcs g) (bmps g) ({[b]} ∪ brushes g) (wdcs g);
  select_law c b g old : dcs g !! c = Some old → selectable c b g →
    ∃ g', SelectObject c b g = (old, g') ∧ gdi_is g' (<[c := b]> (dcs g)) (bmps g) (brushes g) (wdcs g);
  delete_bitmap_law b g : b ∈ bmps g → (∀ c, dcs g !! c ≠ Some b) →
    gdi_is (DeleteObject b g) (dcs g) (bmps g ∖ {[b]}) (brushes g) (wdcs g);
  delete_brush_law b g : b ∈ brushes g → gdi_is (DeleteObject b g) (dcs g) (bmps g) (brushes g ∖ {[b]}) (wdcs g);
  current_law c g b : dcs g !! c = Some b → GetCurrentObject c g = b;
  set_bk_law c col g o g' : SetBkColor c col g = (o, g') → same_gdi g g';
  set_dibits_law b n l i g r g' : SetDIBits b n l i g = (r, g') → same_gdi g g';
  get_dibits_law c b n i g r l g' : GetDIBits c b n i g = (r, l, g') → same_gdi g g';
  draw_law d g : same_gdi g (draw d g);
  (* a selected bitmap exists *)
  gdi_law g : NULL ∉ bmps g ∧ NULL ∉ brushes g ∧ stock ∉ bmps g ∧ stock ≠ NULL ∧ bmps g ## brushes g ∧
    ∀ c b, dcs g !! c = Some b → c ≠ NULL ∧ (b = stock ∨ b ∈ bmps g)
}.

(** ** Data ([include/Noriko/renderer.h]) *)
Definition NkRdApi_Unknown : Z := 0.
Definition NkRdApi_Default : Z := 1.
Definition NkRdApi_Win32GDI : Z := 2.
Definition NkRdResTy_None : Z := 0.
Definition NkRdResTy_Texture : Z := 1.
Definition NkRdResTy_TextureMask : Z := 2.
Definition NkTexIMd_Default : Z := 0.
Definition NkTexIMd_NearestNeighbor : Z := 1.
Definition NkTexIMd_Bilinear : Z := 2.

Record NkRectF := mkRectF { rf_xCoord : NkFloat; rf_yCoord : NkFloat; rf_width : NkFloat; rf_height : NkFloat }.
Record NkRendererResource := mkRdRes { mp_rdRef : Z; m_resType : Z; m_resHandle : Z; m_resFlags : Z }.
Record NkRendererSpecification := mkRdSpec {
  rs_wndRef : Z; rs_isVSync : bool; rs_rendererApi : Z; rs_vpExtents : NkSize2D; rs_dispTileSize : NkSize2D;
  rs_vpAlignment : Z; rs_clearCol : NkRgbaColor; rs_texInterMode : Z
}.
Record GdiResources := mkGdiRes {
  mp_memDC : Z; mp_texDC : Z; mp_memBmp : Z; mp_oldBmp : Z; mp_defTexBmp : Z; mp_clearBr : Z; m_vpBkgndBr : Z;
  m_bbDim : NkSize2D; m_vpOri : Z * Z
}.
Record GdiRenderer := mkGdiRd {
  gr_refCount : Z; gr_wndRef : Z; m_initSpec : NkRendererSpecification; m_currSpec : NkRendererSpecification; m_gdiRes : GdiResources
}.
(** As [calloc] makes it. *)
Definition zero_spec : NkRendererSpecification := mkRdSpec NULL false 0 (mkSize2D 0 0) (mkSize2D 0 0) 0 (mkRgba 0 0 0 0) 0.
Definition zero_renderer : GdiRenderer :=
  mkGdiRd 0 NULL zero_spec zero_spec (mkGdiRes NULL NULL NULL NULL NULL NULL NULL (mkSize2D 0 0) (0, 0)).

Definition NkIRenderer_IID : NkUuid := mk_uuid 0xb5cd4afe 0x0227 0x4b56 0x9bae2241f3ae3126.
Definition NkIGdiRenderer_IID : NkUuid := mk_uuid 0xf2cd4199 0xe8f2 0x45ff 0x89ec14f8785af2c6.
Definition NkIGdiRenderer_CLSID : NkUuid := mk_uuid 0x819653f5 0x28c1 0x4edf 0xa49f09613c47a5e6.
Definition gdi_ImplInfos : list (option NkUuid) :=
  [Some NkIBase_IID; Some NkIInitializable_IID; Some NkIRenderer_IID; Some NkIGdiRenderer_IID; None].
Definition sizeof_GdiRenderer : Z := 256.

Definition GdiRenderer_MapToStretchBltMode (iMode : Z) : Z :=
  if (iMode =? NkTexIMd_Default) || (iMode =? NkTexIMd_NearestNeighbor) then COLORONCOLOR
  else if iMode =? NkTexIMd_Bilinear then HALFTONE
  else -1.
Definition NkRendererCompareRectangles (r1 r2 : NkRectF) : bool :=
  f32_eq (rf_width r1) (rf_width r2) && f32_eq (rf_height r1) (rf_height r2).
Definition gl_AvailRdApis : list Z := [NkRdApi_Win32GDI].
Definition NkRendererQueryAvailablePlatformApis : list Z := gl_AvailRdApis.
Definition NkRendererQueryDefaultPlatformApi : Z := NkRdApi_Win32GDI.
(** [None]: a null pointer. *)
Definition NkRendererQueryCLSIDFromApi (apiIdent : Z) : option NkUuid :=
  if apiIdent =? NkRdApi_Win32GDI then Some NkIGdiRenderer_CLSID else None.

(** The methods of the window that the renderer uses, and the memory it gets: a resource
    given the live ones, the object itself and the pixels of a bitmap. *)
Class RdWindow (G : Type) := {
  QueryNativeWindowHandle : Z → G → Z;
  GetClientDimensions : Z → G → NkSize2D;
  wnd_AddRef : Z → G → G;
  wnd_Release : Z → G → G
}.
Class RdWindowLaws (G : Type) `{GdiState G} `{RdWindow G} : Prop := {
  wnd_addref_law p g : same_gdi g (wnd_AddRef p g);
  wnd_release_law p g : same_gdi g (wnd_Release p g)
}.
Class RdMemory := {
  pool_resource : gset Z → NkErrorCode * Z;
  galloc : Z → option Z;
  fresh_bytes : Z → list Z
}.
Class RdMemoryLaws `{RdMemory} : Prop := {
  pool_resource_law live p : pool_resource live = (NkErr_Ok, p) → p ∉ live ∧ p ≠ NULL
}.

Section renderer.
Context {G : Type} `{Gdi G} `{RdWindow G} `{RdMemory} (self : Z).

(** ** The device's resources *)
Definition GdiRenderer_CreateBasicResources (rdSpecs : NkRendererSpecification) (g : G) : NkErrorCode * option GdiResources * G :=
  let wndHandle := QueryNativeWindowHandle (rs_wndRef rdSpecs) g in
  let '(wndDC, g) := GetDC wndHandle g in
  let clDim := GetClientDimensions (rs_wndRef rdSpecs) g in
  let lbl_END errCode res g := (errCode, res, ReleaseDC wndHandle wndDC g) in
  let '(memDC, g) := CreateCompatibleDC wndDC g in
  if memDC =? NULL then lbl_END NkErr_CreateMemDC None g else
  let '(memBmp, g) := CreateCompatibleBitmap wndDC (i32 (m_width clDim)) (i32 (m_height clDim)) g in
  if memBmp =? NULL then lbl_END NkErr_CreateCompBitmap None g else
  let '(oldBmp, g) := SelectObject memDC memBmp g in
  let '(texDC, g) := CreateCompatibleDC wndDC g in
  if texDC =? NULL then lbl_END NkErr_CreateMemDC None g else
  let '(clBrush, g) := CreateSolidBrush (RGB (m_rVal (rs_clearCol rdSpecs)) (m_gVal (rs_clearCol rdSpecs)) (m_bVal (rs_clearCol rdSpecs))) g in
  if clBrush =? NULL then lbl_END NkErr_CreateBrush None g else
  let '(vpBrush, g) := CreateSolidBrush (RGB 255 255 255) g in
  if vpBrush =? NULL then lbl_END NkErr_CreateBrush None (DeleteObject clBrush g) else
  let res := mkGdiRes memDC texDC memBmp oldBmp (GetCurrentObject texDC g) clBrush vpBrush clDim
               (NkCalculateViewportOrigin (rs_vpAlignment rdSpecs) (rs_vpExtents rdSpecs) (rs_dispTileSize rdSpecs) clDim) in
  lbl_END NkErr_Ok (Some res) (draw (SetStretchBltMode memDC (GdiRenderer_MapToStretchBltMode (rs_texInterMode rdSpecs))) g).

Definition GdiRenderer_Destroy (r : GdiRenderer) (g : G) : outcome G :=
  let res := m_gdiRes r in
  let '(_, g) := SelectObject (mp_texDC res) (mp_defTexBmp res) g in
  let '(currBmp, g) := SelectObject (mp_memDC res) (mp_oldBmp res) g in
  NK_ASSERT (currBmp =? mp_memBmp res) NkErr_ObjectState;;
  let g := DeleteObject (mp_memBmp res) g in
  let g := DeleteObject (mp_clearBr res) g in
  let g := DeleteObject (m_vpBkgndBr res) g in
  let g := DeleteDC (mp_memDC res) g in
  let g := DeleteDC (mp_texDC res) g in
  if gr_wndRef r =? NULL then Undef else Ret (wnd_Release (gr_wndRef r) g).

(** ** The state: the device, the renderer, the resources *)
Record RdWorld := mkRdWorld { w_gdi : G; w_rd : option GdiRenderer; w_res : gmap Z NkRendererResource }.
Definition set_gdi (w : RdWorld) (g : G) : RdWorld := mkRdWorld g (w_rd w) (w_res w).
Definition set_rd (w : RdWorld) (r : option GdiRenderer) : RdWorld := mkRdWorld (w_gdi w) r (w_res w).
Definition set_res (w : RdWorld) (m : gmap Z NkRendererResource) : RdWorld := mkRdWorld (w_gdi w) (w_rd w) m.
Definition the_rd (w : RdWorld) : outcome GdiRenderer := get_or Undef (w_rd w).
Definition the_res (p : Z) (w : RdWorld) : outcome NkRendererResource := get_or Undef (w_res w !! p).
Definition set_count (r : GdiRenderer) (n : Z) : GdiRenderer := mkGdiRd n (gr_wndRef r) (m_initSpec r) (m_currSpec r) (m_gdiRes r).
Definition set_gdiRes (r : GdiRenderer) (res : GdiResources) : GdiRenderer :=
  mkGdiRd (gr_refCount r) (gr_wndRef r) (m_initSpec r) (m_currSpec r) res.

Definition GdiRenderer_AddRef (w : RdWorld) : outcome (Z * RdWorld) :=
  r ← the_rd w;
  n ← int_op (gr_refCount r + 1);
  Ret (n, set_rd w (Some (set_count r n))).
Definition GdiRenderer_Release (w : RdWorld) : outcome (Z * RdWorld) :=
  r ← the_rd w;
  let n := gr_refCount r - 1 in
  if n <=? 0 then
    g ← GdiRenderer_Destroy (set_count r n) (w_gdi w);
    Ret (0, mkRdWorld g None (w_res w))
  else Ret (n, set_rd w (Some (set_count r n))).
Definition GdiRenderer_RefInstance (w : RdWorld) : outcome (Z * RdWorld) :=
  '(_, w) ← GdiRenderer_AddRef w;
  Ret (self, w).
Definition GdiRenderer_QueryInterface (iId : NkUuid) (w : RdWorld) : outcome (NkErrorCode * Z * RdWorld) :=
  i ← NkOMQueryImplementationIndex gdi_ImplInfos iId;
  if negb (i =? SIZE_MAX) then '(_, w) ← GdiRenderer_AddRef w; Ret (NkErr_Ok, self, w)
  else Ret (NkErr_InterfaceNotImpl, NULL, w).
Definition GdiRenderer_Initialize (rdSpecs : NkRendererSpecification) (w : RdWorld) : outcome (NkErrorCode * RdWorld) :=
  r ← the_rd w;
  let '(errCode, gdiRes, g) := GdiRenderer_CreateBasicResources rdSpecs (w_gdi w) in
  match gdiRes with
  | None => Ret (errCode, set_gdi w g)
  | Some gdiRes =>
      let g := wnd_AddRef (rs_wndRef rdSpecs) g in
      Ret (NkErr_Ok, mkRdWorld g (Some (mkGdiRd (gr_refCount r) (rs_wndRef rdSpecs) rdSpecs rdSpecs gdiRes)) (w_res w))
  end.

Definition GdiRenderer_QueryRendererApi : Z := NkRdApi_Win32GDI.
Definition GdiRenderer_QuerySpecification (w : RdWorld) : outcome NkRendererSpecification := r ← the_rd w; Ret (m_initSpec r).
Definition GdiRenderer_QueryWindow (w : RdWorld) : outcome (Z * RdWorld) :=
  r ← the_rd w;
  Ret (gr_wndRef r, set_gdi w (wnd_AddRef (gr_wndRef r) (w_gdi w))).
Definition viewport_dim (s : NkRendererSpecification) : NkSize2D :=
  mkSize2D (u64 (m_width (rs_dispTileSize s) * m_width (rs_vpExtents s))) (u64 (m_height (rs_dispTileSize s) * m_height (rs_vpExtents s))).
Definition GdiRenderer_QueryViewportDimensions (w : RdWorld) : outcome NkSize2D := r ← the_rd w; Ret (viewport_dim (m_currSpec r)).

Definition GdiRenderer_Resize (clAreaSize : NkSize2D) (w : RdWorld) : outcome (NkErrorCode * RdWorld) :=
  r ← the_rd w;
  let res := m_gdiRes r in
  let '(_, g) := SelectObject (mp_memDC res) (mp_oldBmp res) (w_gdi w) in
  let g := DeleteObject (mp_memBmp res) g in
  let '(wndDC, g) := GetDC (QueryNativeWindowHandle (gr_wndRef r) g) g in
  let '(memBmp, g) := CreateCompatibleBitmap wndDC (i32 (m_width clAreaSize)) (i32 (m_height clAreaSize)) g in
  let with_bmp dim ori := set_gdiRes r (mkGdiRes (mp_memDC res) (mp_texDC res) memBmp (mp_oldBmp res) (mp_defTexBmp res)
                                          (mp_clearBr res) (m_vpBkgndBr res) dim ori) in
  if memBmp =? NULL then Ret (NkErr_CreateCompBitmap, mkRdWorld g (Some (with_bmp (m_bbDim res) (m_vpOri res))) (w_res w))
  else
    let '(_, g) := SelectObject (mp_memDC res) memBmp g in
    let g := ReleaseDC (QueryNativeWindowHandle (gr_wndRef r) g) wndDC g in
    let s := m_currSpec r in
    Ret (NkErr_Ok, mkRdWorld g (Some (with_bmp clAreaSize (NkCalculateViewportOrigin (rs_vpAlignment s) (rs_vpExtents s) (rs_dispTileSize s) clAreaSize))) (w_res w)).

(** ** Drawing; [LONG] coordinates are the low 32 bits *)
Definition GdiRenderer_BeginDraw (w : RdWorld) : outcome (NkErrorCode * RdWorld) :=
  r ← the_rd w;
  let res := m_gdiRes r in
  let g := draw (FillRect (mp_memDC res) (mkRECT 0 0 (i32 (m_width (m_bbDim res))) (i32 (m_height (m_bbDim res)))) (mp_clearBr res)) (w_gdi w) in
  let vpDim := viewport_dim (m_currSpec r) in
  let '(x, y) := m_vpOri res in
  let g := draw (FillRect (mp_memDC res) (mkRECT (i32 x) (i32 y) (i32 (x + m_width vpDim)) (i32 (y + m_height vpDim))) (m_vpBkgndBr res)) g in
  Ret (NkErr_Ok, set_gdi w g).
Definition GdiRenderer_EndDraw (w : RdWorld) : outcome (NkErrorCode * RdWorld) :=
  r ← the_rd w;
  let res := m_gdiRes r in
  let '(windowDC, g) := GetDC (QueryNativeWindowHandle (gr_wndRef r) (w_gdi w)) (w_gdi w) in
  let g := draw (BitBlt windowDC 0 0 (i32 (m_width (m_bbDim res))) (i32 (m_height (m_bbDim res))) (mp_memDC res) 0 0 SRCCOPY) g in
  let g := ReleaseDC (QueryNativeWindowHandle (gr_wndRef r) g) windowDC g in
  Ret (NkErr_Ok, set_gdi w (if rs_isVSync (m_currSpec r) then draw DwmFlush g else g)).

(** The source rectangle, completed from the size of the bitmap. *)
Definition normal_rect (srcRect : option NkRectF) (bmWidth bmHeight : Z) : NkRectF :=
  match srcRect with
  | None => mkRectF (f32_of_Z 0) (f32_of_Z 0) (f32_of_Z bmWidth) (f32_of_Z bmHeight)
  | Some s =>
      if f32_eq (rf_width s) (f32_of_Z (-1)) || f32_eq (rf_height s) (f32_of_Z (-1)) then
        mkRectF (rf_xCoord s) (rf_yCoord s)
          (if f_lt (rf_width s) (f32_of_Z 0) then f32_sub (f32_of_Z bmWidth) (rf_width s) else rf_width s)
          (if f_lt (rf_height s) (f32_of_Z 0) then f32_sub (f32_of_Z bmHeight) (rf_height s) else rf_height s)
      else s
  end.
(** Selecting a texture unless it is. *)
Definition bind_texture (res : GdiResources) (handle : Z) (g : G) : G :=
  if GetCurrentObject (mp_texDC res) g =? handle then g else snd (SelectObject (mp_texDC res) handle g).
(** The target in the back buffer. *)
Definition target (res : GdiResources) (dstRect : NkRectF) : outcome (Z * Z * Z * Z) :=
  x ← f_to_int (rf_xCoord dstRect);
  x ← int_op (x + i32 (fst (m_vpOri res)));
  y ← f_to_int (rf_yCoord dstRect);
  y ← int_op (y + i32 (snd (m_vpOri res)));
  w ← f_to_int (rf_width dstRect);
  h ← f_to_int (rf_height dstRect);
  Ret (x, y, w, h).
Definition GdiRenderer_DrawTexture (dstRect : NkRectF) (texPtr : Z) (srcRect : option NkRectF) (w : RdWorld)
    : outcome (NkErrorCode * RdWorld) :=
  NK_ASSERT (negb (texPtr =? NULL)) NkErr_InParameter;;
  tex ← the_res texPtr w;
  NK_ASSERT (m_resType tex =? NkRdResTy_Texture) NkErr_InParameter;;
  r ← the_rd w;
  let res := m_gdiRes r in
  let '(bmWidth, bmHeight) := GetObject (m_resHandle tex) (w_gdi w) in
  let src := normal_rect srcRect bmWidth bmHeight in
  let g := bind_texture res (m_resHandle tex) (w_gdi w) in
  '(x, y, width, height) ← target res dstRect;
  sx ← f_to_int (rf_xCoord src);
  sy ← f_to_int (rf_yCoord src);
  if NkRendererCompareRectangles src dstRect then
    Ret (NkErr_Ok, set_gdi w (draw (BitBlt (mp_memDC res) x y width height (mp_texDC res) sx sy SRCCOPY) g))
  else
    sw ← f_to_int (rf_width src);
    sh ← f_to_int (rf_height src);
    Ret (NkErr_Ok, set_gdi w (draw (StretchBlt (mp_memDC res) x y width height (mp_texDC res) sx sy sw sh SRCCOPY) g)).
Definition GdiRenderer_DrawMaskedTexture (dstRect : NkRectF) (texPtr : Z) (srcOff : NkVec2F) (maskPtr : Z) (maskOff : NkVec2F) (w : RdWorld)
    : outcome (NkErrorCode * RdWorld) :=
  NK_ASSERT (negb (texPtr =? NULL)) NkErr_InParameter;;
  NK_ASSERT (negb (maskPtr =? NULL)) NkErr_InParameter;;
  tex ← the_res texPtr w;
  NK_ASSERT (m_resType tex =? NkRdResTy_Texture) NkErr_InParameter;;
  mask ← the_res maskPtr w;
  NK_ASSERT (m_resType mask =? NkRdResTy_TextureMask) NkErr_InParameter;;
  r ← the_rd w;
  let res := m_gdiRes r in
  let g := bind_texture res (m_resHandle tex) (w_gdi w) in
  '(x, y, width, height) ← target res dstRect;
  sx ← f_to_int (m_xVal srcOff);
  sy ← f_to_int (m_yVal srcOff);
  mx ← f_to_int (m_xVal maskOff);
  my ← f_to_int (m_yVal maskOff);
  Ret (NkErr_Ok, set_gdi w (draw (MaskBlt (mp_memDC res) x y width height (mp_texDC res) sx sy (m_resHandle mask) mx my
                                    (MAKEROP4 SRCCOPY 0xAA0000)) g)).

(** ** Resources *)
Definition GdiRenderer_InternalDeleteResource (res : NkRendererResource) (w : RdWorld) : outcome RdWorld :=
  r ← the_rd w;
  if (m_resType res =? NkRdResTy_Texture) || (m_resType res =? NkRdResTy_TextureMask) then
    let texDC := mp_texDC (m_gdiRes r) in
    let g := if GetCurrentObject texDC (w_gdi w) =? m_resHandle res
             then snd (SelectObject texDC (mp_defTexBmp (m_gdiRes r)) (w_gdi w)) else w_gdi w in
    let g := DeleteObject (m_resHandle res) g in
    (* [mp_rdRef] is the one renderer there is *)
    if mp_rdRef res =? self then '(_, w) ← GdiRenderer_Release (set_gdi w g); Ret w else Undef
  else Halt NkErr_InOutParameter.
(** The code and what [resPtr] holds afterwards. *)
Definition GdiRenderer_AppropriateResource (resPtr : Z) (w : RdWorld) : outcome (NkErrorCode * Z * RdWorld) :=
  if negb (resPtr =? NULL) then
    res ← the_res resPtr w;
    w ← GdiRenderer_InternalDeleteResource res w;
    Ret (NkErr_Ok, resPtr, w)
  else let '(errCode, p) := pool_resource (dom (w_res w)) in Ret (errCode, p, w).
Definition init_resource (p resType handle : Z) (w : RdWorld) : outcome (NkErrorCode * Z * RdWorld) :=
  '(rdRef, w) ← GdiRenderer_RefInstance w;
  Ret (NkErr_Ok, p, set_res w (<[p := mkRdRes rdRef resType handle 0]> (w_res w))).

Definition GdiRenderer_CreateTexture (dibPtr : DIBitmap) (resourcePtr : Z) (w : RdWorld) : outcome (NkErrorCode * Z * RdWorld) :=
  r ← the_rd w;
  let bmSpecs := NkDIBitmapGetSpecification dibPtr in
  let '(ddTex, g) := CreateCompatibleBitmap (mp_memDC (m_gdiRes r)) (m_bmpWidth bmSpecs) (m_bmpHeight bmSpecs) (w_gdi w) in
  if ddTex =? NULL then Ret (NkErr_CreateCompBitmap, resourcePtr, set_gdi w g)
  else
    let '(dibPixels, dibPxBufSize) := NkDIBitmapGetPixels dibPtr in
    let '(cLinesCopied, g) := SetDIBits ddTex (m_bmpHeight bmSpecs) dibPixels
                                (mkInfoHeader (m_bmpWidth bmSpecs) (m_bmpHeight bmSpecs) (m_bitsPerPx bmSpecs) BI_RGB dibPxBufSize) g in
    if negb (cLinesCopied =? m_bmpHeight bmSpecs) then Ret (NkErr_CreateDDBFromDIB, resourcePtr, set_gdi w (DeleteObject ddTex g))
    else
      '(errCode, p, w) ← GdiRenderer_AppropriateResource resourcePtr (set_gdi w g);
      if negb (isOk errCode) then Ret (errCode, p, set_gdi w (DeleteObject ddTex (w_gdi w)))
      else init_resource p NkRdResTy_Texture ddTex w.
Definition GdiRenderer_CreateTextureMask (texPtr : Z) (colKey : NkRgbaColor) (resourcePtr : Z) (w : RdWorld) : outcome (NkErrorCode * Z * RdWorld) :=
  NK_ASSERT (negb (texPtr =? NULL)) NkErr_InParameter;;
  tex ← the_res texPtr w;
  NK_ASSERT (m_resType tex =? NkRdResTy_Texture) NkErr_InParameter;;
  r ← the_rd w;
  let res := m_gdiRes r in
  let '(bmWidth, bmHeight) := GetObject (m_resHandle tex) (w_gdi w) in
  let '(monoBmp, g) := CreateBitmap bmWidth bmHeight (w_gdi w) in
  if monoBmp =? NULL then Ret (NkErr_CreateCompBitmap, resourcePtr, set_gdi w g)
  else
    let '(oldCol, g) := SetBkColor (mp_texDC res) (RGB (m_rVal colKey) (m_gVal colKey) (m_bVal colKey)) g in
    let '(oldObj, g) := SelectObject (mp_texDC res) (m_resHandle tex) g in
    let '(oldBmp, g) := SelectObject (mp_memDC res) monoBmp g in
    let g := draw (BitBlt (mp_memDC res) 0 0 bmWidth bmHeight (mp_texDC res) 0 0 NOTSRCCOPY) g in
    let '(_, g) := SelectObject (mp_memDC res) oldBmp g in
    let '(_, g) := SelectObject (mp_texDC res) oldObj g in
    let '(_, g) := SetBkColor (mp_texDC res) oldCol g in
    '(errCode, p, w) ← GdiRenderer_AppropriateResource resourcePtr (set_gdi w g);
    if negb (isOk errCode) then Ret (errCode, p, w)
    else init_resource p NkRdResTy_TextureMask monoBmp w.
Definition GdiRenderer_DeleteResource (resourcePtr : Z) (w : RdWorld) : outcome (NkErrorCode * Z * RdWorld) :=
  NK_ASSERT (negb (resourcePtr =? NULL)) NkErr_InOutParameter;;
  res ← the_res resourcePtr w;
  NK_ASSERT (mp_rdRef res =? self) NkErr_InOutParameter;;
  w ← GdiRenderer_InternalDeleteResource res w;
  Ret (NkErr_Ok, NULL, set_res w (delete resourcePtr (w_res w))).

(** The lines not copied keep what fresh memory holds. *)
Definition GdiRenderer_GrabFramebuffer (w : RdWorld) : outcome (NkErrorCode * option DIBitmap * RdWorld) :=
  r ← the_rd w;
  let res := m_gdiRes r in
  let width := i32 (m_width (m_bbDim res)) in
  let height := i32 (m_height (m_bbDim res)) in
  '(errCode, bmp) ← NkDIBitmapCreate galloc fresh_bytes
                      (mkSpec sizeof_NkBitmapSpecification width height 0 32 NkBmpFlag_Flipped 0 0 0 0) None;
  match bmp with
  | Some b =>
      if negb (isOk errCode) then Ret (errCode, Some b, w)
      else
        let g := draw GdiFlush (w_gdi w) in
        let '(currFB, g) := SelectObject (mp_memDC res) (mp_oldBmp res) g in
        let '(pxBuf, pxBufSz) := NkDIBitmapGetPixels b in
        let '(cLinesCopied, lines, g) := GetDIBits (mp_memDC res) currFB (u32 (m_height (m_bbDim res))) (mkInfoHeader width height 32 BI_RGB pxBufSz) g in
        pxBuf ← buf_write pxBuf 0 lines;
        let '(_, g) := SelectObject (mp_memDC res) currFB g in
        Ret (errCode, Some (mkDIBitmap (m_bSpec b) (mp_pxArray b) pxBuf), set_gdi w g)
  | None => Ret (errCode, None, w)
  end.

(** ** The renderer factory *)
Definition RendererFactory_AddRef : Z := 1.
Definition RendererFactory_Release : Z := 1.
(** The code, and whether the pointer is the factory. *)
Definition RendererFactory_QueryInterface (iId : NkUuid) : NkErrorCode * bool :=
  if NkUuidIsEqual iId NkIBase_IID || NkUuidIsEqual iId NkIClassFactory_IID then (NkErr_Ok, true) else (NkErr_InterfaceNotImpl, false).
Definition RendererFactory_QueryInstantiableClasses : list NkUuid := [NkIGdiRenderer_CLSID].
(** The table has a terminating entry, which counts. *)
Definition gl_InstClsTable : list (option NkUuid) := [Some NkIGdiRenderer_CLSID; None].
Fixpoint find_class (tbl : list (option NkUuid)) (clsId : NkUuid) : outcome bool :=
  match tbl with
  | [] => Ret false
  | None :: _ => Halt NkErr_InParameter
  | Some u :: tbl => if NkUuidIsEqual u clsId then Ret true else find_class tbl clsId
  end.
Definition RendererFactory_CreateInstance (clsId : NkUuid) (w : RdWorld) : outcome (NkErrorCode * Z * RdWorld) :=
  found ← find_class gl_InstClsTable clsId;
  if negb found then Ret (NkErr_UnknownClass, NULL, w)
  else
    '(eCode, _) ← NkGPAlloc galloc sizeof_GdiRenderer 0;
    if negb (isOk eCode) then Ret (eCode, NULL, w)
    else '(_, w) ← GdiRenderer_AddRef (set_rd w (Some zero_renderer)); Ret (NkErr_Ok, self, w).

(** ** The factory and the renderer as NkOM objects

    The class identifier and the initialisation parameter are pointers. *)
Section om.
Context {R : Type} `{Registry R} (gl_c_RendererFactory clsid_NkIGdiRenderer : Z)
  (uuid_at : Z → NkUuid) (spec_at : Z → NkRendererSpecification).
Notation State := (NkOMState R RdWorld).
Definition rd_dispatch {A} (p : Z) (fac rd : outcome A) : outcome A :=
  if p =? gl_c_RendererFactory then fac else if p =? self then rd else Undef.
Definition rd_objects : NkObjects RdWorld := {|
  QueryInterface := λ p i w,
    rd_dispatch p (let '(e, found) := RendererFactory_QueryInterface i in Ret (e, if found : bool then p else NULL, w)) (GdiRenderer_QueryInterface i w);
  AddRef := λ p w, rd_dispatch p (Ret w) ('(_, w) ← GdiRenderer_AddRef w; Ret w);
  Release := λ p w, rd_dispatch p (Ret w) ('(_, w) ← GdiRenderer_Release w; Ret w);
  Initialize := λ p a w, rd_dispatch p Undef (NK_ASSERT (negb (a =? NULL)) NkErr_InParameter;; GdiRenderer_Initialize (spec_at a) w);
  QueryInstantiableClasses := λ _, [clsid_NkIGdiRenderer];
  CreateInstance := λ p c _ w, rd_dispatch p (RendererFactory_CreateInstance (uuid_at c) w) Undef
|}.
Definition RdFactory_Startup : State → outcome (NkErrorCode * State) := NkOMInstallClassFactory (H0 := rd_objects) gl_c_RendererFactory.
Definition RdFactory_Shutdown : State → outcome (NkErrorCode * State) := NkOMUninstallClassFactory (H0 := rd_objects) gl_c_RendererFactory.
End om.
End renderer.
Arguments RdWorld : clear implicits.
