(* ===== verification/RendererOwned.v ===== *)
(** * The renderer: what it owns of the device

    The invariant of [Renderer.v]: which handles Windows holds for the renderer, which
    bitmaps are selected where, and what the reference count counts, through everything a
    client can do with a renderer and its textures. *)
From S2P Require Import Prelude Float32 Util NkOM Alloc Bmp Renderer.

(** ** The two memory device contexts *)
Definition two_dcs (c1 c2 b1 b2 : Z) : gmap Z Z := <[c1 := b1]> {[c2 := b2]}.
Lemma two_first c1 c2 b1 b2 : two_dcs c1 c2 b1 b2 !! c1 = Some b1.
Proof. apply lookup_insert_eq. Qed.
Lemma two_second c1 c2 b1 b2 : c1 ≠ c2 → two_dcs c1 c2 b1 b2 !! c2 = Some b2.
Proof. intros. unfold two_dcs. by rewrite lookup_insert_ne, lookup_singleton_eq. Qed.
Lemma two_inv c1 c2 b1 b2 c b : two_dcs c1 c2 b1 b2 !! c = Some b → c = c1 ∧ b = b1 ∨ c = c2 ∧ b = b2.
Proof.
  unfold two_dcs. rewrite lookup_insert_Some. intros [[<- <-]|[_ [<- <-]%lookup_singleton_Some]]; auto.
Qed.
Lemma two_set_first c1 c2 b1 b2 b : <[c1 := b]> (two_dcs c1 c2 b1 b2) = two_dcs c1 c2 b b2.
Proof. apply insert_insert_eq. Qed.
Lemma two_set_second c1 c2 b1 b2 b : c1 ≠ c2 → <[c2 := b]> (two_dcs c1 c2 b1 b2) = two_dcs c1 c2 b1 b.
Proof. intros. unfold two_dcs. rewrite insert_insert_ne by done. f_equal. apply insert_singleton_eq. Qed.
Lemma two_deleted c1 c2 b1 b2 : c1 ≠ c2 → delete c2 (delete c1 (two_dcs c1 c2 b1 b2)) = ∅.
Proof.
  intros. unfold two_dcs. rewrite delete_insert_eq, (delete_id {[c2 := b2]}) by by rewrite lookup_singleton_ne.
  apply delete_singleton_eq.
Qed.

(** ** Steps of the device *)
Section gdi.
Context {G : Type} `{GdiLaws G}.
Implicit Types (g : G) (D : gmap Z Z) (B R W : gset Z).

Lemma is_same g g' D B R W : same_gdi g g' → gdi_is g D B R W → gdi_is g' D B R W.
Proof. intros [K1 K2 K3 K4] []. split; congruence. Qed.
Lemma is_eq g D D' B B' R R' W W' : gdi_is g D B R W → D = D' → B = B' → R = R' → W = W' → gdi_is g D' B' R' W'.
Proof. by intros ? -> -> -> ->. Qed.
Lemma is_draw g d D B R W : gdi_is g D B R W → gdi_is (draw d g) D B R W.
Proof. apply is_same, draw_law. Qed.
Lemma is_select g D B R W c b old :
  gdi_is g D B R W → D !! c = Some old → b = stock ∨ b ∈ B ∧ (∀ c', D !! c' = Some b → c' = c) →
  ∃ g', SelectObject c b g = (old, g') ∧ gdi_is g' (<[c := b]> D) B R W.
Proof. intros [<- <- <- <-] Hc Hb. by apply select_law. Qed.
Lemma is_delete_bmp g D B R W b :
  gdi_is g D B R W → b ∈ B → (∀ c, D !! c ≠ Some b) → gdi_is (DeleteObject b g) D (B ∖ {[b]}) R W.
Proof. intros [<- <- <- <-]. apply delete_bitmap_law. Qed.
Lemma is_delete_brush g D B R W b : gdi_is g D B R W → b ∈ R → gdi_is (DeleteObject b g) D B (R ∖ {[b]}) W.
Proof. intros [<- <- <- <-]. apply delete_brush_law. Qed.
Lemma is_delete_dc g D B R W c : gdi_is g D B R W → gdi_is (DeleteDC c g) (delete c D) B R W.
Proof. intros [<- <- <- <-]. apply delete_dc_law. Qed.
(** Borrowing the device context of the window. *)
Lemma is_get_dc g D B R wnd : gdi_is g D B R ∅ →
  ∃ c g' W, GetDC wnd g = (c, g') ∧ gdi_is g' D B R W ∧ W ∖ {[c]} = ∅ ∧ W = if decide (c = NULL) then ∅ else {[c]}.
Proof.
  intros Hg. destruct (GetDC wnd g) as [c g'] eqn:E. pose proof (get_dc_law _ _ _ _ E) as Hl. exists c, g'. case_decide.
  - exists ∅. split_and!; [done|by eapply is_same|set_solver|done].
  - destruct Hg as [<- <- <- Hw], Hl as [_ Hl]. rewrite Hw in Hl. exists ({[c]} ∪ ∅). split_and!; [done|done|set_solver|set_solver].
Qed.
Lemma is_release_dc g D B R W wnd c : gdi_is g D B R W → gdi_is (ReleaseDC wnd c g) D B R (W ∖ {[c]}).
Proof. intros [<- <- <- <-]. apply release_dc_law. Qed.
Lemma is_current g D B R W c b : gdi_is g D B R W → D !! c = Some b → GetCurrentObject c g = b.
Proof. intros [<- _ _ _]. apply current_law. Qed.
(** A new bitmap, of either kind. *)
Definition new_bitmap g g' b : Prop :=
  if decide (b = NULL) then same_gdi g g'
  else b ∉ bmps g ∧ b ∉ brushes g ∧ b ≠ stock ∧ gdi_is g' (dcs g) ({[b]} ∪ bmps g) (brushes g) (wdcs g).
Lemma is_new_bitmap g g' b D B R W : new_bitmap g g' b → gdi_is g D B R W →
  if decide (b = NULL) then gdi_is g' D B R W else b ∉ B ∧ b ≠ stock ∧ gdi_is g' D ({[b]} ∪ B) R W.
Proof.
  unfold new_bitmap. intros Hb Hg. case_decide; [by eapply is_same|]. destruct Hg as [<- <- <- <-]. naive_solver.
Qed.
Lemma is_new_brush g g' b col D B R W : CreateSolidBrush col g = (b, g') → gdi_is g D B R W →
  if decide (b = NULL) then gdi_is g' D B R W else b ∉ R ∧ gdi_is g' D B ({[b]} ∪ R) W.
Proof.
  intros Hb%create_brush_law Hg. case_decide; [by eapply is_same|]. destruct Hg as [<- <- <- <-]. naive_solver.
Qed.
Lemma is_new_dc g g' c dc D B R W : CreateCompatibleDC dc g = (c, g') → gdi_is g D B R W →
  if decide (c = NULL) then gdi_is g' D B R W else D !! c = None ∧ gdi_is g' (<[c := stock]> D) B R W.
Proof.
  intros Hb%create_dc_law Hg. case_decide; [by eapply is_same|]. destruct Hg as [<- <- <- <-]. naive_solver.
Qed.
Lemma is_law g D B R W : gdi_is g D B R W → NULL ∉ B ∧ stock ∉ B ∧ stock ≠ NULL.
Proof. intros [_ <- _ _]. destruct (gdi_law g) as (? & _ & ? & ? & _). done. Qed.
End gdi.

(** ** The invariant *)
Definition handles (m : gmap Z NkRendererResource) : gset Z := map_img (m_resHandle <$> m).
Lemma handles_spec m h : h ∈ handles m ↔ ∃ p x, m !! p = Some x ∧ m_resHandle x = h.
Proof.
  unfold handles. rewrite elem_of_map_img. split.
  - intros (p & E). rewrite lookup_fmap in E. destruct (m !! p) as [x|] eqn:Ex; [|done]. simplify_eq/=. eauto.
  - intros (p & x & E & <-). exists p. by rewrite lookup_fmap, E.
Qed.

Section owned.
Context {G : Type} `{GdiLaws G} `{!RdWindow G} `{!RdWindowLaws G} `{RdMemoryLaws} (self : Z).
Implicit Types (g : G) (r : GdiRenderer) (m : gmap Z NkRendererResource) (X : gset Z).

Definition one_handle m : Prop :=
  ∀ p1 p2 x1 x2, m !! p1 = Some x1 → m !! p2 = Some x2 → m_resHandle x1 = m_resHandle x2 → p1 = p2.
Definition res_ok m : Prop :=
  ∀ p x, m !! p = Some x → p ≠ NULL ∧ mp_rdRef x = self ∧ (m_resType x = NkRdResTy_Texture ∨ m_resType x = NkRdResTy_TextureMask).

(** What Windows holds for the renderer [r] with the resources [m]: two memory contexts,
    the back buffer selected into the first, and nothing or one of the textures into the
    second; the back buffer, one bitmap for each resource, and the bitmaps [X]; two
    brushes; no window context. *)
Record device X g r m : Prop := {
  dev_gdi : let s := m_gdiRes r in ∃ cur,
    gdi_is g (two_dcs (mp_memDC s) (mp_texDC s) (mp_memBmp s) cur) ({[mp_memBmp s]} ∪ handles m ∪ X) {[mp_clearBr s; m_vpBkgndBr s]} ∅ ∧
    (cur = stock ∨ cur ∈ handles m);
  dev_dcs : mp_memDC (m_gdiRes r) ≠ mp_texDC (m_gdiRes r);
  dev_brushes : mp_clearBr (m_gdiRes r) ≠ m_vpBkgndBr (m_gdiRes r);
  dev_old : mp_oldBmp (m_gdiRes r) = stock;
  dev_def : mp_defTexBmp (m_gdiRes r) = stock;
  dev_mem : mp_memBmp (m_gdiRes r) ∉ handles m ∪ X;
  dev_extra : X ## handles m;
  dev_inj : one_handle m;
  dev_res : res_ok m;
  dev_wnd : gr_wndRef r ≠ NULL
}.
(** [ext] references are held by clients, one by each resource. *)
Definition counted (ext : Z) r m : Prop := 0 ≤ ext ∧ gr_refCount r = ext + Z.of_nat (size m) ∧ 0 < gr_refCount r.
Definition rd_owned (ext : Z) (w : RdWorld G) : Prop :=
  match w_rd w with
  | Some r => device ∅ (w_gdi w) r (w_res w) ∧ counted ext r (w_res w)
  | None => ext = 0 ∧ w_res w = ∅ ∧ gdi_is (w_gdi w) ∅ ∅ ∅ ∅
  end.

Lemma device_count X g r m n : device X g r m → device X g (set_count r n) m.
Proof. by intros []. Qed.
Lemma device_same X g g' r m : same_gdi g g' → device X g r m → device X g' r m.
Proof. intros Hg [(cur & Hd & Hc)]. split; try done. exists cur. split; [by eapply is_same|done]. Qed.

(** The handles when a resource goes or comes. *)
Lemma handles_delete m p x : one_handle m → m !! p = Some x → handles (delete p m) = handles m ∖ {[m_resHandle x]}.
Proof.
  intros Hinj Hp. apply set_eq. intros h. rewrite elem_of_difference, elem_of_singleton, !handles_spec. split.
  - intros (p' & x' & [Hne Hp']%lookup_delete_Some & <-). split; [eauto|]. intros E. apply Hne, (Hinj p p' x x'); [done..|by symmetry].
  - intros [(p' & x' & Hp' & <-) Hne]. exists p', x'. split; [|done]. apply lookup_delete_Some. split; [|done]. intros ->. by simplify_eq.
Qed.
Lemma handles_insert m p x : m !! p = None → handles (<[p := x]> m) = {[m_resHandle x]} ∪ handles m.
Proof.
  intros Hp. apply set_eq. intros h. rewrite elem_of_union, elem_of_singleton, !handles_spec. split.
  - intros (p' & x' & [[<- <-]|[Hne Hp']]%lookup_insert_Some & <-); [by left|right; eauto].
  - intros [->|(p' & x' & Hp' & <-)]; [exists p, x; by rewrite lookup_insert_eq|].
    exists p', x'. split; [|done]. rewrite lookup_insert_ne; [done|]. intros ->. congruence.
Qed.
Lemma handles_empty : handles ∅ = ∅.
Proof. apply set_eq. intros h. rewrite handles_spec. split; [|set_solver]. intros (p & x & E & _). by rewrite lookup_empty in E. Qed.

(** The last reference. *)
Lemma destroy_spec g r : device ∅ g r ∅ → ∃ g', GdiRenderer_Destroy r g = Ret g' ∧ gdi_is g' ∅ ∅ ∅ ∅.
Proof.
  intros [(cur & Hg & Hcur) Hdc Hbr Hold Hdef Hmem _ _ _ Hwnd]. unfold GdiRenderer_Destroy. destruct (m_gdiRes r) as [mem tex bmp old def cl vp dim ori].
  cbn [mp_memDC mp_texDC mp_memBmp mp_oldBmp mp_defTexBmp mp_clearBr m_vpBkgndBr] in *. subst old def.
  rewrite handles_empty in *. assert (cur = stock) as -> by set_solver.
  destruct (is_law _ _ _ _ _ Hg) as (Hnull & Hst & _).
  destruct (is_select _ _ _ _ _ tex stock stock Hg (two_second _ _ _ _ Hdc) (or_introl eq_refl)) as (g1 & -> & Hg1).
  rewrite two_set_second in Hg1 by done.
  destruct (is_select _ _ _ _ _ mem stock bmp Hg1 (two_first _ _ _ _) (or_introl eq_refl)) as (g2 & -> & Hg2).
  rewrite two_set_first in Hg2. rewrite Z.eqb_refl. cbn [NK_ASSERT mbind outcome_bind].
  apply (is_delete_bmp _ _ _ _ _ bmp) in Hg2; [|set_solver|intros c [[_ E]|[_ E]]%two_inv; set_solver].
  apply (is_delete_brush _ _ _ _ _ cl) in Hg2; [|set_solver]. apply (is_delete_brush _ _ _ _ _ vp) in Hg2; [|set_solver].
  apply (is_delete_dc _ _ _ _ _ mem), (is_delete_dc _ _ _ _ _ tex) in Hg2. rewrite two_deleted in Hg2 by done.
  rewrite (proj2 (Z.eqb_neq _ _) Hwnd). eexists. split; [done|]. eapply is_same; [apply wnd_release_law|].
  eapply is_eq; [exact Hg2|done|set_solver|set_solver|done].
Qed.

(** Releasing a reference; [M] is what is at the resources' addresses. *)
Lemma rd_release_spec X g r m M :
  device X g r m → 0 < gr_refCount r → (gr_refCount r = 1 → m = ∅ ∧ X = ∅) →
  ∃ n w', GdiRenderer_Release (mkRdWorld g (Some r) M) = Ret (n, w') ∧ w_res w' = M ∧
    if decide (gr_refCount r = 1) then w_rd w' = None ∧ gdi_is (w_gdi w') ∅ ∅ ∅ ∅
    else w_gdi w' = g ∧ w_rd w' = Some (set_count r (gr_refCount r - 1)).
Proof.
  intros Hd Hpos Hone. unfold GdiRenderer_Release, the_rd. cbn [w_rd w_gdi w_res get_or mbind outcome_bind].
  destruct (Z.leb_spec (gr_refCount r - 1) 0) as [Hle|Hgt].
  - assert (E1 : gr_refCount r = 1) by lia. destruct (Hone E1) as [-> ->]. apply (device_count _ _ _ _ (gr_refCount r - 1)) in Hd.
    destruct (destroy_spec _ _ Hd) as (g' & -> & Hg'). step. do 2 eexists. split; [done|]. split; [done|]. by rewrite decide_True.
  - do 2 eexists. split; [done|]. split; [done|]. by rewrite decide_False by lia.
Qed.

(** Deleting the bitmap of a resource, which may be the bound one. *)
Lemma delete_bitmap_spec X g r m p x :
  device X g r m → m !! p = Some x →
  let tex := mp_texDC (m_gdiRes r) in
  device X (DeleteObject (m_resHandle x)
    (if GetCurrentObject tex g =? m_resHandle x then snd (SelectObject tex (mp_defTexBmp (m_gdiRes r)) g) else g)) r (delete p m).
Proof.
  intros [(cur & Hg & Hcur) Hdc Hbr Hold Hdef Hmem Hx Hinj Hres Hwnd] Hp tex. subst tex. rewrite Hdef.
  assert (Hin : m_resHandle x ∈ handles m) by (apply handles_spec; eauto).
  assert (∃ g' cur', (if GetCurrentObject (mp_texDC (m_gdiRes r)) g =? m_resHandle x
                      then snd (SelectObject (mp_texDC (m_gdiRes r)) stock g) else g) = g' ∧
    gdi_is g' (two_dcs (mp_memDC (m_gdiRes r)) (mp_texDC (m_gdiRes r)) (mp_memBmp (m_gdiRes r)) cur')
      ({[mp_memBmp (m_gdiRes r)]} ∪ handles m ∪ X) {[mp_clearBr (m_gdiRes r); m_vpBkgndBr (m_gdiRes r)]} ∅ ∧
    cur' ≠ m_resHandle x ∧ (cur' = stock ∨ cur' ∈ handles m)) as (g' & cur' & -> & Hg' & Hne & Hc').
  { pose proof (two_second (mp_memDC (m_gdiRes r)) (mp_texDC (m_gdiRes r)) (mp_memBmp (m_gdiRes r)) cur Hdc) as Ht.
    rewrite (is_current _ _ _ _ _ _ _ Hg Ht). destruct (Z.eqb_spec cur (m_resHandle x)) as [->|Hne].
    - destruct (is_select _ _ _ _ _ _ stock _ Hg Ht (or_introl eq_refl)) as (g' & -> & Hg'). rewrite two_set_second in Hg' by done.
      exists g', stock. split; [done|]. split; [done|]. split; [|by left]. destruct (is_law _ _ _ _ _ Hg) as (_ & Hst & _). intros E. apply Hst. rewrite E.
      apply elem_of_union_l, elem_of_union_r, Hin.
    - by exists g, cur. }
  apply (is_delete_bmp _ _ _ _ _ (m_resHandle x)) in Hg'; [|by apply elem_of_union_l, elem_of_union_r|].
  2: { intros c [[_ E]|[_ E]]%two_inv; [|done]. apply Hmem, elem_of_union_l. by rewrite <-E. }
  pose proof (handles_delete _ _ _ Hinj Hp) as Hdel.
  split; try done; try (rewrite Hdel; clear -Hmem Hx; set_solver).
  - exists cur'. split; [|rewrite Hdel; clear -Hc' Hne; set_solver]. eapply is_eq; [exact Hg'|done| |done|done]. rewrite Hdel.
    assert (K1 : m_resHandle x ∉ X) by (intros E; by apply (Hx (m_resHandle x))). assert (K2 : mp_memBmp (m_gdiRes r) ≠ m_resHandle x) by (intros E; apply Hmem, elem_of_union_l; by rewrite E).
    clear -K1 K2. set_solver.
  - intros p1 p2 x1 x2 [_ K1]%lookup_delete_Some [_ K2]%lookup_delete_Some. by apply Hinj.
  - intros p' x' [_ K]%lookup_delete_Some. by apply (Hres p').
Qed.
Lemma size_delete_in m p (x : NkRendererResource) : m !! p = Some x → Z.of_nat (size (delete p m)) = Z.of_nat (size m) - 1.
Proof. intros Hp. rewrite map_size_delete_Some by eauto. assert (size m ≠ 0%nat) by (intros E%map_size_empty_inv; subst; done). lia. Qed.

Lemma internal_delete_spec X g r m p x :
  device X g r m → m !! p = Some x → 0 < gr_refCount r → (gr_refCount r = 1 → delete p m = ∅ ∧ X = ∅) →
  ∃ w', GdiRenderer_InternalDeleteResource self x (mkRdWorld g (Some r) m) = Ret w' ∧ w_res w' = m ∧
    if decide (gr_refCount r = 1) then w_rd w' = None ∧ gdi_is (w_gdi w') ∅ ∅ ∅ ∅
    else w_rd w' = Some (set_count r (gr_refCount r - 1)) ∧ device X (w_gdi w') r (delete p m).
Proof.
  intros Hd Hp Hpos Hone. pose proof (delete_bitmap_spec _ _ _ _ _ _ Hd Hp) as Hd'. cbv zeta in Hd'.
  destruct (dev_res _ _ _ _ Hd p x Hp) as (_ & Hself & Hty).
  unfold GdiRenderer_InternalDeleteResource, the_rd, set_gdi. cbn [w_rd w_gdi w_res get_or mbind outcome_bind].
  assert ((m_resType x =? NkRdResTy_Texture) || (m_resType x =? NkRdResTy_TextureMask) = true) as -> by (destruct Hty as [->| ->]; done).
  rewrite Hself, Z.eqb_refl. destruct (rd_release_spec _ _ _ _ m Hd' Hpos Hone) as (n & w' & -> & Hm & Hrest). step.
  exists w'. split; [done|]. split; [done|]. case_decide; [done|]. destruct Hrest as [-> ->]. done.
Qed.

(** Making room for a resource while a bitmap [h] waits for it. *)
Lemma appropriate_spec h g r m p :
  device {[h]} g r m → p = NULL ∨ is_Some (m !! p) → 0 < gr_refCount r - Z.of_nat (size m) →
  match GdiRenderer_AppropriateResource self p (mkRdWorld g (Some r) m) with
  | Ret (e, p', w') =>
      if isOk e then ∃ k, w_res w' = m ∧ p' ≠ NULL ∧ w_rd w' = Some (set_count r (gr_refCount r - k)) ∧
        device {[h]} (w_gdi w') r (delete p' m) ∧ Z.of_nat (size (delete p' m)) = Z.of_nat (size m) - k
      else w' = mkRdWorld g (Some r) m
  | _ => False
  end.
Proof.
  intros Hd Hp Hcnt. unfold GdiRenderer_AppropriateResource, the_res. cbn [w_res].
  destruct (Z.eqb_spec p NULL) as [->|Hne]; cbn [negb].
  - pose proof (pool_resource_law (dom m)) as Hpool. destruct (pool_resource (dom m)) as [e p']. destruct (isOk e) eqn:He; [|done].
    apply bool_decide_eq_true in He as ->. destruct (Hpool p' eq_refl) as [Hfr Hn]. apply not_elem_of_dom in Hfr.
    exists 0. cbn [w_res w_rd w_gdi]. rewrite (delete_id m) by done. rewrite Z.sub_0_r. split_and!; [done..| |done|lia]. by destruct r.
  - destruct Hp as [|[x Hx]]; [done|]. rewrite Hx. cbn [get_or]. step. pose proof (size_delete_in m p x Hx) as Hsz.
    destruct (internal_delete_spec _ _ _ _ _ _ Hd Hx) as (w' & -> & Hm & Hrest); [lia|intros ?; exfalso; lia|].
    rewrite decide_False in Hrest by lia. destruct Hrest. step. ok_step. exists 1. by split_and!.
Qed.
Lemma init_spec ext t h g r p m :
  device {[h]} g r (delete p m) → counted ext r (delete p m) → p ≠ NULL → gr_refCount r < INT32_MAX →
  t = NkRdResTy_Texture ∨ t = NkRdResTy_TextureMask →
  ∃ w', init_resource self p t h (mkRdWorld g (Some r) m) = Ret (NkErr_Ok, p, w') ∧ rd_owned ext w' ∧ w_res w' !! p = Some (mkRdRes self t h 0).
Proof.
  intros [(cur & Hg & Hcur) Hdc Hbr Hold Hdef Hmem Hx Hinj Hres Hwnd] (He & Hsum & Hpos) Hp Hmax Ht.
  assert (Hin : int_op (gr_refCount r + 1) = Ret (gr_refCount r + 1)).
  { apply int_op_ok. unfold INT32_MIN. lia. }
  unfold init_resource, GdiRenderer_RefInstance, GdiRenderer_AddRef, the_rd. cbn [w_rd get_or mbind outcome_bind]. rewrite Hin. step.
  eexists. split; [done|]. unfold set_res, set_rd, rd_owned. cbn [w_rd w_gdi w_res]. split; [|apply lookup_insert_eq].
  rewrite <-(insert_delete_eq m p). assert (Hnone : delete p m !! p = None) by apply lookup_delete_eq.
  revert Hg Hcur Hmem Hx Hinj Hres Hsum Hnone. generalize (delete p m). clear m. intros m Hg Hcur Hmem Hx Hinj Hres Hsum Hnone.
  pose proof (handles_insert m p (mkRdRes self t h 0) Hnone) as Hh. cbn [m_resHandle] in Hh.
  split; [|split; [done|cbn [gr_refCount set_count]; rewrite map_size_insert_None by done; lia]].
  split; try done; cbn [set_count m_gdiRes]; try (rewrite Hh; clear -Hmem Hx; set_solver).
  - exists cur. split; [|rewrite Hh; clear -Hcur; set_solver]. eapply is_eq; [exact Hg|done| |done|done]. rewrite Hh. clear. set_solver.
  - intros p1 p2 x1 x2 [[<- <-]|[_ K1]]%lookup_insert_Some [[<- <-]|[_ K2]]%lookup_insert_Some E; cbn [m_resHandle] in E.
    + done.
    + exfalso. apply (Hx h); [by apply elem_of_singleton|]. apply handles_spec. eauto.
    + exfalso. apply (Hx h); [by apply elem_of_singleton|]. apply handles_spec. eauto.
    + by apply (Hinj p1 p2 x1 x2).
  - intros p' x' [[<- <-]|[_ K]]%lookup_insert_Some; [by split_and!|by apply (Hres p')].
Qed.

(** A new bitmap waits for a resource; giving it up. *)
Lemma device_new g g' r m h : new_bitmap g g' h → device ∅ g r m → if decide (h = NULL) then device ∅ g' r m else device {[h]} g' r m.
Proof.
  intros Hb [(cur & Hg & Hcur) Hdc Hbr Hold Hdef Hmem Hx Hinj Hres Hwnd]. pose proof (is_new_bitmap _ _ _ _ _ _ _ Hb Hg) as Hn. case_decide.
  - split; try done. by exists cur.
  - destruct Hn as (Hfr & Hst & Hg'). split; try done; [|clear -Hfr Hmem; set_solver|clear -Hfr; set_solver].
    exists cur. split; [|done]. eapply is_eq; [exact Hg'|done| |done|done]. clear. set_solver.
Qed.
Lemma device_drop g r m h : device {[h]} g r m → device ∅ (DeleteObject h g) r m.
Proof.
  intros [(cur & Hg & Hcur) Hdc Hbr Hold Hdef Hmem Hx Hinj Hres Hwnd]. destruct (is_law _ _ _ _ _ Hg) as (_ & Hst & _).
  assert (Hh : h ∉ handles m) by (intros E; apply (Hx h); [by apply elem_of_singleton|done]).
  assert (Hm : mp_memBmp (m_gdiRes r) ≠ h) by (intros E; apply Hmem, elem_of_union_r; by apply elem_of_singleton).
  apply (is_delete_bmp _ _ _ _ _ h) in Hg; [|clear; set_solver|].
  2: { intros c [[_ E]|[_ E]]%two_inv; [done|]. subst cur. destruct Hcur as [->|]; [|done]. apply Hst. clear. set_solver. }
  split; try done; [|clear -Hmem; set_solver]. exists cur. split; [|done]. eapply is_eq; [exact Hg|done| |done|done].
  clear -Hh Hm. set_solver.
Qed.

(** Textures in the second context. *)
Lemma select_texture X g r m b :
  device X g r m → b = stock ∨ b ∈ handles m →
  ∃ cur g', SelectObject (mp_texDC (m_gdiRes r)) b g = (cur, g') ∧ device X g' r m ∧
    GetCurrentObject (mp_texDC (m_gdiRes r)) g' = b ∧ (cur = stock ∨ cur ∈ handles m).
Proof.
  intros [(cur & Hg & Hcur) Hdc Hbr Hold Hdef Hmem Hx Hinj Hres Hwnd] Hb.
  destruct (is_select _ _ _ _ _ (mp_texDC (m_gdiRes r)) b cur Hg) as (g' & E & Hg').
  { by apply two_second. }
  { destruct Hb as [->|Hb]; [by left|right]. split; [by apply elem_of_union_l, elem_of_union_r|]. intros c' [[-> K]|[-> _]]%two_inv; [|done].
    exfalso. apply Hmem, elem_of_union_l. by rewrite <-K. }
  exists cur, g'. split; [done|]. rewrite two_set_second in Hg' by done. split; [|split; [|done]].
  - split; try done. by exists b.
  - by apply (is_current _ _ _ _ _ _ _ Hg'), two_second.
Qed.
Lemma bind_texture_bound X g r m p x :
  device X g r m → m !! p = Some x →
  let g' := bind_texture (m_gdiRes r) (m_resHandle x) g in
  device X g' r m ∧ GetCurrentObject (mp_texDC (m_gdiRes r)) g' = m_resHandle x.
Proof.
  intros Hd Hp. unfold bind_texture.
  destruct (Z.eqb_spec (GetCurrentObject (mp_texDC (m_gdiRes r)) g) (m_resHandle x)) as [|_]; [done|].
  destruct (select_texture X g r m (m_resHandle x) Hd) as (cur & g' & -> & ? & ? & _); [right; apply handles_spec; eauto|done].
Qed.
Lemma bind_texture_spec X g r m p x :
  device X g r m → m !! p = Some x → device X (bind_texture (m_gdiRes r) (m_resHandle x) g) r m.
Proof. apply bind_texture_bound. Qed.
(** The back buffer out of its context, or another bitmap in its place, and back. *)
Lemma swap_back X g r m b g1 :
  device X g r m → b = stock ∨ b ∈ X → same_gdi (snd (SelectObject (mp_memDC (m_gdiRes r)) b g)) g1 →
  fst (SelectObject (mp_memDC (m_gdiRes r)) b g) = mp_memBmp (m_gdiRes r) ∧
  ∃ g2, SelectObject (mp_memDC (m_gdiRes r)) (mp_memBmp (m_gdiRes r)) g1 = (b, g2) ∧ device X g2 r m.
Proof.
  intros [(cur & Hg & Hcur) Hdc Hbr Hold Hdef Hmem Hx Hinj Hres Hwnd] Hb Hs. destruct (is_law _ _ _ _ _ Hg) as (_ & Hst & _).
  assert (Hne : mp_memBmp (m_gdiRes r) ≠ b ∧ mp_memBmp (m_gdiRes r) ≠ cur).
  { split; intros E; subst.
    - destruct Hb as [E|E]; [rewrite E in Hst; apply Hst; clear; set_solver|]. by apply Hmem, elem_of_union_r.
    - destruct Hcur as [E|E]; [rewrite E in Hst; apply Hst; clear; set_solver|]. by apply Hmem, elem_of_union_l. }
  destruct (is_select _ _ _ _ _ (mp_memDC (m_gdiRes r)) b (mp_memBmp (m_gdiRes r)) Hg) as (g2 & Hsel & Hg2).
  { apply two_first. }
  { destruct Hb as [->|Hb]; [by left|right]. split; [by apply elem_of_union_r|]. intros c' [[-> _]|[-> E]]%two_inv; [done|].
    exfalso. subst cur. destruct Hcur as [->|]; [apply Hst; clear -Hb; set_solver|by apply (Hx b)]. }
  rewrite Hsel in Hs |- *. split; [done|]. rewrite two_set_first in Hg2.
  apply (is_same _ _ _ _ _ _ Hs) in Hg2.
  destruct (is_select _ _ _ _ _ (mp_memDC (m_gdiRes r)) (mp_memBmp (m_gdiRes r)) b Hg2) as (g3 & -> & Hg3).
  { apply two_first. }
  { right. split; [clear; set_solver|]. intros c' [[-> _]|[-> E]]%two_inv; naive_solver. }
  rewrite two_set_first in Hg3. exists g3. split; [done|]. split; try done. by exists cur.
Qed.

(** ** The operations *)
Lemma add_ref_owned ext w n w' : rd_owned ext w → GdiRenderer_AddRef w = Ret (n, w') → rd_owned (ext + 1) w'.
Proof.
  intros Hi E. unfold GdiRenderer_AddRef, the_rd in E. outcome_inv. apply get_or_Ret_inv in E0; [|done].
  apply int_op_inv in E1 as [-> Hr]. destruct w as [g rd m]. cbn [w_rd] in E0. subst rd. destruct Hi as [Hd (He & Hs & Hp)].
  simplify_eq. split; [by apply device_count|]. unfold counted. cbn [w_res set_rd gr_refCount set_count] in *. lia.
Qed.
Lemma release_owned ext w : rd_owned ext w → 0 < ext →
  ∃ n w', GdiRenderer_Release w = Ret (n, w') ∧ rd_owned (ext - 1) w'.
Proof.
  destruct w as [g [r|] m]; [|intros [-> _]; lia]. intros [Hd (He & Hs & Hp)] Hext. cbn [w_gdi w_res] in *.
  assert (Hone : gr_refCount r = 1 → m = ∅) by (intros; apply map_size_empty_inv; lia).
  destruct (rd_release_spec _ _ _ _ m Hd Hp) as (n & w' & -> & Hm & Hrest); [naive_solver|].
  exists n, w'. split; [done|]. unfold rd_owned. case_decide as E1.
  - destruct Hrest as [-> Hg]. rewrite Hm. split_and!; [rewrite (Hone E1), map_size_empty in Hs; lia|by apply Hone|done].
  - destruct Hrest as [-> ->]. rewrite Hm. split; [by apply device_count|]. unfold counted. cbn [gr_refCount set_count]. lia.
Qed.
Lemma delete_owned ext w p : rd_owned ext w → is_Some (w_res w !! p) →
  ∃ w', GdiRenderer_DeleteResource self p w = Ret (NkErr_Ok, NULL, w') ∧ rd_owned ext w' ∧ w_res w' = delete p (w_res w).
Proof.
  destruct w as [g [r|] m]; [|intros (_ & -> & _) [x Hx]; by rewrite lookup_empty in Hx]. intros [Hd (He & Hs & Hp)] [x Hx]. cbn [w_gdi w_res] in *.
  destruct (dev_res _ _ _ _ Hd p x Hx) as (Hn & Hself & _). pose proof (size_delete_in m p x Hx) as Hsz.
  assert (Hone : gr_refCount r = 1 → delete p m = ∅) by (intros; apply map_size_empty_inv; lia).
  unfold GdiRenderer_DeleteResource, the_res. cbn [w_res]. rewrite (proj2 (Z.eqb_neq _ _) Hn), Hx.
  cbn [negb NK_ASSERT get_or mbind outcome_bind]. rewrite Hself, Z.eqb_refl. cbn [NK_ASSERT mbind outcome_bind].
  destruct (internal_delete_spec _ _ _ _ _ _ Hd Hx Hp) as (w' & -> & Hm & Hrest); [naive_solver|]. step.
  eexists. split; [done|]. unfold rd_owned, set_res. cbn [w_rd w_gdi w_res]. rewrite Hm. split; [|done]. case_decide as E1.
  - destruct Hrest as [-> Hg]. split_and!; [rewrite (Hone E1), map_size_empty in Hsz; lia|by apply Hone|done].
  - destruct Hrest as [-> Hd']. split; [by apply device_count|]. unfold counted. cbn [gr_refCount set_count]. lia.
Qed.

(** The end of creating a resource for the new bitmap [h]. *)
Lemma tail_spec ext t h g r m p (fail : NkErrorCode → Z → RdWorld G → outcome (NkErrorCode * Z * RdWorld G)) e p' w' :
  device {[h]} g r m → counted ext r m → 0 < ext → p = NULL ∨ is_Some (m !! p) → t = NkRdResTy_Texture ∨ t = NkRdResTy_TextureMask →
  ('(errCode, p, w) ← GdiRenderer_AppropriateResource self p (mkRdWorld g (Some r) m);
   if negb (isOk errCode) then fail errCode p w else init_resource self p t h w) = Ret (e, p', w') →
  (∃ ec q, isOk ec = false ∧ fail ec q (mkRdWorld g (Some r) m) = Ret (e, p', w')) ∨ e = NkErr_Ok ∧ rd_owned ext w'.
Proof.
  intros Hd (He & Hs & Hpos) Hext Hp Ht E. pose proof (appropriate_spec _ _ _ _ _ Hd Hp ltac:(lia)) as Ha.
  destruct (GdiRenderer_AppropriateResource self p _) as [[[ec q] w1]| | |]; [|done..]. cbn [mbind outcome_bind] in E.
  destruct (isOk ec) eqn:Hec; cbn [negb] in E; [|subst w1; left; by exists ec, q].
  destruct Ha as (k & Hm & Hq & Hrd & Hd1 & Hsz). right. destruct w1 as [g1 rd1 m1]. cbn [w_res w_rd w_gdi] in *. subst rd1 m1.
  apply (device_count _ _ _ _ (gr_refCount r - k)) in Hd1.
  assert (Hc1 : counted ext (set_count r (gr_refCount r - k)) (delete q m)) by (unfold counted; cbn [gr_refCount set_count]; lia).
  destruct (decide (gr_refCount r - k < INT32_MAX)) as [Hlt|Hge].
  - destruct (init_spec _ _ _ _ _ _ _ Hd1 Hc1 Hq Hlt Ht) as (w2 & Hi & Hown & _). rewrite Hi in E. by simplify_eq.
  - unfold init_resource, GdiRenderer_RefInstance, GdiRenderer_AddRef, the_rd in E. cbn [w_rd get_or mbind outcome_bind set_count gr_refCount] in E.
    outcome_inv. repeat match goal with
    | K : (_ ≫= _) = Ret ?a |- _ => destruct a as [? ?]
    end. outcome_inv. match goal with K : int_op _ = Ret _ |- _ => apply int_op_inv in K as [_ ?] end. lia.
Qed.
Lemma create_texture_owned ext w dib p e p' w' :
  rd_owned ext w → 0 < ext → p = NULL ∨ is_Some (w_res w !! p) → GdiRenderer_CreateTexture self dib p w = Ret (e, p', w') → rd_owned ext w'.
Proof.
  intros Hi Hext Hp E. unfold GdiRenderer_CreateTexture, the_rd in E. outcome_inv. apply get_or_Ret_inv in E0; [|done].
  destruct w as [g rd m]. cbn [w_rd w_gdi w_res] in *. subst rd. destruct Hi as [Hd Hc]. cbn [w_gdi w_res] in *.
  destruct (CreateCompatibleBitmap _ _ _ g) as [h g1] eqn:Eb. pose proof (device_new _ _ _ _ h (create_compatible_law _ _ _ _ _ _ Eb) Hd) as Hd1.
  destruct (Z.eqb_spec h NULL) as [Hn|Hn].
  { rewrite decide_True in Hd1 by done. simplify_eq. by split. }
  rewrite decide_False in Hd1 by done. unfold NkDIBitmapGetPixels in E. destruct (SetDIBits _ _ _ _ g1) as [n g2] eqn:Es.
  apply set_dibits_law in Es. pose proof (device_same _ _ _ _ _ Es Hd1) as Hd2. destruct (n =? _); cbn [negb] in E.
  - destruct (tail_spec ext NkRdResTy_Texture h g2 r m p (λ errCode p w, Ret (errCode, p, set_gdi w (DeleteObject h (w_gdi w)))) e p' w'
                Hd2 Hc Hext Hp ltac:(by left) E) as [(ec & q & _ & Hf)|[_ ?]]; [|done].
    simplify_eq. split; [by apply device_drop|done].
  - simplify_eq. split; [by apply device_drop|done].
Qed.

(** A mask is drawn with the texture and the new bitmap in the two contexts; afterwards
    both contexts hold what they held. *)
Lemma mask_drawn X h g r m p x col (d : GdiDraw) :
  device X g r m → h ∈ X → m !! p = Some x →
  let s := m_gdiRes r in
  let '(oldCol, g) := SetBkColor (mp_texDC s) col g in
  let '(oldObj, g) := SelectObject (mp_texDC s) (m_resHandle x) g in
  let '(oldBmp, g) := SelectObject (mp_memDC s) h g in
  let g := draw d g in
  let '(_, g) := SelectObject (mp_memDC s) oldBmp g in
  let '(_, g) := SelectObject (mp_texDC s) oldObj g in
  let '(_, g) := SetBkColor (mp_texDC s) oldCol g in
  device X g r m.
Proof.
  intros Hd Hh Hp s. subst s. destruct (SetBkColor _ col g) as [oldCol g1] eqn:E1. apply set_bk_law in E1.
  apply (device_same _ _ _ _ _ E1) in Hd. clear g E1.
  destruct (select_texture X g1 r m (m_resHandle x) Hd) as (cur & g2 & -> & Hd2 & _ & Hcur); [right; apply handles_spec; eauto|].
  destruct (SelectObject (mp_memDC _) h g2) as [oldBmp g3] eqn:E3.
  destruct (swap_back X g2 r m h (draw d g3) Hd2 (or_intror Hh)) as (Hob & g4 & Hs4 & Hd4); [rewrite E3; apply draw_law|].
  rewrite E3 in Hob. cbn [fst] in Hob. subst oldBmp. cbv zeta. rewrite Hs4.
  destruct (select_texture X g4 r m cur Hd4 Hcur) as (cur4 & g5 & -> & Hd5 & _).
  destruct (SetBkColor _ oldCol g5) as [o g6] eqn:E6. apply set_bk_law in E6. by apply (device_same _ _ _ _ _ E6).
Qed.
(** A mask that cannot be stored keeps its bitmap. *)
Lemma create_mask_spec ext w tex col p e p' w' :
  rd_owned ext w → 0 < ext → p = NULL ∨ is_Some (w_res w !! p) → GdiRenderer_CreateTextureMask self tex col p w = Ret (e, p', w') →
  if isOk e then rd_owned ext w'
  else ∃ x r, w_res w !! tex = Some x ∧ w_rd w = Some r ∧ w_rd w' = Some r ∧ w_res w' = w_res w ∧ counted ext r (w_res w) ∧
    let h := let '(bw, bh) := GetObject (m_resHandle x) (w_gdi w) in fst (CreateBitmap bw bh (w_gdi w)) in
    device (if decide (h = NULL) then ∅ else {[h]}) (w_gdi w') r (w_res w) ∧ h ∉ bmps (w_gdi w).
Proof.
  intros Hi Hext Hp E. unfold GdiRenderer_CreateTextureMask, the_rd, the_res in E. outcome_inv.
  apply get_or_Ret_inv in E1 as Hx; [|done]. apply get_or_Ret_inv in E3; [|done]. clear r r1. rename r0 into x, r2 into r.
  destruct w as [g rd m]. cbn [w_rd w_gdi w_res] in *. subst rd. destruct Hi as [Hd Hc]. cbn [w_gdi w_res] in *.
  destruct (GetObject (m_resHandle x) g) as [bw bh] eqn:Ebb. destruct (CreateBitmap bw bh g) as [h g1] eqn:Eb.
  pose proof (device_new _ _ _ _ h (create_bitmap_law _ _ _ _ _ Eb) Hd) as Hd1.
  pose proof (create_bitmap_law _ _ _ _ _ Eb) as Hfresh. destruct (Z.eqb_spec h NULL) as [Hn|Hn].
  { rewrite decide_True in Hd1 by done. simplify_eq. change (isOk NkErr_CreateCompBitmap) with false. cbv iota. exists x, r.
    cbn [w_rd w_res w_gdi set_gdi]. rewrite Ebb, Eb. cbn [fst]. cbv zeta. destruct (gdi_law g) as (K & _). split_and!; [done..| |done]. by rewrite decide_True. }
  rewrite decide_False in Hd1, Hfresh by done. destruct Hfresh as [Hfresh _].
  pose proof (mask_drawn {[h]} h g1 r m tex x (RGB (m_rVal col) (m_gVal col) (m_bVal col))
    (BitBlt (mp_memDC (m_gdiRes r)) 0 0 bw bh (mp_texDC (m_gdiRes r)) 0 0 NOTSRCCOPY) Hd1 ltac:(by apply elem_of_singleton) Hx) as Hmask.
  cbv zeta in Hmask. destruct (SetBkColor _ (RGB _ _ _) g1) as [oldCol g2]. destruct (SelectObject _ (m_resHandle x) g2) as [oldObj g3].
  destruct (SelectObject _ h g3) as [oldBmp g4]. destruct (SelectObject _ oldBmp _) as [o5 g5]. destruct (SelectObject _ oldObj g5) as [o6 g6].
  destruct (SetBkColor _ oldCol g6) as [o7 g7].
  destruct (tail_spec ext NkRdResTy_TextureMask h g7 r m p (λ errCode p w, Ret (errCode, p, w)) e p' w'
              Hmask Hc Hext Hp ltac:(by right) E) as [(ec & q & Hec & Hf)|[-> ?]]; [|by ok_step].
  simplify_eq. rewrite Hec. exists x, r. cbn [w_rd w_res w_gdi]. rewrite Ebb, Eb. cbn [fst]. cbv zeta. rewrite decide_False by done. by split_and!.
Qed.

(** The back buffer is made anew; when that fails there is none, and the window's context
    is not given back. *)
Lemma resize_spec ext w dim e w' :
  rd_owned ext w → GdiRenderer_Resize dim w = Ret (e, w') →
  if isOk e then rd_owned ext w' ∧ w_res w' = w_res w
  else ∃ r, w_rd w' = Some r ∧ w_res w' = w_res w ∧ mp_memBmp (m_gdiRes r) = NULL ∧ mp_oldBmp (m_gdiRes r) = stock ∧
    mp_memDC (m_gdiRes r) ≠ mp_texDC (m_gdiRes r) ∧ mp_defTexBmp (m_gdiRes r) = stock ∧ counted ext r (w_res w') ∧ ∃ cur c wnd g0, c = fst (GetDC wnd g0) ∧
    gdi_is (w_gdi w') (two_dcs (mp_memDC (m_gdiRes r)) (mp_texDC (m_gdiRes r)) stock cur) (handles (w_res w')) {[mp_clearBr (m_gdiRes r); m_vpBkgndBr (m_gdiRes r)]}
      (if decide (c = NULL) then ∅ else {[c]}).
Proof.
  intros Hi E. unfold GdiRenderer_Resize, the_rd in E. outcome_inv. apply get_or_Ret_inv in E0; [|done].
  destruct w as [g rd m]. cbn [w_rd w_gdi w_res] in *. subst rd. destruct Hi as [[(cur & Hg & Hcur) Hdc Hbr Hold Hdef Hmem Hx Hinj Hres Hwnd] Hc].
  cbn [w_gdi w_res] in *. rename r into r0. rewrite Hold in E. destruct (is_law _ _ _ _ _ Hg) as (_ & Hst & _).
  destruct (is_select _ _ _ _ _ (mp_memDC (m_gdiRes r0)) stock _ Hg (two_first _ _ _ _) (or_introl eq_refl)) as (g1 & Hs1 & Hg1).
  rewrite Hs1, two_set_first in *. clear Hs1.
  apply (is_delete_bmp _ _ _ _ _ (mp_memBmp (m_gdiRes r0))) in Hg1; [|clear; set_solver|].
  2: { intros c [[_ Eb]|[_ Eb]]%two_inv.
       - apply Hst. rewrite <-Eb. clear. set_solver.
       - destruct Hcur as [Ec|Ec]; [apply Hst; rewrite <-Ec, <-Eb; clear; set_solver|]. apply Hmem, elem_of_union_l. by rewrite Eb. }
  assert (Hg2 : gdi_is (DeleteObject (mp_memBmp (m_gdiRes r0)) g1) (two_dcs (mp_memDC (m_gdiRes r0)) (mp_texDC (m_gdiRes r0)) stock cur) (handles m)
                  {[mp_clearBr (m_gdiRes r0); m_vpBkgndBr (m_gdiRes r0)]} ∅).
  { eapply is_eq; [exact Hg1|done| |done|done]. clear -Hmem. set_solver. }
  clear Hg1. set (g2 := DeleteObject _ g1) in *. clearbody g2.
  destruct (is_get_dc _ _ _ _ (QueryNativeWindowHandle (gr_wndRef r0) g2) Hg2) as (c & g3 & W & Edc & Hg3 & Hw0 & Hw). rewrite Edc in E.
  destruct (CreateCompatibleBitmap c _ _ g3) as [h g4] eqn:Eb.
  pose proof (is_new_bitmap _ _ _ _ _ _ _ (create_compatible_law _ _ _ _ _ _ Eb) Hg3) as Hn.
  destruct (Z.eqb_spec h NULL) as [->|Hn0].
  { rewrite decide_True in Hn by done. simplify_eq. change (isOk NkErr_CreateCompBitmap) with false. cbv iota. eexists. split; [done|].
    cbn [w_res w_gdi set_gdiRes m_gdiRes mp_memBmp mp_oldBmp mp_memDC mp_texDC mp_defTexBmp mp_clearBr m_vpBkgndBr].
    split_and!; [done..|]. exists cur, c, (QueryNativeWindowHandle (gr_wndRef r0) g2), g2. by rewrite Edc. }
  rewrite decide_False in Hn by done. destruct Hn as (Hfr & Hne & Hg4).
  destruct (is_select _ _ _ _ _ (mp_memDC (m_gdiRes r0)) h _ Hg4 (two_first _ _ _ _)) as (g5 & Hs5 & Hg5).
  { right. split; [clear; set_solver|]. intros c' [[-> _]|[-> Ec]]%two_inv; [done|]. exfalso. destruct Hcur as [|Hcur]; [congruence|].
    apply Hfr. by rewrite Ec. }
  rewrite Hs5, two_set_first in *. apply (is_release_dc _ _ _ _ _ (QueryNativeWindowHandle (gr_wndRef r0) g5) c) in Hg5. rewrite Hw0 in Hg5.
  simplify_eq. ok_step. split; [|done]. split; [|done].
  split; cbn [set_gdiRes m_gdiRes mp_memBmp mp_oldBmp mp_memDC mp_texDC mp_defTexBmp mp_clearBr m_vpBkgndBr gr_wndRef w_gdi w_res]; try done.
  - exists cur. split; [|done]. eapply is_eq; [exact Hg5|done| |done|done]. clear. set_solver.
  - clear -Hfr. set_solver.
Qed.

(** Drawing changes no handle, except that it binds textures. *)
Lemma owned_gdi ext g g' rd m r :
  rd_owned ext (mkRdWorld g rd m) → rd = Some r → (device ∅ g r m → device ∅ g' r m) → rd_owned ext (mkRdWorld g' rd m).
Proof. intros Hi -> Hg. destruct Hi as [Hd Hc]. split; [by apply Hg|done]. Qed.
Lemma device_draw X g r m d : device X g r m → device X (draw d g) r m.
Proof. apply device_same, draw_law. Qed.
Lemma begin_draw_owned ext w e w' : rd_owned ext w → GdiRenderer_BeginDraw w = Ret (e, w') → rd_owned ext w'.
Proof.
  intros Hi E. unfold GdiRenderer_BeginDraw, the_rd in E. outcome_inv. apply get_or_Ret_inv in E0; [|done].
  destruct (m_vpOri _) as [x y]. destruct w as [g rd m]. cbn [w_rd w_gdi] in *. simplify_eq.
  eapply owned_gdi; [exact Hi|done|]. intros Hd. by do 2 apply device_draw.
Qed.
Lemma end_draw_owned ext w e w' : rd_owned ext w → GdiRenderer_EndDraw w = Ret (e, w') → rd_owned ext w'.
Proof.
  intros Hi E. unfold GdiRenderer_EndDraw, the_rd in E. outcome_inv. apply get_or_Ret_inv in E0; [|done].
  destruct w as [g rd m]. cbn [w_rd w_gdi] in *. destruct (GetDC _ g) as [c g1] eqn:Edc. simplify_eq.
  eapply owned_gdi; [exact Hi|done|]. intros [(cur & Hg & Hcur) Hdc Hbr Hold Hdef Hmem Hx Hinj Hres Hwnd].
  destruct (is_get_dc _ _ _ _ (QueryNativeWindowHandle (gr_wndRef r) g) Hg) as (c' & g1' & W & Edc' & Hg1 & Hw & _). rewrite Edc in Edc'. simplify_eq.
  set (g2 := draw (BitBlt c' _ _ _ _ _ _ _ _) g1') in *.
  assert (Hfin : device ∅ (ReleaseDC (QueryNativeWindowHandle (gr_wndRef r) g2) c' g2) r m).
  { split; try done. exists cur. split; [|done]. eapply is_eq; [by apply is_release_dc, is_draw|done..]. }
  destruct (rs_isVSync _); [by apply device_draw|done].
Qed.
Lemma draw_texture_owned ext w dst tex src e w' : rd_owned ext w → GdiRenderer_DrawTexture dst tex src w = Ret (e, w') → rd_owned ext w'.
Proof.
  intros Hi E. unfold GdiRenderer_DrawTexture, the_rd, the_res in E. outcome_inv. apply get_or_Ret_inv in E1; [|done].
  apply get_or_Ret_inv in E3; [|done]. clear r r1. rename r0 into x, r2 into r.
  destruct w as [g rd m]. cbn [w_rd w_gdi w_res] in *. destruct (GetObject _ g) as [bw bh]. outcome_inv. destruct r0 as [[[dx dy] dw] dh]. outcome_inv.
  destruct (NkRendererCompareRectangles _ _); outcome_inv; (eapply owned_gdi; [exact Hi|done|]); intros Hd; by eapply device_draw, bind_texture_spec.
Qed.
Lemma draw_masked_owned ext w dst tex so mask mo e w' :
  rd_owned ext w → GdiRenderer_DrawMaskedTexture dst tex so mask mo w = Ret (e, w') → rd_owned ext w'.
Proof.
  intros Hi E. unfold GdiRenderer_DrawMaskedTexture, the_rd, the_res in E. outcome_inv.
  repeat match goal with K : get_or Undef _ = Ret _ |- _ => apply get_or_Ret_inv in K; [|done] end.
  match goal with a : (Z * Z * Z * Z)%type |- _ => destruct a as [[[dx dy] dw] dh] end. outcome_inv.
  destruct w as [g rd m]. cbn [w_rd w_gdi w_res] in *. simplify_eq. eapply owned_gdi; [exact Hi|done|]. intros Hd. by eapply device_draw, bind_texture_spec.
Qed.
Lemma grab_owned ext w e b w' : rd_owned ext w → GdiRenderer_GrabFramebuffer w = Ret (e, b, w') → rd_owned ext w'.
Proof.
  intros Hi E. unfold GdiRenderer_GrabFramebuffer, the_rd in E. outcome_inv. apply get_or_Ret_inv in E0; [|done].
  match goal with a : (NkErrorCode * option DIBitmap)%type |- _ => destruct a as [ec [bmp|]] end; [|by simplify_eq].
  destruct (isOk ec); cbn [negb] in E; [|by simplify_eq].
  destruct w as [g rd m]. cbn [w_rd w_gdi w_res] in *. subst rd. destruct Hi as [Hd Hc]. cbn [w_gdi w_res] in *.
  pose proof (device_draw _ _ _ _ GdiFlush Hd) as Hd1.
  destruct (SelectObject _ _ (draw GdiFlush g)) as [fb g2] eqn:E2. unfold NkDIBitmapGetPixels in E.
  destruct (GetDIBits _ fb _ _ g2) as [[n lines] g3] eqn:E3. apply get_dibits_law in E3. outcome_inv.
  rewrite (dev_old _ _ _ _ Hd) in E2.
  destruct (swap_back ∅ (draw GdiFlush g) r m stock g3 Hd1 (or_introl eq_refl)) as (Hfb & g4 & Hs4 & Hd4); [by rewrite E2|].
  rewrite E2 in Hfb. cbn [fst] in Hfb. subst fb. rewrite Hs4 in E. simplify_eq. by split.
Qed.

(** A new renderer, once initialised. *)
Lemma basic_resources_spec spec g c d g' :
  gdi_is g ∅ ∅ ∅ ∅ → GdiRenderer_CreateBasicResources spec g = (c, Some d, g') → ∀ n s1 s2, rs_wndRef spec ≠ NULL →
  device ∅ g' (mkGdiRd n (rs_wndRef spec) s1 s2 d) ∅.
Proof.
  intros Hg E n s1 s2 Hw. unfold GdiRenderer_CreateBasicResources in E.
  destruct (is_get_dc _ _ _ _ (QueryNativeWindowHandle (rs_wndRef spec) g) Hg) as (wc & g1 & W & Edc & Hg1 & Hw0 & _). rewrite Edc in E.
  destruct (CreateCompatibleDC wc g1) as [mem g2] eqn:E2. pose proof (is_new_dc _ _ _ _ _ _ _ _ E2 Hg1) as Hg2.
  destruct (Z.eqb_spec mem NULL); [done|]. rewrite decide_False in Hg2 by done. destruct Hg2 as [_ Hg2].
  destruct (CreateCompatibleBitmap wc _ _ g2) as [bmp g3] eqn:E3.
  pose proof (is_new_bitmap _ _ _ _ _ _ _ (create_compatible_law _ _ _ _ _ _ E3) Hg2) as Hg3.
  destruct (Z.eqb_spec bmp NULL); [done|]. rewrite decide_False in Hg3 by done. destruct Hg3 as (_ & Hst & Hg3).
  destruct (is_select _ _ _ _ _ mem bmp stock Hg3) as (g4 & E4 & Hg4); [apply lookup_insert_eq| |].
  { right. split; [clear; set_solver|]. intros c' [[<- _]|[_ K]]%lookup_insert_Some; [done|by rewrite lookup_empty in K]. }
  rewrite E4 in E. rewrite insert_insert_eq in Hg4.
  destruct (CreateCompatibleDC wc g4) as [tex g5] eqn:E5. pose proof (is_new_dc _ _ _ _ _ _ _ _ E5 Hg4) as Hg5.
  destruct (Z.eqb_spec tex NULL); [done|]. rewrite decide_False in Hg5 by done. destruct Hg5 as [Hne Hg5].
  assert (Hdc : mem ≠ tex) by (intros ->; by rewrite lookup_insert_eq in Hne).
  destruct (CreateSolidBrush _ g5) as [cl g6] eqn:E6. pose proof (is_new_brush _ _ _ _ _ _ _ _ E6 Hg5) as Hg6.
  destruct (Z.eqb_spec cl NULL); [done|]. rewrite decide_False in Hg6 by done. destruct Hg6 as [_ Hg6].
  destruct (CreateSolidBrush _ g6) as [vp g7] eqn:E7. pose proof (is_new_brush _ _ _ _ _ _ _ _ E7 Hg6) as Hg7.
  destruct (Z.eqb_spec vp NULL); [done|]. rewrite decide_False in Hg7 by done. destruct Hg7 as [Hbr Hg7].
  simplify_eq. rewrite (is_current _ _ _ _ _ tex stock Hg7) by apply lookup_insert_eq.
  split; cbn [m_gdiRes mp_memDC mp_texDC mp_memBmp mp_oldBmp mp_defTexBmp mp_clearBr m_vpBkgndBr gr_wndRef];
    rewrite ?handles_empty; try done; try (clear -Hbr; set_solver).
  exists stock. split; [|by left]. eapply is_eq; [by apply is_release_dc, is_draw| | |clear; set_solver|done].
  - unfold two_dcs. rewrite insert_insert_ne by done. f_equal.
  - clear. set_solver.
Qed.
End owned.
