(* ===== verification/RendererToy.v ===== *)
(** * A device to run the renderer on

    Handles are counted up from 100; a budget says how many more objects can be created,
    a window context can always be had.  The states are those in which a bitmap can be
    selected only while it exists, so the laws of [Gdi] hold of each of them. *)
From S2P Require Import Prelude Float32 Util NkOM Alloc Bmp Renderer.

Record raw := mkRaw { t_dcs : gmap Z Z; t_bmps : gset Z; t_brushes : gset Z; t_wdcs : gset Z; t_next : Z; t_budget : Z }.
Definition toy_stock : Z := 1.
Definition old_handle (n h : Z) : Prop := 100 ≤ h < n.
#[export] Instance old_handle_dec n h : Decision (old_handle n h).
Proof. unfold old_handle. apply _. Defined.
Record wf (g : raw) : Prop := {
  wf_next : 100 ≤ t_next g;
  wf_dcs : map_Forall (λ c b, old_handle (t_next g) c ∧ (b = toy_stock ∨ b ∈ t_bmps g)) (t_dcs g);
  wf_bmps : set_Forall (old_handle (t_next g)) (t_bmps g);
  wf_brushes : set_Forall (old_handle (t_next g)) (t_brushes g);
  wf_wdcs : set_Forall (old_handle (t_next g)) (t_wdcs g);
  wf_apart : t_bmps g ## t_brushes g
}.
#[export] Instance wf_dec g : Decision (wf g).
Proof.
  refine (cast_if (decide (100 ≤ t_next g ∧ map_Forall (λ c b, old_handle (t_next g) c ∧ (b = toy_stock ∨ b ∈ t_bmps g)) (t_dcs g) ∧
    set_Forall (old_handle (t_next g)) (t_bmps g) ∧ set_Forall (old_handle (t_next g)) (t_brushes g) ∧
    set_Forall (old_handle (t_next g)) (t_wdcs g) ∧ t_bmps g ## t_brushes g))); [split; tauto|intros []; tauto].
Defined.
Definition toy : Type := { g : raw | bool_decide (wf g) }.
Coercion toy_raw (g : toy) : raw := proj1_sig g.
Lemma toy_wf (g : toy) : wf g.
Proof. apply (bool_decide_unpack _), (proj2_sig g). Qed.
(** Going on to [g'], which keeps the rules. *)
Definition commit (g : toy) (g' : raw) : toy :=
  match decide (bool_decide (wf g')) with left p => exist _ g' p | right _ => g end.
Lemma commit_ok g g' : wf g' → toy_raw (commit g g') = g'.
Proof. intros Hw%(bool_decide_pack _). unfold commit. by destruct (decide _). Qed.

(** ** The functions *)
Definition toy_new (add : Z → raw → raw) (g : toy) : Z * toy :=
  if t_budget g =? 0 then (NULL, g)
  else let h := t_next g in
    (h, commit g (add h (mkRaw (t_dcs g) (t_bmps g) (t_brushes g) (t_wdcs g) (h + 1) (t_budget g - 1)))).
Definition add_bmp (h : Z) (g : raw) : raw := mkRaw (t_dcs g) ({[h]} ∪ t_bmps g) (t_brushes g) (t_wdcs g) (t_next g) (t_budget g).
Definition add_brush (h : Z) (g : raw) : raw := mkRaw (t_dcs g) (t_bmps g) ({[h]} ∪ t_brushes g) (t_wdcs g) (t_next g) (t_budget g).
Definition add_dc (h : Z) (g : raw) : raw := mkRaw (<[h := toy_stock]> (t_dcs g)) (t_bmps g) (t_brushes g) (t_wdcs g) (t_next g) (t_budget g).
Definition with_dcs (D : gmap Z Z) (g : raw) : raw := mkRaw D (t_bmps g) (t_brushes g) (t_wdcs g) (t_next g) (t_budget g).
Definition may_select (c b : Z) (g : raw) : Prop := b = toy_stock ∨ b ∈ t_bmps g ∧ map_Forall (λ c' b', b' = b → c' = c) (t_dcs g).
#[export] Instance may_select_dec c b g : Decision (may_select c b g).
Proof. unfold may_select. apply _. Defined.
Definition toy_select (c b : Z) (g : toy) : Z * toy :=
  match t_dcs g !! c with
  | Some old => if decide (may_select c b g) then (old, commit g (with_dcs (<[c := b]> (t_dcs g)) g)) else (NULL, g)
  | None => (NULL, g)
  end.
Definition toy_delete (h : Z) (g : toy) : toy :=
  if decide (h ∈ t_bmps g ∧ map_Forall (λ _ b, b ≠ h) (t_dcs g))
  then commit g (mkRaw (t_dcs g) (t_bmps g ∖ {[h]}) (t_brushes g) (t_wdcs g) (t_next g) (t_budget g))
  else if decide (h ∈ t_brushes g)
  then commit g (mkRaw (t_dcs g) (t_bmps g) (t_brushes g ∖ {[h]}) (t_wdcs g) (t_next g) (t_budget g)) else g.
#[export] Instance toy_gdi : Gdi toy := {
  GetDC _ g := (t_next g, commit g (mkRaw (t_dcs g) (t_bmps g) (t_brushes g) ({[t_next g]} ∪ t_wdcs g) (t_next g + 1) (t_budget g)));
  ReleaseDC _ c g := commit g (mkRaw (t_dcs g) (t_bmps g) (t_brushes g) (t_wdcs g ∖ {[c]}) (t_next g) (t_budget g));
  CreateCompatibleDC _ := toy_new add_dc;
  DeleteDC c g := commit g (with_dcs (delete c (t_dcs g)) g);
  CreateCompatibleBitmap _ _ _ := toy_new add_bmp;
  CreateBitmap _ _ := toy_new add_bmp;
  CreateSolidBrush _ := toy_new add_brush;
  SelectObject := toy_select;
  DeleteObject := toy_delete;
  GetCurrentObject c g := default NULL (t_dcs g !! c);
  GetObject _ _ := (3, 2);
  SetBkColor _ _ g := (0, g);
  SetDIBits _ n _ _ g := (n, g);
  GetDIBits _ _ n _ g := (n, [], g);
  draw _ g := g
}.
#[export] Instance toy_state : GdiState toy :=
  { dcs g := t_dcs g; bmps g := t_bmps g; brushes g := t_brushes g; wdcs g := t_wdcs g; stock := toy_stock }.

(** ** The laws *)
Lemma same_refl (g : toy) : same_gdi g g.
Proof. by split. Qed.
Lemma commit_is (g : toy) g' : wf g' → gdi_is (commit g g') (t_dcs g') (t_bmps g') (t_brushes g') (t_wdcs g').
Proof. intros Hw. split; cbn; by rewrite commit_ok. Qed.
Lemma old_more n h : old_handle n h → old_handle (n + 1) h.
Proof. unfold old_handle. lia. Qed.
Lemma wf_more (g : raw) : wf g → wf (mkRaw (t_dcs g) (t_bmps g) (t_brushes g) (t_wdcs g) (t_next g + 1) (t_budget g - 1)).
Proof.
  intros [K1 K2 K3 K4 K5 K6]. split; cbn [t_dcs t_bmps t_brushes t_wdcs t_next]; try done; [lia| | | |].
  - eapply map_Forall_impl; [done|]. intros c b [? ?]. split; [by apply old_more|done].
  - intros x Hx. by apply old_more, K3.
  - intros x Hx. by apply old_more, K4.
  - intros x Hx. by apply old_more, K5.
Qed.
(** A new handle. *)
Lemma toy_new_bmp (g : toy) b g' : toy_new add_bmp g = (b, g') →
  if decide (b = NULL) then same_gdi g g'
  else b ∉ bmps g ∧ b ∉ brushes g ∧ b ≠ stock ∧ gdi_is g' (dcs g) ({[b]} ∪ bmps g) (brushes g) (wdcs g).
Proof.
  unfold toy_new. intros E. pose proof (toy_wf g) as Hw. destruct Hw as [K1 K2 K3 K4 K5 K6].
  assert (Hb : t_next g ∉ t_bmps g) by (intros K%K3; unfold old_handle in K; lia).
  assert (Hr : t_next g ∉ t_brushes g) by (intros K%K4; unfold old_handle in K; lia).
  destruct (Z.eqb_spec (t_budget g) 0); simplify_eq; [by rewrite decide_True|].
  rewrite decide_False by (unfold NULL; lia). split; [done|]. split; [done|]. split; [cbn; unfold toy_stock; lia|].
  apply commit_is. unfold add_bmp. cbn. destruct (wf_more g (toy_wf g)) as [? Hd Hm ? ? Ha]. cbn in *. split; cbn; try done.
  - eapply map_Forall_impl; [exact Hd|]. intros c b [? ?]. split; [done|set_solver].
  - intros x [->%elem_of_singleton|Hx]%elem_of_union; [unfold old_handle; lia|by apply Hm].
  - clear -Ha Hr. set_solver.
Qed.
Lemma toy_new_brush (g : toy) b g' : toy_new add_brush g = (b, g') →
  if decide (b = NULL) then same_gdi g g'
  else b ∉ bmps g ∧ b ∉ brushes g ∧ gdi_is g' (dcs g) (bmps g) ({[b]} ∪ brushes g) (wdcs g).
Proof.
  unfold toy_new. intros E. pose proof (toy_wf g) as Hw. destruct Hw as [K1 K2 K3 K4 K5 K6].
  assert (Hb : t_next g ∉ t_bmps g) by (intros K%K3; unfold old_handle in K; lia).
  assert (Hr : t_next g ∉ t_brushes g) by (intros K%K4; unfold old_handle in K; lia).
  destruct (Z.eqb_spec (t_budget g) 0); simplify_eq; [by rewrite decide_True|].
  rewrite decide_False by (unfold NULL; lia). split; [done|]. split; [done|].
  apply commit_is. unfold add_brush. cbn. destruct (wf_more g (toy_wf g)) as [? Hd Hm Hn ? Ha]. cbn in *. split; cbn; try done.
  - intros x [->%elem_of_singleton|Hx]%elem_of_union; [unfold old_handle; lia|by apply Hn].
  - clear -Ha Hb. set_solver.
Qed.
Lemma toy_new_dc (g : toy) c g' : toy_new add_dc g = (c, g') →
  if decide (c = NULL) then same_gdi g g' else dcs g !! c = None ∧ gdi_is g' (<[c := stock]> (dcs g)) (bmps g) (brushes g) (wdcs g).
Proof.
  unfold toy_new. intros E. pose proof (toy_wf g) as Hw. destruct Hw as [K1 K2 K3 K4 K5 K6].
  destruct (Z.eqb_spec (t_budget g) 0); simplify_eq; [by rewrite decide_True|].
  rewrite decide_False by (unfold NULL; lia). split.
  { cbn. apply eq_None_not_Some. intros [b Hb]. apply K2 in Hb as [Hb _]. unfold old_handle in Hb. lia. }
  apply commit_is. unfold add_dc. cbn. destruct (wf_more g (toy_wf g)) as [? Hd Hm Hn ? Ha]. cbn in *. split; cbn; try done.
  apply map_Forall_insert_2; [|done]. split; [unfold old_handle; lia|by left].
Qed.
#[export] Instance toy_gdi_laws : GdiLaws toy.
Proof.
  split; cbn [GetDC ReleaseDC CreateCompatibleDC DeleteDC CreateCompatibleBitmap CreateBitmap CreateSolidBrush SelectObject DeleteObject
              GetCurrentObject SetBkColor SetDIBits GetDIBits draw toy_gdi].
  - intros _ g c g' [= <- <-]. destruct (toy_wf g) as [K1 K2 K3 K4 K5 K6]. rewrite decide_False by (unfold NULL; lia). split.
    + cbn. intros K%K5. unfold old_handle in K. lia.
    + apply commit_is. split; cbn; try done; [lia| | | |].
      * eapply map_Forall_impl; [done|]. intros c b [? ?]. split; [by apply old_more|done].
      * intros x Hx. by apply old_more, K3.
      * intros x Hx. by apply old_more, K4.
      * intros x [->%elem_of_singleton|Hx]%elem_of_union; [unfold old_handle; lia|by apply old_more, K5].
  - intros _ c g. apply commit_is. destruct (toy_wf g) as [K1 K2 K3 K4 K5 K6]. split; cbn; try done.
    intros x [Hx _]%elem_of_difference. by apply K5.
  - intros _. apply toy_new_dc.
  - intros c g. apply commit_is. destruct (toy_wf g) as [K1 K2 K3 K4 K5 K6]. split; cbn; try done. by apply map_Forall_delete.
  - intros _ _ _. apply toy_new_bmp.
  - intros _ _. apply toy_new_bmp.
  - intros _. apply toy_new_brush.
  - intros c b g old Hc Hs. cbn in Hc. unfold toy_select. rewrite Hc.
    assert (Hm : may_select c b g) by (destruct Hs as [Hs|[? Hs]]; [by left|right; split; [done|]]; intros c' b' K ->; by apply Hs).
    rewrite decide_True by done. eexists. split; [done|]. apply commit_is. destruct (toy_wf g) as [K1 K2 K3 K4 K5 K6]. split; cbn; try done.
    apply map_Forall_insert_2; [|done]. split; [by apply (K2 c old)|]. destruct Hs as [->|[? _]]; [by left|by right].
  - intros b g Hb Hs. unfold toy_delete. rewrite decide_True; [|split; [done|intros c b' K ->; by apply (Hs c)]].
    apply commit_is. destruct (toy_wf g) as [K1 K2 K3 K4 K5 K6]. split; cbn; try done.
    + intros c b' K. destruct (K2 c b' K) as [? [?|?]]; split; [done|by left|done|right]. apply elem_of_difference. split; [done|].
      intros ->%elem_of_singleton. by apply (Hs c).
    + intros x [Hx _]%elem_of_difference. by apply K3.
    + clear -K6. set_solver.
  - intros b g Hb. destruct (toy_wf g) as [K1 K2 K3 K4 K5 K6]. unfold toy_delete. rewrite decide_False by (intros [? _]; by apply (K6 b)).
    rewrite decide_True by done. apply commit_is. split; cbn; try done.
    + intros x [Hx _]%elem_of_difference. by apply K4.
    + clear -K6. set_solver.
  - intros c g b E. cbn in E. by rewrite E.
  - intros c col g o g' [= _ <-]. apply same_refl.
  - intros b n l i g r g' [= _ <-]. apply same_refl.
  - intros c b n i g r l g' [= _ _ <-]. apply same_refl.
  - intros d g. apply same_refl.
  - intros g. destruct (toy_wf g) as [K1 K2 K3 K4 K5 K6]. cbn. unfold NULL, toy_stock in *. split_and!; try done.
    + intros K%K3. unfold old_handle in K. lia.
    + intros K%K4. unfold old_handle in K. lia.
    + intros K%K3. unfold old_handle in K. lia.
    + intros c b K. destruct (K2 c b K) as [Hc ?]. unfold old_handle in Hc. split; [lia|done].
Qed.

(** ** The window and the memory *)
#[export] Instance toy_window : RdWindow toy := {
  QueryNativeWindowHandle p _ := p; GetClientDimensions _ _ := mkSize2D 64 48; wnd_AddRef _ g := g; wnd_Release _ g := g
}.
#[export] Instance toy_window_laws : RdWindowLaws toy.
Proof. split; intros; apply same_refl. Qed.
(** There is room for one resource. *)
#[export] Instance toy_memory : RdMemory := {
  pool_resource live := if decide (live = ∅) then (NkErr_Ok, 5000) else (NkErr_MemoryAllocation, NULL);
  galloc _ := Some 7000;
  fresh_bytes n := replicate (Z.to_nat n) 0
}.
#[export] Instance toy_memory_laws : RdMemoryLaws.
Proof. split. cbn. intros live p. case_decide; [|done]. intros [= <-]. subst. split; [set_solver|done]. Qed.

(** An empty device with room for [n] objects. *)
Definition toy_device (n : Z) : toy := commit (exist _ (mkRaw ∅ ∅ ∅ ∅ 100 0) I) (mkRaw ∅ ∅ ∅ ∅ 100 n).
Lemma toy_empty n : gdi_is (toy_device n) ∅ ∅ ∅ ∅.
Proof. unfold toy_device. apply commit_is. split; cbn; try done; lia. Qed.
