(* ===== verification/RendererRun.v ===== *)
(** * The renderer: what a client can do with it

    The operations of [Renderer.v] in any order, with the references the client holds
    counted; what stays true of the device, the cases in which the renderer itself gives
    up a handle, and runs on the device of [RendererToy]. *)
From S2P Require Import Prelude Float32 Util NkOM Alloc Bmp Renderer RendererOwned RendererToy.

(** ** Operations *)
Inductive RdOp :=
  | OpAddRef | OpRelease | OpQueryInterface (iId : NkUuid) | OpResize (dim : NkSize2D) | OpBeginDraw | OpEndDraw
  | OpDrawTexture (dst : NkRectF) (tex : Z) (src : option NkRectF)
  | OpDrawMaskedTexture (dst : NkRectF) (tex : Z) (srcOff : NkVec2F) (mask : Z) (maskOff : NkVec2F)
  | OpCreateTexture (dib : DIBitmap) (p : Z) | OpCreateTextureMask (tex : Z) (colKey : NkRgbaColor) (p : Z)
  | OpDeleteResource (p : Z) | OpGrabFramebuffer.

Section run.
Context {G : Type} `{GdiLaws G} `{!RdWindow G} `{!RdWindowLaws G} `{RdMemoryLaws} (self : Z).

Definition rd_step (op : RdOp) (w : RdWorld G) : outcome (NkErrorCode * RdWorld G) :=
  match op with
  | OpAddRef => '(_, w) ← GdiRenderer_AddRef w; Ret (NkErr_Ok, w)
  | OpRelease => '(_, w) ← GdiRenderer_Release w; Ret (NkErr_Ok, w)
  | OpQueryInterface iId => '(e, _, w) ← GdiRenderer_QueryInterface self iId w; Ret (e, w)
  | OpResize dim => GdiRenderer_Resize dim w
  | OpBeginDraw => GdiRenderer_BeginDraw w
  | OpEndDraw => GdiRenderer_EndDraw w
  | OpDrawTexture dst tex src => GdiRenderer_DrawTexture dst tex src w
  | OpDrawMaskedTexture dst tex so mask mo => GdiRenderer_DrawMaskedTexture dst tex so mask mo w
  | OpCreateTexture dib p => '(e, _, w) ← GdiRenderer_CreateTexture self dib p w; Ret (e, w)
  | OpCreateTextureMask tex col p => '(e, _, w) ← GdiRenderer_CreateTextureMask self tex col p w; Ret (e, w)
  | OpDeleteResource p => '(e, _, w) ← GdiRenderer_DeleteResource self p w; Ret (e, w)
  | OpGrabFramebuffer => '(e, _, w) ← GdiRenderer_GrabFramebuffer w; Ret (e, w)
  end.
(** How many references the client holds afterwards. *)
Definition refs_after (op : RdOp) (e : NkErrorCode) (ext : Z) : Z :=
  match op with OpAddRef => ext + 1 | OpRelease => ext - 1 | OpQueryInterface _ => if isOk e then ext + 1 else ext | _ => ext end.
(** The renderer is used with a reference held; a resource pointer to fill is null or of a
    live resource. *)
Definition uses (op : RdOp) (ext : Z) (w : RdWorld G) : Prop :=
  match op with
  | OpDeleteResource _ => True
  | OpCreateTexture _ p | OpCreateTextureMask _ _ p => 0 < ext ∧ (p = NULL ∨ is_Some (w_res w !! p))
  | _ => 0 < ext
  end.
(** The two operations that give up a handle when they fail. *)
Definition keeps (op : RdOp) (e : NkErrorCode) : bool :=
  match op with OpResize _ | OpCreateTextureMask _ _ _ => isOk e | _ => true end.

Inductive rd_reach : Z → RdWorld G → Prop :=
  | reach_new g spec p w1 w2 : gdi_is g ∅ ∅ ∅ ∅ → rs_wndRef spec ≠ NULL →
      RendererFactory_CreateInstance self NkIGdiRenderer_CLSID (mkRdWorld g None ∅) = Ret (NkErr_Ok, p, w1) →
      GdiRenderer_Initialize spec w1 = Ret (NkErr_Ok, w2) → rd_reach 1 w2
  | reach_step ext w op e w' : rd_reach ext w → uses op ext w → rd_step op w = Ret (e, w') → keeps op e = true →
      rd_reach (refs_after op e ext) w'.

Lemma delete_resource_owned ext w p x :
  rd_owned self ext w → w_res w !! p = Some x →
  ∃ w', GdiRenderer_DeleteResource self p w = Ret (NkErr_Ok, NULL, w') ∧ rd_owned self ext w'.
Proof.
  destruct w as [g [r|] m]; [|intros (_ & Hm & _) Hp; cbn [w_res] in *; subst; by rewrite lookup_empty in Hp].
  intros [Hd (He & Hs & Hpos)] Hp. cbn [w_gdi w_res] in *. pose proof (size_delete_in m p x Hp) as Hsz.
  destruct (dev_res _ _ _ _ _ Hd p x Hp) as (Hnull & Hself & _).
  assert (Hone : gr_refCount r = 1 → delete p m = ∅ ∧ ext = 0).
  { intros. split; [apply map_size_empty_inv|]; lia. }
  destruct (internal_delete_spec self ∅ g r m p x Hd Hp Hpos) as (w' & Hi & Hm & Hrest); [naive_solver|].
  unfold GdiRenderer_DeleteResource, the_res. rewrite (proj2 (Z.eqb_neq _ _) Hnull). cbn [negb NK_ASSERT mbind outcome_bind w_res]. rewrite Hp.
  cbn [get_or]. step. rewrite Hself, Z.eqb_refl. cbn [NK_ASSERT mbind outcome_bind]. rewrite Hi. step. eexists. split; [done|].
  rewrite Hm. unfold set_res, rd_owned. cbn [w_rd w_gdi w_res]. case_decide.
  - destruct Hrest as [-> Hg]. destruct Hone as [-> ->]; done.
  - destruct Hrest as [-> Hd']. split; [by apply device_count|]. unfold counted. cbn [gr_refCount set_count]. lia.
Qed.
Lemma step_owned ext w op e w' :
  rd_owned self ext w → uses op ext w → rd_step op w = Ret (e, w') → keeps op e = true → rd_owned self (refs_after op e ext) w'.
Proof.
  intros Hi Hu E Hk. destruct op; cbn [uses rd_step keeps refs_after] in *.
  - outcome_inv. destruct r. outcome_inv. by eapply add_ref_owned.
  - destruct (release_owned self _ _ Hi Hu) as (n & w1 & Hr & Hown). rewrite Hr in E. by simplify_eq/=.
  - outcome_inv. destruct r as [[e1 p1] w1]. unfold GdiRenderer_QueryInterface in E0. outcome_inv. destruct (negb _); outcome_inv.
    + destruct r0. outcome_inv. ok_step. by eapply add_ref_owned.
    + done.
  - pose proof (resize_spec self _ _ _ _ _ Hi E) as Hr. rewrite Hk in Hr. by destruct Hr.
  - by eapply begin_draw_owned.
  - by eapply end_draw_owned.
  - by eapply draw_texture_owned.
  - by eapply draw_masked_owned.
  - outcome_inv. destruct r as [[e1 p1] w1]. outcome_inv. destruct Hu. by eapply create_texture_owned.
  - outcome_inv. destruct r as [[e1 p1] w1]. outcome_inv. destruct Hu as [Hu1 Hu2].
    pose proof (create_mask_spec self _ _ _ _ _ _ _ _ Hi Hu1 Hu2 E0) as Hm. by rewrite Hk in Hm.
  - outcome_inv. destruct r as [[e1 p1] w1]. outcome_inv. pose proof E0 as E1. unfold GdiRenderer_DeleteResource, the_res in E1. outcome_inv.
    match goal with K : get_or Undef _ = Ret _ |- _ => apply get_or_Ret_inv in K; [|done];
      destruct (delete_resource_owned _ _ _ _ Hi K) as (w2 & Hd & Hown) end.
    rewrite Hd in E0. by simplify_eq.
  - outcome_inv. destruct r as [[e1 p1] w1]. outcome_inv. by eapply grab_owned.
Qed.
Lemma create_new clsId (g : G) M p w1 :
  RendererFactory_CreateInstance self clsId (mkRdWorld g None M) = Ret (NkErr_Ok, p, w1) →
  p = self ∧ w1 = mkRdWorld g (Some (set_count zero_renderer 1)) M.
Proof.
  intros E. unfold RendererFactory_CreateInstance in E. outcome_inv. destruct (negb r); [done|]. outcome_inv. destruct r0 as [ec pa].
  destruct (isOk ec) eqn:K; cbn [negb] in E; [|simplify_eq]. outcome_inv. destruct r0 as [n w1']. outcome_inv.
  by injection E2 as <- <-.
Qed.
Lemma basic_resources_fail spec (g : G) c g' : GdiRenderer_CreateBasicResources spec g = (c, None, g') → isOk c = false.
Proof.
  unfold GdiRenderer_CreateBasicResources. intros E.
  repeat (case_match; simplify_eq; try done).
Qed.
Lemma rd_reach_owned ext w : rd_reach ext w → rd_owned self ext w.
Proof.
  induction 1 as [g spec p w1 w2 Hg Hw Hc Hi|]; [|by eapply step_owned].
  apply create_new in Hc as [-> ->]. unfold GdiRenderer_Initialize, the_rd in Hi. cbn [w_rd w_gdi w_res get_or mbind outcome_bind] in Hi.
  destruct (GdiRenderer_CreateBasicResources spec g) as [[ec [d|]] g1] eqn:Eb; [|apply basic_resources_fail in Eb; by simplify_eq].
  simplify_eq. split; [|done]. eapply device_same; [apply wnd_addref_law|]. by eapply basic_resources_spec.
Qed.

(** ** What holds in every state *)
(** C11: After every sequence of calls in which no [Resize] and no [CreateTextureMask] failed
    (these two can leave Windows handles behind, [gdi_resize_failure], [gdi_mask_leaks];
    every other call may fail), by a client that calls only while it holds a reference and
    passes only null or live resources to be filled, everything Windows holds for the renderer
    is accounted for: the references are those of the client and one for each resource, the bitmaps are the back buffer, selected
    into the first memory context, and one for each resource, no window context is kept.
    Releasing a held reference and deleting a live resource always succeed, and with the
    last of both nothing is left. *)
Theorem gdi_reachable ext w : rd_reach ext w →
  wdcs (w_gdi w) = ∅ ∧
  match w_rd w with
  | Some r => let s := m_gdiRes r in
      gr_refCount r = ext + Z.of_nat (size (w_res w)) ∧ 0 < gr_refCount r ∧
      dom (dcs (w_gdi w)) = {[mp_memDC s; mp_texDC s]} ∧ dcs (w_gdi w) !! mp_memDC s = Some (mp_memBmp s) ∧
      bmps (w_gdi w) = {[mp_memBmp s]} ∪ handles (w_res w) ∧ mp_memBmp s ∉ handles (w_res w) ∧ one_handle (w_res w) ∧
      brushes (w_gdi w) = {[mp_clearBr s; m_vpBkgndBr s]}
  | None => ext = 0 ∧ w_res w = ∅ ∧ gdi_is (w_gdi w) ∅ ∅ ∅ ∅
  end ∧
  (0 < ext → ∃ n w', GdiRenderer_Release w = Ret (n, w')) ∧
  (∀ p, is_Some (w_res w !! p) → ∃ w', GdiRenderer_DeleteResource self p w = Ret (NkErr_Ok, NULL, w')).
Proof.
  intros Hr%rd_reach_owned. split; [|split; [|split]].
  - unfold rd_owned in Hr. destruct (w_rd w) as [r|]; [|by destruct Hr as (_ & _ & [])].
    destruct Hr as [[(cur & [] & _) _ _ _ _ _ _ _ _ _] _]. done.
  - unfold rd_owned in Hr. destruct (w_rd w) as [r|]; [|done].
    destruct Hr as [[(cur & [Hd Hb Hbr _] & _) Hdc _ _ _ Hm _ Hinj _ _] (_ & Hs & Hpos)].
    rewrite (union_empty_r_L (handles (w_res w))) in Hm. rewrite Hd, Hb, Hbr.
    split_and!; [done|done| |apply two_first|apply union_empty_r_L|done|done|done].
    unfold two_dcs. by rewrite dom_insert_L, dom_singleton_L.
  - intros Hext. destruct (release_owned self _ _ Hr Hext) as (n & w' & E & _). eauto.
  - intros p [x Hx]. destruct (delete_resource_owned _ _ _ _ Hr Hx) as (w' & E & _). eauto.
Qed.

(** ** The failures *)
(** A resize without a new bitmap leaves no back buffer and one window context that is
    never given back; the last reference then cannot be released: the assertion on the
    back buffer stops the program. *)
Theorem gdi_resize_failure ext w dim e w' :
  rd_reach ext w → GdiRenderer_Resize dim w = Ret (e, w') → isOk e = false → (∀ wnd (g : G), fst (GetDC wnd g) ≠ NULL) →
  bmps (w_gdi w') = handles (w_res w) ∧ (∃ c, wdcs (w_gdi w') = {[c]}) ∧
  (ext = 1 → w_res w = ∅ → GdiRenderer_Release w' = Halt NkErr_ObjectState).
Proof.
  intros Hr%rd_reach_owned E He Hdc0. pose proof (resize_spec self _ _ _ _ _ Hr E) as Hs. rewrite He in Hs.
  destruct Hs as (r & Hrd & Hm & Hmem & Hold & Hdc & Hdef & (_ & Hc & _) & cur & c & wnd & g0 & Ec & Hg).
  rewrite decide_False in Hg by (subst; apply Hdc0). rewrite Hm in *. split; [by destruct Hg|]. split; [exists c; by destruct Hg|].
  intros -> K. rewrite K, map_size_empty in Hc. unfold GdiRenderer_Release, the_rd. rewrite Hrd. cbn [get_or mbind outcome_bind].
  assert (gr_refCount r - 1 <=? 0 = true) as -> by (apply Z.leb_le; lia). unfold GdiRenderer_Destroy. cbn [set_count m_gdiRes].
  rewrite Hdef, Hold, Hmem. destruct (is_law _ _ _ _ _ Hg) as (_ & _ & Hne).
  destruct (is_select _ _ _ _ _ (mp_texDC (m_gdiRes r)) stock cur Hg (two_second _ _ _ _ Hdc) (or_introl eq_refl)) as (g1 & -> & Hg1).
  rewrite two_set_second in Hg1 by done.
  destruct (is_select _ _ _ _ _ (mp_memDC (m_gdiRes r)) stock stock Hg1 (two_first _ _ _ _) (or_introl eq_refl)) as (g2 & -> & Hg2).
  by rewrite (proj2 (Z.eqb_neq _ _) Hne).
Qed.
(** A mask that cannot be stored: its bitmap stays, and no resource has it. *)
Theorem gdi_mask_leaks ext w tex col p e p' w' x :
  rd_reach ext w → 0 < ext → p = NULL ∨ is_Some (w_res w !! p) → GdiRenderer_CreateTextureMask self tex col p w = Ret (e, p', w') →
  isOk e = false → w_res w !! tex = Some x →
  let '(bw, bh) := GetObject (m_resHandle x) (w_gdi w) in let h := fst (CreateBitmap bw bh (w_gdi w)) in
  w_res w' = w_res w ∧ h ∉ bmps (w_gdi w) ∧
  bmps (w_gdi w') = (if decide (h = NULL) then ∅ else {[h]}) ∪ bmps (w_gdi w).
Proof.
  intros Hr%rd_reach_owned Hext Hp E He Hx. pose proof (create_mask_spec self _ _ _ _ _ _ _ _ Hr Hext Hp E) as Hs. rewrite He in Hs.
  destruct Hs as (x' & r & Hx' & Hrd & _ & Hm & _ & Hd & Hn). simplify_eq. unfold rd_owned in Hr. rewrite Hrd in Hr. destruct Hr as [Hr _].
  destruct (GetObject _ _) as [bw bh]. split_and!; [done..|].
  destruct Hr as [(cur & [_ -> _ _] & _) _ _ _ _ _ _ _ _ _], Hd as [(cur' & [_ -> _ _] & _) _ _ _ _ _ _ _ _ _].
  set (X := if decide _ then _ else _). clear. set_solver.
Qed.
(** A renderer that fails to initialise can never be released. *)
Theorem gdi_init_failure g spec p w1 e w2 n w3 :
  RendererFactory_CreateInstance self NkIGdiRenderer_CLSID (mkRdWorld g None ∅) = Ret (NkErr_Ok, p, w1) →
  GdiRenderer_Initialize spec w1 = Ret (e, w2) → isOk e = false →
  GdiRenderer_Release w2 ≠ Ret (n, w3).
Proof.
  intros [-> ->]%create_new E He K. unfold GdiRenderer_Initialize, the_rd in E. cbn [w_rd w_gdi w_res get_or mbind outcome_bind] in E.
  destruct (GdiRenderer_CreateBasicResources spec g) as [[ec [d|]] g1]; [by simplify_eq|]. simplify_eq.
  unfold GdiRenderer_Release, the_rd in K. cbn in K. change (1 - 1 <=? 0) with true in K.
  unfold GdiRenderer_Destroy in K. cbn in K. outcome_inv. repeat case_match. by outcome_inv.
Qed.

(** A class the factory does not know is not an error but a failed assertion, because the
    end of the table is compared too. *)
Lemma gdi_unknown_class clsId (w : RdWorld G) :
  NkUuidIsEqual NkIGdiRenderer_CLSID clsId = false → RendererFactory_CreateInstance self clsId w = Halt NkErr_InParameter.
Proof. intros E. unfold RendererFactory_CreateInstance, gl_InstClsTable, find_class. by rewrite E. Qed.
(** The default renderer has no class. *)
Lemma gdi_default_api a : is_Some (NkRendererQueryCLSIDFromApi a) ↔ a = NkRendererQueryDefaultPlatformApi.
Proof.
  unfold NkRendererQueryCLSIDFromApi, NkRendererQueryDefaultPlatformApi. destruct (Z.eqb_spec a NkRdApi_Win32GDI).
  - split; [done|]. eauto.
  - split; [by intros []|done].
Qed.

(** ** Drawing a whole texture *)
(** Sizes in pixels are exact. *)
Lemma pixels_exact z : 0 ≤ z ≤ 8192 →
  f_to_int (f32_of_Z z) = Ret z ∧ f32_eq (f32_of_Z z) (f32_of_Z z) = true ∧
  f32_sub (f32_of_Z z) (f32_of_Z (-1)) = f32_of_Z (z + 1) ∧ f_to_int (f32_of_Z (z + 1)) = Ret (z + 1) ∧
  f32_eq (f32_of_Z (z + 1)) (f32_of_Z z) = false.
Proof.
  assert (Hall : Forall (λ z, f_trunc (f32_of_Z z) = Some z ∧ f_trunc (f32_of_Z (z + 1)) = Some (z + 1) ∧
    f32_eq (f32_of_Z z) (f32_of_Z z) = true ∧ f32_sub (f32_of_Z z) (f32_of_Z (-1)) = f32_of_Z (z + 1) ∧
    f32_eq (f32_of_Z (z + 1)) (f32_of_Z z) = false) (zrange 0 (Z.to_nat 8193))).
  { apply (bool_decide_unpack _). by vm_compute. }
  intros Hz. assert (K := zrange_all _ _ _ z Hall ltac:(lia)). cbn beta in K. destruct K as (E1 & E2 & -> & -> & ->).
  unfold f_to_int. rewrite E1, E2. assert (Hin : ∀ y, 0 ≤ y ≤ 8193 → (INT32_MIN <=? y) && (y <=? INT32_MAX) = true).
  { intros y Hy. rewrite (proj2 (Z.leb_le _ _)), (proj2 (Z.leb_le _ _)); [done|..]; unfold INT32_MAX, INT32_MIN; lia. }
  by rewrite !Hin by lia.
Qed.

(** A texture drawn at its own size is copied pixel by pixel to its place in the
    viewport, with the texture selected into the second context.  Asking for the whole
    texture with extents of -1 does not do the same: one pixel more than there is in each
    direction is taken, and so the copy is stretched. *)
Theorem gdi_draw_whole ext w p x r dx dy bw bh :
  rd_reach ext w → w_rd w = Some r → w_res w !! p = Some x → m_resType x = NkRdResTy_Texture →
  GetObject (m_resHandle x) (w_gdi w) = (bw, bh) → 0 ≤ dx ≤ 8192 → 0 ≤ dy ≤ 8192 → 0 < bw ≤ 8192 → 0 < bh ≤ 8192 →
  let s := m_gdiRes r in let X := dx + i32 (fst (m_vpOri s)) in let Y := dy + i32 (snd (m_vpOri s)) in
  INT32_MIN ≤ X ≤ INT32_MAX → INT32_MIN ≤ Y ≤ INT32_MAX →
  let dst := mkRectF (f32_of_Z dx) (f32_of_Z dy) (f32_of_Z bw) (f32_of_Z bh) in
  let whole := mkRectF (f32_of_Z 0) (f32_of_Z 0) (f32_of_Z (-1)) (f32_of_Z (-1)) in
  ∃ g, GetCurrentObject (mp_texDC s) g = m_resHandle x ∧
    GdiRenderer_DrawTexture dst p None w = Ret (NkErr_Ok, set_gdi w (draw (BitBlt (mp_memDC s) X Y bw bh (mp_texDC s) 0 0 SRCCOPY) g)) ∧
    GdiRenderer_DrawTexture dst p (Some whole) w =
      Ret (NkErr_Ok, set_gdi w (draw (StretchBlt (mp_memDC s) X Y bw bh (mp_texDC s) 0 0 (bw + 1) (bh + 1) SRCCOPY) g)).
Proof.
  intros Hr%rd_reach_owned Hrd Hx Ht Hbm Hdx Hdy Hbw Hbh s X Y HX HY dst whole. unfold rd_owned in Hr. rewrite Hrd in Hr. destruct Hr as [Hd _].
  exists (bind_texture s (m_resHandle x) (w_gdi w)). split; [by apply (bind_texture_bound self ∅ _ _ (w_res w) p)|].
  destruct (dev_res _ _ _ _ _ Hd p x Hx) as (Hnull & _ & _).
  destruct (pixels_exact dx Hdx) as [Edx _], (pixels_exact dy Hdy) as [Edy _].
  destruct (pixels_exact bw) as (Ew & Qw & Sw & Ew1 & Nw); [lia|]. destruct (pixels_exact bh) as (Eh & Qh & Sh & Eh1 & Nh); [lia|].
  assert (Htgt : target s dst = Ret (X, Y, bw, bh)).
  { unfold target. cbn [rf_xCoord rf_yCoord rf_width rf_height dst]. rewrite Edx. step. rewrite int_op_ok by done. step. rewrite Edy. step.
    rewrite int_op_ok by done. step. rewrite Ew. step. by rewrite Eh. }
  unfold GdiRenderer_DrawTexture, the_res, the_rd. rewrite (proj2 (Z.eqb_neq _ _) Hnull), Hx, Hrd. cbn [negb NK_ASSERT get_or mbind outcome_bind].
  rewrite Ht. change (NkRdResTy_Texture =? NkRdResTy_Texture) with true. cbn [NK_ASSERT mbind outcome_bind]. rewrite Hbm. fold s. rewrite Htgt. step.
  unfold NkRendererCompareRectangles. split.
  - cbn [normal_rect rf_xCoord rf_yCoord rf_width rf_height dst]. change (f_to_int (f32_of_Z 0)) with (Ret 0 : outcome Z). step. by rewrite Qw, Qh.
  - unfold normal_rect. cbn [rf_xCoord rf_yCoord rf_width rf_height whole dst]. change (f32_eq (f32_of_Z (-1)) (f32_of_Z (-1))) with true.
    change (f_lt (f32_of_Z (-1)) (f32_of_Z 0)) with true. cbn [orb rf_xCoord rf_yCoord rf_width rf_height].
    change (f_to_int (f32_of_Z 0)) with (Ret 0 : outcome Z). step. rewrite Sw, Sh, Nw. cbn [andb]. rewrite Ew1. step. by rewrite Eh1.
Qed.
End run.

(** ** On the toy device *)
Definition toy_self : Z := 6000.
Definition toy_spec : NkRendererSpecification :=
  mkRdSpec 42 true NkRdApi_Win32GDI (mkSize2D 2 2) (mkSize2D 8 8) 0 (mkRgba 0 0 0 255) NkTexIMd_Default.
Definition toy_dib : DIBitmap := mkDIBitmap (mkSpec sizeof_NkBitmapSpecification 3 2 12 32 0 0 0 0 0) 0 (replicate 24 7).
Definition toy_or (w : RdWorld toy) (o : outcome (NkErrorCode * RdWorld toy)) : RdWorld toy := match o with Ret (_, w) => w | _ => w end.
(** A renderer on a device with room for [n] objects, new and with a texture. *)
Definition toy_fresh (n : Z) : RdWorld toy := mkRdWorld (toy_device n) (Some (set_count zero_renderer 1)) ∅.
Definition toy_new_rd (n : Z) : RdWorld toy := toy_or (toy_fresh n) (GdiRenderer_Initialize toy_spec (toy_fresh n)).
Definition toy_textured (n : Z) : RdWorld toy := toy_or (toy_fresh n) (rd_step toy_self (OpCreateTexture toy_dib NULL) (toy_new_rd n)).
Lemma toy_or_ret e w o : (match o with Ret (e', _) => bool_decide (e' = e) | _ => false end) = true → o = Ret (e, toy_or w o).
Proof. destruct o as [[e' w']| | |]; try done. by intros ->%bool_decide_eq_true. Qed.
Lemma toy_created n : RendererFactory_CreateInstance toy_self NkIGdiRenderer_CLSID (mkRdWorld (toy_device n) None ∅) = Ret (NkErr_Ok, toy_self, toy_fresh n).
Proof. reflexivity. Qed.
Lemma toy_new_reached n :
  (match GdiRenderer_Initialize toy_spec (toy_fresh n) with Ret (e', _) => bool_decide (e' = NkErr_Ok) | _ => false end) = true →
  rd_reach toy_self 1 (toy_new_rd n).
Proof.
  intros E%(toy_or_ret _ (toy_fresh n)). eapply (reach_new toy_self (toy_device n) toy_spec); [apply toy_empty|done|apply toy_created|exact E].
Qed.
Lemma toy_textured_reached : rd_reach toy_self 1 (toy_textured 8).
Proof.
  eapply (reach_step toy_self 1 (toy_new_rd 8) (OpCreateTexture toy_dib NULL) NkErr_Ok).
  - apply toy_new_reached. by vm_compute.
  - split; [done|by left].
  - apply toy_or_ret. by vm_compute.
  - done.
Qed.

Lemma gdi_reachable_witness :
  rd_reach toy_self 1 (toy_textured 8) ∧ wdcs (w_gdi (toy_textured 8)) = ∅ ∧
  ∃ w', GdiRenderer_DeleteResource toy_self 5000 (toy_textured 8) = Ret (NkErr_Ok, NULL, w').
Proof.
  split; [exact toy_textured_reached|]. destruct (gdi_reachable toy_self 1 (toy_textured 8) toy_textured_reached) as (Hw & _ & _ & Hd).
  split; [exact Hw|]. apply Hd. apply (bool_decide_unpack _). by vm_compute.
Defined.
(** Room for the five objects of a new renderer and no more. *)
Lemma gdi_resize_failure_witness : ∃ w',
  GdiRenderer_Resize (mkSize2D 80 60) (toy_new_rd 5) = Ret (NkErr_CreateCompBitmap, w') ∧
  GdiRenderer_Release w' = Halt NkErr_ObjectState.
Proof.
  assert (E : GdiRenderer_Resize (mkSize2D 80 60) (toy_new_rd 5) =
    Ret (NkErr_CreateCompBitmap, toy_or (toy_fresh 5) (GdiRenderer_Resize (mkSize2D 80 60) (toy_new_rd 5)))).
  { apply toy_or_ret. by vm_compute. }
  eexists. split; [exact E|].
  refine (proj2 (proj2 (gdi_resize_failure toy_self 1 (toy_new_rd 5) (mkSize2D 80 60) NkErr_CreateCompBitmap _ (toy_new_reached 5 _) E eq_refl _)) eq_refl _).
  - by vm_compute.
  - intros wnd g. cbn. destruct (toy_wf g) as [K _]. unfold NULL. lia.
  - apply (bool_decide_unpack _). by vm_compute.
Defined.
(** One texture fills the pool. *)
Lemma toy_mask_fails : ∃ p' w', GdiRenderer_CreateTextureMask toy_self 5000 (mkRgba 0 0 0 0) NULL (toy_textured 8) = Ret (NkErr_MemoryAllocation, p', w').
Proof.
  assert (K : (match GdiRenderer_CreateTextureMask toy_self 5000 (mkRgba 0 0 0 0) NULL (toy_textured 8) with
               | Ret (e, _, _) => bool_decide (e = NkErr_MemoryAllocation) | _ => false end) = true) by by vm_compute.
  destruct (GdiRenderer_CreateTextureMask _ _ _ _ _) as [[[e p'] w']| | |]; try done. apply bool_decide_eq_true in K as ->. eauto.
Qed.
Lemma gdi_mask_leaks_witness : ∃ p' w',
  GdiRenderer_CreateTextureMask toy_self 5000 (mkRgba 0 0 0 0) NULL (toy_textured 8) = Ret (NkErr_MemoryAllocation, p', w') ∧ w_res w' = w_res (toy_textured 8).
Proof.
  destruct toy_mask_fails as (p' & w' & E). exists p', w'. split; [exact E|].
  apply (gdi_mask_leaks toy_self 1 (toy_textured 8) 5000 (mkRgba 0 0 0 0) NULL NkErr_MemoryAllocation p' w'
           (mkRdRes toy_self NkRdResTy_Texture 106 0) toy_textured_reached eq_refl (or_introl eq_refl) E eq_refl).
  by vm_compute.
Defined.
(** Room for three of the five objects. *)
Lemma gdi_init_failure_witness : ∃ w2,
  GdiRenderer_Initialize toy_spec (toy_fresh 3) = Ret (NkErr_CreateBrush, w2) ∧ ∀ n w3, GdiRenderer_Release w2 ≠ Ret (n, w3).
Proof.
  assert (E : GdiRenderer_Initialize toy_spec (toy_fresh 3) =
    Ret (NkErr_CreateBrush, toy_or (toy_fresh 3) (GdiRenderer_Initialize toy_spec (toy_fresh 3)))).
  { apply toy_or_ret. by vm_compute. }
  eexists. split; [exact E|]. intros n w3.
  apply (gdi_init_failure toy_self (toy_device 3) toy_spec toy_self (toy_fresh 3) NkErr_CreateBrush _ n w3 (toy_created 3) E eq_refl).
Defined.
(** The texture of 3 by 2 pixels, drawn at (16, 8) in a viewport whose origin is computed
    from the window. *)
Definition toy_rd : GdiRenderer := default zero_renderer (w_rd (toy_textured 8)).
Lemma gdi_draw_whole_witness : ∃ g,
  GdiRenderer_DrawTexture (mkRectF (f32_of_Z 16) (f32_of_Z 8) (f32_of_Z 3) (f32_of_Z 2)) 5000 None (toy_textured 8) =
    Ret (NkErr_Ok, set_gdi (toy_textured 8) (draw (BitBlt (mp_memDC (m_gdiRes toy_rd))
      (16 + i32 (fst (m_vpOri (m_gdiRes toy_rd)))) (8 + i32 (snd (m_vpOri (m_gdiRes toy_rd)))) 3 2 (mp_texDC (m_gdiRes toy_rd)) 0 0 SRCCOPY) g)).
Proof.
  assert (Hrd : w_rd (toy_textured 8) = Some toy_rd) by by vm_compute.
  assert (Hx : w_res (toy_textured 8) !! 5000 = Some (mkRdRes toy_self NkRdResTy_Texture 106 0)) by by vm_compute.
  assert (Hbm : GetObject 106 (w_gdi (toy_textured 8)) = (3, 2)) by reflexivity.
  pose proof (gdi_draw_whole toy_self 1 (toy_textured 8) 5000 (mkRdRes toy_self NkRdResTy_Texture 106 0) toy_rd 16 8 3 2 toy_textured_reached
    Hrd Hx eq_refl Hbm ltac:(lia) ltac:(lia) ltac:(lia) ltac:(lia)) as K. cbv zeta in K.
  destruct K as (g & _ & E & _).
  - clear. split; apply Z.leb_le; vm_compute; reflexivity.
  - clear. split; apply Z.leb_le; vm_compute; reflexivity.
  - exists g. exact E.
Defined.
