(* ===== verification/Window.v ===== *)
(** * [src/Noriko/window.c], [src/Noriko/platform/windows/winwindow.c], [winhelpers.c]: the window

    Windows is the class [WndHost], acting on the host's own state; the renderer of the
    window is reached through [WndRenderer].  A Windows function that sends messages
    before it returns gives the list of them; they go to the window procedure in order,
    in the state the function leaves.  The window procedure calls such functions itself,
    so it takes fuel: the depth of the nesting. *)
From S2P Require Import Prelude Float32 Util NkOM Bmp Layer Event Input Renderer.

(** ** Constants *)
Definition WM_DESTROY : Z := 0x2.
Definition WM_SIZE : Z := 0x5.
Definition WM_PAINT : Z := 0xF.
Definition WM_CLOSE : Z := 0x10.
Definition WM_ERASEBKGND : Z := 0x14.
Definition WM_GETMINMAXINFO : Z := 0x24.
Definition WM_WINDOWPOSCHANGED : Z := 0x47.
Definition WM_KEYDOWN : Z := 0x100.
Definition WM_KEYUP : Z := 0x101.
Definition WM_SYSKEYDOWN : Z := 0x104.
Definition WM_SYSKEYUP : Z := 0x105.
Definition WM_SYSCOMMAND : Z := 0x112.
Definition WM_INITMENU : Z := 0x116.
Definition WM_INITMENUPOPUP : Z := 0x117.
Definition WM_MOUSEMOVE : Z := 0x200.
Definition WM_LBUTTONDOWN : Z := 0x201.
Definition WM_LBUTTONUP : Z := 0x202.
Definition WM_RBUTTONDOWN : Z := 0x204.
Definition WM_RBUTTONUP : Z := 0x205.
Definition WM_MBUTTONDOWN : Z := 0x207.
Definition WM_MBUTTONUP : Z := 0x208.
Definition WM_MOUSEWHEEL : Z := 0x20A.
Definition WM_XBUTTONDOWN : Z := 0x20B.
Definition WM_XBUTTONUP : Z := 0x20C.
Definition SC_MOVE : Z := 0xF010.
Definition SW_HIDE : Z := 0.
Definition SW_SHOWNORMAL : Z := 1.
Definition SW_SHOWMINIMIZED : Z := 2.
Definition SW_SHOWMAXIMIZED : Z := 3.
Definition WS_OVERLAPPED : Z := 0.
Definition WS_MAXIMIZEBOX : Z := 0x10000.
Definition WS_MINIMIZEBOX : Z := 0x20000.
Definition WS_SIZEBOX : Z := 0x40000.
Definition WS_SYSMENU : Z := 0x80000.
Definition WS_CAPTION : Z := 0xC00000.
Definition WS_CLIPSIBLINGS : Z := 0x4000000.
Definition WS_EX_WINDOWEDGE : Z := 0x100.
Definition WS_EX_APPWINDOW : Z := 0x40000.

Definition NkWndFlag_MessageOnlyWnd : Z := 1.
Definition NkWndFlag_AlwaysOnTop : Z := 2.
Definition NkWndFlag_MainWindow : Z := 4.
Definition NkWndFlag_DragResizable : Z := 8.
Definition NkWndFlag_DragMovable : Z := 16.
Definition NkWndFlag_Count : Z := 17.
Definition NkVpAlign_Count : Z := 33.

(** ** [window.c]: names; a null view where the table has no entry *)
Definition gl_WindowModeStrs (m : Z) : option string :=
  match m with
  | 0 => Some "NkWndMode_Unknown" | 1 => Some "NkWndMode_Minimized" | 2 => Some "NkWndMode_Maximized"
  | 4 => Some "NkWndMode_Fullscreen" | 8 => Some "NkWndMode_Normal" | 16 => Some "NkWndMode_Visible"
  | 32 => Some "NkWndMode_Hidden" | 24 => Some "NkWndMode_Default" | 63 => Some "NkWndMode_All" | _ => None
  end%string.
Definition NkWindowGetModeStr (wndMode : Z) : outcome (option string) :=
  NK_ASSERT ((wndMode >=? 0) && NK_ISBITFLAG wndMode && (wndMode <? NkWndMode_Count)) NkErr_InParameter;;
  Ret (gl_WindowModeStrs wndMode).
Definition gl_WindowFlagStrs (f : Z) : option string :=
  match f with
  | 0 => Some "NkWndFlag_Default" | 1 => Some "NkWndFlag_MessageOnlyWnd" | 2 => Some "NkWndFlag_AlwaysOnTop"
  | 4 => Some "NkWndFlag_MainWindow" | 8 => Some "NkWndFlag_DragResizable" | 16 => Some "NkWndFlag_DragMovable" | _ => None
  end%string.
Definition NkWindowGetFlagStr (wndFlag : Z) : outcome (option string) :=
  NK_ASSERT ((wndFlag >=? 0) && NK_ISBITFLAG wndFlag && (wndFlag <? NkWndFlag_Count)) NkErr_InParameter;;
  Ret (gl_WindowFlagStrs wndFlag).
Definition gl_ViewportAlignmentStrs (a : Z) : option string :=
  match a with
  | 1 => Some "NkVpAlign_Top" | 2 => Some "NkVpAlign_VCenter" | 4 => Some "NkVpAlign_Bottom"
  | 8 => Some "NkVpAlign_Left" | 16 => Some "NkVpAlign_HCenter" | 32 => Some "NkVpAlign_Right" | _ => None
  end%string.
Definition NkWindowGetViewportAlignmentStr (vpAlignment : Z) : outcome (option string) :=
  NK_ASSERT ((vpAlignment >? 0) && NK_ISBITFLAG vpAlignment && (vpAlignment <? NkVpAlign_Count)) NkErr_InParameter;;
  Ret (gl_ViewportAlignmentStrs vpAlignment).
Definition NkWindowMapEventTypeFromWindowMode (wndMode : Z) : outcome NkEventType :=
  NK_ASSERT ((wndMode >=? 0) && NK_ISBITFLAG wndMode && (wndMode <? NkWndMode_Count)) NkErr_InParameter;;
  Ret (if wndMode =? NkWndMode_Normal then NkEv_WindowRestored
       else if wndMode =? NkWndMode_Maximized then NkEv_WindowMaximized
       else if wndMode =? NkWndMode_Minimized then NkEv_WindowMinimized
       else if wndMode =? NkWndMode_Fullscreen then NkEv_WindowFullscreen
       else NkEv_None).

(** ** Data *)
Record NkWindowSpecification := mkWndSpec {
  ws_rendererApi : Z; ws_vpAlignment : Z; ws_isVSync : bool; ws_vpExtents : NkSize2D; ws_dispTileSize : NkSize2D;
  ws_allowedWndModes : Z; ws_initialWndMode : Z; ws_wndFlags : Z; ws_nativeHandle : Z; ws_wndUuid : NkUuid; ws_wndTitle : Z
}.
Record WindowsWindow := mkWnd {
  mp_nativeHandle : Z; m_lastMousePos : Z * Z; m_allowedWndModes : Z; m_currWndMode : Z; m_wndFlags : Z; m_wndTitle : Z;
  m_wndUuid : NkUuid;
  mp_rendererRef : Z; mp_ialRef : Z
}.
(** The static instance before it is initialised. *)
Definition zero_window : WindowsWindow := mkWnd NULL (0, 0) 0 NkWndMode_Unknown 0 NULL (mk_uuid 0 0 0 0) NULL NULL.
Record Msg := mkMsg { msg_wnd : Z; msg_id : Z; wParam : Z; lParam : Z }.
Record CreateArgs := mkCreate {
  cw_exStyle : Z; cw_title : Z; cw_style : Z; cw_x : Z; cw_y : Z; cw_width : Z; cw_height : Z; cw_messageOnly : bool
}.

(** The halves of a message parameter: [GET_X_LPARAM], [GET_Y_LPARAM], [GET_WHEEL_DELTA_WPARAM]. *)
Definition GET_X_LPARAM (l : Z) : Z := swrapN 16 l.
Definition GET_Y_LPARAM (l : Z) : Z := swrapN 16 (Z.shiftr (u32 l) 16).
Definition GET_WHEEL_DELTA_WPARAM (w : Z) : Z := swrapN 16 (Z.shiftr (u32 w) 16).

(** The bytes of the data of an event. *)
Definition window_event (wndRef : Z) (pos : Z * Z) (sz total : NkSize2D) (mode : Z) : list Z :=
  le_bytes 8 wndRef ++ le_bytes 8 pos.1 ++ le_bytes 8 pos.2 ++ le_bytes 8 (m_width sz) ++ le_bytes 8 (m_height sz) ++
  le_bytes 8 (m_width total) ++ le_bytes 8 (m_height total) ++ le_bytes 4 mode ++ replicate 4 0.
Definition keyboard_event (pKeyCode vNtKeyCode vKeyCode : Z) : list Z :=
  le_bytes 4 pKeyCode ++ le_bytes 4 vNtKeyCode ++ le_bytes 4 vKeyCode ++ le_bytes 4 0.
Definition mouse_event (pos glPos : Z * Z) (btn : Z) : list Z :=
  le_bytes 8 pos.1 ++ le_bytes 8 pos.2 ++ le_bytes 8 glPos.1 ++ le_bytes 8 glPos.2 ++ le_bytes 4 btn ++ le_bytes 4 0.
Definition ev_number (t : NkEventType) : Z := match list_find (t =.) all_event_types with Some (i, _) => Z.of_nat i | None => 0 end.

(** ** Windows and the renderer *)
Class WndHost (H : Type) := {
  RegisterClassEx : H → bool * H;
  UnregisterClass : H → H;
  AdjustWindowRectEx : RECT → Z → Z → option RECT;
  CreateWindowEx : CreateArgs → H → Z * list Msg * H;
  DestroyWindow : Z → H → list Msg * H;
  ShowWindow : Z → Z → H → list Msg * H;
  SetWindowPos : Z → H → list Msg * H;
  DefWindowProc : Msg → H → Z * list Msg * H;
  IsZoomed : Z → H → bool;
  IsIconic : Z → H → bool;
  GetClientRect : Z → H → option RECT;
  GetWindowRect : Z → H → option RECT;
  ClientToScreen : Z → Z * Z → H → Z * Z;
  GetStyle : Z → H → Z;
  GetExStyle : Z → H → Z;
  SetStyle : Z → Z → H → H;
  GetSystemMenu : Z → H → Z;
  DisableMenuItem : Z → Z → H → H;
  ValidateRect : Z → H → H;
  SetDarkMode : Z → H → H;
  SetMinTrackSize : Z → Z * Z → H → H;     (* writes through [lParam] *)
  MaximizedExtents : Z * Z;                (* [SM_CXMAXIMIZED], [SM_CYMAXIMIZED] *)
  WorkArea : option RECT;
  CurrentTicks : H → Z
}.
Class WndRenderer (H : Type) := {
  rd_create : NkUuid → NkRendererSpecification → H → outcome (NkErrorCode * Z * H);
  rd_Resize : Z → NkSize2D → H → outcome (NkErrorCode * H);
  rd_QueryViewportDimensions : Z → H → outcome NkSize2D;
  rd_AddRef : Z → H → outcome H;
  rd_Release : Z → H → outcome H
}.

(** ** [winhelpers.c] and the helpers of [winwindow.c] *)
Section helpers.
Context {H : Type} `{WndHost H}.
Definition NkQueryMaximizedWindowExtents : NkSize2D := mkSize2D (u64 MaximizedExtents.1) (u64 MaximizedExtents.2).
(** The sides are [LONG]s, the size of the window unsigned. *)
Definition NkCalculateInitialWindowPos (wndSize : NkSize2D) : outcome (Z * Z) :=
  match WorkArea with
  | None => Ret (0, 0)
  | Some wkArea =>
      w ← int_op (rc_right wkArea - rc_left wkArea);
      h ← int_op (rc_bottom wkArea - rc_top wkArea);
      Ret (i64 (u64 (w - m_width wndSize) / 2), i64 (u64 (h - m_height wndSize) / 2))
  end.
Definition u64_div (x y : Z) : outcome Z := if y =? 0 then Undef else Ret (x / y).
Definition NkCalculateMaximumViewportExtents (wndStyle extWndStyle : Z) (dispTileSize : NkSize2D) : outcome NkSize2D :=
  let maxWndSize := NkQueryMaximizedWindowExtents in
  match AdjustWindowRectEx (mkRECT 0 0 0 0) wndStyle extWndStyle with
  | None => Ret (mkSize2D 0 0)
  | Some nclRect =>
      w ← int_op (rc_right nclRect - rc_left nclRect);
      h ← int_op (rc_bottom nclRect - rc_top nclRect);
      w ← u64_div (u64 (m_width maxWndSize - w)) (m_width dispTileSize);
      h ← u64_div (u64 (m_height maxWndSize - h)) (m_height dispTileSize);
      Ret (mkSize2D w h)
  end.

Definition GetNewWindowMode (wndHandle : Z) (h : H) : Z :=
  if IsZoomed wndHandle h then NkWndMode_Maximized else if IsIconic wndHandle h then NkWndMode_Minimized else NkWndMode_Normal.
Definition is_one (x : Z) (l : list Z) : bool := existsb (Z.eqb x) l.
Definition MapFromNativeInputEvent (msgId : Z) : NkEventType :=
  if is_one msgId [WM_KEYDOWN; WM_SYSKEYDOWN] then NkEv_KeyboardKeyDown
  else if is_one msgId [WM_KEYUP; WM_SYSKEYUP] then NkEv_KeyboardKeyUp
  else if is_one msgId [WM_LBUTTONDOWN; WM_MBUTTONDOWN; WM_RBUTTONDOWN; WM_XBUTTONDOWN] then NkEv_MouseButtonDown
  else if is_one msgId [WM_LBUTTONUP; WM_MBUTTONUP; WM_RBUTTONUP; WM_XBUTTONUP] then NkEv_MouseButtonUp
  else NkEv_None.
Definition MapFromWindowModes (allowedWndModes wndFlags : Z) : Z :=
  let v := Z.lor (Z.lor (Z.lor WS_OVERLAPPED WS_SYSMENU) WS_CAPTION) WS_CLIPSIBLINGS in
  let v := if has_flag allowedWndModes NkWndMode_Maximized then Z.lor v WS_MAXIMIZEBOX else v in
  let v := if has_flag allowedWndModes NkWndMode_Minimized then Z.lor v WS_MINIMIZEBOX else v in
  if has_flag wndFlags NkWndFlag_DragResizable then Z.lor v WS_SIZEBOX else v.
Definition TranslateWindowModeToShowCommand (wndMode : Z) : Z :=
  if wndMode =? NkWndMode_Hidden then SW_HIDE
  else if is_one wndMode [NkWndMode_Fullscreen; NkWndMode_Maximized] then SW_SHOWMAXIMIZED
  else if wndMode =? NkWndMode_Minimized then SW_SHOWMINIMIZED
  else if wndMode =? NkWndMode_Normal then SW_SHOWNORMAL
  else INT32_MAX.
Definition AdjustViewportExtents (vpExtents dspTsize : NkSize2D) (wndStyle extWndStyle : Z) : outcome NkSize2D :=
  maxVpExtents ← NkCalculateMaximumViewportExtents wndStyle extWndStyle dspTsize;
  Ret (mkSize2D (NK_MIN (m_width vpExtents) (m_width maxVpExtents)) (NK_MIN (m_height vpExtents) (m_height maxVpExtents))).
Definition rect_size (r : RECT) : outcome NkSize2D :=
  w ← int_op (rc_right r - rc_left r);
  h ← int_op (rc_bottom r - rc_top r);
  Ret (mkSize2D (u64 w) (u64 h)).
Definition GetWindowSize (wndHandle : Z) (isClientArea : bool) (h : H) : outcome NkSize2D :=
  match if isClientArea then GetClientRect wndHandle h else GetWindowRect wndHandle h with
  | None => Ret (mkSize2D 0 0)
  | Some res => rect_size res
  end.
Definition IsWindowFlagMutable (wndFlag : Z) : bool :=
  is_one wndFlag [NkWndFlag_AlwaysOnTop; NkWndFlag_DragMovable; NkWndFlag_DragResizable].
End helpers.

Definition NkIWindow_IID : NkUuid := mk_uuid 0xd9dd03b3 0x536e 0x410e 0x8ba5dabf915a6ab5.
Definition WindowsWindow_AddRef : Z := 1.
Definition WindowsWindow_Release : Z := 1.
Definition wnd_ImplInfos : list (option NkUuid) := [Some NkIBase_IID; Some NkIInitializable_IID; Some NkIWindow_IID; None].
(** The code, and whether the pointer is the window. *)
Definition WindowsWindow_QueryInterface (iId : NkUuid) : outcome (NkErrorCode * bool) :=
  i ← NkOMQueryImplementationIndex wnd_ImplInfos iId;
  Ret (if negb (i =? SIZE_MAX) then (NkErr_Ok, true) else (NkErr_InterfaceNotImpl, false)).

(** ** The window *)
Section window.
Context {User H : Type} `{WndHost H} `{WndRenderer H} `{NativeInput} (VT : NkILayer NkEvent User).
(** The address of the static instance. *)
Context (gl_Window : Z).

(** The window, the user data of the native window, the exit codes posted to the message
    queue, the host, the layers. *)
Record WndState := mkState { w_wnd : WindowsWindow; w_userdata : Z; w_quit : list NkErrorCode; w_host : H; w_layers : LayerStack User }.
Definition set_wnd (st : WndState) (w : WindowsWindow) : WndState := mkState w (w_userdata st) (w_quit st) (w_host st) (w_layers st).
Definition set_userdata (st : WndState) (p : Z) : WndState := mkState (w_wnd st) p (w_quit st) (w_host st) (w_layers st).
Definition set_quit (st : WndState) (q : list NkErrorCode) : WndState := mkState (w_wnd st) (w_userdata st) q (w_host st) (w_layers st).
Definition set_host (st : WndState) (h : H) : WndState := mkState (w_wnd st) (w_userdata st) (w_quit st) h (w_layers st).
Definition set_layers (st : WndState) (l : LayerStack User) : WndState := mkState (w_wnd st) (w_userdata st) (w_quit st) (w_host st) l.
Definition with_mode (w : WindowsWindow) (m : Z) : WindowsWindow :=
  mkWnd (mp_nativeHandle w) (m_lastMousePos w) (m_allowedWndModes w) m (m_wndFlags w) (m_wndTitle w) (m_wndUuid w) (mp_rendererRef w) (mp_ialRef w).
Definition with_flags (w : WindowsWindow) (f : Z) : WindowsWindow :=
  mkWnd (mp_nativeHandle w) (m_lastMousePos w) (m_allowedWndModes w) (m_currWndMode w) f (m_wndTitle w) (m_wndUuid w) (mp_rendererRef w) (mp_ialRef w).
Definition with_mouse (w : WindowsWindow) (p : Z * Z) : WindowsWindow :=
  mkWnd (mp_nativeHandle w) p (m_allowedWndModes w) (m_currWndMode w) (m_wndFlags w) (m_wndTitle w) (m_wndUuid w) (mp_rendererRef w) (mp_ialRef w).
Definition with_handle (w : WindowsWindow) (p : Z) : WindowsWindow :=
  mkWnd p (m_lastMousePos w) (m_allowedWndModes w) (m_currWndMode w) (m_wndFlags w) (m_wndTitle w) (m_wndUuid w) (mp_rendererRef w) (mp_ialRef w).
Definition with_renderer (w : WindowsWindow) (p : Z) : WindowsWindow :=
  mkWnd (mp_nativeHandle w) (m_lastMousePos w) (m_allowedWndModes w) (m_currWndMode w) (m_wndFlags w) (m_wndTitle w) (m_wndUuid w) p (mp_ialRef w).

(** [wndRef] as the window procedure gets it: what it reads through a null pointer is
    undefined. *)
Definition the_wnd (st : WndState) : outcome WindowsWindow := if w_userdata st =? NULL then Undef else Ret (w_wnd st).
Definition dispatch (ty : NkEventType) (arg : list Z) (st : WndState) : outcome (NkErrorCode * WndState) :=
  '(e, ls) ← NkEventDispatch VT (ev_number ty) (CurrentTicks (w_host st)) arg (w_layers st);
  Ret (e, set_layers st ls).
Definition WindowsWindow_GetClientDimensions (st : WndState) : outcome NkSize2D :=
  match GetClientRect (mp_nativeHandle (w_wnd st)) (w_host st) with
  | None => Undef
  | Some clRect => rect_size clRect
  end.

Section proc.
(** The window procedure for the messages sent meanwhile. *)
Context (proc : Msg → WndState → outcome (Z * WndState)).
Fixpoint send (ms : list Msg) (st : WndState) : outcome WndState :=
  match ms with
  | [] => Ret st
  | m :: ms => '(_, st) ← proc m st; send ms st
  end.
(** Calling a function that sends messages. *)
Definition call_native (r : list Msg * H) (st : WndState) : outcome WndState := send r.1 (set_host st r.2).

Definition WindowsWindow_SetWindowMode (newMode : Z) (st : WndState) : outcome (NkErrorCode * WndState) :=
  NK_ASSERT (Z.land newMode (newMode - 1) =? 0) NkErr_InParameter;;
  if Z.land newMode (m_allowedWndModes (w_wnd st)) =? 0 then
    _ ← NkWindowGetModeStr newMode;
    Ret (NkErr_WndModeNotSupported, st)
  else
    let newShowCmd := TranslateWindowModeToShowCommand newMode in
    if negb (newShowCmd =? INT32_MAX) then
      let st := set_wnd st (with_mode (w_wnd st) newMode) in
      st ← call_native (ShowWindow (mp_nativeHandle (w_wnd st)) newShowCmd (w_host st)) st;
      ty ← NkWindowMapEventTypeFromWindowMode newMode;
      wndSize ← GetWindowSize (mp_nativeHandle (w_wnd st)) false (w_host st);
      total ← GetWindowSize (mp_nativeHandle (w_wnd st)) true (w_host st);
      dispatch ty (window_event gl_Window (0, 0) wndSize total newMode) st
    else Ret (NkErr_NotImplemented, st).

Definition on_key (m : Msg) (st : WndState) : outcome (Z * WndState) :=
  let evType := if (msg_id m =? WM_KEYDOWN) && has_flag (lParam m) (Z.shiftl 1 30)
                then NkEv_KeyboardKeyRepeated else MapFromNativeInputEvent (msg_id m) in
  w ← the_wnd st;
  if mp_ialRef w =? NULL then Undef else
  '(_, st) ← dispatch evType (keyboard_event (i32 (Z.land (lParam m) 0x00FF0000)) (i32 (wParam m))
                                (MapFromNativeKey (i32 (wParam m)))) st;
  Ret (0, st).
Definition cursor (m : Msg) : Z * Z := (GET_X_LPARAM (lParam m), GET_Y_LPARAM (lParam m)).
Definition on_button (m : Msg) (st : WndState) : outcome (Z * WndState) :=
  let ntBtn := Z.shiftr (wParam m) (Z.b2z (is_one (msg_id m) [WM_XBUTTONDOWN; WM_XBUTTONUP]) * 16) in
  let glPos := ClientToScreen (msg_wnd m) (cursor m) (w_host st) in
  w ← the_wnd st;
  if mp_ialRef w =? NULL then Undef else
  '(_, st) ← dispatch (MapFromNativeInputEvent (msg_id m)) (mouse_event (cursor m) glPos (MapFromNativeMouseButton (i32 ntBtn))) st;
  Ret (0, st).
Definition on_mousemove (m : Msg) (st : WndState) : outcome (Z * WndState) :=
  w ← the_wnd st;
  if (fst (m_lastMousePos w) =? fst (cursor m)) && (snd (m_lastMousePos w) =? snd (cursor m)) then Ret (0, st)
  else
    let st := set_wnd st (with_mouse w (cursor m)) in
    let glPos := ClientToScreen (msg_wnd m) (cursor m) (w_host st) in
    '(_, st) ← dispatch NkEv_MouseMoved (mouse_event (cursor m) glPos (btn_code NkBtn_Unknown)) st;
    Ret (0, st).
Definition on_wheel (m : Msg) (st : WndState) : outcome (Z * WndState) :=
  if Z.shiftr (wParam m) 16 =? 0 then Ret (0, st)
  else
    let evType := if GET_WHEEL_DELTA_WPARAM (wParam m) >? 0 then NkEv_MouseScrollUp else NkEv_MouseScrollDown in
    let glPos := ClientToScreen (msg_wnd m) (cursor m) (w_host st) in
    '(_, st) ← dispatch evType (mouse_event (cursor m) glPos (btn_code NkBtn_Unknown)) st;
    Ret (0, st).
Definition on_default (m : Msg) (st : WndState) : outcome (Z * WndState) :=
  let '(r, ms, h) := DefWindowProc m (w_host st) in
  st ← call_native (ms, h) st;
  Ret (r, st).
Definition on_initmenu (m : Msg) (st : WndState) : outcome (Z * WndState) :=
  let sysMenu := GetSystemMenu (msg_wnd m) (w_host st) in
  if wParam m =? sysMenu then
    w ← the_wnd st;
    if negb (has_flag (m_wndFlags w) NkWndFlag_DragMovable)
    then Ret (0, set_host st (DisableMenuItem sysMenu SC_MOVE (w_host st)))
    else on_default m st
  else on_default m st.
Definition on_syscommand (m : Msg) (st : WndState) : outcome (Z * WndState) :=
  if Z.land (wParam m) 0xFFF0 =? SC_MOVE then
    w ← the_wnd st;
    if negb (has_flag (m_wndFlags w) NkWndFlag_DragMovable) then Ret (0, st) else on_default m st
  else on_default m st.
Definition on_size (m : Msg) (st : WndState) : outcome (Z * WndState) :=
  if negb (w_userdata st =? NULL) && negb (mp_rendererRef (w_wnd st) =? NULL) then
    dim ← WindowsWindow_GetClientDimensions st;
    '(_, h) ← rd_Resize (mp_rendererRef (w_wnd st)) dim (w_host st);
    on_default m (set_host st h)
  else on_default m st.
Definition on_poschanged (m : Msg) (st : WndState) : outcome (Z * WndState) :=
  let newWndMode := GetNewWindowMode (msg_wnd m) (w_host st) in
  w ← the_wnd st;
  if negb (m_currWndMode w =? newWndMode) then
    '(_, st) ← WindowsWindow_SetWindowMode newWndMode st;
    on_default m st
  else on_default m st.
Definition on_minmax (m : Msg) (st : WndState) : outcome (Z * WndState) :=
  if (w_userdata st =? NULL) || (mp_rendererRef (w_wnd st) =? NULL) then on_default m st
  else
    currVpDim ← rd_QueryViewportDimensions (mp_rendererRef (w_wnd st)) (w_host st);
    let r := mkRECT 0 0 (i32 (m_width currVpDim)) (i32 (m_height currVpDim)) in
    let clRect := default r (AdjustWindowRectEx r (GetStyle (msg_wnd m) (w_host st)) (GetExStyle (msg_wnd m) (w_host st))) in
    x ← int_op (rc_right clRect - rc_left clRect);
    y ← int_op (rc_bottom clRect - rc_top clRect);
    Ret (0, set_host st (SetMinTrackSize (lParam m) (x, y) (w_host st))).
Definition on_close (m : Msg) (st : WndState) : outcome (Z * WndState) :=
  '(_, st) ← dispatch NkEv_WindowClosed (window_event (w_userdata st) (0, 0) (mkSize2D 0 0) (mkSize2D 0 0) 0) st;
  st ← call_native (ShowWindow (msg_wnd m) SW_HIDE (w_host st)) st;
  w ← the_wnd st;
  Ret (0, if has_flag (m_wndFlags w) NkWndFlag_MainWindow then set_quit st (w_quit st ++ [NkErr_Ok]) else st).
Definition on_destroy (m : Msg) (st : WndState) : outcome (Z * WndState) :=
  w ← the_wnd st;
  if mp_rendererRef w =? NULL then Undef else
  h ← rd_Release (mp_rendererRef w) (w_host st);
  Ret (0, set_host st h).

Definition WndProc_body (m : Msg) (st : WndState) : outcome (Z * WndState) :=
  let id := msg_id m in
  if is_one id [WM_KEYDOWN; WM_SYSKEYDOWN; WM_KEYUP; WM_SYSKEYUP] then on_key m st
  else if is_one id [WM_LBUTTONDOWN; WM_MBUTTONDOWN; WM_RBUTTONDOWN; WM_XBUTTONDOWN;
                     WM_LBUTTONUP; WM_MBUTTONUP; WM_RBUTTONUP; WM_XBUTTONUP] then on_button m st
  else if id =? WM_MOUSEMOVE then on_mousemove m st
  else if id =? WM_MOUSEWHEEL then on_wheel m st
  else if is_one id [WM_INITMENU; WM_INITMENUPOPUP] then on_initmenu m st
  else if id =? WM_SYSCOMMAND then on_syscommand m st
  else if id =? WM_SIZE then on_size m st
  else if id =? WM_WINDOWPOSCHANGED then on_poschanged m st
  else if id =? WM_GETMINMAXINFO then on_minmax m st
  else if id =? WM_ERASEBKGND then Ret (1, st)
  else if id =? WM_PAINT then Ret (0, set_host st (ValidateRect (msg_wnd m) (w_host st)))
  else if id =? WM_CLOSE then on_close m st
  else if id =? WM_DESTROY then on_destroy m st
  else on_default m st.
End proc.
Fixpoint WndProc (n : nat) (m : Msg) (st : WndState) : outcome (Z * WndState) :=
  match n with
  | O => OutOfFuel
  | S n => WndProc_body (WndProc n) m st
  end.

(** ** The methods; [n] is the fuel of the window procedure *)
Definition WindowsWindow_QueryAllowedWindowModes (st : WndState) : Z := m_allowedWndModes (w_wnd st).
Definition WindowsWindow_QueryNativeWindowHandle (st : WndState) : Z := mp_nativeHandle (w_wnd st).
Definition WindowsWindow_QueryWindowIdentifier (st : WndState) : NkUuid := m_wndUuid (w_wnd st).
Definition WindowsWindow_GetWindowMode (st : WndState) : Z := m_currWndMode (w_wnd st).
Definition WindowsWindow_GetWindowFlag (wndFlag : Z) (st : WndState) : bool := has_flag (m_wndFlags (w_wnd st)) wndFlag.
Definition WindowsWindow_SetWindowFlag (n : nat) (wndFlag : Z) (newVal : bool) (st : WndState) : outcome (NkErrorCode * WndState) :=
  let oldVal := WindowsWindow_GetWindowFlag wndFlag st in
  if eqb oldVal newVal || negb (IsWindowFlagMutable wndFlag) then Ret (NkErr_NoOperation, st)
  else
    let st := set_wnd st (with_flags (w_wnd st) (Z.lor (Z.land (m_wndFlags (w_wnd st)) (Z.lnot wndFlag)) (if newVal then wndFlag else 0))) in
    if wndFlag =? NkWndFlag_DragResizable then
      let hnd := mp_nativeHandle (w_wnd st) in
      let currWndStyle := GetStyle hnd (w_host st) in
      let h := SetStyle hnd (Z.lor (Z.land currWndStyle (Z.lnot WS_SIZEBOX)) (if newVal then WS_SIZEBOX else 0)) (w_host st) in
      st ← call_native (WndProc n) (SetWindowPos hnd h) st;
      Ret (NkErr_Ok, st)
    else if wndFlag =? NkWndFlag_DragMovable then Ret (NkErr_Ok, st)
    else Ret (NkErr_NotImplemented, st).
Definition WindowsWindow_GetRenderer (st : WndState) : outcome (Z * WndState) :=
  let p := mp_rendererRef (w_wnd st) in
  if p =? NULL then Undef else h ← rd_AddRef p (w_host st); Ret (p, set_host st h).
Definition WindowsWindow_OnUpdate (deltaTime : NkFloat) (st : WndState) : WndState := st.

(** [ial] is what [NkApplicationQueryInstance] answers for the input layer.  The class
    identifier of the renderer must exist: [NkOMCreateInstance] asserts it. *)
Definition renderer_spec (wndSpecs : NkWindowSpecification) : NkRendererSpecification :=
  mkRdSpec gl_Window (ws_isVSync wndSpecs) (ws_rendererApi wndSpecs) (ws_vpExtents wndSpecs) (ws_dispTileSize wndSpecs)
    (ws_vpAlignment wndSpecs) (mkRgba 0 0 0 255) NkTexIMd_NearestNeighbor.
Definition WindowsWindow_Initialize (n : nat) (ial : Z) (wndSpecs : NkWindowSpecification) (st : WndState)
    : outcome (NkErrorCode * WndState) :=
  if negb (ws_nativeHandle wndSpecs =? NULL) then Ret (NkErr_NotImplemented, st)
  else
    let '(ok, h) := RegisterClassEx (w_host st) in
    if negb ok then Ret (NkErr_RegWindowClass, set_host st h)
    else
      let wndStyle := MapFromWindowModes (ws_allowedWndModes wndSpecs) (ws_wndFlags wndSpecs) in
      let extWndStyle := Z.lor WS_EX_WINDOWEDGE WS_EX_APPWINDOW in
      actVpExtents ← AdjustViewportExtents (ws_vpExtents wndSpecs) (ws_dispTileSize wndSpecs) (i32 wndStyle) (i32 extWndStyle);
      match AdjustWindowRectEx (mkRECT 0 0 (i32 (u64 (m_width actVpExtents * m_width (ws_dispTileSize wndSpecs))))
                                           (i32 (u64 (m_height actVpExtents * m_height (ws_dispTileSize wndSpecs))))) wndStyle extWndStyle with
      | None => Ret (NkErr_AdjustClientArea, set_host st (UnregisterClass h))
      | Some wndSize =>
          width ← int_op (rc_right wndSize - rc_left wndSize);
          height ← int_op (rc_bottom wndSize - rc_top wndSize);
          initialPos ← NkCalculateInitialWindowPos (mkSize2D (u64 width) (u64 height));
          let '(hnd, ms, h) := CreateWindowEx (mkCreate extWndStyle (ws_wndTitle wndSpecs) wndStyle (i32 initialPos.1) (i32 initialPos.2)
                                                 width height (has_flag (ws_wndFlags wndSpecs) NkWndFlag_MessageOnlyWnd)) h in
          st ← call_native (WndProc n) (ms, h) st;
          let st := set_wnd st (with_handle (w_wnd st) hnd) in
          if hnd =? NULL then Ret (NkErr_CreateNativeWindow, set_host st (UnregisterClass (w_host st)))
          else
            let st := set_userdata st gl_Window in
            let st := set_host st (SetDarkMode hnd (w_host st)) in
            implCLSID ← match NkRendererQueryCLSIDFromApi (ws_rendererApi wndSpecs) with Some u => Ret u | None => Halt NkErr_InParameter end;
            '(errCode, rd, h) ← rd_create implCLSID (renderer_spec wndSpecs) (w_host st);
            let st := set_host (set_wnd st (with_renderer (w_wnd st) rd)) h in
            if negb (isOk errCode) then Ret (errCode, st)
            else
              let w := w_wnd st in
              let st := set_wnd st (mkWnd (mp_nativeHandle w) (0, 0) (Z.land (ws_allowedWndModes wndSpecs) (Z.land NkWndMode_All (Z.lnot NkWndMode_Fullscreen)))
                                      (m_currWndMode w) (ws_wndFlags wndSpecs) (m_wndTitle w) (ws_wndUuid wndSpecs) (mp_rendererRef w) ial) in
              '(_, st) ← dispatch NkEv_WindowOpened (window_event gl_Window (0, 0) (mkSize2D 0 0) (mkSize2D 0 0) 0) st;
              '(_, st) ← WindowsWindow_SetWindowMode (WndProc n) (ws_initialWndMode wndSpecs) st;
              Ret (NkErr_Ok, st)
      end.

(** ** The component *)
Definition Window_Uuid : NkUuid := mk_uuid 0xf5ef2c4c 0x6a5e 0x4719 0x9f3f0412dbbaf611.
(** [appSpecs]: the fields of the same names of the application's specification. *)
Definition Window_Startup (n : nat) (ial : Z) (appSpecs : NkWindowSpecification) (st : WndState) : outcome (NkErrorCode * WndState) :=
  WindowsWindow_Initialize n ial
    (mkWndSpec (ws_rendererApi appSpecs) (ws_vpAlignment appSpecs) (ws_isVSync appSpecs) (ws_vpExtents appSpecs) (ws_dispTileSize appSpecs)
       (ws_allowedWndModes appSpecs) (ws_initialWndMode appSpecs) (Z.lor (ws_wndFlags appSpecs) NkWndFlag_MainWindow)
       (ws_nativeHandle appSpecs) Window_Uuid (ws_wndTitle appSpecs)) st.
Definition Window_Shutdown (n : nat) (st : WndState) : outcome (NkErrorCode * WndState) :=
  st ← call_native (WndProc n) (DestroyWindow (WindowsWindow_QueryNativeWindowHandle st) (w_host st)) st;
  Ret (NkErr_Ok, st).
End window.
Arguments WndState : clear implicits.
