(* ===== verification/WindowRun.v ===== *)
(** * The window: what its procedure and its methods promise

    What every message and every method leaves as it is, that the window procedure returns
    though Windows enters it again, which events reach the layers; a host to run the window
    on. *)
From S2P Require Import Prelude Float32 Vector Util NkOM Bmp Layer Event Input Renderer Window.
From Stdlib Require Import Btauto.

(** ** How messages nest
    While a message is left to Windows, Windows may send others: a new place is followed by
    the new size, activation by the focus, a press on the frame by a system command.  That
    does not go on forever: [depth m] bounds how deep, for a message [m] left to Windows.
    [calm] are the messages that showing, sizing and activating a window send. *)
Class MessageNesting := { calm : Msg → bool; depth : Msg → nat; max_depth : nat }.

Section window.
Context {User H : Type} `{WndHost H} `{WndRenderer H} `{NativeInput} (VT : NkILayer NkEvent User) (gl_Window : Z).
Notation WndState := (WndState User H).
Implicit Types (st : WndState) (m : Msg).

(** ** What stays *)
(** The flags that cannot be changed once the window exists. *)
Definition fixed_flags : Z := Z.lor NkWndFlag_MessageOnlyWnd NkWndFlag_MainWindow.
(** The modes a window can be in. *)
Definition real_mode (m : Z) : Prop := m ∈ [NkWndMode_Minimized; NkWndMode_Maximized; NkWndMode_Fullscreen; NkWndMode_Normal].
Record keeps (st st' : WndState) : Prop := {
  kp_handle : mp_nativeHandle (w_wnd st') = mp_nativeHandle (w_wnd st);
  kp_modes : m_allowedWndModes (w_wnd st') = m_allowedWndModes (w_wnd st);
  kp_uuid : m_wndUuid (w_wnd st') = m_wndUuid (w_wnd st);
  kp_renderer : mp_rendererRef (w_wnd st') = mp_rendererRef (w_wnd st);
  kp_ial : mp_ialRef (w_wnd st') = mp_ialRef (w_wnd st);
  kp_userdata : w_userdata st' = w_userdata st;
  kp_flags : Z.land (m_wndFlags (w_wnd st')) fixed_flags = Z.land (m_wndFlags (w_wnd st)) fixed_flags;
  kp_mode : m_currWndMode (w_wnd st') = m_currWndMode (w_wnd st) ∨
    real_mode (m_currWndMode (w_wnd st')) ∧ Z.land (m_currWndMode (w_wnd st')) (m_allowedWndModes (w_wnd st)) ≠ 0
}.
#[export] Instance keeps_preorder : PreOrder keeps.
Proof.
  split.
  - intros st. split; try done. by left.
  - intros st1 st2 st3 [] []. split; try congruence. destruct kp_mode1 as [->|[? K]]; [done|]. right. by rewrite kp_modes0 in K.
Qed.
(** Only the parts of the state around the window change. *)
Lemma keeps_around st st' : w_wnd st' = w_wnd st → w_userdata st' = w_userdata st → keeps st st'.
Proof. intros E1 E2. split; rewrite ?E1; try done. by left. Qed.
Lemma keeps_mouse st p : keeps st (set_wnd st (with_mouse (w_wnd st) p)).
Proof. split; try done. by left. Qed.
Definition respects (proc : Msg → WndState → outcome (Z * WndState)) : Prop :=
  ∀ m st r st', proc m st = Ret (r, st') → keeps st st'.

Lemma dispatch_inv ty arg st e st' :
  dispatch VT ty arg st = Ret (e, st') → w_wnd st' = w_wnd st ∧ w_userdata st' = w_userdata st ∧ w_quit st' = w_quit st ∧ w_host st' = w_host st.
Proof. unfold dispatch. intros E. outcome_inv. destruct r as [e1 ls]. by outcome_inv. Qed.
Lemma dispatch_keeps ty arg st e st' : dispatch VT ty arg st = Ret (e, st') → keeps st st'.
Proof. intros (? & ? & _)%dispatch_inv. by apply keeps_around. Qed.
Lemma dispatch_none arg st : dispatch VT NkEv_None arg st = Halt NkErr_InParameter.
Proof. reflexivity. Qed.
Lemma the_wnd_inv st w : the_wnd st = Ret w → w = w_wnd st ∧ w_userdata st ≠ NULL.
Proof. unfold the_wnd. destruct (Z.eqb_spec (w_userdata st) NULL); [done|]. by intros [= <-]. Qed.

Section proc.
Context (proc : Msg → WndState → outcome (Z * WndState)) (Hproc : respects proc).
Lemma send_keeps ms st st' : send proc ms st = Ret st' → keeps st st'.
Proof.
  revert st. induction ms as [|m ms IH]; intros st E; cbn [send] in E; [by simplify_eq|]. outcome_inv. destruct r as [r st1].
  etrans; [by eapply Hproc|by apply IH].
Qed.
Lemma native_keeps r st st' : call_native proc r st = Ret st' → keeps st st'.
Proof. unfold call_native. intros E%send_keeps. etrans; [|exact E]. by apply keeps_around. Qed.
Lemma default_keeps m st r st' : on_default proc m st = Ret (r, st') → keeps st st'.
Proof. unfold on_default. destruct (DefWindowProc m _) as [[z ms] h]. intros E. outcome_inv. by eapply native_keeps. Qed.

(** A mode is only ever set to one the window supports and has an event for. *)
Lemma set_mode_inv newMode st e st' :
  WindowsWindow_SetWindowMode VT gl_Window proc newMode st = Ret (e, st') →
  st' = st ∧ (Z.land newMode (m_allowedWndModes (w_wnd st)) = 0 ∨ TranslateWindowModeToShowCommand newMode = INT32_MAX) ∨ real_mode newMode ∧ Z.land newMode (m_allowedWndModes (w_wnd st)) ≠ 0 ∧ ∃ st1 arg ty,
    call_native proc (ShowWindow (mp_nativeHandle (w_wnd st)) (TranslateWindowModeToShowCommand newMode) (w_host st))
      (set_wnd st (with_mode (w_wnd st) newMode)) = Ret st1 ∧
    dispatch VT ty arg st1 = Ret (e, st').
Proof.
  unfold WindowsWindow_SetWindowMode. intros E. outcome_inv. destruct (Z.eqb_spec (Z.land newMode (m_allowedWndModes (w_wnd st))) 0) as [|Hall].
  { outcome_inv. left. auto. }
  destruct (Z.eqb_spec (TranslateWindowModeToShowCommand newMode) INT32_MAX) as [|Hcmd]; cbn [negb] in E; [simplify_eq; auto|].
  outcome_inv. right. split; [|split; [done|by eauto 6]].
  assert (Hm : newMode ∈ [NkWndMode_Hidden; NkWndMode_Fullscreen; NkWndMode_Maximized; NkWndMode_Minimized; NkWndMode_Normal]).
  { unfold TranslateWindowModeToShowCommand, is_one in Hcmd. cbn [existsb] in Hcmd.
    repeat (match type of Hcmd with context [?a =? ?b] => destruct (Z.eqb_spec a b) as [->|]; [set_solver|cbn [orb] in Hcmd] end). done. }
  unfold real_mode. destruct (decide (newMode = NkWndMode_Hidden)) as [->|]; [|set_solver]. exfalso.
  match goal with K : NkWindowMapEventTypeFromWindowMode _ = Ret ?t |- _ => vm_compute in K; injection K as <- end.
  by rewrite dispatch_none in E.
Qed.
Lemma set_mode_keeps newMode st e st' :
  WindowsWindow_SetWindowMode VT gl_Window proc newMode st = Ret (e, st') → keeps st st'.
Proof.
  intros [[-> _]|(Hr & Ha & st1 & arg & ty & Hn%native_keeps & Hd%dispatch_keeps)]%set_mode_inv; [done|].
  etrans; [|etrans; [exact Hn|exact Hd]]. split; try done. by right.
Qed.
Lemma key_keeps m st r st' : on_key VT m st = Ret (r, st') → keeps st st'.
Proof. unfold on_key. intros E. outcome_inv. destruct (_ =? _) in E; [done|]. outcome_inv. case_match. outcome_inv. by eapply dispatch_keeps. Qed.
Lemma button_keeps m st r st' : on_button VT m st = Ret (r, st') → keeps st st'.
Proof. unfold on_button. intros E. outcome_inv. destruct (_ =? NULL) in E; [done|]. outcome_inv. case_match. outcome_inv. by eapply dispatch_keeps. Qed.
Lemma mousemove_keeps m st r st' : on_mousemove VT m st = Ret (r, st') → keeps st st'.
Proof.
  unfold on_mousemove. intros E. outcome_inv. apply the_wnd_inv in E0 as [-> _]. destruct (_ && _); outcome_inv; [done|].
  case_match. outcome_inv. etrans; [apply keeps_mouse|by eapply dispatch_keeps].
Qed.
Lemma wheel_keeps m st r st' : on_wheel VT m st = Ret (r, st') → keeps st st'.
Proof. unfold on_wheel. intros E. destruct (_ =? 0); outcome_inv; [done|]. case_match. outcome_inv. by eapply dispatch_keeps. Qed.
Lemma initmenu_keeps m st r st' : on_initmenu proc m st = Ret (r, st') → keeps st st'.
Proof.
  unfold on_initmenu. intros E. destruct (_ =? _); [|by eapply default_keeps]. outcome_inv. destruct (has_flag _ _); cbn [negb] in E; outcome_inv.
  - by eapply default_keeps.
  - by apply keeps_around.
Qed.
Lemma syscommand_keeps m st r st' : on_syscommand proc m st = Ret (r, st') → keeps st st'.
Proof.
  unfold on_syscommand. intros E. destruct (_ =? _); [|by eapply default_keeps]. outcome_inv. destruct (has_flag _ _); cbn [negb] in E; outcome_inv.
  - by eapply default_keeps.
  - done.
Qed.
Lemma size_keeps m st r st' : on_size proc m st = Ret (r, st') → keeps st st'.
Proof.
  unfold on_size. intros E. destruct (_ && _); [|by eapply default_keeps]. outcome_inv. case_match.
  etrans; [|by eapply default_keeps]. by apply keeps_around.
Qed.
Lemma poschanged_keeps m st r st' : on_poschanged VT gl_Window proc m st = Ret (r, st') → keeps st st'.
Proof.
  unfold on_poschanged. intros E. outcome_inv. destruct (negb _); [|by eapply default_keeps]. outcome_inv. case_match.
  etrans; [by eapply set_mode_keeps|by eapply default_keeps].
Qed.
Lemma minmax_keeps m st r st' : on_minmax proc m st = Ret (r, st') → keeps st st'.
Proof. unfold on_minmax. intros E. destruct (_ || _); [by eapply default_keeps|]. outcome_inv. by apply keeps_around. Qed.
Lemma close_keeps m st r st' : on_close VT proc m st = Ret (r, st') → keeps st st'.
Proof.
  unfold on_close. intros E. outcome_inv. case_match. outcome_inv. etrans; [by eapply dispatch_keeps|]. etrans; [by eapply native_keeps|].
  case_match; by apply keeps_around.
Qed.
Lemma destroy_keeps m st r st' : on_destroy m st = Ret (r, st') → keeps st st'.
Proof. unfold on_destroy. intros E. outcome_inv. destruct (_ =? _); [done|]. outcome_inv. by apply keeps_around. Qed.
Lemma body_keeps m st r st' : WndProc_body VT gl_Window proc m st = Ret (r, st') → keeps st st'.
Proof.
  unfold WndProc_body. cbv zeta. intros E.
  repeat match type of E with (if ?b then _ else _) = _ => destruct b end;
    eauto using key_keeps, button_keeps, mousemove_keeps, wheel_keeps, initmenu_keeps, syscommand_keeps, size_keeps, poschanged_keeps,
      minmax_keeps, close_keeps, destroy_keeps, default_keeps; simplify_eq; by apply keeps_around.
Qed.
End proc.
Lemma proc_keeps n : respects (WndProc VT gl_Window n).
Proof. induction n as [|n IH]; intros m st r st' E; [done|]. cbn [WndProc] in E. by eapply body_keeps. Qed.

(** Setting and clearing one flag. *)
Lemma flag_bits f flags v b :
  f ∈ [NkWndFlag_AlwaysOnTop; NkWndFlag_DragMovable; NkWndFlag_DragResizable] →
  Z.land (Z.lor (Z.land flags (Z.lnot f)) (if v : bool then f else 0)) b =
  Z.lor (Z.land flags (Z.land b (Z.lnot f))) (if v then Z.land f b else 0).
Proof. intros _. apply Z.bits_inj'. intros n Hn. destruct v; rewrite ?Z.land_spec, ?Z.lor_spec, ?Z.land_spec, ?Z.lnot_spec, ?Z.bits_0 by done; btauto. Qed.
Lemma set_flag_inv n flag v st e st' :
  WindowsWindow_SetWindowFlag VT gl_Window n flag v st = Ret (e, st') →
  if eqb (has_flag (m_wndFlags (w_wnd st)) flag) v || negb (IsWindowFlagMutable flag) then e = NkErr_NoOperation ∧ st' = st
  else ∃ st1, st1 = set_wnd st (with_flags (w_wnd st) (Z.lor (Z.land (m_wndFlags (w_wnd st)) (Z.lnot flag)) (if v then flag else 0))) ∧
    if flag =? NkWndFlag_DragResizable then e = NkErr_Ok ∧ ∃ ms h, call_native (WndProc VT gl_Window n) (ms, h) st1 = Ret st'
    else e = (if flag =? NkWndFlag_DragMovable then NkErr_Ok else NkErr_NotImplemented) ∧ st' = st1.
Proof.
  unfold WindowsWindow_SetWindowFlag, WindowsWindow_GetWindowFlag. intros E. destruct (eqb _ _ || _); [by simplify_eq|].
  eexists. split; [done|]. destruct (flag =? NkWndFlag_DragResizable).
  - outcome_inv. split; [done|]. destruct (SetWindowPos _ _) as [ms h]. eauto.
  - destruct (flag =? NkWndFlag_DragMovable); by simplify_eq.
Qed.
Lemma mutable_flag f : IsWindowFlagMutable f = true → f ∈ [NkWndFlag_AlwaysOnTop; NkWndFlag_DragMovable; NkWndFlag_DragResizable].
Proof.
  unfold IsWindowFlagMutable, is_one. cbn [existsb]. intros K. repeat (apply orb_true_iff in K as [->%Z.eqb_eq|K]; [set_solver|]). done.
Qed.
Lemma set_flag_keeps n flag v st e st' : WindowsWindow_SetWindowFlag VT gl_Window n flag v st = Ret (e, st') → keeps st st'.
Proof.
  intros E%set_flag_inv. destruct (eqb _ _ || negb (IsWindowFlagMutable flag)) eqn:K; [by destruct E as [_ ->]|].
  apply orb_false_iff in K as [_ K%negb_false_iff%mutable_flag]. destruct E as (st1 & -> & E).
  set (st1 := set_wnd _ _) in *. assert (Hk : keeps st st1).
  { split; try done; [|by left]. cbn [st1 w_wnd set_wnd with_flags m_wndFlags]. rewrite flag_bits by done.
    repeat (apply elem_of_cons in K as [->|K]; [destruct v; cbn [Z.land]; by rewrite Z.lor_0_r|]). by apply not_elem_of_nil in K. }
  destruct (flag =? NkWndFlag_DragResizable).
  - destruct E as (_ & ms & h & E). etrans; [exact Hk|]. eapply native_keeps; [apply proc_keeps|exact E].
  - by destruct E as [_ ->].
Qed.

(** The flag of a window that stays on top changes although the caller is told that
    nothing was done. *)
Lemma window_topmost_changed n v st :
  WindowsWindow_GetWindowFlag NkWndFlag_AlwaysOnTop st = negb v →
  ∃ st', WindowsWindow_SetWindowFlag VT gl_Window n NkWndFlag_AlwaysOnTop v st = Ret (NkErr_NotImplemented, st') ∧
    WindowsWindow_GetWindowFlag NkWndFlag_AlwaysOnTop st' = v ∧ w_host st' = w_host st.
Proof.
  intros E. unfold WindowsWindow_SetWindowFlag. rewrite E, eqb_negb1. cbn [orb]. eexists. split; [done|]. split; [|done].
  unfold WindowsWindow_GetWindowFlag, has_flag. cbn [w_wnd set_wnd with_flags m_wndFlags]. rewrite flag_bits by set_solver.
  change (Z.land NkWndFlag_AlwaysOnTop (Z.lnot NkWndFlag_AlwaysOnTop)) with 0. rewrite Z.land_0_r. by destruct v.
Qed.

(** ** Everything a window can go through *)
(** [st0] is the window as it was opened. *)
Inductive wnd_reach (spec : NkWindowSpecification) (st0 : WndState) : WndState → Prop :=
  | wr_start n ial st : w_wnd st = zero_window →
      WindowsWindow_Initialize VT gl_Window n ial spec st = Ret (NkErr_Ok, st0) → wnd_reach spec st0 st0
  | wr_msg st n m r st' : wnd_reach spec st0 st → WndProc VT gl_Window n m st = Ret (r, st') → wnd_reach spec st0 st'
  | wr_mode st n newMode e st' : wnd_reach spec st0 st →
      WindowsWindow_SetWindowMode VT gl_Window (WndProc VT gl_Window n) newMode st = Ret (e, st') → wnd_reach spec st0 st'
  | wr_flag st n flag v e st' : wnd_reach spec st0 st → WindowsWindow_SetWindowFlag VT gl_Window n flag v st = Ret (e, st') → wnd_reach spec st0 st'.
Record window_ok (spec : NkWindowSpecification) st : Prop := {
  wo_userdata : w_userdata st = gl_Window;
  wo_handle : mp_nativeHandle (w_wnd st) ≠ NULL;
  wo_modes : m_allowedWndModes (w_wnd st) = Z.land (ws_allowedWndModes spec) (Z.land NkWndMode_All (Z.lnot NkWndMode_Fullscreen));
  wo_uuid : m_wndUuid (w_wnd st) = ws_wndUuid spec;
  wo_flags : Z.land (m_wndFlags (w_wnd st)) fixed_flags = Z.land (ws_wndFlags spec) fixed_flags;
  wo_mode : m_currWndMode (w_wnd st) = NkWndMode_Unknown ∨
    real_mode (m_currWndMode (w_wnd st)) ∧ Z.land (m_currWndMode (w_wnd st)) (m_allowedWndModes (w_wnd st)) ≠ 0
}.
Lemma ok_keeps spec st st' : window_ok spec st → keeps st st' → window_ok spec st'.
Proof. intros [] []. split; try congruence. rewrite kp_modes0. destruct kp_mode0 as [->|K]; [done|by right]. Qed.
(** The window as it is when everything was created and the first event is dispatched. *)
Lemma init_inv n ial spec st st' :
  w_wnd st = zero_window → WindowsWindow_Initialize VT gl_Window n ial spec st = Ret (NkErr_Ok, st') →
  ∃ st2, window_ok spec st2 ∧ mp_ialRef (w_wnd st2) = ial ∧ keeps st2 st' ∧
    ∃ clsId rdSpec h h', rd_create clsId rdSpec h = Ret (NkErr_Ok, mp_rendererRef (w_wnd st2), h').
Proof.
  intros Hz E. unfold WindowsWindow_Initialize in E. destruct (negb _); [done|]. destruct (RegisterClassEx _) as [ok h]. destruct (negb ok); [done|].
  outcome_inv. destruct (AdjustWindowRectEx _ _ _) as [rc|]; [|done]. outcome_inv. destruct (CreateWindowEx _ h) as [[hnd ms] h1]. outcome_inv.
  destruct (Z.eqb_spec hnd NULL) as [|Hh]; [by simplify_eq|]. outcome_inv. repeat case_match; outcome_inv; try done.
  match goal with K : call_native _ _ _ = Ret ?s |- _ => rename K into Hn, s into s1 end.
  match goal with K : dispatch _ _ _ ?s = Ret ?p |- _ => rename K into Hd; destruct p as [e2 s3]; set (s2 := s) in * end.
  outcome_inv. case_match. outcome_inv. match goal with K : WindowsWindow_SetWindowMode _ _ _ _ _ = _ |- _ => rename K into Hm end.
  apply (native_keeps _ (proc_keeps n)) in Hn as [_ Hal _ _ _ _ _ Hmode]. cbn [set_host w_wnd] in Hal, Hmode. rewrite Hz in Hal, Hmode.
  cbn [zero_window m_allowedWndModes m_currWndMode] in Hal, Hmode.
  exists s2. split; [|split; [done|split]].
  - split; cbn [s2 w_wnd w_userdata set_wnd set_host set_userdata with_handle with_renderer mp_nativeHandle m_allowedWndModes m_currWndMode
      m_wndFlags m_wndUuid]; try done. left. destruct Hmode as [->|[_ K]]; [done|]. by rewrite Z.land_0_r in K.
  - etrans; [by eapply dispatch_keeps|]. eapply set_mode_keeps; [apply proc_keeps|exact Hm].
  - match goal with K : rd_create _ _ _ = Ret (?e, _, _), K' : negb (isOk ?e) = false |- _ =>
      apply negb_false_iff, bool_decide_eq_true in K'; subst e; by do 4 eexists end.
Qed.
Lemma init_ok n ial spec st st' :
  w_wnd st = zero_window → WindowsWindow_Initialize VT gl_Window n ial spec st = Ret (NkErr_Ok, st') → window_ok spec st'.
Proof. intros Hz E. destruct (init_inv _ _ _ _ _ Hz E) as (st2 & ? & _ & ? & _). by eapply ok_keeps. Qed.
(** C12: a window keeps its native handle, its renderer, its identifier and the modes it was given, apart
    from full screen, whatever messages it gets and whichever modes and flags are set; what kind of window it
    is cannot be changed by setting flags; the mode it is in is one of the three others it was given, or
    unknown, which it can only be if it was when the window was opened. *)
Theorem window_reachable spec st0 st : wnd_reach spec st0 st →
  w_userdata st = gl_Window ∧ mp_nativeHandle (w_wnd st) = mp_nativeHandle (w_wnd st0) ∧ mp_nativeHandle (w_wnd st) ≠ NULL ∧
  mp_rendererRef (w_wnd st) = mp_rendererRef (w_wnd st0) ∧ m_wndUuid (w_wnd st) = ws_wndUuid spec ∧
  m_allowedWndModes (w_wnd st) = Z.land (ws_allowedWndModes spec) (Z.lor (Z.lor (Z.lor (Z.lor NkWndMode_Minimized NkWndMode_Maximized) NkWndMode_Normal) NkWndMode_Visible) NkWndMode_Hidden) ∧
  (∀ f, f ∈ [NkWndFlag_MessageOnlyWnd; NkWndFlag_MainWindow] → WindowsWindow_GetWindowFlag f st = has_flag (ws_wndFlags spec) f) ∧
  (m_currWndMode (w_wnd st) = NkWndMode_Unknown ∧ m_currWndMode (w_wnd st0) = NkWndMode_Unknown ∨
   m_currWndMode (w_wnd st) ∈ [NkWndMode_Minimized; NkWndMode_Maximized; NkWndMode_Normal] ∧ has_flag (ws_allowedWndModes spec) (m_currWndMode (w_wnd st)) = true).
Proof.
  intros Hr. assert (Hok : window_ok spec st0 ∧ keeps st0 st).
  { induction Hr as [n ial st Hz E|st n m r st' _ [IH IHk] E|st n newMode e st' _ [IH IHk] E|st n flag v e st' _ [IH IHk] E]; (split; [try done|]).
    - by eapply init_ok.
    - done.
    - etrans; [exact IHk|by eapply proc_keeps].
    - etrans; [exact IHk|]. eapply set_mode_keeps; [apply proc_keeps|exact E].
    - etrans; [exact IHk|by eapply set_flag_keeps]. }
  clear Hr. destruct Hok as [Hok0 K]. pose proof (ok_keeps _ _ _ Hok0 K) as [H1' H2' Hmodes Hu Hf Hm]. destruct Hok0 as [_ _ _ _ _ Hm0]. destruct K as [Kh Km _ Kr _ _ _ Kmode].
  split_and!; [done|done|done|done|done|done| |].
  - intros f Hin. unfold WindowsWindow_GetWindowFlag, has_flag. f_equal. f_equal.
    assert (Hff : f = Z.land fixed_flags f) by (apply elem_of_cons in Hin as [->|[->|K%not_elem_of_nil]%elem_of_cons]; done).
    rewrite Hff, !Z.land_assoc. by rewrite Hf.
  - destruct Hm as [E|[Hreal Hall]].
    { left. split; [done|]. destruct Kmode as [<-|[K _]]; [done|]. exfalso. rewrite E in K. unfold real_mode in K. clear -K. set_solver. }
    right. rewrite Hmodes in Hall. unfold real_mode in Hreal. unfold has_flag.
    destruct (decide (m_currWndMode (w_wnd st) = NkWndMode_Fullscreen)) as [E|Hne].
    + exfalso. apply Hall. rewrite E, (Z.land_comm (ws_allowedWndModes spec)), Z.land_assoc. done.
    + split; [clear -Hreal Hne; set_solver|]. apply negb_true_iff, Z.eqb_neq. intros E. apply Hall.
      rewrite Z.land_assoc, (Z.land_comm _ (ws_allowedWndModes spec)), E. done.
Qed.

(** ** Changing the mode *)
(** The messages the procedure does not answer itself in every case: the place, the size and
    the limits of the size, that the window is to be erased or painted, and those it leaves to
    Windows. *)
Definition handled : list Z :=
  [WM_KEYDOWN; WM_SYSKEYDOWN; WM_KEYUP; WM_SYSKEYUP; WM_LBUTTONDOWN; WM_MBUTTONDOWN; WM_RBUTTONDOWN; WM_XBUTTONDOWN;
   WM_LBUTTONUP; WM_MBUTTONUP; WM_RBUTTONUP; WM_XBUTTONUP; WM_MOUSEMOVE; WM_MOUSEWHEEL; WM_INITMENU; WM_INITMENUPOPUP; WM_SYSCOMMAND;
   WM_CLOSE; WM_DESTROY].
Definition quiet (id : Z) : bool := negb (is_one id handled).
Definition same_mode (hnd : Z) (h h' : H) : Prop := IsZoomed hnd h' = IsZoomed hnd h ∧ IsIconic hnd h' = IsIconic hnd h.
Definition rect_ok (r : RECT) : Prop := INT32_MIN ≤ rc_right r - rc_left r ≤ INT32_MAX ∧ INT32_MIN ≤ rc_bottom r - rc_top r ≤ INT32_MAX.
Context `{MessageNesting}.
(** What Windows and the renderer promise. *)
Class WndHostLaws : Prop := {
  (* showing a window is not user input, and does not close it *)
  calm_law m : calm m = true → quiet (msg_id m) = true;
  show_law hnd cmd h ms h' : ShowWindow hnd cmd h = (ms, h') →
    Forall (λ m, msg_wnd m = hnd ∧ calm m = true) ms ∧
    (cmd = SW_SHOWNORMAL → IsZoomed hnd h' = false ∧ IsIconic hnd h' = false) ∧
    (cmd = SW_SHOWMAXIMIZED → IsZoomed hnd h' = true) ∧
    (cmd = SW_SHOWMINIMIZED → IsZoomed hnd h' = false ∧ IsIconic hnd h' = true);
  (* only the default for [WM_CLOSE] destroys the window *)
  default_law m h r ms h' : DefWindowProc m h = (r, ms, h') → msg_id m ≠ WM_CLOSE →
    Forall (λ m', msg_wnd m' = msg_wnd m ∧ msg_id m' ≠ WM_DESTROY ∧ (depth m' < depth m)%nat) ms;
  (* what follows such a message is of the same kind, and it does not change the mode *)
  calm_default_law m h r ms h' : DefWindowProc m h = (r, ms, h') → calm m = true →
    same_mode (msg_wnd m) h h' ∧ Forall (λ m', calm m' = true) ms;
  depth_law m : (depth m ≤ max_depth)%nat;
  resize_law p dim h : ∃ e h', rd_Resize p dim h = Ret (e, h') ∧ ∀ hnd, same_mode hnd h h';
  query_law p h : ∃ dim, rd_QueryViewportDimensions p h = Ret dim ∧ 0 ≤ m_width dim ≤ INT32_MAX ∧ 0 ≤ m_height dim ≤ INT32_MAX;
  adjust_law r style ex r' : AdjustWindowRectEx r style ex = Some r' → rect_ok r → rect_ok r';
  track_law p ext h hnd : same_mode hnd h (SetMinTrackSize p ext h);
  validate_law wnd h hnd : same_mode hnd h (ValidateRect wnd h);
  client_law hnd h : ∃ r, GetClientRect hnd h = Some r ∧ rect_ok r;
  window_law hnd h : ∃ r, GetWindowRect hnd h = Some r ∧ rect_ok r
}.
Context `{!WndHostLaws}.
(** Nothing happened but in the host, and the mode the host shows is the same. *)
Record settled st st' : Prop := {
  se_wnd : w_wnd st' = w_wnd st;
  se_userdata : w_userdata st' = w_userdata st;
  se_quit : w_quit st' = w_quit st;
  se_layers : w_layers st' = w_layers st;
  se_mode : GetNewWindowMode (mp_nativeHandle (w_wnd st)) (w_host st') = GetNewWindowMode (mp_nativeHandle (w_wnd st)) (w_host st)
}.
Lemma settled_refl st : settled st st.
Proof. done. Qed.
Lemma settled_trans st1 st2 st3 : settled st1 st2 → settled st2 st3 → settled st1 st3.
Proof. intros [] []. split; congruence. Qed.
Lemma settled_host st h : same_mode (mp_nativeHandle (w_wnd st)) (w_host st) h → settled st (set_host st h).
Proof. intros [E1 E2]. split; try done. unfold GetNewWindowMode. cbn [set_host w_host]. by rewrite E1, E2. Qed.
(** The window knows the mode it is shown in. *)
Definition in_mode st : Prop :=
  w_userdata st ≠ NULL ∧ GetNewWindowMode (mp_nativeHandle (w_wnd st)) (w_host st) = m_currWndMode (w_wnd st).
Lemma settled_in_mode st st' : settled st st' → in_mode st → in_mode st'.
Proof. intros [] [? ?]. unfold in_mode. split; congruence. Qed.
(** Then the calm messages in [P] do nothing but in the host. *)
Definition settles (proc : Msg → WndState → outcome (Z * WndState)) (P : Msg → Prop) : Prop :=
  ∀ m st, P m → msg_wnd m = mp_nativeHandle (w_wnd st) → calm m = true → in_mode st →
    ∃ r st', proc m st = Ret (r, st') ∧ settled st st'.
Lemma send_settles proc P ms st :
  settles proc P → Forall (λ m, (msg_wnd m = mp_nativeHandle (w_wnd st) ∧ calm m = true) ∧ P m) ms → in_mode st →
  ∃ st', send proc ms st = Ret st' ∧ settled st st'.
Proof.
  intros Hp Hms. revert st Hms. induction ms as [|m ms IH]; intros st Hms Hin; cbn [send]; [by exists st|].
  apply Forall_cons_iff in Hms as [[[Hw Hq] HP] Hms]. destruct (Hp m st HP Hw Hq Hin) as (r & st1 & -> & Hs). step.
  destruct (IH st1) as (st2 & -> & Hs2); [by rewrite (se_wnd _ _ Hs)|by eapply settled_in_mode|].
  exists st2. split; [done|]. by eapply settled_trans.
Qed.
Lemma calm_not_close m : calm m = true → msg_id m ≠ WM_CLOSE.
Proof. intros Hc%calm_law E. by rewrite E in Hc. Qed.
Lemma default_settles n proc m st :
  settles proc (λ m', (depth m' < n)%nat) → (depth m ≤ n)%nat → msg_wnd m = mp_nativeHandle (w_wnd st) → calm m = true → in_mode st →
  ∃ r st', on_default proc m st = Ret (r, st') ∧ settled st st'.
Proof.
  intros Hp Hd Hw Hq Hin. unfold on_default. destruct (DefWindowProc m (w_host st)) as [[r ms] h] eqn:E.
  destruct (calm_default_law _ _ _ _ _ E Hq) as (Hs & Hcalm). pose proof (default_law _ _ _ _ _ E (calm_not_close m Hq)) as Hms.
  rewrite Hw in *. unfold call_native. cbn [fst snd]. pose proof (settled_host st h Hs) as Hs1.
  destruct (send_settles proc _ ms (set_host st h) Hp) as (st' & -> & Hs2).
  { eapply Forall_impl; [|exact (Forall_and Hcalm Hms)]. intros m' (? & ? & ? & ?). split; [by split|lia]. }
  { by eapply settled_in_mode. }
  step. exists r, st'. split; [done|]. by eapply settled_trans.
Qed.
Lemma client_dim st : ∃ dim, WindowsWindow_GetClientDimensions st = Ret dim.
Proof.
  unfold WindowsWindow_GetClientDimensions, rect_size. destruct (client_law (mp_nativeHandle (w_wnd st)) (w_host st)) as (r & -> & Hw & Hh).
  rewrite (int_op_ok _ Hw). step. rewrite (int_op_ok _ Hh). step. eauto.
Qed.
(** The size: what is left to Windows then is handled in a state that differs in the host only. *)
Lemma size_default proc m st : ∃ st1, settled st st1 ∧ on_size proc m st = on_default proc m st1.
Proof.
  unfold on_size. destruct (_ && _); [|by exists st]. destruct (client_dim st) as [dim ->]. step.
  destruct (resize_law (mp_rendererRef (w_wnd st)) dim (w_host st)) as (e & h & -> & Hs). step. exists (set_host st h). split; [by apply settled_host|done].
Qed.
Lemma i32_small z : 0 ≤ z ≤ INT32_MAX → i32 z = z.
Proof. unfold INT32_MAX. intros Hz. rewrite <- (Z.mod_small z (2 ^ 32)) at 1 by lia. apply i32_mod. unfold INT32_MIN, INT32_MAX. lia. Qed.
(** The limits of the size are told, or left to Windows. *)
Lemma minmax_default proc m st :
  on_minmax proc m st = on_default proc m st ∨ ∃ st', on_minmax proc m st = Ret (0, st') ∧ settled st st'.
Proof.
  unfold on_minmax. destruct (_ || _); [by left|right].
  destruct (query_law (mp_rendererRef (w_wnd st)) (w_host st)) as (dim & -> & Hdw & Hdh). step.
  set (r := mkRECT _ _ _ _). assert (Hr : rect_ok r).
  { unfold rect_ok. cbn [r rc_left rc_right rc_top rc_bottom]. rewrite !i32_small by done. unfold INT32_MIN. lia. }
  set (cl := default r _). assert (Hcl : rect_ok cl).
  { unfold cl. destruct (AdjustWindowRectEx r _ _) as [r'|] eqn:Ea; [|done]. by eapply adjust_law. }
  destruct Hcl as [Hcw Hch]. rewrite (int_op_ok _ Hcw). step. rewrite (int_op_ok _ Hch). step.
  eexists. split; [done|]. apply settled_host, track_law.
Qed.
(** A quiet message is the place, or answered, or left to Windows after at most the host changed. *)
Lemma quiet_body proc m st : quiet (msg_id m) = true →
  msg_id m = WM_WINDOWPOSCHANGED ∧ WndProc_body VT gl_Window proc m st = on_poschanged VT gl_Window proc m st ∨
  ∃ st1, settled st st1 ∧
    (WndProc_body VT gl_Window proc m st = on_default proc m st1 ∨ ∃ r, WndProc_body VT gl_Window proc m st = Ret (r, st1)).
Proof.
  intros Hq%negb_true_iff. unfold WndProc_body, is_one, handled in *. cbn [existsb] in *. cbv zeta.
  repeat (apply orb_false_iff in Hq as [-> Hq]). cbn [orb].
  destruct (msg_id m =? WM_SIZE) eqn:Es; [right; destruct (size_default proc m st) as (st1 & ? & ?); exists st1; auto|].
  destruct (Z.eqb_spec (msg_id m) WM_WINDOWPOSCHANGED); [by left|right].
  destruct (msg_id m =? WM_GETMINMAXINFO).
  { destruct (minmax_default proc m st) as [E|(st' & E & ?)]; [exists st|exists st']; eauto using settled_refl. }
  destruct (msg_id m =? WM_ERASEBKGND); [by exists st; eauto using settled_refl|].
  destruct (msg_id m =? WM_PAINT); [|by exists st; eauto using settled_refl].
  eexists. split; [|right; by eexists]. apply settled_host, validate_law.
Qed.
(** A window that knows its mode does not change it, however deep the messages nest. *)
Lemma proc_settles n : settles (WndProc VT gl_Window n) (λ m, (depth m < n)%nat).
Proof.
  induction n as [|n IH]; intros m st HP Hw Hq Hin; [lia|]. cbn [WndProc].
  assert (Hd : ∀ st1, settled st st1 → ∃ r st', on_default (WndProc VT gl_Window n) m st1 = Ret (r, st') ∧ settled st st').
  { intros st1 Hs. destruct (default_settles n _ m st1 IH) as (r & st' & -> & Hs'); [lia|by rewrite (se_wnd _ _ Hs)|done|by eapply settled_in_mode|].
    exists r, st'. split; [done|]. by eapply settled_trans. }
  destruct (quiet_body (WndProc VT gl_Window n) m st (calm_law m Hq)) as [[_ ->]|(st1 & Hs & [->|(r & ->)])]; [|by apply Hd|by exists r, st1].
  unfold on_poschanged, the_wnd. destruct Hin as [Hu Hm]. rewrite (proj2 (Z.eqb_neq _ _) Hu). step. rewrite Hw, Hm, Z.eqb_refl. cbn [negb]. by apply Hd, settled_refl.
Qed.
Lemma all_settle n : (max_depth < n)%nat → settles (WndProc VT gl_Window n) (λ _, True).
Proof. intros Hn m st _. apply proc_settles. pose proof (depth_law m). lia. Qed.
Lemma rect_sized r : rect_ok r → ∃ d, rect_size r = Ret d.
Proof. intros [Hw Hh]. unfold rect_size. rewrite (int_op_ok _ Hw). step. rewrite (int_op_ok _ Hh). step. eauto. Qed.
Lemma sized hnd b h : ∃ d, GetWindowSize hnd b h = Ret d.
Proof.
  unfold GetWindowSize. destruct b.
  - destruct (client_law hnd h) as (r & -> & Hr). by apply rect_sized.
  - destruct (window_law hnd h) as (r & -> & Hr). by apply rect_sized.
Qed.

(** The modes a native window can be in, with their events. *)
Definition mode_events : list (Z * NkEventType) :=
  [(NkWndMode_Minimized, NkEv_WindowMinimized); (NkWndMode_Maximized, NkEv_WindowMaximized); (NkWndMode_Normal, NkEv_WindowRestored)].
Lemma mode_changed n mode ty st :
  (mode, ty) ∈ mode_events →
  w_userdata st ≠ NULL → Z.land mode (m_allowedWndModes (w_wnd st)) ≠ 0 → (max_depth < n)%nat →
  ∃ h client total, let hnd := mp_nativeHandle (w_wnd st) in
    GetNewWindowMode hnd h = mode ∧ GetWindowSize hnd true h = Ret client ∧ GetWindowSize hnd false h = Ret total ∧
    WindowsWindow_SetWindowMode VT gl_Window (WndProc VT gl_Window n) mode st =
      dispatch VT ty (window_event gl_Window (0, 0) total client mode) (set_host (set_wnd st (with_mode (w_wnd st) mode)) h).
Proof.
  intros Hmode Hu Hall Hn. unfold mode_events in Hmode. unfold WindowsWindow_SetWindowMode. rewrite (proj2 (Z.eqb_neq _ _) Hall).
  set (st0 := set_wnd st (with_mode (w_wnd st) mode)). set (hnd := mp_nativeHandle (w_wnd st)).
  destruct (ShowWindow hnd (TranslateWindowModeToShowCommand mode) (w_host st)) as [ms h1] eqn:Esh.
  destruct (show_law _ _ _ _ _ Esh) as (Hms & Hnorm & Hmax & Hmin).
  assert (Hm1 : GetNewWindowMode hnd h1 = mode).
  { unfold GetNewWindowMode. repeat (apply elem_of_cons in Hmode as [[= -> ->]|Hmode]); [..|by apply not_elem_of_nil in Hmode].
    - by destruct (Hmin eq_refl) as [-> ->].
    - by rewrite (Hmax eq_refl).
    - by destruct (Hnorm eq_refl) as [-> ->]. }
  destruct (send_settles _ _ ms (set_host st0 h1) (all_settle n Hn)) as (st1 & Hsend & Hset).
  { eapply Forall_impl; [|exact Hms]. by intros m [? ?]. }
  { by split. }
  destruct Hset as [E1 E2 E3 E4 E5]. cbn [st0 set_host set_wnd w_wnd w_userdata w_quit w_layers w_host with_mode mp_nativeHandle] in E1, E2, E3, E4, E5.
  destruct (sized hnd true (w_host st1)) as [client Hc], (sized hnd false (w_host st1)) as [total Ht].
  exists (w_host st1), client, total. cbv zeta. split; [fold hnd in E5; congruence|]. split; [done|]. split; [done|].
  assert (Est : st1 = set_host st0 (w_host st1)) by (destruct st1; cbn in *; unfold set_host, st0, set_wnd; cbn; congruence).
  assert (Hb : Z.land mode (mode - 1) =? 0 = true ∧ TranslateWindowModeToShowCommand mode =? INT32_MAX = false ∧
               NkWindowMapEventTypeFromWindowMode mode = Ret ty).
  { repeat (apply elem_of_cons in Hmode as [[= -> ->]|Hmode]); [done..|by apply not_elem_of_nil in Hmode]. }
  destruct Hb as (-> & -> & ->). cbn [NK_ASSERT negb mbind outcome_bind]. unfold call_native. cbn [st0 w_wnd set_wnd with_mode mp_nativeHandle w_host].
  fold hnd. rewrite Esh. cbn [fst snd]. rewrite Hsend. step. rewrite E1. cbn [with_mode mp_nativeHandle]. fold hnd. rewrite Ht. step. rewrite Hc. step.
  by rewrite Est.
Qed.

(** Hiding the window is never reported: there is no event for it, and the one of number 0
    fails the assertion of the dispatcher. *)
Lemma window_hide_never_returns n st e st' :
  Z.land NkWndMode_Hidden (m_allowedWndModes (w_wnd st)) ≠ 0 →
  WindowsWindow_SetWindowMode VT gl_Window (WndProc VT gl_Window n) NkWndMode_Hidden st ≠ Ret (e, st').
Proof.
  intros Hall [[_ [|]]|(Hr & _)]%set_mode_inv; [done|done|unfold real_mode in Hr; set_solver|apply proc_keeps].
Qed.
(** The default mode is two modes, and setting it fails an assertion. *)
Lemma window_default_mode_halts proc st :
  WindowsWindow_SetWindowMode VT gl_Window proc NkWndMode_Default st = Halt NkErr_InParameter.
Proof. reflexivity. Qed.

(** ** Mouse movement *)
(** The messages whose position differs from the one before. *)
Fixpoint moves (last : Z * Z) (ms : list Msg) : list Msg :=
  match ms with
  | [] => []
  | m :: ms => if decide (cursor m = last) then moves last ms else m :: moves (cursor m) ms
  end.
Fixpoint dispatch_moves (ms : list Msg) st : outcome WndState :=
  match ms with
  | [] => Ret st
  | m :: ms =>
      let st := set_wnd st (with_mouse (w_wnd st) (cursor m)) in
      '(_, st) ← dispatch VT NkEv_MouseMoved (mouse_event (cursor m) (ClientToScreen (msg_wnd m) (cursor m) (w_host st)) (btn_code NkBtn_Unknown)) st;
      dispatch_moves ms st
  end.
Lemma moves_spec last ms : moves last ms `sublist_of` ms ∧
  ∀ i m, moves last ms !! i = Some m → cursor m ≠ match i with O => last | S i => default last (cursor <$> moves last ms !! i) end.
Proof.
  revert last. induction ms as [|m ms IH]; intros last; cbn [moves]; [split; [done|by intros []]|].
  case_decide as E; [destruct (IH last) as [IH1 IH2]; split; [by constructor|done]|]. destruct (IH (cursor m)) as [IH1 IH2]. split; [by constructor|].
  intros [|i] m'; cbn [lookup list_lookup]; [by intros [= <-]|]. intros Hi. pose proof (IH2 i m' Hi) as K. destruct i as [|i]; [done|].
  change ((m :: moves (cursor m) ms) !! S i) with (moves (cursor m) ms !! i). destruct (moves (cursor m) ms !! i) eqn:E'; [done|].
  exfalso. apply lookup_ge_None in E'. apply lookup_lt_Some in Hi. lia.
Qed.
(** Of a run of mouse messages exactly those reach the layers whose position differs from the position
    before, in their order; spurious ones have no effect at all. *)
Theorem window_mouse_moves n ms st :
  Forall (λ m, msg_id m = WM_MOUSEMOVE) ms → w_userdata st ≠ NULL →
  send (WndProc VT gl_Window (S n)) ms st = dispatch_moves (moves (m_lastMousePos (w_wnd st)) ms) st ∧
  moves (m_lastMousePos (w_wnd st)) ms `sublist_of` ms ∧
  ∀ i m, moves (m_lastMousePos (w_wnd st)) ms !! i = Some m →
    cursor m ≠ match i with O => m_lastMousePos (w_wnd st) | S i => default (m_lastMousePos (w_wnd st)) (cursor <$> moves (m_lastMousePos (w_wnd st)) ms !! i) end.
Proof.
  intros Hms Hu. split; [|apply moves_spec]. revert st Hu. induction ms as [|m ms IH]; intros st Hu; cbn [send moves]; [done|].
  apply Forall_cons_iff in Hms as [Hid Hms]. cbn [WndProc]. unfold WndProc_body. rewrite Hid. cbv zeta.
  change (is_one WM_MOUSEMOVE _) with false at 1. change (is_one WM_MOUSEMOVE _) with false at 1. change (WM_MOUSEMOVE =? WM_MOUSEMOVE) with true. cbv iota.
  unfold on_mousemove, the_wnd. rewrite (proj2 (Z.eqb_neq _ _) Hu). step.
  destruct (decide (cursor m = m_lastMousePos (w_wnd st))) as [E|Hne].
  - rewrite E, !Z.eqb_refl. step. by apply IH.
  - assert (((m_lastMousePos (w_wnd st)).1 =? (cursor m).1) && ((m_lastMousePos (w_wnd st)).2 =? (cursor m).2) = false) as ->.
    { apply andb_false_iff. rewrite !Z.eqb_neq. destruct (Z.eq_dec (m_lastMousePos (w_wnd st)).1 (cursor m).1) as [E1|]; [right|by left].
      intros E2. apply Hne. rewrite (surjective_pairing (cursor m)), (surjective_pairing (m_lastMousePos (w_wnd st))). congruence. }
    cbn [dispatch_moves]. rewrite bind_assoc. destruct (dispatch VT NkEv_MouseMoved _ _) as [[e st1]| | |] eqn:Ed; [|done..]. step.
    apply dispatch_inv in Ed as (Ew & Eu & _). etrans; [apply (IH Hms st1); by rewrite Eu|]. by rewrite Ew.
Qed.
End window.

(** ** The initial position *)
Lemma centred W width : 0 ≤ W ≤ INT32_MAX → 0 ≤ width < 2 ^ 31 → i32 (i64 (u64 (W - width) / 2)) = (W - width) / 2.
Proof.
  unfold INT32_MAX. intros HW Hw. unfold wrapN, swrapN. change (64 - 1) with 63. change (32 - 1) with 31.
  assert (Hd : (W - width) mod 2 ^ 64 = W - width + (if W <? width then 2 ^ 64 else 0)).
  { destruct (Z.ltb_spec W width).
    - symmetry. apply (Z.mod_unique_pos _ _ (-1)); lia.
    - rewrite Z.mod_small; lia. }
  rewrite Hd. destruct (Z.ltb_spec W width).
  - change (2 ^ 64) with (2 ^ 63 * 2). rewrite Z.div_add by lia.
    assert (- 2 ^ 30 ≤ (W - width) / 2 < 0) by (Z.to_euclidean_division_equations; lia). set (q := (W - width) / 2) in *. clearbody q.
    rewrite (Z.mod_small (q + 2 ^ 63 + 2 ^ 63)) by lia. symmetry.
    replace (q + 2 ^ 63 + 2 ^ 63 - 2 ^ 63 + 2 ^ 31) with (q + 2 ^ 31 + 2 ^ 31 * 2 ^ 32) by lia. rewrite Z.mod_add, Z.mod_small by lia. lia.
  - rewrite Z.add_0_r. assert (0 ≤ (W - width) / 2 < 2 ^ 31) by (Z.to_euclidean_division_equations; lia). set (q := (W - width) / 2) in *. clearbody q.
    rewrite (Z.mod_small (q + 2 ^ 63)) by lia. replace (q + 2 ^ 63 - 2 ^ 63 + 2 ^ 31) with (q + 2 ^ 31) by lia. rewrite Z.mod_small by lia. lia.
Qed.
(** The place at which a window of the given size is in the middle of the area (rounded down). *)
Definition centre (wa : RECT) (width height : Z) : Z * Z :=
  (rc_left wa + (rc_right wa - rc_left wa - width) / 2, rc_top wa + (rc_bottom wa - rc_top wa - height) / 2).
(** C38: where a window starts.  Although the extents are unsigned and the difference of the sizes wraps
    around, each coordinate handed to Windows is half of the true difference, rounded down, for a window
    larger than the work area too.  That is the middle of the work area less the corner the area begins at,
    so the window starts in the middle exactly when the work area begins at the corner of the screen. *)
Theorem window_starts_centred {H : Type} `{WndHost H} wa width height :
  WorkArea = Some wa → 0 ≤ rc_right wa - rc_left wa ≤ INT32_MAX → 0 ≤ rc_bottom wa - rc_top wa ≤ INT32_MAX →
  0 ≤ width < 2 ^ 31 → 0 ≤ height < 2 ^ 31 →
  ∃ p, NkCalculateInitialWindowPos (mkSize2D width height) = Ret p ∧
    i32 p.1 = (centre wa width height).1 - rc_left wa ∧ i32 p.2 = (centre wa width height).2 - rc_top wa ∧
    ((i32 p.1, i32 p.2) = centre wa width height ↔ rc_left wa = 0 ∧ rc_top wa = 0).
Proof.
  intros Hwa HW HH Hw Hh. unfold NkCalculateInitialWindowPos. rewrite Hwa.
  rewrite !int_op_ok by (unfold INT32_MIN; lia). step. eexists. split; [done|]. cbn [fst snd].
  assert (E1 := centred _ _ HW Hw). assert (E2 := centred _ _ HH Hh). cbn [m_width m_height]. rewrite E1, E2. unfold centre. cbn [fst snd].
  split; [lia|]. split; [lia|]. split; [intros [=]; lia|intros [-> ->]; f_equal; lia].
Qed.

(** ** Keys *)
Section keys.
Context {User H : Type} `{WndHost H} `{WndRenderer H} `{NativeInputLaws} (VT : NkILayer NkEvent User) (gl_Window : Z).
Notation WndState := (WndState User H).

Definition key_event_type (m : Msg) : NkEventType :=
  if is_one (msg_id m) [WM_KEYUP; WM_SYSKEYUP] then NkEv_KeyboardKeyUp
  else if (msg_id m =? WM_KEYDOWN) && has_flag (lParam m) (Z.shiftl 1 30) then NkEv_KeyboardKeyRepeated else NkEv_KeyboardKeyDown.
Definition key_messages : list Z := [WM_KEYDOWN; WM_SYSKEYDOWN; WM_KEYUP; WM_SYSKEYUP].
Lemma key_body proc m (st : WndState) :
  msg_id m ∈ key_messages → w_userdata st ≠ NULL → mp_ialRef (w_wnd st) ≠ NULL →
  WndProc_body VT gl_Window proc m st =
    ('(_, st) ← dispatch VT (key_event_type m) (keyboard_event (i32 (Z.land (lParam m) 0x00FF0000)) (i32 (wParam m)) (MapFromNativeKey (i32 (wParam m)))) st;
     Ret (0, st)).
Proof.
  intros Hid Hu Hi. assert (Hone : is_one (msg_id m) [WM_KEYDOWN; WM_SYSKEYDOWN; WM_KEYUP; WM_SYSKEYUP] = true).
  { unfold is_one. apply existsb_exists. exists (msg_id m). split; [by apply list_elem_of_In|apply Z.eqb_refl]. }
  unfold WndProc_body. cbv zeta. rewrite Hone. unfold on_key, the_wnd. rewrite (proj2 (Z.eqb_neq _ _) Hu). step. rewrite (proj2 (Z.eqb_neq _ _) Hi).
  f_equal. f_equal. unfold key_event_type, MapFromNativeInputEvent.
  repeat (apply elem_of_cons in Hid as [->|Hid]; [by destruct (has_flag _ _)|]). by apply not_elem_of_nil in Hid.
Qed.
(** A dispatched keyboard event, as the layers get it. *)
Lemma dispatch_key ty p nt k (st : WndState) :
  ty ∈ [NkEv_KeyboardKeyDown; NkEv_KeyboardKeyUp; NkEv_KeyboardKeyRepeated] →
  dispatch VT ty (keyboard_event p nt k) st =
    ('(e, ls) ← NkLayerstackOnEvent VT (mkEvent ty (Z.lor NkEvCat_Input NkEvCat_Keyboard) (CurrentTicks (w_host st)) (keyboard_event p nt k ++ replicate 48 0)) (w_layers st);
     Ret (e, set_layers st ls)).
Proof.
  intros Hty. unfold dispatch, NkEventDispatch. assert (Hb : build_event (ev_number ty) (CurrentTicks (w_host st)) (keyboard_event p nt k) =
    Ret (mkEvent ty (Z.lor NkEvCat_Input NkEvCat_Keyboard) (CurrentTicks (w_host st)) (keyboard_event p nt k ++ replicate 48 0))).
  { repeat (apply elem_of_cons in Hty as [->|Hty]; [reflexivity|]). by apply not_elem_of_nil in Hty. }
  by rewrite Hb.
Qed.

Lemma key_event_in m : key_event_type m ∈ [NkEv_KeyboardKeyDown; NkEv_KeyboardKeyUp; NkEv_KeyboardKeyRepeated].
Proof. unfold key_event_type. repeat case_match; set_solver. Qed.
Lemma event_native p nt k rest : take 4 (drop 4 (keyboard_event p nt k ++ rest)) = le_bytes 4 nt.
Proof. reflexivity. Qed.
Lemma event_key p nt k rest : take 4 (drop 8 (keyboard_event p nt k ++ rest)) = le_bytes 4 k.
Proof. reflexivity. Qed.

(** C33: a key message for a key Noriko knows reaches the layers as one keyboard event with the Noriko code
    and the native code of that key, whatever its scan code; it is a repetition when the message says the
    key was down before, except with the Alt key held, where repetitions look like first presses.  The context
    key is left out (it is in neither table), and the key is the one the message's native
    code names: for the Shift, Control and Alt keys Windows sends a code that does not tell left from right. *)
Theorem window_key_event n k m (st : WndState) :
  msg_id m ∈ key_messages → k ≠ NkKey_Unknown → k ≠ NkKey_Context → wParam m = MapToNativeKey (key_code k) →
  w_userdata st ≠ NULL → mp_ialRef (w_wnd st) ≠ NULL →
  ∃ ev, ev_type ev = key_event_type m ∧ ev_cat ev = Z.lor NkEvCat_Input NkEvCat_Keyboard ∧
    le_value (take 4 (drop 4 (ev_data ev))) = MapToNativeKey (key_code k) ∧ le_value (take 4 (drop 8 (ev_data ev))) = key_code k ∧
    (has_flag (lParam m) (Z.shiftl 1 30) = true → msg_id m = WM_SYSKEYDOWN → ev_type ev = NkEv_KeyboardKeyDown) ∧
    WndProc VT gl_Window (S n) m st = ('(_, ls) ← NkLayerstackOnEvent VT ev (w_layers st); Ret (0, set_layers st ls)).
Proof.
  intros Hid Hk1 Hk2 Hw Hu Hi. pose proof (mapped_all k Hk1 Hk2) as Hin. apply list_elem_of_fmap in Hin as ([nt k'] & Hk & Hin). cbn in Hk. subst k'.
  destruct (key_entry nt k Hin) as [E1 E2].
  assert (Hn : 0 < native_code nt < 256).
  { apply native_code_range. pose proof natives_ok as Hok. rewrite list.Forall_forall in Hok. apply Hok. apply list_elem_of_fmap. by exists (nt, k). }
  assert (Hw32 : i32 (wParam m) = native_code nt) by (rewrite Hw, E2; unfold swrapN; change (32 - 1) with 31; rewrite Z.mod_small; lia).
  pose proof (key_code_range k) as Hkr.
  exists (mkEvent (key_event_type m) (Z.lor NkEvCat_Input NkEvCat_Keyboard) (CurrentTicks (w_host st))
            (keyboard_event (i32 (Z.land (lParam m) 0x00FF0000)) (native_code nt) (key_code k) ++ replicate 48 0)).
  cbn [ev_type ev_cat ev_data]. split; [done|]. split; [done|]. split; [|split; [|split]].
  - rewrite E2, event_native. apply le_value_roundtrip. lia.
  - rewrite event_key. apply le_value_roundtrip. lia.
  - intros _ Hs. unfold key_event_type. by rewrite Hs.
  - cbn [WndProc]. rewrite (key_body _ _ _ Hid Hu Hi), Hw32, E1, (dispatch_key _ _ _ _ _ (key_event_in m)), bind_assoc.
    apply bind_ext. by intros [e ls].
Qed.
End keys.

(** ** Mouse buttons, with the codes of the Windows headers

    The low half of the parameter holds the buttons and modifiers that are down
    ([MK_LBUTTON] is 1, [MK_SHIFT] 4, [MK_MBUTTON] 16, [MK_XBUTTON1] 32), which is not the
    code of a button: releasing the left button and pressing the middle one report no
    button, pressing the left one with Shift the fourth, and the first extra button is
    reported as the left one. *)
Lemma window_button_reported {User H : Type} `{WndHost H} (VT : NkILayer NkEvent User) m b (st : WndState User H) :
  (msg_id m, wParam m, b) ∈ [(WM_LBUTTONDOWN, 1, NkBtn_LeftButton); (WM_LBUTTONUP, 0, NkBtn_Unknown); (WM_MBUTTONDOWN, 16, NkBtn_Unknown);
                             (WM_LBUTTONDOWN, 5, NkBtn_Button4); (WM_XBUTTONDOWN, Z.lor (Z.shiftl 1 16) 32, NkBtn_LeftButton)] →
  w_userdata st ≠ NULL → mp_ialRef (w_wnd st) ≠ NULL →
  on_button VT m st =
    ('(_, st) ← dispatch VT (MapFromNativeInputEvent (msg_id m))
                  (mouse_event (cursor m) (ClientToScreen (msg_wnd m) (cursor m) (w_host st)) (btn_code b)) st; Ret (0, st)).
Proof.
  intros Hin Hu Hi. unfold on_button, the_wnd. rewrite (proj2 (Z.eqb_neq _ _) Hu). step. rewrite (proj2 (Z.eqb_neq _ _) Hi).
  assert (MapFromNativeMouseButton (i32 (Z.shiftr (wParam m) (Z.b2z (is_one (msg_id m) [WM_XBUTTONDOWN; WM_XBUTTONUP]) * 16))) = btn_code b) as ->; [|done].
  repeat (apply elem_of_cons in Hin as [[= -> -> ->]|Hin]; [by vm_compute|]). by apply not_elem_of_nil in Hin.
Qed.

(** ** A host: one window that is zoomed, iconic or neither *)
(** What the close button sends with [WM_SYSCOMMAND]. *)
Definition SC_CLOSE : Z := 0xF060.
Definition WM_ACTIVATE : Z := 0x6.
Definition WM_SETFOCUS : Z := 0x7.
Definition WM_WINDOWPOSCHANGING : Z := 0x46.
Definition WM_NCLBUTTONDOWN : Z := 0xA1.
Definition HTCLOSE : Z := 20.
Inductive ToyHost := toy_host (zoomed iconic : bool).
(** What Windows sends for a message left to it: the limits of the size before a new place, the size
    after it, the focus to a window that is activated, a command for a press on the close button. *)
Definition toy_follow (m : Msg) : list Msg :=
  let to id w := [mkMsg (msg_wnd m) id w 0] in
  if msg_id m =? WM_WINDOWPOSCHANGING then to WM_GETMINMAXINFO 0
  else if msg_id m =? WM_WINDOWPOSCHANGED then to WM_SIZE 0
  else if msg_id m =? WM_ACTIVATE then to WM_SETFOCUS 0
  else if msg_id m =? WM_NCLBUTTONDOWN then (if wParam m =? HTCLOSE then to WM_SYSCOMMAND SC_CLOSE else [])
  else if msg_id m =? WM_SYSCOMMAND then (if Z.land (wParam m) 0xFFF0 =? SC_CLOSE then to WM_CLOSE 0 else [])
  else [].
#[export] Instance toy_nesting : MessageNesting := {
  calm m := is_one (msg_id m) [WM_WINDOWPOSCHANGING; WM_WINDOWPOSCHANGED; WM_ACTIVATE; WM_GETMINMAXINFO; WM_SIZE; WM_SETFOCUS];
  depth m := if msg_id m =? WM_NCLBUTTONDOWN then 2%nat
             else if is_one (msg_id m) [WM_WINDOWPOSCHANGING; WM_WINDOWPOSCHANGED; WM_ACTIVATE; WM_SYSCOMMAND] then 1%nat else O;
  max_depth := 2
}.
Definition toy_rect : RECT := mkRECT 0 0 640 480.
#[export] Instance toy_wnd_host : WndHost ToyHost := {
  RegisterClassEx h := (true, h);
  UnregisterClass h := h;
  AdjustWindowRectEx r _ _ := Some r;
  CreateWindowEx _ h := (42, [mkMsg 42 WM_GETMINMAXINFO 0 0], h);
  DestroyWindow _ h := ([mkMsg 42 WM_DESTROY 0 0], h);
  ShowWindow hnd cmd h := ([mkMsg hnd WM_WINDOWPOSCHANGING 0 0; mkMsg hnd WM_ACTIVATE 1 0; mkMsg hnd WM_WINDOWPOSCHANGED 0 0],
    if cmd =? SW_HIDE then h else toy_host (cmd =? SW_SHOWMAXIMIZED) (cmd =? SW_SHOWMINIMIZED));
  SetWindowPos _ h := ([], h);
  DefWindowProc m h := (0, toy_follow m, h);
  IsZoomed _ h := let '(toy_host z _) := h in z;
  IsIconic _ h := let '(toy_host _ i) := h in i;
  GetClientRect _ _ := Some toy_rect;
  GetWindowRect _ _ := Some (mkRECT 10 10 670 520);
  ClientToScreen _ p _ := (p.1 + 10, p.2 + 10);
  GetStyle _ _ := 0;
  GetExStyle _ _ := 0;
  SetStyle _ _ h := h;
  GetSystemMenu _ _ := 5;
  DisableMenuItem _ _ h := h;
  ValidateRect _ h := h;
  SetDarkMode _ h := h;
  SetMinTrackSize _ _ h := h;
  MaximizedExtents := (1920, 1080);
  WorkArea := Some (mkRECT 0 0 1920 1040);
  CurrentTicks _ := 99
}.
#[export] Instance toy_wnd_renderer : WndRenderer ToyHost := {
  rd_create _ _ h := Ret (NkErr_Ok, 77, h);
  rd_Resize _ _ h := Ret (NkErr_Ok, h);
  rd_QueryViewportDimensions _ _ := Ret (mkSize2D 320 240);
  rd_AddRef _ h := Ret h;
  rd_Release _ h := Ret h
}.
#[export] Instance toy_wnd_laws : WndHostLaws (H := ToyHost).
Proof.
  split.
  - intros m (x & Hin & ->%Z.eqb_eq)%existsb_exists. apply list_elem_of_In in Hin.
    repeat (apply elem_of_cons in Hin as [->|Hin]; [reflexivity|]). by apply not_elem_of_nil in Hin.
  - intros hnd cmd h ms h' [= <- <-]. split; [by repeat constructor|]. split_and!; by intros ->.
  - intros m h r ms h' [= _ <- _] _. unfold toy_follow.
    repeat match goal with |- context [if ?a =? ?b then _ else _] => destruct (Z.eqb_spec a b) as [?E|] end; try by constructor.
    all: constructor; [|done]; split; [done|]; cbn [msg_id]; split; [done|]; unfold depth, toy_nesting; rewrite E; cbn; lia.
  - intros m h r ms h' [= _ <- <-] Hc. split; [done|]. apply existsb_exists in Hc as (x & Hin & Ex%Z.eqb_eq). apply list_elem_of_In in Hin. subst x.
    unfold toy_follow. repeat (apply elem_of_cons in Hin as [->|Hin]; [by repeat constructor|]). by apply not_elem_of_nil in Hin.
  - intros m. unfold depth, max_depth, toy_nesting. repeat case_match; lia.
  - intros p dim h. by exists NkErr_Ok, h.
  - intros p h. exists (mkSize2D 320 240). cbn. unfold INT32_MAX. split; [done|lia].
  - by intros r style ex r' [= <-].
  - done.
  - done.
  - intros hnd h. exists toy_rect. by vm_compute.
  - intros hnd h. exists (mkRECT 10 10 670 520). by vm_compute.
Qed.
Definition toy_wnd_spec : NkWindowSpecification :=
  mkWndSpec NkRdApi_Win32GDI 1 true (mkSize2D 20 15) (mkSize2D 16 16) (Z.lor NkWndMode_Normal NkWndMode_Minimized) NkWndMode_Normal
    (Z.lor NkWndFlag_MainWindow NkWndFlag_DragMovable) NULL Window_Uuid 0.
Definition toy_wnd_start : WndState (list Z) ToyHost :=
  mkState zero_window NULL [] (toy_host false false) (mkLayerStack (Some (example_vec false)) []).
Definition wnd_result {A} (o : outcome (A * WndState (list Z) ToyHost)) : WndState (list Z) ToyHost := match o with Ret (_, st) => st | _ => toy_wnd_start end.
Definition toy_opened : WndState (list Z) ToyHost := wnd_result (WindowsWindow_Initialize event_VT 1000 4 600 toy_wnd_spec toy_wnd_start).
Lemma toy_opened_reach : wnd_reach event_VT 1000 toy_wnd_spec toy_opened toy_opened.
Proof. apply (wr_start _ _ _ _ 4 600 toy_wnd_start); [done|]. vm_compute. reflexivity. Qed.
(** Minimised, and then told the flags may change. *)
Definition toy_minimised : WndState (list Z) ToyHost :=
  wnd_result (WindowsWindow_SetWindowMode event_VT 1000 (WndProc event_VT 1000 4) NkWndMode_Minimized toy_opened).
Lemma window_reachable_witness :
  wnd_reach event_VT 1000 toy_wnd_spec toy_opened toy_minimised ∧ mp_nativeHandle (w_wnd toy_minimised) = 42 ∧
  WindowsWindow_GetWindowFlag NkWndFlag_MainWindow toy_minimised = true ∧ m_allowedWndModes (w_wnd toy_minimised) = 9 ∧
  m_currWndMode (w_wnd toy_minimised) = NkWndMode_Minimized.
Proof.
  assert (Hr : wnd_reach event_VT 1000 toy_wnd_spec toy_opened toy_minimised).
  { eapply (wr_mode _ _ _ _ _ 4 NkWndMode_Minimized NkErr_Ok); [exact toy_opened_reach|]. vm_compute. reflexivity. }
  destruct (window_reachable event_VT 1000 toy_wnd_spec toy_opened toy_minimised Hr) as (_ & Hh & _ & _ & _ & Hm & Hf & _).
  split; [exact Hr|]. split; [rewrite Hh; reflexivity|]. split; [|split; [rewrite Hm; reflexivity|reflexivity]].
  rewrite (Hf NkWndFlag_MainWindow); [reflexivity|apply (bool_decide_unpack _); by vm_compute].
Defined.
Lemma toy_opened_user : w_userdata toy_opened ≠ NULL.
Proof. by vm_compute. Qed.
Definition toy_moves : list Msg := [mkMsg 42 WM_MOUSEMOVE 0 0; mkMsg 42 WM_MOUSEMOVE 0 0x50003; mkMsg 42 WM_MOUSEMOVE 0 0x50003].
Lemma window_mouse_moves_witness :
  send (WndProc event_VT 1000 1) toy_moves toy_opened = dispatch_moves event_VT [mkMsg 42 WM_MOUSEMOVE 0 0x50003] toy_opened.
Proof.
  apply (window_mouse_moves event_VT 1000 0 toy_moves toy_opened).
  - repeat constructor.
  - exact toy_opened_user.
Defined.
Lemma window_starts_centred_witness : ∃ x y,
  NkCalculateInitialWindowPos (H := ToyHost) (mkSize2D 2001 480) = Ret (x, y) ∧ i32 x = -41 ∧ i32 y = 280.
Proof.
  destruct (window_starts_centred (H := ToyHost) (mkRECT 0 0 1920 1040) 2001 480) as ([x y] & E & Hx & Hy & _);
    [reflexivity|cbn; unfold INT32_MAX; lia..|].
  exists x, y. split; [exact E|]. split; [exact Hx|exact Hy].
Defined.
(** Alt and F4, held. *)
Definition toy_key : Msg := mkMsg 42 WM_SYSKEYDOWN 115 0x403E0001.
Lemma window_key_event_witness : ∃ ev, ev_type ev = NkEv_KeyboardKeyDown ∧ le_value (take 4 (drop 8 (ev_data ev))) = key_code NkKey_F4 ∧
  WndProc event_VT 1000 1 toy_key toy_opened = ('(_, ls) ← NkLayerstackOnEvent event_VT ev (w_layers toy_opened); Ret (0, set_layers toy_opened ls)).
Proof.
  destruct (window_key_event event_VT 1000 0 NkKey_F4 toy_key toy_opened) as (ev & Et & _ & _ & Ek & _ & E).
  - apply (bool_decide_unpack _); by vm_compute.
  - discriminate.
  - discriminate.
  - reflexivity.
  - exact toy_opened_user.
  - by vm_compute.
  - exists ev. split; [exact Et|]. split; [exact Ek|exact E].
Defined.
