(* ===== verification/Session.v ===== *)
(** * A session: the main window, the message queue and the main loop together

    The main loop of [application.c] with the pump of [winloop.c] is run on the window of
    [winwindow.c] and its layers: the queue hands out what the user does, the window
    procedure turns it into events, and closing the main window ends the program.  The
    window procedure and the loop are the ones of [Window] and [App].  The message queue is
    a parameter, the class [MessageQueue]; what Windows documents of it is its law. *)
From S2P Require Import Prelude Float32 Vector Util NkOM Bmp Layer Event Registry App Error Runtime Input Renderer Window WindowRun.

(** ** The queue *)
(** What the loop calls on Windows and the renderer besides the window procedure.  A key is
    translated to at most [translate_max] characters, which are posted as messages. *)
Class SessionHost (H : Type) := {
  TranslateMessage : Msg → H → list Msg * H;
  translate_max : nat;
  ReadTicks : H → Z * H;                 (* [NkTimerGetCurrentTicks] *)
  rd_BeginDraw : Z → H → outcome H;
  rd_EndDraw : Z → H → outcome H
}.
(** What [PeekMessage] finds: nothing, a message, or [WM_QUIT] with its exit code. *)
Inductive Peeked := PkNone | PkMessage (m : Msg) | PkQuit (errCode : NkErrorCode).
(** [PeekMessage] gets the exit codes posted.  [future] is what the queue is going to answer, in
    order: a message, or that it is empty for now. *)
Class MessageQueue (Qu : Type) := {
  PeekMessage : list NkErrorCode → Qu → Peeked * Qu;
  PostMessages : list Msg → Qu → Qu;
  future : Qu → list (option Msg)
}.
(** Messages come first, then the exit code posted last; posted messages come before later input. *)
Class QueueLaws (Qu : Type) `{MessageQueue Qu} : Prop := {
  peek_message_law posted q m rest : future q = Some m :: rest → ∃ q', PeekMessage posted q = (PkMessage m, q') ∧ future q' = rest;
  peek_empty_law posted q : head (future q) ∈ [None; Some None] →
    ∃ q', PeekMessage posted q = (match list.last posted with Some errCode => PkQuit errCode | None => PkNone end, q') ∧ future q' = tail (future q);
  post_law ms q : future (PostMessages ms q) = (Some <$> ms) ++ future q
}.

Section session.
Context {User H Qu : Type} `{WndHost H} `{WndRenderer H} `{NativeInput} `{SessionHost H} `{MessageQueue Qu} (VT : NkILayer NkEvent User) (gl_Window : Z).
Notation WndState := (WndState User H).

(** [s_currMsg] is the message taken from the queue and not dispatched yet; the exit codes posted
    so far are those of the window's state. *)
Record Session := mkSession { s_wnd : WndState; s_queue : Qu; s_currMsg : option Msg }.
Definition on_wnd (s : Session) (st : WndState) : Session := mkSession st (s_queue s) (s_currMsg s).
Definition on_host (s : Session) (h : H) : Session := on_wnd s (set_host (s_wnd s) h).

(** [WM_QUIT] is handed out once. *)
Definition TakeMessage (s : Session) : option (bool * Z) * Session :=
  match PeekMessage (w_quit (s_wnd s)) (s_queue s) with
  | (PkMessage m, q) => (Some (false, wParam m), mkSession (s_wnd s) q (Some m))
  | (PkQuit errCode, q) => (Some (true, code_number errCode), mkSession (set_quit (s_wnd s) []) q None)
  | (PkNone, q) => (None, mkSession (s_wnd s) q None)
  end.
(** [TranslateMessage] and [DispatchMessage]; [n] is the fuel of the window procedure. *)
Definition DispatchCurrent (n : nat) (s : Session) : outcome Session :=
  match s_currMsg s with
  | None => Undef
  | Some m =>
      let '(chars, h) := TranslateMessage m (w_host (s_wnd s)) in
      '(_, st) ← WndProc VT gl_Window n m (set_host (s_wnd s) h);
      Ret (mkSession st (PostMessages chars (s_queue s)) None)
  end.
Definition session_run (n : nat) : RunEnv (W := Session) := {|
  acquire_renderer s := '(_, st) ← WindowsWindow_GetRenderer (s_wnd s); Ret (on_wnd s st);
  timer_ticks s := let '(t, h) := ReadTicks (w_host (s_wnd s)) in (t, on_host s h);
  peek_message := TakeMessage;
  dispatch_message _ := DispatchCurrent n;
  on_update t s := '(_, ls) ← NkLayerstackOnUpdate VT t (w_layers (s_wnd s)); Ret (on_wnd s (set_layers (s_wnd s) ls));
  on_render t s := '(_, ls) ← NkLayerstackOnRender VT t (w_layers (s_wnd s)); Ret (on_wnd s (set_layers (s_wnd s) ls));
  begin_draw s := h ← rd_BeginDraw (mp_rendererRef (w_wnd (s_wnd s))) (w_host (s_wnd s)); Ret (on_host s h);
  end_draw s := h ← rd_EndDraw (mp_rendererRef (w_wnd (s_wnd s))) (w_host (s_wnd s)); Ret (on_host s h);
  release_all s := h ← rd_Release (mp_rendererRef (w_wnd (s_wnd s))) (w_host (s_wnd s)); Ret (on_host s h);
  post_quit_message errCode s :=
    match all_error_codes !! Z.to_nat errCode with
    | Some e => on_wnd s (set_quit (s_wnd s) (w_quit (s_wnd s) ++ [e]))
    | None => s
    end
|}.
End session.
Arguments Session : clear implicits.

(** ** What the session relies on *)
(** The user asks to close the window: the message itself, or the close button. *)
Definition closes (m : Msg) : Prop :=
  msg_id m = WM_CLOSE ∨ msg_id m = WM_SYSCOMMAND ∧ Z.land (wParam m) 0xFFF0 = SC_CLOSE.
Definition menu_messages : list Z := [WM_INITMENU; WM_INITMENUPOPUP].
Class SessionLaws (H : Type) `{WndHost H} `{WndRenderer H} `{SessionHost H} `{MessageNesting} : Prop := {
  sl_host :: WndHostLaws;
  (* characters are left to Windows, and only keys have them *)
  translate_law m h ms h' : TranslateMessage m h = (ms, h') →
    Forall (λ m', msg_wnd m' = msg_wnd m ∧ quiet (msg_id m') = true) ms ∧ (length ms ≤ translate_max)%nat ∧
    (msg_id m ∉ key_messages → ms = []);
  (* the command of the close button sends the request to close *)
  command_law m h r ms h' : DefWindowProc m h = (r, ms, h') → msg_id m = WM_SYSCOMMAND → Z.land (wParam m) 0xFFF0 = SC_CLOSE →
    Exists (λ m', msg_id m' = WM_CLOSE) ms;
  create_law clsId spec h p h' : rd_create clsId spec h = Ret (NkErr_Ok, p, h') → p ≠ NULL;
  addref_law p h : ∃ h', rd_AddRef p h = Ret h';
  release_law p h : ∃ h', rd_Release p h = Ret h';
  begin_law p h : ∃ h', rd_BeginDraw p h = Ret h';
  end_law p h : ∃ h', rd_EndDraw p h = Ret h'
}.
(** Layers that return from every call, in the states in [I], and stay in them. *)
Record LayersLive {User} (VT : NkILayer NkEvent User) (I : LayerStack User → Prop) : Prop := {
  lv_event ev ls : I ls → ∃ e ls', NkLayerstackOnEvent VT ev ls = Ret (e, ls') ∧ I ls';
  lv_update t ls : I ls → ∃ e ls', NkLayerstackOnUpdate VT t ls = Ret (e, ls') ∧ I ls';
  lv_render t ls : I ls → ∃ e ls', NkLayerstackOnRender VT t ls = Ret (e, ls') ∧ I ls'
}.

(** It is enough that every layer does: returns, keeps [P], and in [P] the layers are [l]. *)
Section layers.
Context {User : Type} (VT : NkILayer NkEvent User) (l : list Z) (P : LayerStack User → Prop).
Definition behaves (f : Z → LayerStack User → outcome (NkErrorCode * LayerStack User)) : Prop :=
  ∀ x ls, P ls → ∃ e ls', f x ls = Ret (e, ls') ∧ P ls'.
Lemma call_all_live f ls : behaves f → P ls → ∃ e ls', call_all f l ls = Ret (e, ls') ∧ P ls'.
Proof.
  intros Hf. revert ls. induction l as [|x l' IH]; intros ls HP; cbn [call_all]; [by do 2 eexists|].
  destruct (Hf x ls HP) as (e & ls1 & -> & HP1). step. by apply IH.
Qed.
Lemma call_back_live f ls : behaves f → P ls → ∃ e ls', call_all f (reverse l) ls = Ret (e, ls') ∧ P ls'.
Proof.
  intros Hf. revert ls. induction (reverse l) as [|x l' IH]; intros ls HP; cbn [call_all]; [by do 2 eexists|].
  destruct (Hf x ls HP) as (e & ls1 & -> & HP1). step. by apply IH.
Qed.
Lemma offer_live ev ls : behaves (λ x, OnEvent VT x ev) → P ls → ∃ e ls', offer VT l ev ls = Ret (e, ls') ∧ P ls'.
Proof.
  intros Hf. revert ls. induction l as [|x l' IH]; intros ls HP; cbn [offer]; [by do 2 eexists|].
  destruct (Hf x ls HP) as (e & ls1 & -> & HP1). step. destruct (isOk e); [by do 2 eexists|by apply IH].
Qed.
End layers.
Lemma live_by_layer {User} (VT : NkILayer NkEvent User) l (P : LayerStack User → Prop) :
  (∀ ev, keeps_layers declines (λ x, OnEvent VT x ev) ∧ behaves P (λ x, OnEvent VT x ev)) →
  (∀ t, keeps_layers any_code (λ x, OnUpdate VT x t) ∧ behaves P (λ x, OnUpdate VT x t)) →
  (∀ t, keeps_layers any_code (λ x, OnRender VT x t) ∧ behaves P (λ x, OnRender VT x t)) →
  (∀ ls, P ls → stack_repr ls l) → LayersLive VT P.
Proof.
  intros He Hu Hr Hl. split.
  - intros ev ls HP. destruct (He ev) as [Hk Hb]. pose proof (Hl ls HP) as Hst. rewrite (stack_event VT ev ls l Hk Hst). by apply offer_live.
  - intros t ls HP. destruct (Hu t) as [Hk Hb]. pose proof (Hl ls HP) as Hst. rewrite (stack_update VT t ls l Hk Hst). by apply call_all_live.
  - intros t ls HP. destruct (Hr t) as [Hk Hb]. pose proof (Hl ls HP) as Hst. rewrite (stack_render VT t ls l Hk Hst).
    case_bool_decide; [by do 2 eexists|by apply call_back_live].
Qed.

Section proofs.
Context {User H Qu : Type} `{NativeInput} `{SessionLaws H} `{QueueLaws Qu} (VT : NkILayer NkEvent User) (gl_Window : Z).
Notation WndState := (WndState User H).
Implicit Types (st : WndState) (m : Msg) (J : list NkErrorCode → LayerStack User → Prop).
Notation proc := (WndProc VT gl_Window).

(** ** Every message is handled *)
(** A window that is open, with layers in [J], which may depend on the exit codes posted. *)
Record open J st : Prop := {
  op_user : w_userdata st ≠ NULL;
  op_ial : mp_ialRef (w_wnd st) ≠ NULL;
  op_layers : J (w_quit st) (w_layers st)
}.
(** What handling messages makes of it: only successful exits are posted. *)
Record handled_to J st st' : Prop := {
  ht_keeps : keeps st st';
  ht_layers : J (w_quit st') (w_layers st');
  ht_quit : ∃ k, w_quit st' = w_quit st ++ replicate k NkErr_Ok
}.
Lemma to_open J J' st st' : open J st → handled_to J' st st' → open J' st'.
Proof. intros [] [[] ? ?]. split; congruence. Qed.
Lemma to_trans J J' st1 st2 st3 : handled_to J' st1 st2 → handled_to J st2 st3 → handled_to J st1 st3.
Proof.
  intros [K1 _ [k1 Q1]] [K2 L2 [k2 Q2]]. split; [by etrans|done|]. exists (k1 + k2)%nat. by rewrite Q2, Q1, <- app_assoc, replicate_add.
Qed.
(** Nothing but the host and the parts around the window changes. *)
Lemma to_same J st st' : keeps st st' → w_layers st' = w_layers st → w_quit st' = w_quit st → J (w_quit st) (w_layers st) → handled_to J st st'.
Proof. intros ? EL EQ ?. split; [done|by rewrite EL, EQ|]. exists O. by rewrite EQ, app_nil_r. Qed.
Lemma to_settled J st st' : settled st st' → J (w_quit st) (w_layers st) → handled_to J st st'.
Proof. intros [] ?. apply to_same; [by apply keeps_around|done..]. Qed.

(** The messages in [P] are handled. *)
Definition handles J (f : Msg → WndState → outcome (Z * WndState)) (P : Msg → Prop) : Prop :=
  ∀ m st, P m → msg_wnd m = mp_nativeHandle (w_wnd st) → open J st → ∃ r st', f m st = Ret (r, st') ∧ handled_to J st st'.
Lemma send_handles J f P ms st :
  handles J f P → Forall (λ m, msg_wnd m = mp_nativeHandle (w_wnd st) ∧ P m) ms → open J st →
  ∃ st', send f ms st = Ret st' ∧ handled_to J st st'.
Proof.
  intros Hf. revert st. induction ms as [|m ms IH]; intros st Hms Ho; cbn [send]; [exists st; split; [done|by apply to_same, Ho]|].
  apply Forall_cons_iff in Hms as [[Hw HP] Hms]. destruct (Hf m st HP Hw Ho) as (r & st1 & -> & Ht). step.
  destruct (IH st1) as (st2 & -> & Ht2); [by rewrite (kp_handle _ _ (ht_keeps _ _ _ Ht))|by eapply to_open|].
  exists st2. split; [done|by eapply to_trans].
Qed.
Lemma native_handles J f P ms h st :
  handles J f P → Forall (λ m, msg_wnd m = mp_nativeHandle (w_wnd st) ∧ P m) ms → open J st →
  ∃ st', call_native f (ms, h) st = Ret st' ∧ handled_to J st st'.
Proof.
  intros Hf Hms Ho. unfold call_native. cbn [fst snd]. assert (Ht : handled_to J st (set_host st h)) by (apply to_same; [by apply keeps_around|done..|apply Ho]).
  destruct (send_handles J f P ms (set_host st h) Hf Hms (to_open _ _ _ _ Ho Ht)) as (st' & -> & Ht'). exists st'. split; [done|by eapply to_trans].
Qed.

(** *** Events *)
Definition built ty (ticks : Z) (arg : list Z) : Prop := ∃ ev, build_event (ev_number ty) ticks arg = Ret ev ∧ ev_type ev = ty.
Lemma built_window ty ticks wnd pos sz total mode :
  ty ∈ [NkEv_WindowClosed; NkEv_WindowMinimized; NkEv_WindowMaximized; NkEv_WindowRestored] → built ty ticks (window_event wnd pos sz total mode).
Proof. intros Hty. repeat (apply elem_of_cons in Hty as [->|Hty]; [eexists; split; reflexivity|]). by apply not_elem_of_nil in Hty. Qed.
Lemma built_mouse ty ticks pos glPos b :
  ty ∈ [NkEv_MouseButtonDown; NkEv_MouseButtonUp; NkEv_MouseMoved; NkEv_MouseScrollUp; NkEv_MouseScrollDown] → built ty ticks (mouse_event pos glPos b).
Proof. intros Hty. repeat (apply elem_of_cons in Hty as [->|Hty]; [eexists; split; reflexivity|]). by apply not_elem_of_nil in Hty. Qed.
Lemma built_key ty ticks p nt k :
  ty ∈ [NkEv_KeyboardKeyDown; NkEv_KeyboardKeyUp; NkEv_KeyboardKeyRepeated] → built ty ticks (keyboard_event p nt k).
Proof. intros Hty. repeat (apply elem_of_cons in Hty as [->|Hty]; [eexists; split; reflexivity|]). by apply not_elem_of_nil in Hty. Qed.

Section live.
Context J (L : ∀ q, LayersLive VT (J q)).
Lemma dispatch_event ty arg st :
  built ty (CurrentTicks (w_host st)) arg → J (w_quit st) (w_layers st) →
  ∃ ev e ls, ev_type ev = ty ∧ NkLayerstackOnEvent VT ev (w_layers st) = Ret (e, ls) ∧ J (w_quit st) ls ∧ dispatch VT ty arg st = Ret (e, set_layers st ls).
Proof.
  intros (ev & Hev & Hty) HJ. destruct (lv_event _ _ (L _) ev _ HJ) as (e & ls & E & HJ'). exists ev, e, ls. split_and!; [done..|].
  unfold dispatch, NkEventDispatch. rewrite Hev. step. by rewrite E.
Qed.
Lemma dispatch_handled ty arg st :
  built ty (CurrentTicks (w_host st)) arg → J (w_quit st) (w_layers st) → ∃ e st', dispatch VT ty arg st = Ret (e, st') ∧ handled_to J st st'.
Proof.
  intros Hb HJ. destruct (dispatch_event ty arg st Hb HJ) as (ev & e & ls & _ & _ & HJ' & ->). do 2 eexists. split; [done|].
  split; [by apply keeps_around|done|]. exists O. by rewrite app_nil_r.
Qed.
Lemma open_wnd st : open J st → the_wnd st = Ret (w_wnd st).
Proof. intros []. unfold the_wnd. by rewrite (proj2 (Z.eqb_neq _ _) op_user0). Qed.
Lemma proc_S n m st : proc (S n) m st = WndProc_body VT gl_Window (proc n) m st.
Proof. reflexivity. Qed.
(** *** Input *)
Lemma key_handles n : handles J (proc (S n)) (λ m, msg_id m ∈ key_messages).
Proof.
  intros m st Hid _ Ho. cbn [WndProc]. rewrite (key_body _ _ _ _ _ Hid (op_user _ _ Ho) (op_ial _ _ Ho)).
  destruct (dispatch_handled (key_event_type m) (keyboard_event (i32 (Z.land (lParam m) 0x00FF0000)) (i32 (wParam m)) (MapFromNativeKey (i32 (wParam m)))) st)
    as (e & st' & -> & Ht); [apply built_key, key_event_in|apply Ho|]. step. by exists 0, st'.
Qed.
Definition button_messages : list Z :=
  [WM_LBUTTONDOWN; WM_MBUTTONDOWN; WM_RBUTTONDOWN; WM_XBUTTONDOWN; WM_LBUTTONUP; WM_MBUTTONUP; WM_RBUTTONUP; WM_XBUTTONUP].
Lemma button_handles : handles J (on_button VT) (λ m, msg_id m ∈ button_messages).
Proof.
  intros m st Hid _ Ho. unfold on_button. rewrite (open_wnd st Ho). step. rewrite (proj2 (Z.eqb_neq _ _) (op_ial _ _ Ho)).
  assert (Hty : MapFromNativeInputEvent (msg_id m) ∈ [NkEv_MouseButtonDown; NkEv_MouseButtonUp]).
  { repeat (apply elem_of_cons in Hid as [->|Hid]; [by apply (bool_decide_unpack _); vm_compute|]). by apply not_elem_of_nil in Hid. }
  edestruct (dispatch_handled (MapFromNativeInputEvent (msg_id m))) as (e & st' & E & Ht); [apply built_mouse|apply Ho|]; [|rewrite E].
  - clear -Hty. set_solver.
  - step. by exists 0, st'.
Qed.
Lemma mousemove_handles : handles J (on_mousemove VT) (λ _, True).
Proof.
  intros m st _ _ Ho. unfold on_mousemove. rewrite (open_wnd st Ho). step. destruct (_ && _).
  - exists 0, st. split; [done|]. apply to_same; [done..|apply Ho].
  - edestruct (dispatch_handled NkEv_MouseMoved) as (e & st' & E & Ht); [apply built_mouse; set_solver| |rewrite E]; [apply Ho|].
    step. exists 0, st'. split; [done|]. eapply to_trans; [|exact Ht]. apply to_same; [apply keeps_mouse|done..|apply Ho].
Qed.
Lemma wheel_handles : handles J (on_wheel VT) (λ _, True).
Proof.
  intros m st _ _ Ho. unfold on_wheel. destruct (_ =? 0).
  - exists 0, st. split; [done|]. apply to_same; [done..|apply Ho].
  - edestruct (dispatch_handled (if GET_WHEEL_DELTA_WPARAM (wParam m) >? 0 then NkEv_MouseScrollUp else NkEv_MouseScrollDown))
      as (e & st' & E & Ht); [apply built_mouse; case_match; set_solver|apply Ho|rewrite E]. step. by exists 0, st'.
Qed.
(** *** Messages about the window *)
(** What is left to Windows is handled when what Windows then sends is, which nests less deep. *)
Lemma default_handles f P m st :
  handles J f P → msg_wnd m = mp_nativeHandle (w_wnd st) → open J st → msg_id m ≠ WM_CLOSE →
  (∀ r ms h m', DefWindowProc m (w_host st) = (r, ms, h) → m' ∈ ms → msg_id m' ≠ WM_DESTROY → (depth m' < depth m)%nat → P m') →
  ∃ r st', on_default f m st = Ret (r, st') ∧ handled_to J st st'.
Proof.
  intros Hf Hw Ho Hid HP. unfold on_default. destruct (DefWindowProc m (w_host st)) as [[r ms] h] eqn:E.
  pose proof (default_law _ _ _ _ _ E Hid) as Hms. rewrite Hw in Hms.
  destruct (native_handles J f P ms h st Hf) as (st' & -> & Ht); [|done|step; by exists r, st'].
  apply list.Forall_forall. intros m' Hin. rewrite list.Forall_forall in Hms. destruct (Hms m' Hin) as (? & ? & ?). split; [done|by eapply HP].
Qed.
(** The place: when the native window is in another mode, the window follows. *)
Lemma native_mode hnd (h : H) : ∃ ty, (GetNewWindowMode hnd h, ty) ∈ mode_events.
Proof. unfold GetNewWindowMode, mode_events. destruct (IsZoomed hnd h); [|destruct (IsIconic hnd h)]; eexists; repeat constructor. Qed.
Lemma follow_mode n m st :
  (max_depth < n)%nat → open J st →
  ∃ e st', WindowsWindow_SetWindowMode VT gl_Window (proc n) (GetNewWindowMode (msg_wnd m) (w_host st)) st = Ret (e, st') ∧ handled_to J st st'.
Proof.
  intros Hn Ho. destruct (native_mode (msg_wnd m) (w_host st)) as [ty Hty]. set (mode := GetNewWindowMode _ _) in *. clearbody mode.
  destruct (Z.eq_dec (Z.land mode (m_allowedWndModes (w_wnd st))) 0) as [Hno|Hall].
  - exists NkErr_WndModeNotSupported, st. split; [|apply to_same; [done..|apply Ho]]. unfold WindowsWindow_SetWindowMode. rewrite Hno.
    unfold mode_events in Hty. repeat (apply elem_of_cons in Hty as [[= -> ->]|Hty]; [done|]). by apply not_elem_of_nil in Hty.
  - destruct (mode_changed VT gl_Window n mode ty st Hty (op_user _ _ Ho) Hall Hn) as (h & client & total & _ & _ & _ & E).
    edestruct (dispatch_handled ty) as (e & st' & E' & Ht); [| |rewrite E' in E].
    + apply built_window. unfold mode_events in Hty. clear -Hty. set_solver.
    + apply Ho.
    + exists e, st'. split; [exact E|]. eapply to_trans; [|exact Ht]. split; [|apply Ho|exists O; by rewrite app_nil_r]. split; try done. right. split; [|done].
      unfold mode_events, real_mode in *. clear -Hty. set_solver.
Qed.
Lemma quiet_handles n P m st :
  (max_depth < n)%nat → handles J (proc n) P → quiet (msg_id m) = true → msg_wnd m = mp_nativeHandle (w_wnd st) → open J st →
  (∀ h r ms h' m', DefWindowProc m h = (r, ms, h') → m' ∈ ms → msg_id m' ≠ WM_DESTROY → (depth m' < depth m)%nat → P m') →
  ∃ r st', proc (S n) m st = Ret (r, st') ∧ handled_to J st st'.
Proof.
  intros Hn Hf Hq Hw Ho HP. rewrite proc_S.
  assert (Hd : ∀ st1, handled_to J st st1 → ∃ r st', on_default (proc n) m st1 = Ret (r, st') ∧ handled_to J st st').
  { intros st1 Hs. destruct (default_handles (proc n) P m st1 Hf) as (r & st' & -> & Hs').
    - by rewrite (kp_handle _ _ (ht_keeps _ _ _ Hs)).
    - by eapply to_open.
    - intros E. by rewrite E in Hq.
    - intros. by eapply HP.
    - exists r, st'. split; [done|]. by eapply to_trans. }
  destruct (quiet_body VT gl_Window (proc n) m st Hq) as [[_ ->]|(st1 & Hs & Hb)].
  - unfold on_poschanged. rewrite (open_wnd st Ho). step. destruct (negb _); [|apply Hd; by apply to_same; [..|apply Ho]].
    destruct (follow_mode n m st Hn Ho) as (e & st1 & E & Ht). rewrite E. step. by apply Hd.
  - assert (Hs1 : handled_to J st st1) by (by apply to_settled; [|apply Ho]).
    destruct Hb as [->|[r ->]]; [by apply Hd|by exists r, st1].
Qed.
(** The messages sent when a window is shown. *)
Lemma calm_handles n : handles J (proc n) (λ m, calm m = true ∧ (depth m + S max_depth < n)%nat).
Proof.
  induction n as [|n IH]; intros m st [Hc Hd] Hw Ho; [lia|].
  eapply (quiet_handles n _ m st); [lia|exact IH|by apply calm_law|done|done|].
  intros h r ms h' m' E Hin _ Hlt. destruct (calm_default_law _ _ _ _ _ E Hc) as [_ Hcalm]. rewrite list.Forall_forall in Hcalm. split; [by apply Hcalm|lia].
Qed.
Lemma initmenu_handles n P m st :
  handles J (proc n) P → msg_id m ∈ menu_messages → msg_wnd m = mp_nativeHandle (w_wnd st) → open J st →
  (∀ m', msg_id m' ≠ WM_DESTROY → (depth m' < depth m)%nat → P m') →
  ∃ r st', on_initmenu (proc n) m st = Ret (r, st') ∧ handled_to J st st'.
Proof.
  intros Hf Hid Hw Ho HP. assert (Hd : ∃ r st', on_default (proc n) m st = Ret (r, st') ∧ handled_to J st st').
  { eapply default_handles; [exact Hf|done|done| |by intros; apply HP]. intros E. rewrite E in Hid. unfold menu_messages in Hid. clear -Hid. set_solver. }
  unfold on_initmenu. destruct (_ =? _); [|done]. rewrite (open_wnd st Ho). step. destruct (negb _); [|done].
  do 2 eexists. split; [done|]. apply to_same; [by apply keeps_around|done..|apply Ho].
Qed.
End live.
(** *** Closing *)
(** Told that the window closes, layers in [J] get to [J'], whatever is posted afterwards, and stay there. *)
Record closable J J' : Prop := {
  cl_live q : LayersLive VT (J q);
  cl_live' q : LayersLive VT (J' q);
  cl_told q q' ev ls e ls' : J q ls → ev_type ev = NkEv_WindowClosed → NkLayerstackOnEvent VT ev ls = Ret (e, ls') → J' q' ls';
  cl_stay q q' ls : J' q ls → J q' ls ∧ J' q' ls
}.
Definition is_main st : Prop := has_flag (m_wndFlags (w_wnd st)) NkWndFlag_MainWindow = true.
Lemma main_keeps st st' : keeps st st' → is_main st → is_main st'.
Proof.
  intros K. unfold is_main, has_flag. rewrite (eq_refl : NkWndFlag_MainWindow = Z.land fixed_flags NkWndFlag_MainWindow), !Z.land_assoc. by rewrite (kp_flags _ _ K).
Qed.
Lemma close_handled J J' n m st :
  (2 * S max_depth ≤ n)%nat → closable J J' → msg_wnd m = mp_nativeHandle (w_wnd st) → open J st →
  ∃ r st', on_close VT (proc n) m st = Ret (r, st') ∧ handled_to J' st st' ∧ (is_main st → w_quit st' ≠ []).
Proof.
  intros Hn [L L' Ht Hst] Hw Ho. unfold on_close.
  destruct (dispatch_event J L NkEv_WindowClosed (window_event (w_userdata st) (0, 0) (mkSize2D 0 0) (mkSize2D 0 0) 0) st)
    as (ev & e & ls & Hev & He & _ & ->); [apply built_window; set_solver|apply Ho|]. step.
  set (st1 := set_layers st ls). assert (Ho1 : open J' st1) by (destruct Ho; split; [done|done|by eapply Ht]).
  destruct (ShowWindow (msg_wnd m) SW_HIDE (w_host st1)) as [ms h] eqn:Es. destruct (show_law _ _ _ _ _ Es) as (Hms & _). rewrite Hw in Hms.
  destruct (native_handles J' _ _ ms h st1 (calm_handles J' L' n)) as (st2 & -> & Hst2); [|done|].
  { eapply Forall_impl; [|exact Hms]. intros m' [? ?]. split; [done|]. split; [done|]. pose proof (depth_law m'). lia. }
  step.
  rewrite (open_wnd J' st2) by (by eapply to_open). step. do 2 eexists. split; [done|].
  destruct Hst2 as [K2 L2 [k Q2]]. cbn [st1 set_layers w_quit] in Q2.
  assert (K : keeps st st2) by (etrans; [|exact K2]; by apply keeps_around).
  destruct (has_flag (m_wndFlags (w_wnd st2)) NkWndFlag_MainWindow) eqn:Hf.
  - split; [split; [by etrans; [exact K|apply keeps_around]|by eapply Hst|]|].
    + exists (k + 1)%nat. cbn [set_quit w_quit]. by rewrite Q2, <- app_assoc, replicate_add.
    + intros _. cbn [set_quit w_quit]. by destruct (w_quit st2).
  - split; [split; [done|done|by exists k]|]. intros Hm%(main_keeps _ _ K). unfold is_main in Hm. by rewrite Hf in Hm.
Qed.
Lemma to_stay J J' st st' : closable J J' → handled_to J' st st' → handled_to J st st'.
Proof. intros C [K Hl Hq]. split; [done| |done]. by apply (cl_stay _ _ C _ (w_quit st')) in Hl as [? _]. Qed.
Lemma closable_again J J' : closable J J' → closable J' J'.
Proof. intros [L L' Ht Hst]. split; [done|done| |]; intros q q' *; [intros K; by eapply Ht, (Hst q q)|intros K; by apply (Hst q q') in K as [_ ?]]. Qed.

(** *** All of them *)
Lemma body_button f m st : msg_id m ∈ button_messages → WndProc_body VT gl_Window f m st = on_button VT m st.
Proof. intros Hid. unfold WndProc_body. repeat (apply elem_of_cons in Hid as [->|Hid]; [done|]). by apply not_elem_of_nil in Hid. Qed.
Lemma body_menu f m st : msg_id m ∈ menu_messages → WndProc_body VT gl_Window f m st = on_initmenu f m st.
Proof. intros Hid. unfold WndProc_body. repeat (apply elem_of_cons in Hid as [->|Hid]; [done|]). by apply not_elem_of_nil in Hid. Qed.
Lemma body_one f m st id k : In (id, k) [(WM_MOUSEMOVE, on_mousemove VT); (WM_MOUSEWHEEL, on_wheel VT); (WM_SYSCOMMAND, on_syscommand f); (WM_CLOSE, on_close VT f)] →
  msg_id m = id → WndProc_body VT gl_Window f m st = k m st.
Proof. intros Hin E. unfold WndProc_body. rewrite E. repeat (destruct Hin as [[= <- <-]|Hin]; [done|]). done. Qed.
Lemma handled_split m : quiet (msg_id m) = false →
  msg_id m ∈ key_messages ∨ msg_id m ∈ button_messages ∨ msg_id m ∈ menu_messages ∨ msg_id m ∈ [WM_MOUSEMOVE; WM_MOUSEWHEEL; WM_SYSCOMMAND; WM_CLOSE; WM_DESTROY].
Proof.
  intros (x & Hin & ->%Z.eqb_eq)%negb_false_iff%existsb_exists. apply list_elem_of_In in Hin. unfold handled, key_messages, button_messages, menu_messages in *.
  clear -Hin. set_solver.
Qed.
(** The fuel that is enough for a message: its own depth, and twice what showing the window takes. *)
Definition fits n m : Prop := msg_id m ≠ WM_DESTROY ∧ (depth m + 2 * S max_depth < n)%nat.
Lemma all_handles J J' n : closable J J' → handles J (proc n) (fits n).
Proof.
  intros C. pose proof (cl_live _ _ C) as L. induction n as [|n IH]; intros m st [Hid Hd] Hw Ho; [lia|].
  assert (HP : ∀ m', msg_id m' ≠ WM_DESTROY → (depth m' < depth m)%nat → fits n m') by (intros m' ? ?; split; [done|lia]).
  destruct (quiet (msg_id m)) eqn:Hq.
  { eapply (quiet_handles J L n (fits n)); [lia|exact IH|done..|]. intros. by apply HP. }
  destruct (handled_split m Hq) as [Hk|[Hb|[Hm|Ho2]]].
  - by apply key_handles.
  - rewrite proc_S, body_button by done. by apply button_handles.
  - rewrite proc_S, body_menu by done. by eapply initmenu_handles.
  - rewrite proc_S. repeat (apply elem_of_cons in Ho2 as [E|Ho2]); [..|by apply not_elem_of_nil in Ho2].
    + rewrite (body_one _ m st _ (on_mousemove VT)) by (done || by left). by apply mousemove_handles.
    + rewrite (body_one _ m st _ (on_wheel VT)) by (done || by right; left). by apply wheel_handles.
    + rewrite (body_one _ m st _ (on_syscommand (proc n))) by (done || by right; right; left).
      assert (Hdef : ∃ r st', on_default (proc n) m st = Ret (r, st') ∧ handled_to J st st').
      { eapply default_handles; [exact IH|done|done|by rewrite E|]. intros. by apply HP. }
      unfold on_syscommand. destruct (_ =? _); [|done]. rewrite (open_wnd J st Ho). step. destruct (negb _); [|done].
      exists 0, st. split; [done|]. apply to_same; [done..|apply Ho].
    + rewrite (body_one _ m st _ (on_close VT (proc n))) by (done || by right; right; right; left).
      destruct (close_handled J J' n m st) as (r & st' & E' & Ht & _); [lia|done..|]. exists r, st'. split; [done|by eapply to_stay].
    + done.
Qed.
Lemma send_app f ms1 ms2 st : send f (ms1 ++ ms2) st = (st ← send f ms1 st; send f ms2 st : outcome WndState).
Proof. revert st. induction ms1 as [|m ms1 IH]; intros st; cbn [send app]; [done|]. rewrite bind_assoc. apply bind_ext. by intros [r st1]. Qed.
(** A request to close the main window tells the layers and posts the quit message. *)
Lemma close_handles J J' n m st :
  closable J J' → closes m → fits n m → msg_wnd m = mp_nativeHandle (w_wnd st) → open J st → is_main st →
  ∃ r st', proc n m st = Ret (r, st') ∧ handled_to J' st st' ∧ w_quit st' ≠ [].
Proof.
  intros C Hc [_ Hd] Hw Ho Hmain. destruct n as [|n]; [lia|].
  assert (Hclose : ∀ n m st, msg_id m = WM_CLOSE → (depth m + 2 * S max_depth < n)%nat → msg_wnd m = mp_nativeHandle (w_wnd st) → open J st → is_main st →
    ∃ r st', proc n m st = Ret (r, st') ∧ handled_to J' st st' ∧ w_quit st' ≠ []).
  { intros [|n0] m0 st0 E Hd0 Hw0 Ho0 Hm0; [lia|]. rewrite proc_S, (body_one _ m0 st0 _ (on_close VT (proc n0))) by (done || by right; right; right; left).
    destruct (close_handled J J' n0 m0 st0) as (r & st' & -> & ? & ?); [lia|done..|]. eauto 6. }
  destruct Hc as [E|[E Ec]]; [by apply Hclose|].
  rewrite proc_S, (body_one _ m st _ (on_syscommand (proc n))) by (done || by right; right; left).
  unfold on_syscommand. rewrite Ec. change (SC_CLOSE =? SC_MOVE) with false. cbv iota. unfold on_default.
  destruct (DefWindowProc m (w_host st)) as [[r ms] h] eqn:Ed. pose proof (command_law _ _ _ _ _ Ed E Ec) as Hex.
  pose proof (default_law _ _ _ _ _ Ed ltac:(by rewrite E)) as Hms. rewrite Hw in Hms.
  assert (Hfit : Forall (λ m', msg_wnd m' = mp_nativeHandle (w_wnd st) ∧ fits n m') ms).
  { eapply Forall_impl; [|exact Hms]. intros m' (? & ? & ?). split; [done|]. split; [done|lia]. }
  apply list.Exists_exists in Hex as (mc & (ms1 & ms2 & ->)%list_elem_of_split & Emc).
  apply Forall_app in Hfit as [Hms1 [[Hwc [_ Hdc]] Hms2]%Forall_cons_iff]. unfold call_native. cbn [fst snd]. rewrite send_app. cbn [send].
  assert (H0' : handled_to J st (set_host st h)) by (apply to_same; [by apply keeps_around|done..|apply Ho]).
  destruct (send_handles J _ _ ms1 (set_host st h) (all_handles J J' n C) Hms1 (to_open _ _ _ _ Ho H0')) as (st1 & -> & H1'). step.
  pose proof (to_trans _ _ _ _ _ H0' H1') as H01. pose proof (to_open _ _ _ _ Ho H01) as Ho1.
  pose proof (kp_handle _ _ (ht_keeps _ _ _ H01)) as Eh1.
  destruct (Hclose n mc st1) as (r2 & st2 & E2 & H2' & Hq2); [done|done|congruence|done|by eapply main_keeps, Hmain; apply H01|].
  rewrite E2. step. pose proof (to_trans _ _ _ _ _ H01 H2') as H02. pose proof (kp_handle _ _ (ht_keeps _ _ _ H02)) as Eh2.
  destruct (send_handles J' _ _ ms2 st2 (all_handles J' J' n (closable_again _ _ C))) as (st3 & -> & H3'); [by rewrite Eh2|by eapply to_open|]. step.
  exists r, st3. split; [done|]. split; [by eapply to_trans|]. destruct H3' as [_ _ [k ->]]. by destruct (w_quit st2).
Qed.

(** ** The session *)
(** How many answers a message in the queue stands for, with the characters it may be translated to. *)
Definition weight m : nat := if decide (msg_id m ∈ key_messages) then S (translate_max (H := H)) else 1.
Fixpoint future_weight (rest : list (option Msg)) : nat :=
  match rest with
  | [] => 0
  | x :: rest => match x with Some m => weight m | None => 1 end + future_weight rest
  end.
Lemma future_weight_app l1 l2 : future_weight (l1 ++ l2) = (future_weight l1 + future_weight l2)%nat.
Proof. induction l1 as [|x l1 IH]; [done|]. cbn [future_weight app]. rewrite IH. lia. Qed.
Definition quit_in (s : Session User H Qu) : nat :=
  S (future_weight (future (s_queue s)) + match s_currMsg s with Some m => weight m - 1 | None => 0 end).
Lemma weight_quiet ms : Forall (λ m, quiet (msg_id m) = true) ms → future_weight (Some <$> ms) = length ms.
Proof.
  induction 1 as [|m ms Hq _ IH]; [done|]. cbn [fmap list_fmap future_weight length]. rewrite IH. unfold weight. rewrite decide_False; [done|].
  intros Hk. assert (E : quiet (msg_id m) = false) by (repeat (apply elem_of_cons in Hk as [->|Hk]; [done|]); by apply not_elem_of_nil in Hk).
  by rewrite E in Hq.
Qed.
Lemma translated_weight m h ms h' : TranslateMessage m h = (ms, h') → (future_weight (Some <$> ms) ≤ weight m - 1)%nat.
Proof.
  intros (Hms & Hlen & Hno)%translate_law. rewrite weight_quiet; [|eapply Forall_impl; [|exact Hms]; by intros ? []].
  unfold weight. case_decide as Hk; [lia|]. by rewrite Hno.
Qed.

Section run.
(** The layers live in [I]; told that the window closes, they get to [Q], and stay. *)
Context (I Q : LayerStack User → Prop) (LI : LayersLive VT I) (LQ : LayersLive VT (λ ls, I ls ∧ Q ls)).
Context (Htold : ∀ ev ls e ls', I ls → ev_type ev = NkEv_WindowClosed → NkLayerstackOnEvent VT ev ls = Ret (e, ls') → Q ls').
Context (n : nat) (Hn : (3 * S max_depth ≤ n)%nat).
Notation Session := (Session User H Qu).
Implicit Types (s : Session).

Definition phase (q : list NkErrorCode) (ls : LayerStack User) : Prop := I ls ∧ (q ≠ [] → Q ls).
Definition phase_told (q : list NkErrorCode) (ls : LayerStack User) : Prop := I ls ∧ Q ls.
Lemma phase_live q : LayersLive VT (phase q).
Proof.
  destruct q as [|c q].
  - destruct LI as [He Hu Hr]. split; intros a ls [HI _]; [destruct (He a ls HI) as (e & ls' & -> & ?)|destruct (Hu a ls HI) as (e & ls' & -> & ?)|destruct (Hr a ls HI) as (e & ls' & -> & ?)];
      (exists e, ls'; split; [done|]; split; [done|by intros []]).
  - destruct LQ as [He Hu Hr]. split; intros a ls [HI HQ]; pose proof (HQ ltac:(done)) as HQ';
      [destruct (He a ls) as (e & ls' & -> & ? & ?)|destruct (Hu a ls) as (e & ls' & -> & ? & ?)|destruct (Hr a ls) as (e & ls' & -> & ? & ?)]; try done; (exists e, ls'; by split_and!).
Qed.
Lemma phase_closable : closable phase phase_told.
Proof.
  split; [exact phase_live|done| |].
  - intros q q' ev ls e ls' [HI _] Hev E. destruct (lv_event _ _ LI ev ls HI) as (e2 & ls2 & E2 & ?). rewrite E in E2. injection E2 as <- <-.
    split; [done|exact (Htold _ _ _ _ HI Hev E)].
  - by intros q q' ls [? ?].
Qed.

Definition addressed st (x : option Msg) : Prop :=
  match x with Some m => msg_wnd m = mp_nativeHandle (w_wnd st) ∧ msg_id m ≠ WM_DESTROY | None => True end.
Definition closing (x : option Msg) : Prop := match x with Some m => closes m | None => False end.
Record running s : Prop := {
  ru_open : open phase (s_wnd s);
  ru_renderer : mp_rendererRef (w_wnd (s_wnd s)) ≠ NULL;
  ru_main : is_main (s_wnd s);
  ru_posted : Forall (λ e, e = NkErr_Ok) (w_quit (s_wnd s));
  ru_future : Forall (addressed (s_wnd s)) (future (s_queue s))
}.
(** Between two messages, and with one taken: the quit message is posted, or the user is going to
    close the window. *)
Definition between s : Prop := s_currMsg s = None ∧ running s ∧ (w_quit (s_wnd s) ≠ [] ∨ Exists closing (future (s_queue s))).
Definition taken s : Prop :=
  ∃ m, s_currMsg s = Some m ∧ addressed (s_wnd s) (Some m) ∧ running s ∧ (w_quit (s_wnd s) ≠ [] ∨ closes m ∨ Exists closing (future (s_queue s))).
Definition told_layers s : Prop := I (w_layers (s_wnd s)) ∧ Q (w_layers (s_wnd s)).

Lemma running_step s st' q cur :
  running s → handled_to phase (s_wnd s) st' → Forall (addressed (s_wnd s)) (future q) → running (mkSession st' q cur).
Proof.
  intros [] Hh Hf. pose proof Hh as [K ? [k Ek]]. split; cbn [s_wnd s_queue].
  - by eapply to_open.
  - by rewrite (kp_renderer _ _ K).
  - by eapply main_keeps.
  - rewrite Ek. apply Forall_app. split; [done|]. by apply Forall_replicate.
  - eapply Forall_impl; [|exact Hf]. intros [m|]; [|done]. unfold addressed. by rewrite (kp_handle _ _ K).
Qed.
(** A call that leaves the queue and the exit codes alone. *)
Definition stays s s' : Prop := between s' ∧ (quit_in s' ≤ quit_in s)%nat.
Lemma between_wnd s st' :
  between s → keeps (s_wnd s) st' → w_quit st' = w_quit (s_wnd s) → phase (w_quit st') (w_layers st') → stays s (on_wnd s st').
Proof.
  intros (Ec & R & Hb) K EQ Hl. split; [|done]. split; [done|]. split; [|by cbn [on_wnd s_wnd s_queue]; rewrite EQ].
  eapply running_step; [done| |apply R]. split; [done|done|]. exists O. by rewrite EQ, app_nil_r.
Qed.
Lemma between_host s h : between s → stays s (on_host s h).
Proof. intros Hs. apply between_wnd; [done|by apply keeps_around|done|]. apply Hs. Qed.
Lemma between_layers s ls : between s → phase (w_quit (s_wnd s)) ls → stays s (on_wnd s (set_layers (s_wnd s) ls)).
Proof. intros Hs Hl. apply between_wnd; [done|by apply keeps_around|done|done]. Qed.

(** Taking a message, or nothing, from the queue. *)
Lemma peek_between s : between s → ∃ r s', TakeMessage s = (r, s') ∧
  match r with
  | Some (true, z) => i32 z = code_number NkErr_Ok ∧ told_layers s'
  | Some (false, _) => taken s' ∧ (quit_in s' < quit_in s)%nat
  | None => between s' ∧ (quit_in s' < quit_in s)%nat
  end.
Proof.
  intros (Ec & R & Hb). pose proof R as [Ho Hr Hm Hp Hf].
  assert (Hquit : ∀ e, list.last (w_quit (s_wnd s)) = Some e → e = NkErr_Ok ∧ I (w_layers (s_wnd s)) ∧ Q (w_layers (s_wnd s))).
  { intros e El. rewrite list.Forall_forall in Hp. split; [by apply Hp, last_Some_elem_of|]. destruct (op_layers _ _ Ho) as [HI HQ]. split; [done|].
    apply HQ. intros E0. by rewrite E0 in El. }
  unfold TakeMessage. destruct (future (s_queue s)) as [|[m|] rest] eqn:Ef.
  - destruct Hb as [Hq|Hb%Exists_nil]; [|done]. destruct (peek_empty_law (w_quit (s_wnd s)) (s_queue s)) as (q & -> & _); [rewrite Ef; set_solver|].
    destruct (list.last _) as [e|] eqn:El; [|by apply last_None in El]. destruct (Hquit e eq_refl) as [-> ?]. by do 2 eexists.
  - destruct (peek_message_law (w_quit (s_wnd s)) _ _ _ Ef) as (q & -> & Eq). do 2 eexists. split; [done|]. apply Forall_cons_iff in Hf as [Hm0 Hf]. split.
    + exists m. split; [done|]. split; [done|]. split; [split; cbn [s_wnd s_queue]; by rewrite ?Eq|]. cbn [s_wnd s_queue]. rewrite Eq. destruct Hb as [?|[?|?]%Exists_cons]; auto.
    + unfold quit_in. cbn [s_queue s_currMsg]. rewrite Ef, Ec, Eq. cbn [future_weight]. assert (1 ≤ weight m)%nat by (unfold weight; case_decide; lia). lia.
  - apply Forall_cons_iff in Hf as [_ Hf]. destruct (peek_empty_law (w_quit (s_wnd s)) (s_queue s)) as (q & -> & Eq); [rewrite Ef; set_solver|].
    rewrite Ef in Eq. cbn [tail] in Eq. destruct (list.last _) as [e|] eqn:El; do 2 eexists; (split; [done|]).
    + by destruct (Hquit e eq_refl) as [-> ?].
    + split; [|unfold quit_in; cbn [s_queue s_currMsg]; rewrite Ef, Ec, Eq; cbn [future_weight]; lia].
      split; [done|]. split; [split; cbn [s_wnd s_queue]; by rewrite ?Eq|]. cbn [s_wnd s_queue]. rewrite Eq. destruct Hb as [?|[[]|?]%Exists_cons]; auto.
Qed.
(** Dispatching the message taken, with the characters it is translated to. *)
Lemma dispatch_taken s : taken s → ∃ s', DispatchCurrent VT gl_Window n s = Ret s' ∧ stays s s'.
Proof.
  intros (m & Ec & [Hw Hd] & R & Hb). unfold DispatchCurrent. rewrite Ec. destruct (TranslateMessage m (w_host (s_wnd s))) as [chars h] eqn:Et.
  set (st := set_host (s_wnd s) h). assert (Ho : open phase st) by (destruct (ru_open _ R); by split).
  assert (H0' : handled_to phase (s_wnd s) st) by (apply to_same; [by apply keeps_around|done..|apply Ho]).
  assert (Hp : ∃ r st', proc n m st = Ret (r, st') ∧ handled_to phase st st' ∧ (closes m → w_quit st' ≠ [])).
  { assert (Hfit : fits n m) by (split; [done|]; pose proof (depth_law m); lia).
    destruct (decide (msg_id m = WM_CLOSE ∨ msg_id m = WM_SYSCOMMAND ∧ Z.land (wParam m) 0xFFF0 = SC_CLOSE)) as [Hc|Hc].
    - destruct (close_handles phase phase_told n m st phase_closable Hc Hfit Hw Ho (ru_main _ R)) as (r & st' & E & Ht & Hq). exists r, st'. split; [done|].
      split; [by eapply to_stay, Ht; apply phase_closable|done].
    - destruct (all_handles phase phase_told n phase_closable m st Hfit Hw Ho) as (r & st' & E & Ht). exists r, st'. by split_and!. }
  destruct Hp as (r & st' & -> & Hst & Hcl). step. eexists. split; [done|]. pose proof (to_trans _ _ _ _ _ H0' Hst) as Hh.
  destruct (translate_law _ _ _ _ Et) as (Hchars & _ & _). split; [split; [done|]; split|].
  - eapply running_step; [exact R|done|]. rewrite post_law. apply Forall_app. split; [|apply R]. apply Forall_fmap. eapply Forall_impl; [|exact Hchars].
    intros m' [Hw' Hq]. cbn. split; [congruence|]. intros Em. by rewrite Em in Hq.
  - cbn [s_wnd s_queue]. destruct Hb as [Hq|[Hc|Hf]]; [left|left; auto|right].
    + destruct Hh as [_ _ [k ->]]. by destruct (w_quit (s_wnd s)).
    + rewrite post_law. apply Exists_app. by right.
  - unfold quit_in. cbn [s_queue s_currMsg]. rewrite Ec, post_law, future_weight_app. pose proof (translated_weight _ _ _ _ Et). lia.
Qed.

(** The laws of the main loop hold of the session. *)
Lemma session_laws : LoopLaws (session_run VT gl_Window n) between taken told_layers told_layers quit_in (code_number NkErr_Ok).
Proof.
  split; cbn [session_run peek_message timer_ticks acquire_renderer dispatch_message on_update on_render begin_draw end_draw release_all].
  - exact peek_between.
  - intros s Hs. destruct (ReadTicks _) as [t h]. by apply between_host.
  - intros s Hs. unfold WindowsWindow_GetRenderer. rewrite (proj2 (Z.eqb_neq _ _) (ru_renderer _ (proj1 (proj2 Hs)))).
    destruct (addref_law (mp_rendererRef (w_wnd (s_wnd s))) (w_host (s_wnd s))) as (h & ->). step. eexists. split; [done|by apply between_host].
  - intros _ s Hs. destruct (dispatch_taken s Hs) as (s' & -> & ?). eauto.
  - intros t s Hs. destruct (lv_update _ _ (phase_live _) t _ (op_layers _ _ (ru_open _ (proj1 (proj2 Hs))))) as (e & ls & -> & Hl). step.
    eexists. split; [done|by apply between_layers].
  - intros t s Hs. destruct (lv_render _ _ (phase_live _) t _ (op_layers _ _ (ru_open _ (proj1 (proj2 Hs))))) as (e & ls & -> & Hl). step.
    eexists. split; [done|by apply between_layers].
  - intros s Hs. destruct (begin_law (mp_rendererRef (w_wnd (s_wnd s))) (w_host (s_wnd s))) as (h & ->). step. eexists. split; [done|by apply between_host].
  - intros s Hs. destruct (end_law (mp_rendererRef (w_wnd (s_wnd s))) (w_host (s_wnd s))) as (h & ->). step. eexists. split; [done|by apply between_host].
  - intros s Hs. destruct (release_law (mp_rendererRef (w_wnd (s_wnd s))) (w_host (s_wnd s))) as (h & ->). step. by eexists.
Qed.
(** The main window as its component starts it, and what the user does with it. *)
Lemma startup_between k ial appSpecs st0 st q :
  Window_Startup VT gl_Window k ial appSpecs st0 = Ret (NkErr_Ok, st) → w_wnd st0 = zero_window → gl_Window ≠ NULL → ial ≠ NULL →
  w_quit st = [] → I (w_layers st) → Forall (addressed st) (future q) → Exists closing (future q) → between (mkSession st q None).
Proof.
  intros Hs Hz Hg Hi Hq HI Hf Hc. destruct (init_inv _ _ _ _ _ _ _ Hz Hs) as (st2 & Hok & Hial & K & c & sp & h & h' & Hrd).
  assert (Hok' : window_ok gl_Window _ st) by (by eapply ok_keeps). destruct Hok' as [Hu _ _ _ Hfl _].
  split; [done|]. split; [split; cbn [s_wnd s_queue]|by right].
  - split; [by rewrite Hu|by rewrite (kp_ial _ _ K), Hial|]. split; [done|]. by rewrite Hq.
  - rewrite (kp_renderer _ _ K). by eapply create_law.
  - unfold is_main, has_flag. rewrite (eq_refl : NkWndFlag_MainWindow = Z.land fixed_flags NkWndFlag_MainWindow), !Z.land_assoc, Hfl.
    cbn [ws_wndFlags]. rewrite <- !Z.land_assoc, Z.land_lor_distr_l. apply negb_true_iff, Z.eqb_neq. rewrite Z.lor_eq_0_iff. by intros [_ ?].
  - by rewrite Hq.
  - done.
Qed.

(** C7: closing the main window ends the program, with the code for success: after the window component has
    started, with layers that return from every call, and whatever else the user does outside the loops
    Windows runs itself (while the frame is dragged), the main loop returns once the user asked to close the
    window, by the message itself or by the close button; by then the layers have been told.  How many
    frames and messages that takes is bounded by what is in the queue, however the clock runs, as long as
    the frequency of the counter gives an update at least one tick and keeps a frame's ticks below 2^24,
    where binary32 is exact. *)
Theorem closing_ends_program k ial appSpecs st0 st q freq T maxEl fuel :
  Window_Startup VT gl_Window k ial appSpecs st0 = Ret (NkErr_Ok, st) → w_wnd st0 = zero_window → gl_Window ≠ NULL → ial ≠ NULL →
  w_quit st = [] → I (w_layers st) → Forall (addressed st) (future q) → Exists closing (future q) →
  whole_rate (ticksPerUpdate (f32_of_Z freq)) = Some T → maxElapsed (f32_of_Z freq) = Ret maxEl → T + maxEl < 2 ^ 24 →
  (future_weight (future q) + Z.to_nat (maxEl / T) + 3 ≤ fuel)%nat →
  ∃ s', NkApplicationRun (session_run VT gl_Window n) fuel freq (mkSession st q None) = Ret (0, s') ∧ Q (w_layers (s_wnd s')).
Proof.
  intros Hs Hz Hg Hi Hq HI Hf Hc HT Hmax Hsmall Hfuel.
  destruct (main_loop_leaves _ session_laws freq T maxEl fuel (mkSession st q None)) as (s' & E & _ & HQ); [|done..| |].
  - by eapply startup_between.
  - unfold quit_in. cbn [s_queue s_currMsg]. lia.
  - by exists s'.
Qed.
End run.
End proofs.

(** ** A session: a key, a pause, the close button *)
Definition session_VT : NkILayer NkEvent (list Z) := {|
  AddRef := λ x ls, ls;
  OnPush := λ x before after whereInd ls, Ret (NkErr_Ok, ls);
  OnEvent := λ x ev ls, Ret (NkErr_Ok, mkLayerStack (mp_layerStack ls) (user ls ++ [ev_number (ev_type ev)]));
  OnUpdate := λ x t ls, Ret (NkErr_Ok, ls);
  OnRender := λ x t ls, Ret (NkErr_Ok, ls)
|}.
Definition WM_CHAR : Z := 0x102.
#[export] Instance toy_queue : MessageQueue (list (option Msg)) := {
  PeekMessage posted q :=
    match q with
    | Some m :: q => (PkMessage m, q)
    | q => (match list.last posted with Some errCode => PkQuit errCode | None => PkNone end, tail q)
    end;
  PostMessages ms q := (Some <$> ms) ++ q;
  future q := q
}.
#[export] Instance toy_queue_laws : QueueLaws (list (option Msg)).
Proof.
  split; cbn; [by intros posted q m rest ->; eexists| |done].
  intros posted [|[m|] q] Hq; [by eexists| |by eexists]. apply elem_of_cons in Hq as [|[|?%not_elem_of_nil]%elem_of_cons]; done.
Qed.
#[export] Instance toy_session_host : SessionHost ToyHost := {
  TranslateMessage m h := (if decide (msg_id m ∈ key_messages) then [mkMsg (msg_wnd m) WM_CHAR 0 0] else [], h);
  translate_max := 1;
  ReadTicks h := (12345, h);
  rd_BeginDraw _ h := Ret h;
  rd_EndDraw _ h := Ret h
}.
#[export] Instance toy_session_laws : SessionLaws ToyHost.
Proof.
  split; try by eauto.
  - exact toy_wnd_laws.
  - intros m h ms h' [= <- <-]. case_decide; (split; [by repeat constructor|]; split; [cbn; lia|done]).
  - intros m h r ms h' [= _ <- _] Hid E. unfold toy_follow. rewrite Hid, E. by constructor.
  - by intros c sp h p h' [= <- _].
Qed.
Definition session_layers (ls : LayerStack (list Z)) : Prop := mp_layerStack ls = Some (example_vec false).
Definition saw_close (ls : LayerStack (list Z)) : Prop := ev_number NkEv_WindowClosed ∈ user ls.
Lemma session_event ev u : NkLayerstackOnEvent session_VT ev (mkLayerStack (Some (example_vec false)) u) =
  Ret (NkErr_Ok, mkLayerStack (Some (example_vec false)) (u ++ [ev_number (ev_type ev)])).
Proof. reflexivity. Qed.
Lemma session_live (P : LayerStack (list Z) → Prop) :
  (∀ ls, P ls → session_layers ls) → (∀ v u x, P (mkLayerStack v u) → P (mkLayerStack v (u ++ [x]))) → LayersLive session_VT P.
Proof.
  intros HP Hadd. apply (live_by_layer _ [11; 12; 13]).
  - intros ev. split; [by intros x ls l e ls' Hr [= <- _]|]. intros x [v u] Hu. do 2 eexists. split; [done|]. by apply Hadd.
  - intros t. split; [intros x ls l e ls' Hr [= _ <-] _; exists []; by rewrite app_nil_r|]. intros x ls Hu. by do 2 eexists.
  - intros t. split; [intros x ls l e ls' Hr [= _ <-] _; exists []; by rewrite app_nil_r|]. intros x ls Hu. by do 2 eexists.
  - intros ls E%HP. exists (example_vec false). split_and!; [done|apply example_vec_repr|by repeat constructor].
Qed.
Lemma session_lives : LayersLive session_VT session_layers ∧ LayersLive session_VT (λ ls, session_layers ls ∧ saw_close ls).
Proof.
  split; apply session_live; [done|done|by intros ls []|]. intros v u x [Ev Hu]. split; [done|]. apply elem_of_app. by left.
Qed.
Lemma session_told ev ls e ls' :
  session_layers ls → ev_type ev = NkEv_WindowClosed → NkLayerstackOnEvent session_VT ev ls = Ret (e, ls') → saw_close ls'.
Proof. destruct ls as [v u]. intros [= ->] Hev. rewrite session_event, Hev. intros [= _ <-]. unfold saw_close. cbn [user]. apply elem_of_app. right. by constructor. Qed.
Definition toy_session_start : WndState (list Z) ToyHost := wnd_result (Window_Startup session_VT 1000 4 600 toy_wnd_spec toy_wnd_start).
Definition toy_future : list (option Msg) :=
  [Some (mkMsg 42 WM_KEYDOWN 65 1); None; Some (mkMsg 42 WM_MOUSEMOVE 0 0x50003); Some (mkMsg 42 WM_SYSCOMMAND 0xF062 0)].
Lemma deep_enough : (3 * S max_depth ≤ 9)%nat.
Proof. apply le_n. Qed.
Lemma closing_ends_program_witness : ∃ s', NkApplicationRun (session_run session_VT 1000 9) 10 10000000 (mkSession toy_session_start toy_future None) = Ret (0, s') ∧
  saw_close (w_layers (s_wnd s')).
Proof.
  apply (closing_ends_program session_VT 1000 session_layers saw_close (proj1 session_lives) (proj2 session_lives) session_told 9 deep_enough
    4 600 toy_wnd_spec toy_wnd_start toy_session_start toy_future 10000000 83330 160000 10).
  - vm_compute. reflexivity.
  - reflexivity.
  - discriminate.
  - discriminate.
  - vm_compute. reflexivity.
  - vm_compute. reflexivity.
  - repeat (constructor; [vm_compute; (exact Logic.I || (split; [reflexivity|discriminate]))|]). constructor.
  - do 3 apply Exists_cons_tl. apply Exists_cons_hd. right. split; reflexivity.
  - vm_compute. reflexivity.
  - vm_compute. reflexivity.
  - lia.
  - apply Nat.leb_le. vm_compute. reflexivity.
Defined.
(** The layers see the window opened and shown, the key, the movement and the end. *)
Example session_log : match NkApplicationRun (session_run session_VT 1000 9) 10 10000000 (mkSession toy_session_start toy_future None) with
  | Ret (code, s) => Some (code, user (w_layers (s_wnd s))) | _ => None end = Some (0, ev_number <$> [NkEv_WindowOpened; NkEv_WindowRestored; NkEv_KeyboardKeyDown; NkEv_MouseMoved; NkEv_WindowClosed]).
Proof. vm_compute. reflexivity. Qed.
