(* ===== verification/Db.v ===== *)
(** * [src/Noriko/db.c]: database handles and prepared statements

    SQLite is third-party code: the functions the engine calls are the methods of
    [Sqlite], acting on the library's own state, and what its documentation promises
    about connections and statements is [SqliteLaws].  A database handle and a
    statement are records found by their address; both are NkOM objects, so the
    functions that create them run [NkOMCreateInstance] of [NkOM.v] on this world.
    A dangling or null object pointer is undefined behaviour. *)
From S2P Require Import Prelude CStr HTable Util Registry NkOM.

(** ** SQLite *)
Definition SQLITE_OK : Z := 0.
Definition SQLITE_ROW : Z := 100.
Definition SQLITE_OPEN_READONLY : Z := 1.
Definition SQLITE_OPEN_READWRITE : Z := 2.
Definition SQLITE_OPEN_CREATE : Z := 4.
Definition SQLITE_INTEGER : Z := 1.
Definition SQLITE_FLOAT : Z := 2.
Definition SQLITE_TEXT : Z := 3.
Definition SQLITE_BLOB : Z := 4.
Definition SQLITE_NULL : Z := 5.

(** A value of a parameter or a column: a 64-bit word, the 8 bytes of a [double], or
    bytes. *)
Inductive SqlValue :=
  | SqlNull | SqlInt (z : Z) | SqlFloat (bits : list Z) | SqlText (b : list Z) | SqlBlob (b : list Z).
Definition column_type (v : SqlValue) : Z :=
  match v with
  | SqlNull => SQLITE_NULL | SqlInt _ => SQLITE_INTEGER | SqlFloat _ => SQLITE_FLOAT
  | SqlText _ => SQLITE_TEXT | SqlBlob _ => SQLITE_BLOB
  end.
Definition column_bytes (v : SqlValue) : list Z := match v with SqlText b | SqlBlob b => b | _ => [] end.

(** Result code first, then what is stored through a pointer. The codes of the binding
    functions are ignored by the engine. *)
Class Sqlite (Q : Type) := {
  sqlite3_open_v2 : list Z → Z → Q → Z * Z * Q;
  sqlite3_close : Z → Q → Z * Q;
  sqlite3_exec : Z → list Z → Q → Z * Q;
  sqlite3_prepare_v2 : Z → list Z → Q → Z * Z * Q;
  sqlite3_finalize : Z → Q → Q;
  sqlite3_bind : Z → Z → SqlValue → Q → Q;
  sqlite3_bind_parameter_count : Z → Q → Z;
  sqlite3_step : Z → Q → Z * Q;
  sqlite3_reset : Z → Q → Q;
  sqlite3_column_count : Z → Q → Z;
  sqlite3_column : Z → Z → Q → SqlValue;
  sqlite3_column_ptr : Z → Z → Q → Z      (* where the text or blob of a column is *)
}.

(** The open connections, and the compiled statements with their connections. *)
Class SqliteState (Q : Type) := { conns : Q → gset Z; compiled : Q → gmap Z Z }.
Definition same_handles `{SqliteState Q} (q q' : Q) : Prop := conns q' = conns q ∧ compiled q' = compiled q.

(** The documentation of the C interface: even a failed open gives a connection that
    must be closed, unless it is null; closing a connection with statements is refused;
    preparing gives a null statement on an error and for an empty text. *)
Class SqliteLaws (Q : Type) `{Sqlite Q} `{SqliteState Q} : Prop := {
  open_law path flags q r c q' : sqlite3_open_v2 path flags q = (r, c, q') →
    compiled q' = compiled q ∧
    if decide (c = NULL) then r ≠ SQLITE_OK ∧ conns q' = conns q else c ∉ conns q ∧ conns q' = {[c]} ∪ conns q;
  close_null q : sqlite3_close NULL q = (SQLITE_OK, q);
  close_law c q r q' : c ∈ conns q → sqlite3_close c q = (r, q') →
    compiled q' = compiled q ∧
    (r ≠ SQLITE_OK ∧ conns q' = conns q ∧ (∃ s, compiled q !! s = Some c) ∨
     r = SQLITE_OK ∧ conns q' = conns q ∖ {[c]} ∧ ∀ s, compiled q !! s ≠ Some c);
  exec_law c sql q r q' : sqlite3_exec c sql q = (r, q') → same_handles q q';
  prepare_law c sql q r s q' : sqlite3_prepare_v2 c sql q = (r, s, q') →
    conns q' = conns q ∧ (r = SQLITE_OK → c ∈ conns q) ∧
    if decide (s = NULL) then compiled q' = compiled q
    else r = SQLITE_OK ∧ compiled q !! s = None ∧ compiled q' = <[s := c]> (compiled q);
  finalize_law s q : conns (sqlite3_finalize s q) = conns q ∧ compiled (sqlite3_finalize s q) = delete s (compiled q);
  bind_law s i v q : same_handles q (sqlite3_bind s i v q);
  step_law s q r q' : sqlite3_step s q = (r, q') → same_handles q q';
  reset_law s q : same_handles q (sqlite3_reset s q);
  handles_law q : NULL ∉ conns q ∧ compiled q !! NULL = None ∧ ∀ s c, compiled q !! s = Some c → c ∈ conns q
}.

(** ** Modes ([include/Noriko/db.h]) *)
Definition NkDbMode_Unknown : Z := 0.
Definition NkDbMode_ReadOnly : Z := 1.
Definition NkDbMode_ReadWrite : Z := 2.
Definition NkDbMode_Create : Z := 4.
Definition NkDbMode_Count : Z := 8.
Definition mode_ok (mode : Z) : bool := (mode >? NkDbMode_Unknown) && (mode <? NkDbMode_Count).

Definition Sqlite3DbHandle_MapFromDbMode (mode : Z) : Z :=
  let resMode := if has_flag mode NkDbMode_Create then SQLITE_OPEN_CREATE else 0 in
  let sel := Z.land mode (Z.lor NkDbMode_ReadOnly NkDbMode_ReadWrite) in
  if sel =? NkDbMode_ReadOnly then Z.lor resMode SQLITE_OPEN_READONLY
  else if sel =? NkDbMode_ReadWrite then Z.lor resMode SQLITE_OPEN_READWRITE
  else SQLITE_OPEN_READWRITE.
Definition Sqlite3DbHandle_MapFromSqlite3ColumnType (nativeTyId : Z) : NkVariantType :=
  if nativeTyId =? SQLITE_INTEGER then NkVarTy_Int64
  else if nativeTyId =? SQLITE_FLOAT then NkVarTy_Double
  else if nativeTyId =? SQLITE_TEXT then NkVarTy_StringView
  else if nativeTyId =? SQLITE_BLOB then NkVarTy_BufferView
  else NkVarTy_None.

Definition gl_c_RoPragmaSql : list Z := bytes_of
  ("PRAGMA encoding     = 'UTF-8';" ++ "PRAGMA journal_mode = OFF;" ++ "PRAGMA locking_mode = EXCLUSIVE;" ++
   "PRAGMA synchronous  = OFF;" ++ "PRAGMA query_only   = ON;")%string.
Definition gl_c_WrPragmaSql : list Z := bytes_of "PRAGMA encoding = 'UTF-8';".

(** ** Objects *)
Record Sqlite3Stmt := mkStmt { st_refCount : Z; st_dbConn : Z; mp_stmtPtr : Z }.
Record Sqlite3DbHandle := mkDb { db_refCount : Z; m_dbMode : Z; mp_dbConn : Z }.
Record Sqlite3StmtInit := mkStmtInit { mp_sqlStr : list Z; in_dbConn : Z; mp_nkomDbConn : Z }.

Definition NkISqlStatement_IID : NkUuid := mk_uuid 0x6d7c27b3 0xa5ed 0x40d5 0xaa4da5c5ef8bf978.
Definition NkIDatabase_IID : NkUuid := mk_uuid 0x80507575 0x98c6 0x4b81 0xb1e42a824f163709.
Definition NkISqlStatement_CLSID : NkUuid := mk_uuid 0x29567054 0x6fd1 0x49dd 0x858fdce4d01800f8.
Definition NkIDatabase_CLSID : NkUuid := mk_uuid 0xfc7e8354 0x4b01 0x4f1f 0x97152cb477208ac0.
Definition sizeof_Sqlite3Stmt : Z := 32.
Definition sizeof_Sqlite3DbHandle : Z := 24.

(** The memory the module gets from elsewhere: [NkPoolAlloc] for an object, given the
    live ones, and for the array of [n] result variants, whose memory is not
    initialised; the addresses of its static data; the UUID at an address. *)
Class DbHost := {
  pool_object : Z → gset Z → NkErrorCode * Z;
  pool_array : Z → NkErrorCode;
  raw_variant : Variant;
  gl_c_Sqlite3HdFactory : Z;
  clsid_NkISqlStatement : Z;
  clsid_NkIDatabase : Z;
  stmtInit_addr : Z;
  uuid_at : Z → NkUuid
}.
Class DbHostLaws `{DbHost} : Prop := {
  pool_object_law size live p : pool_object size live = (NkErr_Ok, p) → p ∉ live ∧ p ≠ NULL ∧ p ≠ gl_c_Sqlite3HdFactory;
  raw_variant_law : length (m_val raw_variant) = 16%nat;
  factory_law : gl_c_Sqlite3HdFactory ≠ NULL;
  clsid_law : clsid_NkISqlStatement ≠ NULL ∧ uuid_at clsid_NkISqlStatement = NkISqlStatement_CLSID ∧
              clsid_NkIDatabase ≠ NULL ∧ uuid_at clsid_NkIDatabase = NkIDatabase_CLSID;
  init_law : stmtInit_addr ≠ NULL
}.

Section db.
Context {Q : Type} `{Sqlite Q} `{DbHost}.

(** SQLite, the live objects, and the initialisation structure on the stack while it
    exists. *)
Record DbWorld := mkDbWorld {
  w_sql : Q;
  w_stmts : gmap Z Sqlite3Stmt;
  w_dbs : gmap Z Sqlite3DbHandle;
  w_init : option Sqlite3StmtInit
}.
Definition set_sql (w : DbWorld) (q : Q) : DbWorld := mkDbWorld q (w_stmts w) (w_dbs w) (w_init w).
Definition set_stmts (w : DbWorld) (m : gmap Z Sqlite3Stmt) : DbWorld := mkDbWorld (w_sql w) m (w_dbs w) (w_init w).
Definition set_dbs (w : DbWorld) (m : gmap Z Sqlite3DbHandle) : DbWorld := mkDbWorld (w_sql w) (w_stmts w) m (w_init w).
Definition set_init (w : DbWorld) (i : option Sqlite3StmtInit) : DbWorld := mkDbWorld (w_sql w) (w_stmts w) (w_dbs w) i.
Definition put_stmt (w : DbWorld) (p : Z) (s : Sqlite3Stmt) : DbWorld := set_stmts w (<[p := s]> (w_stmts w)).
Definition put_db (w : DbWorld) (p : Z) (d : Sqlite3DbHandle) : DbWorld := set_dbs w (<[p := d]> (w_dbs w)).
Definition live (w : DbWorld) : gset Z := dom (w_stmts w) ∪ dom (w_dbs w).

Definition the_stmt (p : Z) (w : DbWorld) : outcome Sqlite3Stmt := get_or Undef (w_stmts w !! p).
Definition the_db (p : Z) (w : DbWorld) : outcome Sqlite3DbHandle := get_or Undef (w_dbs w !! p).
(** [++m_refCount] on an [NkInt32]. *)
Definition inc_refs (n : Z) : outcome Z := if n =? INT32_MAX then Undef else Ret (n + 1).

(** ** Connections *)
Definition Sqlite3DbHandle_SetPragmas (dbConnRef mode : Z) (q : Q) : outcome (NkErrorCode * Q) :=
  NK_ASSERT (negb (dbConnRef =? NULL)) NkErr_InOutParameter;;
  NK_ASSERT (mode_ok mode) NkErr_InParameter;;
  let '(res, q) :=
    if mode =? NkDbMode_ReadOnly then sqlite3_exec dbConnRef gl_c_RoPragmaSql q
    else if mode =? NkDbMode_ReadWrite then sqlite3_exec dbConnRef gl_c_WrPragmaSql q
    else (SQLITE_OK, q) in
  Ret (if res =? SQLITE_OK then NkErr_Ok else NkErr_SetDatabaseProps, q).

Definition Sqlite3DbHandle_AddRef (self : Z) (w : DbWorld) : outcome (Z * DbWorld) :=
  d ← the_db self w;
  n ← inc_refs (db_refCount d);
  Ret (n, put_db w self (mkDb n (m_dbMode d) (mp_dbConn d))).
Definition Sqlite3DbHandle_Close (self : Z) (w : DbWorld) : outcome (NkErrorCode * DbWorld) :=
  d ← the_db self w;
  let '(res, q) := sqlite3_close (mp_dbConn d) (w_sql w) in
  let w := set_sql w q in
  if res =? SQLITE_OK then Ret (NkErr_Ok, put_db w self (mkDb (db_refCount d) (m_dbMode d) NULL))
  else Ret (NkErr_DatabaseClose, w).
Definition Sqlite3DbHandle_Release (self : Z) (w : DbWorld) : outcome (Z * DbWorld) :=
  d ← the_db self w;
  let n := db_refCount d - 1 in
  let w := put_db w self (mkDb n (m_dbMode d) (mp_dbConn d)) in
  if n <=? 0 then
    '(_, w) ← Sqlite3DbHandle_Close self w;
    Ret (0, set_dbs w (delete self (w_dbs w)))
  else Ret (n, w).
(** The pointer stored through [resPtr] is NULL here when nothing is stored. *)
Definition Sqlite3DbHandle_QueryInterface (self : Z) (iId : NkUuid) (w : DbWorld) : outcome (NkErrorCode * Z * DbWorld) :=
  if NkUuidIsEqual iId NkIBase_IID || NkUuidIsEqual iId NkIDatabase_IID then
    '(_, w) ← Sqlite3DbHandle_AddRef self w; Ret (NkErr_Ok, self, w)
  else Ret (NkErr_InterfaceNotImpl, NULL, w).

Definition Sqlite3DbHandle_Open (self : Z) (dbPath : list Z) (mode : Z) (w : DbWorld) : outcome (NkErrorCode * DbWorld) :=
  NK_ASSERT (mode_ok mode) NkErr_InParameter;;
  d ← the_db self w;
  if negb (mp_dbConn d =? NULL) then Ret (NkErr_ObjectState, w)
  else
    let '(res, conn, q) := sqlite3_open_v2 dbPath (Sqlite3DbHandle_MapFromDbMode mode) (w_sql w) in
    if negb (res =? SQLITE_OK) then
      let '(_, q) := sqlite3_close conn q in
      Ret (NkErr_DatabaseOpen, put_db (set_sql w q) self (mkDb (db_refCount d) (m_dbMode d) NULL))
    else
      '(errCode, q) ← Sqlite3DbHandle_SetPragmas conn mode q;
      if negb (isOk errCode) then
        let '(_, q) := sqlite3_close conn q in
        Ret (errCode, put_db (set_sql w q) self (mkDb (db_refCount d) mode NULL))
      else Ret (errCode, put_db (set_sql w q) self (mkDb (db_refCount d) mode conn)).

(** [None]: there is no schema. *)
Definition Sqlite3DbHandle_Create (self : Z) (schemaStr : option (list Z)) (dbPath : list Z) (mode : Z) (w : DbWorld)
    : outcome (NkErrorCode * DbWorld) :=
  NK_ASSERT (mode_ok mode) NkErr_InParameter;;
  '(errCode, w) ← Sqlite3DbHandle_Open self dbPath (Z.lor NkDbMode_ReadWrite NkDbMode_Create) w;
  if negb (isOk errCode) then Ret (errCode, w)
  else
    '(failed, w) ← (match schemaStr with
                    | Some ((_ :: _) as schema) =>
                        d ← the_db self w;
                        let '(res, q) := sqlite3_exec (mp_dbConn d) schema (w_sql w) in
                        Ret (negb (res =? SQLITE_OK), set_sql w q)
                    | _ => Ret (false, w)
                    end);
    if failed : bool then '(_, w) ← Sqlite3DbHandle_Close self w; Ret (NkErr_DatabaseApplySchema, w)
    else '(_, w) ← Sqlite3DbHandle_Close self w; Sqlite3DbHandle_Open self dbPath mode w.

(** ** Statements *)
Definition Sqlite3Stmt_IsValidParamIndex (stPtr index : Z) (q : Q) : outcome bool :=
  NK_ASSERT (negb (stPtr =? NULL)) NkErr_InOutParameter;;
  Ret (i32 index <? sqlite3_bind_parameter_count stPtr q).
Definition Sqlite3Stmt_AddRef (self : Z) (w : DbWorld) : outcome (Z * DbWorld) :=
  s ← the_stmt self w;
  n ← inc_refs (st_refCount s);
  Ret (n, put_stmt w self (mkStmt n (st_dbConn s) (mp_stmtPtr s))).
Definition Sqlite3Stmt_Release (self : Z) (w : DbWorld) : outcome (Z * DbWorld) :=
  s ← the_stmt self w;
  let n := st_refCount s - 1 in
  let w := put_stmt w self (mkStmt n (st_dbConn s) (mp_stmtPtr s)) in
  if n <=? 0 then
    let w := set_sql w (sqlite3_finalize (mp_stmtPtr s) (w_sql w)) in
    '(_, w) ← Sqlite3DbHandle_Release (st_dbConn s) w;
    Ret (0, set_stmts w (delete self (w_stmts w)))
  else Ret (n, w).
Definition stmt_ImplInfos : list (option NkUuid) :=
  [Some NkIBase_IID; Some NkIInitializable_IID; Some NkISqlStatement_IID; None].
(** The index is tested like a truth value. *)
Definition Sqlite3Stmt_QueryInterface (self : Z) (iId : NkUuid) (w : DbWorld) : outcome (NkErrorCode * Z * DbWorld) :=
  i ← NkOMQueryImplementationIndex stmt_ImplInfos iId;
  if negb (i =? 0) then '(_, w) ← Sqlite3Stmt_AddRef self w; Ret (NkErr_Ok, self, w)
  else Ret (NkErr_InterfaceNotImpl, NULL, w).
Definition Sqlite3Stmt_Initialize (self initParam : Z) (w : DbWorld) : outcome (NkErrorCode * DbWorld) :=
  NK_ASSERT (negb (initParam =? NULL)) NkErr_InParameter;;
  s ← the_stmt self w;
  initStruct ← get_or Undef (if initParam =? stmtInit_addr then w_init w else None);
  let '(res, stmt, q) := sqlite3_prepare_v2 (in_dbConn initStruct) (mp_sqlStr initStruct) (w_sql w) in
  let w := put_stmt (set_sql w q) self (mkStmt (st_refCount s) (st_dbConn s) stmt) in
  if negb (res =? SQLITE_OK) then Ret (NkErr_CompileSqlStatement, w)
  else
    '(_, w) ← Sqlite3DbHandle_AddRef (mp_nkomDbConn initStruct) w;
    Ret (NkErr_Ok, put_stmt w self (mkStmt (st_refCount s) (mp_nkomDbConn initStruct) stmt)).

(** ** Binding *)

(** [mem p n] is what is at [p]; a null pointer is bound as NULL. *)
Definition pointed (mem : Z → Z → option (list Z)) (mk : list Z → SqlValue) (view : list Z) : outcome SqlValue :=
  let p := le_value (take 8 view) in
  if p =? NULL then Ret SqlNull
  else b ← get_or Undef (mem p (le_value (drop 8 view))); Ret (mk b).
(** The union is all zeroes before the value is copied into it; its first member is the
    64-bit integer, [None]: a type that is not supported. *)
Definition bound_value (mem : Z → Z → option (list Z)) (v : Variant) : outcome (option SqlValue) :=
  let '(varType, b) := NkVariantGet v in
  let varVal := b ++ replicate (16 - length b) 0 in
  match varType with
  | NkVarTy_Int8 | NkVarTy_Int16 | NkVarTy_Int32 | NkVarTy_Int64 | NkVarTy_Uint8 | NkVarTy_Uint16 | NkVarTy_Uint32
  | NkVarTy_Uint64 | NkVarTy_Boolean => Ret (Some (SqlInt (i64 (le_value (take 8 varVal)))))
  | NkVarTy_StringView => x ← pointed mem SqlText varVal; Ret (Some x)
  | NkVarTy_Double | NkVarTy_Float => Ret (Some (SqlFloat (take 8 varVal)))
  | NkVarTy_Uuid => Ret (Some (SqlBlob varVal))
  | NkVarTy_BufferView => x ← pointed mem SqlBlob varVal; Ret (Some x)
  | NkVarTy_None => Ret (Some SqlNull)
  | _ => Ret None
  end.
Definition Sqlite3Stmt_Unbind (self index : Z) (w : DbWorld) : outcome DbWorld :=
  s ← the_stmt self w;
  valid ← Sqlite3Stmt_IsValidParamIndex (mp_stmtPtr s) index (w_sql w);
  if negb valid then Ret w else Ret (set_sql w (sqlite3_bind (mp_stmtPtr s) (i32 index) SqlNull (w_sql w))).
Definition Sqlite3Stmt_Bind (mem : Z → Z → option (list Z)) (self index : Z) (varRef : Variant) (w : DbWorld)
    : outcome DbWorld :=
  s ← the_stmt self w;
  valid ← Sqlite3Stmt_IsValidParamIndex (mp_stmtPtr s) index (w_sql w);
  if negb valid then Ret w
  else
    v ← bound_value mem varRef;
    match v with
    | None => Ret w
    | Some SqlNull => if bool_decide (m_type varRef = NkVarTy_None) then Sqlite3Stmt_Unbind self index w
                      else Ret (set_sql w (sqlite3_bind (mp_stmtPtr s) (i32 index) SqlNull (w_sql w)))
    | Some x => Ret (set_sql w (sqlite3_bind (mp_stmtPtr s) (i32 index) x (w_sql w)))
    end.

(** ** Results *)

(** The variant of a column's value, whose text or blob is at [ptr]. *)
Definition column_arg (v : SqlValue) (ptr : Z) : VariantArg :=
  match v with
  | SqlNull => ArgWord 0
  | SqlInt z => ArgWord z
  | SqlFloat bits => ArgWord (le_value bits)
  | SqlText b | SqlBlob b => ArgMem (le_bytes 8 ptr ++ le_bytes 8 (Z.of_nat (length b)))
  end.
Definition set_column (var : Variant) (v : SqlValue) (ptr : Z) : outcome Variant :=
  NkVariantSet var (Sqlite3DbHandle_MapFromSqlite3ColumnType (column_type v)) (column_arg v ptr).
Fixpoint prepare_loop (stmtRef i : Z) (colResArr : list Variant) (q : Q) : outcome (list Variant) :=
  match colResArr with
  | [] => Ret []
  | var :: rest =>
      var ← set_column var (sqlite3_column stmtRef i q) (sqlite3_column_ptr stmtRef i q);
      rest ← prepare_loop stmtRef (i + 1) rest q;
      Ret (var :: rest)
  end.
(** The array has as many elements as the statement had columns when it was made. *)
Definition Sqlite3DbHandle_PrepareResultArray (stmtRef count : Z) (colResArr : list Variant) (q : Q) : outcome (list Variant) :=
  NK_ASSERT (negb (stmtRef =? NULL)) NkErr_InOutParameter;;
  NK_ASSERT (count >? 0) NkErr_InParameter;;
  if count >? Z.of_nat (length colResArr) then Undef
  else
    l ← prepare_loop stmtRef 0 (take (Z.to_nat count) colResArr) q;
    Ret (l ++ drop (Z.to_nat count) colResArr).

(** [U] is what the callback works on. *)
Section execute.
Context {U : Type} (fnResIter : option (Z → list Variant → U → NkErrorCode * U)).
Fixpoint execute_loop (fuel : nat) (actStmt : Z) (resArr : option (list Variant)) (u : U) (q : Q)
    : outcome (NkErrorCode * U * Q) :=
  match fuel with
  | O => OutOfFuel
  | S fuel =>
      let '(res, q) := sqlite3_step actStmt q in
      if res =? SQLITE_ROW then
        let count := sqlite3_column_count actStmt q in
        let '(eCode, arr) := match resArr with
                             | Some a => (NkErr_Ok, a)
                             | None => (pool_array count, replicate (Z.to_nat count) raw_variant)
                             end in
        if negb (isOk eCode) then Ret (eCode, u, q)
        else
          arr ← Sqlite3DbHandle_PrepareResultArray actStmt count arr q;
          match fnResIter with
          | None => execute_loop fuel actStmt (Some arr) u q
          | Some f =>
              let '(eCode, u) := f (u32 count) arr u in
              if negb (isOk eCode) then
                Ret (if bool_decide (eCode = NkErr_ManuallyAborted) then NkErr_Ok else eCode, u, q)
              else execute_loop fuel actStmt (Some arr) u q
          end
      else Ret (NkErr_Ok, u, q)
  end.
Definition Sqlite3DbHandle_Execute (fuel : nat) (self stmtRef : Z) (u : U) (w : DbWorld) : outcome (NkErrorCode * U * DbWorld) :=
  d ← the_db self w;
  if mp_dbConn d =? NULL then Ret (NkErr_ObjectState, u, w)
  else
    s ← the_stmt stmtRef w;
    '(eCode, u, q) ← execute_loop fuel (mp_stmtPtr s) None u (w_sql w);
    Ret (eCode, u, set_sql w (sqlite3_reset (mp_stmtPtr s) q)).
End execute.

(** ** The class factory *)
Definition Sqlite3HdFactory_QueryInterface (self : Z) (iId : NkUuid) (w : DbWorld) : outcome (NkErrorCode * Z * DbWorld) :=
  if NkUuidIsEqual iId NkIBase_IID || NkUuidIsEqual iId NkIClassFactory_IID then Ret (NkErr_Ok, self, w)
  else Ret (NkErr_InterfaceNotImpl, NULL, w).
Definition gl_c_InstClasses : list Z := [clsid_NkISqlStatement; clsid_NkIDatabase].
Definition factory_ImplInfos : list (option NkUuid) := [Some NkISqlStatement_CLSID; Some NkIDatabase_CLSID; None].
(** The memory of the new object is cleared, then it gets its first reference. *)
Definition Sqlite3HdFactory_CreateInstance (clsId : Z) (w : DbWorld) : outcome (NkErrorCode * Z * DbWorld) :=
  NK_ASSERT (negb (clsId =? NULL)) NkErr_InParameter;;
  implIndex ← NkOMQueryImplementationIndex factory_ImplInfos (uuid_at clsId);
  if implIndex =? SIZE_MAX then Ret (NkErr_UnknownClass, NULL, w)
  else
    let isStmt := implIndex =? 0 in
    let '(eCode, p) := pool_object (if isStmt then sizeof_Sqlite3Stmt else sizeof_Sqlite3DbHandle) (live w) in
    if negb (isOk eCode) then Ret (eCode, NULL, w)
    else if isStmt then '(_, w) ← Sqlite3Stmt_AddRef p (put_stmt w p (mkStmt 0 NULL NULL)); Ret (NkErr_Ok, p, w)
    else '(_, w) ← Sqlite3DbHandle_AddRef p (put_db w p (mkDb 0 NkDbMode_Unknown NULL)); Ret (NkErr_Ok, p, w).

(** ** The objects as NkOM objects: dispatch on what is behind the pointer *)
Definition dispatch {A} (p : Z) (w : DbWorld) (fac stmt db : outcome A) : outcome A :=
  if p =? gl_c_Sqlite3HdFactory then fac
  else match w_stmts w !! p with
       | Some _ => stmt
       | None => match w_dbs w !! p with Some _ => db | None => Undef end
       end.
#[export] Instance db_objects : NkObjects DbWorld := {|
  QueryInterface := λ p i w, dispatch p w (Sqlite3HdFactory_QueryInterface p i w) (Sqlite3Stmt_QueryInterface p i w)
                                          (Sqlite3DbHandle_QueryInterface p i w);
  AddRef := λ p w, dispatch p w (Ret w) ('(_, w) ← Sqlite3Stmt_AddRef p w; Ret w) ('(_, w) ← Sqlite3DbHandle_AddRef p w; Ret w);
  Release := λ p w, dispatch p w (Ret w) ('(_, w) ← Sqlite3Stmt_Release p w; Ret w) ('(_, w) ← Sqlite3DbHandle_Release p w; Ret w);
  Initialize := λ p a w, dispatch p w Undef (Sqlite3Stmt_Initialize p a w) Undef;
  QueryInstantiableClasses := λ _, gl_c_InstClasses;
  CreateInstance := λ p c _ w, if p =? gl_c_Sqlite3HdFactory then Sqlite3HdFactory_CreateInstance c w else Undef
|}.

(** ** Creating statements *)
Section om.
Context {R : Type} `{Registry R}.
Notation State := (NkOMState R DbWorld).
Definition stmt_init (self : Z) (sqlStr : list Z) (st : State) : outcome State :=
  d ← the_db self (world st);
  Ret (set_world st (set_init (world st) (Some (mkStmtInit sqlStr (mp_dbConn d) self)))).
Definition drop_init (st : State) : State := set_world st (set_init (world st) None).
Definition Sqlite3DbHandle_CreateStatement (self : Z) (sqlStr : list Z) (st : State) : outcome (NkErrorCode * Z * State) :=
  st ← stmt_init self sqlStr st;
  '(errCode, res, st) ← NkOMCreateInstance clsid_NkISqlStatement NULL NkISqlStatement_IID stmtInit_addr st;
  Ret (errCode, res, drop_init st).
Definition Sqlite3DbHandle_ExecuteInline {U} (fnResIter : option (Z → list Variant → U → NkErrorCode * U)) (fuel : nat)
    (self : Z) (sqlStr : list Z) (u : U) (st : State) : outcome (NkErrorCode * U * State) :=
  NK_ASSERT (negb (bool_decide (sqlStr = []))) NkErr_InParameter;;
  st ← stmt_init self sqlStr st;
  '(errCode, sqlStmt, st) ← NkOMCreateInstance clsid_NkISqlStatement NULL NkISqlStatement_IID stmtInit_addr st;
  if negb (isOk errCode) then Ret (errCode, u, drop_init st)
  else
    '(errCode, u, w) ← Sqlite3DbHandle_Execute fnResIter fuel self sqlStmt u (world st);
    '(_, w) ← Sqlite3Stmt_Release sqlStmt w;
    Ret (errCode, u, drop_init (set_world st w)).
Definition DbSrv_Startup : State → outcome (NkErrorCode * State) := NkOMInstallClassFactory gl_c_Sqlite3HdFactory.
Definition DbSrv_Shutdown : State → outcome (NkErrorCode * State) := NkOMUninstallClassFactory gl_c_Sqlite3HdFactory.
End om.
End db.
Arguments DbWorld : clear implicits.
