(* ===== verification/DbToy.v ===== *)
(** * A small SQLite

    An instance of [Sqlite] that satisfies [SqliteLaws], and of [DbHost], on which the
    theorems about [Db.v] are evaluated: one result set for all statements, one or
    two parameters, and SQL texts that compile unless they begin with an exclamation mark. *)
From S2P Require Import Prelude CStr HTable Util Registry NkOM Db.

Record ToySql := mkToy {
  t_conns : gset Z;
  t_stmts : gmap Z Z;
  t_bound : gmap Z SqlValue;
  t_row : list SqlValue;
  t_rows : list (list SqlValue)
}.
Definition toy_empty (rows : list (list SqlValue)) : ToySql := mkToy ∅ ∅ ∅ [] rows.

Definition toy_live (C : gset Z) : gset Z := C ∖ {[NULL]}.
Definition toy_owned (C : gset Z) : (Z * Z) → Prop := λ e, e.1 ≠ NULL ∧ e.2 ∈ toy_live C.
#[export] Instance toy_owned_dec C e : Decision (toy_owned C e).
Proof. unfold toy_owned. apply _. Defined.

#[export] Instance toy_state : SqliteState ToySql := {|
  conns := λ q, toy_live (t_conns q);
  compiled := λ q, filter (toy_owned (t_conns q)) (t_stmts q)
|}.
Definition toy_conn (q : ToySql) : Z := fresh ({[NULL]} ∪ t_conns q ∪ map_img (t_stmts q)).
Definition toy_stmt (q : ToySql) : Z := fresh ({[NULL]} ∪ dom (t_stmts q)).
Definition toy_used (c : Z) (q : ToySql) : bool := bool_decide (map_Exists (λ _ x, x = c) (compiled q)).

Definition toy_params (s : Z) : Z := if Z.even s then 1 else 2.

#[export] Instance toy_sqlite : Sqlite ToySql := {|
  sqlite3_open_v2 path _ q :=
    if bool_decide (path = []) then (14, NULL, q)
    else let c := toy_conn q in (SQLITE_OK, c, mkToy ({[c]} ∪ t_conns q) (t_stmts q) (t_bound q) (t_row q) (t_rows q));
  sqlite3_close c q :=
    if c =? NULL then (SQLITE_OK, q)
    else if toy_used c q then (5, q)
    else (SQLITE_OK, mkToy (t_conns q ∖ {[c]}) (t_stmts q) (t_bound q) (t_row q) (t_rows q));
  sqlite3_exec _ _ q := (SQLITE_OK, q);
  sqlite3_prepare_v2 c sql q :=
    if bool_decide (c ∈ conns q) && negb (bool_decide (head sql = Some 33)) then
      let s := toy_stmt q in (SQLITE_OK, s, mkToy (t_conns q) (<[s := c]> (t_stmts q)) (t_bound q) (t_row q) (t_rows q))
    else (1, NULL, q);
  sqlite3_finalize s q := mkToy (t_conns q) (delete s (t_stmts q)) (t_bound q) (t_row q) (t_rows q);
  sqlite3_bind s i v q :=
    if (1 <=? i) && (i <=? toy_params s) then mkToy (t_conns q) (t_stmts q) (<[i := v]> (t_bound q)) (t_row q) (t_rows q) else q;
  sqlite3_bind_parameter_count s _ := toy_params s;
  sqlite3_step _ q :=
    match t_rows q with
    | [] => (101, q)
    | r :: rs => (SQLITE_ROW, mkToy (t_conns q) (t_stmts q) (t_bound q) r rs)
    end;
  sqlite3_reset _ q := q;
  sqlite3_column_count _ q := Z.of_nat (length (t_row q));
  sqlite3_column _ i q := default SqlNull (t_row q !! Z.to_nat i);
  sqlite3_column_ptr _ i _ := 1000 + 16 * i
|}.

Lemma toy_null C : NULL ∉ toy_live C.
Proof. unfold toy_live. set_solver. Qed.
Lemma toy_compiled q s c : compiled q !! s = Some c ↔ t_stmts q !! s = Some c ∧ s ≠ NULL ∧ c ∈ conns q.
Proof. apply map_lookup_filter_Some. Qed.

(** Connections no statement refers to do not matter for the compiled statements. *)
Lemma toy_filter_conns (C C' : gset Z) (m : gmap Z Z) :
  (∀ s c, m !! s = Some c → s ≠ NULL → c ∈ toy_live C ↔ c ∈ toy_live C') →
  filter (toy_owned C) m = filter (toy_owned C') m.
Proof.
  intros Hm. apply map_eq. intros s. apply option_eq. intros c. rewrite !map_lookup_filter_Some. unfold toy_owned. simpl.
  split; intros (Hs & Hn & Hc); (split; [done|]); (split; [done|]); by apply (Hm s c).
Qed.

Lemma toy_open path flags q r c q' : sqlite3_open_v2 path flags q = (r, c, q') →
  compiled q' = compiled q ∧
  if decide (c = NULL) then r ≠ SQLITE_OK ∧ conns q' = conns q else c ∉ conns q ∧ conns q' = {[c]} ∪ conns q.
Proof.
  cbn [sqlite3_open_v2 toy_sqlite]. case_bool_decide; intros [= <- <- <-]; [done|].
  pose proof (is_fresh ({[NULL]} ∪ t_conns q ∪ map_img (t_stmts q))) as Hf. fold (toy_conn q) in Hf.
  rewrite !not_elem_of_union, not_elem_of_singleton in Hf. destruct Hf as [[Hn Hc] Hs].
  rewrite decide_False by done. cbn [compiled conns toy_state t_conns t_stmts]. split.
  - apply toy_filter_conns. intros s c Hsc _. apply (elem_of_map_img_2 (SA := gset Z)) in Hsc. unfold toy_live.
    assert (c ≠ toy_conn q) by (intros ->; done). set_solver.
  - unfold toy_live. split; [set_solver|]. apply set_eq. set_solver.
Qed.
Lemma toy_close c q r q' : c ∈ conns q → sqlite3_close c q = (r, q') →
  compiled q' = compiled q ∧
  (r ≠ SQLITE_OK ∧ conns q' = conns q ∧ (∃ s, compiled q !! s = Some c) ∨
   r = SQLITE_OK ∧ conns q' = conns q ∖ {[c]} ∧ ∀ s, compiled q !! s ≠ Some c).
Proof.
  intros Hc. cbn [sqlite3_close toy_sqlite]. rewrite (proj2 (Z.eqb_neq _ _)) by (intros ->; by apply toy_null in Hc).
  unfold toy_used. case_bool_decide as Hu; intros [= <- <-].
  - split; [done|]. left. split_and!; [done|done|]. destruct Hu as (s & x & Hs & ->). by exists s.
  - assert (Hno : ∀ s, compiled q !! s ≠ Some c) by (intros s Hs; apply Hu; by exists s, c).
    cbn [compiled conns toy_state t_conns t_stmts]. split.
    + apply toy_filter_conns. intros s x Hs Hn. unfold toy_live. split; [set_solver|]. intros Hx.
      assert (x ≠ c) by (intros ->; apply (Hno s), toy_compiled; done). set_solver.
    + right. split_and!; [done| |done]. unfold toy_live. apply set_eq. set_solver.
Qed.
Lemma toy_prepare c sql q r s q' : sqlite3_prepare_v2 c sql q = (r, s, q') →
  conns q' = conns q ∧ (r = SQLITE_OK → c ∈ conns q) ∧
  if decide (s = NULL) then compiled q' = compiled q
  else r = SQLITE_OK ∧ compiled q !! s = None ∧ compiled q' = <[s := c]> (compiled q).
Proof.
  cbn [sqlite3_prepare_v2 toy_sqlite]. case_bool_decide as Hc; cbn [andb]; [|by intros [= <- <- <-]].
  case_bool_decide; cbn [negb]; intros [= <- <- <-]; [done|].
  pose proof (is_fresh ({[NULL]} ∪ dom (t_stmts q))) as Hf. fold (toy_stmt q) in Hf.
  rewrite not_elem_of_union, not_elem_of_singleton, not_elem_of_dom in Hf. destruct Hf as [Hn Hs].
  split; [done|]. split; [done|]. rewrite decide_False by done. split; [done|].
  cbn [compiled toy_state t_conns t_stmts]. split; [by apply map_lookup_filter_None_2; left|].
  by rewrite map_filter_insert_True.
Qed.
#[export] Instance toy_laws : SqliteLaws ToySql.
Proof.
  split.
  - exact toy_open.
  - done.
  - exact toy_close.
  - by intros c sql q r q' [= <- <-].
  - exact toy_prepare.
  - intros s q. split; [done|]. cbn [compiled sqlite3_finalize toy_state toy_sqlite t_stmts t_conns]. by rewrite map_filter_delete.
  - intros s i v q. cbn [sqlite3_bind toy_sqlite]. by destruct (_ && _).
  - intros s q r q'. cbn [sqlite3_step toy_sqlite]. destruct (t_rows q); by intros [= <- <-].
  - done.
  - intros q. split_and!; [apply toy_null| |by intros s c (_ & _ & ?)%toy_compiled].
    destruct (compiled q !! NULL) eqn:E; [|done]. by apply toy_compiled in E as (_ & ? & _).
Defined.

(** The factory is at 100, the class IDs are at 1 and 2 as in the example registry. *)
#[export] Instance toy_host : DbHost := {|
  pool_object _ live := (NkErr_Ok, fresh ({[NULL; 100]} ∪ live));
  pool_array _ := NkErr_Ok;
  raw_variant := mkVariant NkVarTy_None (replicate 16 0);
  gl_c_Sqlite3HdFactory := 100;
  clsid_NkISqlStatement := 1;
  clsid_NkIDatabase := 2;
  stmtInit_addr := 50;
  uuid_at p := if p =? 1 then NkISqlStatement_CLSID else NkIDatabase_CLSID
|}.
#[export] Instance toy_host_laws : DbHostLaws.
Proof.
  split; try done. intros size live p [= <-].
  pose proof (is_fresh ({[NULL; 100]} ∪ live)) as Hf. set (x := fresh _) in *. clearbody x.
  split_and!; [set_solver|set_solver|set_solver].
Defined.

Definition toy_state_of (w : DbWorld ToySql) : NkOMState HTable.NkHashtable (DbWorld ToySql) :=
  mkNkOM true false (Some example_classes) w.
Definition toy_start (rows : list (list SqlValue)) : NkOMState HTable.NkHashtable (DbWorld ToySql) :=
  toy_state_of (mkDbWorld (toy_empty rows) ∅ ∅ None).
