(* ===== verification/DbOwned.v ===== *)
(** * Database handles and statements: who owns what

    The reference counts, the connections and the compiled statements of [Db.v] through
    every operation a client can perform, error paths included: the invariant [owned], that
    each operation keeps it, and the theorems about opening, creating and releasing. *)
From S2P Require Import Prelude CStr HTable Util Registry NkOM Db DbToy.

(** ** The invariant

    [ext p] is the number of references to the object at [p] that clients hold.  The
    invariant relates the reference counts to them and to the statements of a database,
    and says that every connection and every compiled statement SQLite knows belongs to
    exactly one live object. *)
Definition bump (p k : Z) (ext : Z → Z) : Z → Z := λ x, if decide (x = p) then ext x + k else ext x.
Lemma bump_at p k ext : bump p k ext p = ext p + k.
Proof. unfold bump. by rewrite decide_True. Qed.
Lemma bump_ne p k ext x : x ≠ p → bump p k ext x = ext x.
Proof. intros. unfold bump. by rewrite decide_False. Qed.

Definition on_db (p : Z) : (Z * Sqlite3Stmt) → Prop := λ e, st_dbConn e.2 = p.
#[export] Instance on_db_dec p e : Decision (on_db p e).
Proof. unfold on_db. apply _. Defined.
Definition stmts_on (p : Z) (S : gmap Z Sqlite3Stmt) : Z := Z.of_nat (size (filter (on_db p) S)).

Lemma stmts_on_nonneg p S : 0 ≤ stmts_on p S.
Proof. unfold stmts_on. lia. Qed.
Lemma stmts_on_insert p S x s :
  S !! x = None → stmts_on p (<[x := s]> S) = stmts_on p S + if decide (st_dbConn s = p) then 1 else 0.
Proof.
  intros Hx. unfold stmts_on. case_decide as Hs.
  - rewrite map_filter_insert_True by done. rewrite map_size_insert_None; [lia|].
    by apply map_lookup_filter_None_2; left.
  - rewrite map_filter_insert_False by done. rewrite delete_id by done. lia.
Qed.
Lemma stmts_on_delete p S x s :
  S !! x = Some s → stmts_on p (delete x S) = stmts_on p S - if decide (st_dbConn s = p) then 1 else 0.
Proof.
  intros Hx. rewrite <-(insert_delete_id S x s Hx) at 2. rewrite stmts_on_insert by apply lookup_delete_eq. lia.
Qed.
Lemma stmts_on_update p S x s s' :
  S !! x = Some s → st_dbConn s' = st_dbConn s → stmts_on p (<[x := s']> S) = stmts_on p S.
Proof.
  intros Hx Hs. rewrite <-insert_delete_eq, stmts_on_insert by apply lookup_delete_eq.
  rewrite (stmts_on_delete p S x s Hx), Hs. lia.
Qed.
Lemma stmts_on_pos p S x s : S !! x = Some s → st_dbConn s = p → 0 < stmts_on p S.
Proof.
  intros Hx Hs. pose proof (stmts_on_delete p S x s Hx) as E. rewrite decide_True in E by done.
  pose proof (stmts_on_nonneg p (delete x S)). lia.
Qed.
Lemma stmts_on_zero p S : (∀ x s, S !! x = Some s → st_dbConn s ≠ p) → stmts_on p S = 0.
Proof.
  intros Hn. unfold stmts_on. rewrite (proj2 (map_empty_filter _ _)); [done|]. intros x s Hx Hon. by apply (Hn x s Hx).
Qed.

Section ownership.
Context {Q : Type} `{SqliteLaws Q} `{DbHostLaws}.
Implicit Types (q : Q) (S : gmap Z Sqlite3Stmt) (D : gmap Z Sqlite3DbHandle) (ext : Z → Z).

Record owned ext q S D : Prop := {
  own_stmt p s : S !! p = Some s → 0 < st_refCount s ∧ st_refCount s = ext p ∧
    ∃ d, D !! st_dbConn s = Some d ∧
      (mp_stmtPtr s ≠ NULL → compiled q !! mp_stmtPtr s = Some (mp_dbConn d));
  own_db p d : D !! p = Some d → 0 < db_refCount d ∧ db_refCount d = ext p + stmts_on p S ∧
    (mp_dbConn d ≠ NULL → mp_dbConn d ∈ conns q);
  own_ext p : 0 ≤ ext p ∧ (0 < ext p → is_Some (S !! p) ∨ is_Some (D !! p));
  own_disj p s : S !! p = Some s → D !! p = None;
  own_addr p : is_Some (S !! p) ∨ is_Some (D !! p) → p ≠ NULL ∧ p ≠ gl_c_Sqlite3HdFactory;
  own_conns c : c ∈ conns q → ∃ p d, D !! p = Some d ∧ mp_dbConn d = c;
  own_conn_inj p1 p2 d1 d2 : D !! p1 = Some d1 → D !! p2 = Some d2 →
    mp_dbConn d1 = mp_dbConn d2 → mp_dbConn d1 ≠ NULL → p1 = p2;
  own_compiled x c : compiled q !! x = Some c → ∃ p s, S !! p = Some s ∧ mp_stmtPtr s = x;
  own_stmt_inj p1 p2 s1 s2 : S !! p1 = Some s1 → S !! p2 = Some s2 →
    mp_stmtPtr s1 = mp_stmtPtr s2 → mp_stmtPtr s1 ≠ NULL → p1 = p2
}.

Lemma owned_ext ext ext' q S D : (∀ p, ext p = ext' p) → owned ext q S D → owned ext' q S D.
Proof.
  intros He []. split; try done; intros p; rewrite <-He; auto.
Qed.
Lemma owned_sql ext q q' S D : same_handles q q' → owned ext q S D → owned ext q' S D.
Proof. intros [Hc Hs] []. split; rewrite ?Hc, ?Hs; done. Qed.
Lemma owned_empty q : conns q = ∅ → compiled q = ∅ → owned (λ _, 0) q ∅ ∅.
Proof.
  intros Hc Hs. split; rewrite ?Hc, ?Hs; try (intros *; rewrite lookup_empty; done); try set_solver.
  intros p [[? Hp]|[? Hp]]; by rewrite lookup_empty in Hp.
Qed.

Lemma own_fresh ext q S D p : owned ext q S D → S !! p = None → D !! p = None → ext p = 0 ∧ stmts_on p S = 0.
Proof.
  intros Hi HS HD. destruct (own_ext _ _ _ _ Hi p) as [K0 K1]. split.
  - destruct (decide (0 < ext p)) as [Hp|]; [|lia]. destruct (K1 Hp) as [[? E]|[? E]]; congruence.
  - apply stmts_on_zero. intros x s Hx <-. destruct (own_stmt _ _ _ _ Hi x s Hx) as (_ & _ & d & E & _). congruence.
Qed.

(** Without references there is nothing. *)
Lemma own_none ext q S D : owned ext q S D → (∀ p, ext p = 0) → S = ∅ ∧ D = ∅ ∧ conns q = ∅ ∧ compiled q = ∅.
Proof.
  intros Hi Hz.
  assert (HS : S = ∅).
  { apply map_empty. intros p. destruct (S !! p) as [s|] eqn:E; [|done].
    destruct (own_stmt _ _ _ _ Hi p s E) as (? & ? & _). pose proof (Hz p). lia. }
  assert (HD : D = ∅).
  { apply map_empty. intros p. destruct (D !! p) as [d|] eqn:E; [|done].
    destruct (own_db _ _ _ _ Hi p d E) as (? & He & _). rewrite HS, (stmts_on_zero p ∅), Hz in He by (intros x s; by rewrite lookup_empty).
    lia. }
  split_and!; [done|done|..].
  - apply set_eq. intros c. split; [|by intros ?%not_elem_of_empty]. intros Hc.
    destruct (own_conns _ _ _ _ Hi c Hc) as (p & d & E & _). by rewrite HD, lookup_empty in E.
  - apply map_empty. intros x. destruct (compiled _ !! x) as [c|] eqn:E; [|done].
    destruct (own_compiled _ _ _ _ Hi x c E) as (p & s & E' & _). by rewrite HS, lookup_empty in E'.
Qed.

(** Changing the number of references clients have to a database. *)
Lemma owned_bump_db ext q S D p k d :
  owned ext q S D → D !! p = Some d → 0 < db_refCount d + k → 0 ≤ ext p + k →
  owned (bump p k ext) q S (<[p := mkDb (db_refCount d + k) (m_dbMode d) (mp_dbConn d)]> D).
Proof.
  intros Hi Hp Hr He.
  assert (HD : ∀ x y, <[p := mkDb (db_refCount d + k) (m_dbMode d) (mp_dbConn d)]> D !! x = Some y →
                ∃ d', D !! x = Some d' ∧ mp_dbConn y = mp_dbConn d' ∧
                  db_refCount y = db_refCount d' + if decide (x = p) then k else 0).
  { intros x y. destruct (decide (x = p)) as [->|Hne].
    - rewrite lookup_insert_eq. intros [= <-]. by exists d.
    - rewrite lookup_insert_ne by done. exists y. rewrite Z.add_0_r. done. }
  assert (HS : ∀ x s, S !! x = Some s → x ≠ p) by (intros x s Hx ->; by rewrite (own_disj _ _ _ _ Hi p s Hx) in Hp).
  split.
  - intros x s Hx. destruct (own_stmt _ _ _ _ Hi x s Hx) as (K1 & K2 & d' & K3 & K4).
    rewrite bump_ne by eauto. split_and!; [done..|].
    destruct (decide (st_dbConn s = p)) as [E|Hne].
    + rewrite E, lookup_insert_eq. eexists. split; [done|]. rewrite E in K3. simplify_eq. exact K4.
    + rewrite lookup_insert_ne by done. eauto.
  - intros x y Hx. destruct (HD x y Hx) as (d' & Hd & Hc & Hr'). destruct (own_db _ _ _ _ Hi x d' Hd) as (K1 & K2 & K3).
    rewrite Hc, Hr'. destruct (decide (x = p)) as [->|Hne].
    + assert (d' = d) as -> by congruence. rewrite bump_at. split_and!; [done|lia|done].
    + rewrite bump_ne by done. split_and!; [lia|lia|done].
  - intros x. destruct (own_ext _ _ _ _ Hi x) as [K1 K2]. destruct (decide (x = p)) as [->|Hne].
    + rewrite bump_at. split; [done|]. intros _. right. rewrite lookup_insert_eq. eauto.
    + rewrite bump_ne by done. split; [done|]. by rewrite lookup_insert_ne.
  - intros x s Hx. rewrite lookup_insert_ne by (by apply not_eq_sym, (HS x s)). by apply (own_disj _ _ _ _ Hi x s).
  - intros x Hx. apply (own_addr _ _ _ _ Hi). destruct Hx as [Hx|[y Hx]]; [by left|right].
    destruct (HD x y Hx) as (d' & ? & _). eauto.
  - intros c Hc. destruct (own_conns _ _ _ _ Hi c Hc) as (x & y & Hx & <-). exists x.
    destruct (decide (x = p)) as [->|Hne].
    + rewrite lookup_insert_eq. eexists. split; [done|]. simpl. congruence.
    + rewrite lookup_insert_ne by done. eauto.
  - intros p1 p2 d1 d2 K1 K2. destruct (HD _ _ K1) as (e1 & ? & -> & _). destruct (HD _ _ K2) as (e2 & ? & -> & _).
    by apply (own_conn_inj _ _ _ _ Hi p1 p2).
  - exact (own_compiled _ _ _ _ Hi).
  - exact (own_stmt_inj _ _ _ _ Hi).
Qed.

(** The same for a statement. *)
Lemma owned_bump_stmt ext q S D p k s :
  owned ext q S D → S !! p = Some s → 0 < st_refCount s + k →
  owned (bump p k ext) q (<[p := mkStmt (st_refCount s + k) (st_dbConn s) (mp_stmtPtr s)]> S) D.
Proof.
  intros Hi Hp Hr. set (s' := mkStmt _ _ _).
  assert (HS : ∀ x y, <[p := s']> S !! x = Some y →
                ∃ z, S !! x = Some z ∧ st_dbConn y = st_dbConn z ∧ mp_stmtPtr y = mp_stmtPtr z ∧
                  st_refCount y = st_refCount z + if decide (x = p) then k else 0).
  { intros x y. destruct (decide (x = p)) as [->|Hne].
    - rewrite lookup_insert_eq. intros [= <-]. by exists s.
    - rewrite lookup_insert_ne by done. exists y. rewrite Z.add_0_r. done. }
  assert (Hon : ∀ d, stmts_on d (<[p := s']> S) = stmts_on d S) by (intros d; by apply (stmts_on_update d S p s)).
  pose proof (own_stmt _ _ _ _ Hi p s Hp) as (K1 & K2 & _).
  split.
  - intros x y Hx. destruct (HS x y Hx) as (z & Hz & Ed & Ep & Er).
    destruct (own_stmt _ _ _ _ Hi x z Hz) as (K3 & K4 & K5). rewrite Ed, Ep, Er.
    destruct (decide (x = p)) as [->|Hne].
    + assert (z = s) as -> by congruence. rewrite bump_at. split_and!; [done|lia|done].
    + rewrite bump_ne by done. split_and!; [lia|lia|done].
  - intros x d Hx. rewrite Hon. rewrite bump_ne; [by apply (own_db _ _ _ _ Hi)|].
    intros ->. by rewrite (own_disj _ _ _ _ Hi p s Hp) in Hx.
  - intros x. destruct (own_ext _ _ _ _ Hi x) as [K3 K4]. destruct (decide (x = p)) as [->|Hne].
    + rewrite bump_at. split; [lia|]. intros _. left. rewrite lookup_insert_eq. eauto.
    + rewrite bump_ne by done. split; [done|]. by rewrite lookup_insert_ne.
  - intros x y Hx. destruct (HS x y Hx) as (z & Hz & _). by apply (own_disj _ _ _ _ Hi x z).
  - intros x Hx. apply (own_addr _ _ _ _ Hi). destruct Hx as [[y Hx]|Hx]; [left|by right].
    destruct (HS x y Hx) as (z & ? & _). eauto.
  - exact (own_conns _ _ _ _ Hi).
  - exact (own_conn_inj _ _ _ _ Hi).
  - intros x c Hx. destruct (own_compiled _ _ _ _ Hi x c Hx) as (y & z & Hy & <-).
    destruct (decide (y = p)) as [->|Hne].
    + exists p, s'. rewrite lookup_insert_eq. split; [done|]. simpl. congruence.
    + exists y, z. by rewrite lookup_insert_ne.
  - intros p1 p2 y1 y2 K3 K4. destruct (HS _ _ K3) as (z1 & ? & _ & -> & _). destruct (HS _ _ K4) as (z2 & ? & _ & -> & _).
    by apply (own_stmt_inj _ _ _ _ Hi p1 p2).
Qed.

(** A new database handle, in the hands of its creator. *)
Lemma owned_new_db ext q S D p :
  owned ext q S D → S !! p = None → D !! p = None → p ≠ NULL → p ≠ gl_c_Sqlite3HdFactory →
  owned (bump p 1 ext) q S (<[p := mkDb 1 NkDbMode_Unknown NULL]> D).
Proof.
  intros Hi HS HD Hn Hf. destruct (own_fresh _ _ _ _ _ Hi HS HD) as [He Hon].
  assert (Hne : ∀ x d, D !! x = Some d → x ≠ p) by (intros x d Hx ->; congruence).
  split.
  - intros x s Hx. destruct (own_stmt _ _ _ _ Hi x s Hx) as (K1 & K2 & d & K3 & K4).
    rewrite bump_ne by (intros ->; congruence). split_and!; [done..|]. exists d.
    by rewrite lookup_insert_ne by (apply not_eq_sym; eauto).
  - intros x d. destruct (decide (x = p)) as [->|Hx].
    + rewrite lookup_insert_eq. intros [= <-]. rewrite bump_at, He, Hon. done.
    + rewrite lookup_insert_ne, bump_ne by done. apply (own_db _ _ _ _ Hi).
  - intros x. destruct (own_ext _ _ _ _ Hi x). destruct (decide (x = p)) as [->|Hx].
    + rewrite bump_at. split; [lia|]. intros _. right. rewrite lookup_insert_eq. eauto.
    + rewrite bump_ne by done. by rewrite lookup_insert_ne.
  - intros x s Hx. rewrite lookup_insert_ne by (intros ->; congruence). by apply (own_disj _ _ _ _ Hi x s).
  - intros x Hx. destruct (decide (x = p)) as [->|Hxp]; [done|]. apply (own_addr _ _ _ _ Hi).
    by rewrite lookup_insert_ne in Hx.
  - intros c Hc. destruct (own_conns _ _ _ _ Hi c Hc) as (x & d & Hx & <-). exists x, d.
    by rewrite lookup_insert_ne by (apply not_eq_sym; eauto).
  - intros p1 p2 d1 d2. destruct (decide (p1 = p)) as [->|K1], (decide (p2 = p)) as [->|K2];
      rewrite ?lookup_insert_eq, ?lookup_insert_ne by done; try done.
    + by intros [= <-] _ _ [].
    + intros _ [= <-] -> []. done.
    + apply (own_conn_inj _ _ _ _ Hi).
  - exact (own_compiled _ _ _ _ Hi).
  - exact (own_stmt_inj _ _ _ _ Hi).
Qed.

(** A connection that no statement uses is opened or closed: the handle's connection
    goes from [mp_dbConn d] to [c]. *)
Lemma owned_set_conn ext q q' S D p d mode c :
  owned ext q S D → D !! p = Some d → compiled q' = compiled q →
  (∀ s, compiled q !! s ≠ Some (mp_dbConn d)) →
  (∀ x, x ∈ conns q' ↔ x ≠ NULL ∧ x = c ∨ x ∈ conns q ∧ x ≠ mp_dbConn d) →
  c ∉ conns q →
  owned ext q' S (<[p := mkDb (db_refCount d) mode c]> D).
Proof.
  intros Hi Hp Hs Hno Hc Hcn.
  assert (HSp : ∀ x s, S !! x = Some s → x ≠ p) by (intros x s Hx ->; by rewrite (own_disj _ _ _ _ Hi p s Hx) in Hp).
  split; rewrite ?Hs.
  - intros x s Hx. destruct (own_stmt _ _ _ _ Hi x s Hx) as (K1 & K2 & e & K3 & K4). split_and!; [done..|].
    destruct (decide (st_dbConn s = p)) as [E|Hne].
    + rewrite E, lookup_insert_eq. eexists. split; [done|]. intros Hn. rewrite E in K3. simplify_eq.
      by destruct (Hno (mp_stmtPtr s)), K4.
    + rewrite lookup_insert_ne by done. eauto.
  - intros x e. destruct (decide (x = p)) as [->|Hx].
    + rewrite lookup_insert_eq. intros [= <-]. destruct (own_db _ _ _ _ Hi p d Hp) as (K1 & K2 & _).
      split_and!; [done..|]. intros Hn. apply Hc. by left.
    + rewrite lookup_insert_ne by done. intros Hx'. destruct (own_db _ _ _ _ Hi x e Hx') as (K1 & K2 & K3).
      split_and!; [done..|]. intros Hn. apply Hc. right. split; [auto|]. intros E.
      by apply Hx, (own_conn_inj _ _ _ _ Hi x p e d).
  - intros x. destruct (own_ext _ _ _ _ Hi x) as [K1 K2]. split; [done|]. intros K3. destruct (K2 K3) as [?|[y Hy]]; [by left|right].
    destruct (decide (x = p)) as [->|Hx]; [rewrite lookup_insert_eq; eauto|]. rewrite lookup_insert_ne by done. eauto.
  - intros x s Hx. rewrite lookup_insert_ne by (by apply not_eq_sym, (HSp x s)). by apply (own_disj _ _ _ _ Hi x s).
  - intros x Hx. apply (own_addr _ _ _ _ Hi). destruct Hx as [Hx|[y Hx]]; [by left|right].
    destruct (decide (x = p)) as [->|Hne]; [eauto|]. rewrite lookup_insert_ne in Hx by done. eauto.
  - intros x [[_ ->]|[Hx Hne]]%Hc.
    + exists p. eexists. by rewrite lookup_insert_eq.
    + destruct (own_conns _ _ _ _ Hi x Hx) as (y & e & Hy & <-). exists y, e. rewrite lookup_insert_ne; [done|].
      intros ->. congruence.
  - assert (Hone : ∀ x e, D !! x = Some e → x ≠ p → mp_dbConn e ≠ NULL → mp_dbConn e ≠ c).
    { intros x e Hx _ Hn <-. destruct (own_db _ _ _ _ Hi x e Hx) as (_ & _ & K1). auto. }
    intros p1 p2 d1 d2. destruct (decide (p1 = p)) as [->|K1], (decide (p2 = p)) as [->|K2];
      rewrite ?lookup_insert_eq, ?lookup_insert_ne by done; try done.
    + intros [= <-] K3 E Hn. simpl in E, Hn. exfalso. subst c. by apply (Hone p2 d2 K3 K2).
    + intros K3 [= <-] E Hn. simpl in E. exfalso. by apply (Hone p1 d1 K3 K1).
    + apply (own_conn_inj _ _ _ _ Hi).
  - exact (own_compiled _ _ _ _ Hi).
  - exact (own_stmt_inj _ _ _ _ Hi).
Qed.

(** The last reference to a closed handle goes. *)
Lemma owned_remove_db ext q S D p d :
  owned ext q S D → D !! p = Some d → db_refCount d = 1 → 0 < ext p → mp_dbConn d = NULL →
  owned (bump p (-1) ext) q S (delete p D).
Proof.
  intros Hi Hp Hr He Hn. destruct (own_db _ _ _ _ Hi p d Hp) as (_ & K1 & _). pose proof (stmts_on_nonneg p S) as K2.
  assert (K3 : ext p = 1) by lia. assert (K4 : stmts_on p S = 0) by lia. clear K1 K2.
  assert (HSp : ∀ x s, S !! x = Some s → x ≠ p ∧ st_dbConn s ≠ p).
  { intros x s Hx. split; intros E.
    - subst x. by rewrite (own_disj _ _ _ _ Hi p s Hx) in Hp.
    - pose proof (stmts_on_pos p S x s Hx E). lia. }
  split.
  - intros x s Hx. destruct (HSp x s Hx) as [E1 E2]. rewrite bump_ne, lookup_delete_ne by auto. by apply (own_stmt _ _ _ _ Hi).
  - intros x e [Hne Hx]%lookup_delete_Some. rewrite bump_ne by auto. by apply (own_db _ _ _ _ Hi).
  - intros x. destruct (own_ext _ _ _ _ Hi x) as [K5 K6]. destruct (decide (x = p)) as [->|Hne].
    + rewrite bump_at. lia.
    + rewrite bump_ne, lookup_delete_ne by auto. done.
  - intros x s Hx. apply lookup_delete_None. right. by apply (own_disj _ _ _ _ Hi x s).
  - intros x Hx. apply (own_addr _ _ _ _ Hi). destruct Hx as [Hx|[y Hx]]; [by left|right].
    apply lookup_delete_Some in Hx as [_ Hx]. eauto.
  - intros c Hc. destruct (own_conns _ _ _ _ Hi c Hc) as (y & e & Hy & <-). exists y, e. split; [|done].
    apply lookup_delete_Some. split; [|done]. intros <-. simplify_eq. rewrite Hn in Hc. by destruct (handles_law q) as [[] _].
  - intros p1 p2 d1 d2 [_ E1]%lookup_delete_Some [_ E2]%lookup_delete_Some. by apply (own_conn_inj _ _ _ _ Hi).
  - exact (own_compiled _ _ _ _ Hi).
  - exact (own_stmt_inj _ _ _ _ Hi).
Qed.

(** A new statement takes over a reference to its database. *)
Lemma owned_new_stmt ext q q' S D p o d r sql s :
  owned ext q S D → S !! p = None → D !! p = None → p ≠ NULL → p ≠ gl_c_Sqlite3HdFactory →
  D !! o = Some d → 0 < ext o →
  sqlite3_prepare_v2 (mp_dbConn d) sql q = (r, s, q') → r = SQLITE_OK →
  owned (bump p 1 (bump o (-1) ext)) q' (<[p := mkStmt 1 o s]> S) D.
Proof.
  intros Hi HS HD Hn Hf Ho Heo Hpr ->. destruct (own_fresh _ _ _ _ _ Hi HS HD) as [He Hon].
  destruct (prepare_law _ _ _ _ _ _ Hpr) as (Hc & Hco & Hs). specialize (Hco eq_refl).
  assert (Hop : o ≠ p) by (intros ->; congruence).
  assert (Hold : ∀ x c, compiled q !! x = Some c → compiled q' !! x = Some c).
  { intros x c Hx. case_decide as Hs0; [by rewrite Hs|]. destruct Hs as (_ & Hf' & ->). rewrite lookup_insert_ne; [done|].
    intros ->. congruence. }
  assert (Hnew : ∀ x y, S !! x = Some y → mp_stmtPtr y = s → s ≠ NULL → False).
  { intros x y Hx Hy Hs0. rewrite decide_False in Hs by done. destruct Hs as (_ & Hf' & _).
    destruct (own_stmt _ _ _ _ Hi x y Hx) as (_ & _ & e & _ & K1). rewrite Hy in K1. by rewrite K1 in Hf'. }
  split; rewrite ?Hc.
  - intros x y. destruct (decide (x = p)) as [->|Hx].
    + rewrite lookup_insert_eq. intros [= <-]. rewrite bump_at, bump_ne, He by auto. split_and!; [done..|].
      exists d. split; [done|]. cbn [mp_stmtPtr]. intros Hs0. rewrite decide_False in Hs by done.
      destruct Hs as (_ & _ & ->). by rewrite lookup_insert_eq.
    + rewrite lookup_insert_ne, bump_ne by done. intros Hy.
      rewrite bump_ne by (intros ->; by rewrite (own_disj _ _ _ _ Hi o y Hy) in Ho).
      destruct (own_stmt _ _ _ _ Hi x y Hy) as (K1 & K2 & e & K3 & K4). split_and!; [done..|]. exists e. auto.
  - intros x e Hx. assert (x ≠ p) by (intros ->; congruence). rewrite stmts_on_insert, bump_ne by done.
    destruct (own_db _ _ _ _ Hi x e Hx) as (K1 & K2 & K3). cbn [st_dbConn]. destruct (decide (o = x)) as [E|E].
    + rewrite <-E in *. rewrite bump_at. split_and!; [done|lia|done].
    + rewrite bump_ne by auto. split_and!; [done|lia|done].
  - intros x. destruct (own_ext _ _ _ _ Hi x) as [K1 K2]. destruct (decide (x = p)) as [->|Hx].
    + rewrite bump_at, bump_ne by auto. split; [lia|]. rewrite lookup_insert_eq. eauto.
    + rewrite bump_ne, lookup_insert_ne by done. destruct (decide (x = o)) as [->|Hxo].
      * rewrite bump_at. split; [lia|]. eauto.
      * by rewrite bump_ne.
  - intros x y. destruct (decide (x = p)) as [->|Hx]; [done|]. rewrite lookup_insert_ne by done. apply (own_disj _ _ _ _ Hi).
  - intros x Hx. destruct (decide (x = p)) as [->|Hxp]; [done|]. apply (own_addr _ _ _ _ Hi). by rewrite lookup_insert_ne in Hx.
  - exact (own_conns _ _ _ _ Hi).
  - exact (own_conn_inj _ _ _ _ Hi).
  - intros x c Hx. destruct (decide (x = s)) as [->|Hxs].
    + exists p. eexists. by rewrite lookup_insert_eq.
    + assert (Hx' : compiled q !! x = Some c).
      { case_decide; [by rewrite <-Hs|]. destruct Hs as (_ & _ & Hs). rewrite Hs in Hx. by rewrite lookup_insert_ne in Hx by auto. }
      destruct (own_compiled _ _ _ _ Hi x c Hx') as (y & z & Hy & Ez). exists y, z. split; [|done].
      rewrite lookup_insert_ne; [done|]. intros ->. congruence.
  - intros p1 p2 y1 y2. destruct (decide (p1 = p)) as [->|K1], (decide (p2 = p)) as [->|K2];
      rewrite ?lookup_insert_eq, ?lookup_insert_ne by done; try done.
    + intros [= <-] K3 E Hs0. exfalso. simpl in E, Hs0. by eapply Hnew.
    + intros K3 [= <-] E Hs0. exfalso. simpl in E. eapply Hnew; [exact K3|exact E|congruence].
    + apply (own_stmt_inj _ _ _ _ Hi).
Qed.

(** A statement that goes leaves its reference to the database behind. *)
Lemma owned_drop_stmt ext q S D p s :
  owned ext q S D → S !! p = Some s → st_refCount s = 1 →
  owned (bump (st_dbConn s) 1 (bump p (-1) ext)) (sqlite3_finalize (mp_stmtPtr s) q) (delete p S) D.
Proof.
  intros Hi Hp Hr. destruct (own_stmt _ _ _ _ Hi p s Hp) as (_ & He & d & Hd & Hcs). rewrite Hr in He.
  destruct (finalize_law (mp_stmtPtr s) q) as [Hc Hs]. set (o := st_dbConn s) in *.
  assert (Hop : o ≠ p) by (intros E; by rewrite <-E, (own_disj _ _ _ _ Hi p s Hp) in Hd || (rewrite E in Hd; by rewrite (own_disj _ _ _ _ Hi p s Hp) in Hd)).
  split; rewrite ?Hc, ?Hs.
  - intros x y [Hx Hy]%lookup_delete_Some. rewrite bump_ne by (intros ->; by rewrite (own_disj _ _ _ _ Hi o y Hy) in Hd).
    rewrite bump_ne by auto. destruct (own_stmt _ _ _ _ Hi x y Hy) as (K1 & K2 & e & K3 & K4). split_and!; [done..|].
    exists e. split; [done|]. intros Hn. rewrite lookup_delete_ne; [auto|]. intros E.
    apply Hx, (own_stmt_inj _ _ _ _ Hi p x s y); auto. congruence.
  - intros x e Hx. assert (x ≠ p) by (intros ->; by rewrite (own_disj _ _ _ _ Hi p s Hp) in Hx).
    rewrite (stmts_on_delete x S p s Hp). destruct (own_db _ _ _ _ Hi x e Hx) as (K1 & K2 & K3). fold o. destruct (decide (o = x)) as [E|E].
    + rewrite <-E in *. rewrite bump_at, bump_ne by done. split_and!; [done|lia|done].
    + rewrite !bump_ne by auto. split_and!; [done|lia|done].
  - intros x. destruct (own_ext _ _ _ _ Hi x) as [K1 K2]. destruct (decide (x = o)) as [->|Hxo].
    + rewrite bump_at, bump_ne by done. split; [lia|]. eauto.
    + rewrite (bump_ne o) by done. destruct (decide (x = p)) as [->|Hx].
      * rewrite bump_at. lia.
      * rewrite bump_ne, lookup_delete_ne by auto. done.
  - intros x y [_ Hx]%lookup_delete_Some. by apply (own_disj _ _ _ _ Hi x y).
  - intros x Hx. apply (own_addr _ _ _ _ Hi). destruct Hx as [[y Hx]|Hx]; [left|by right].
    apply lookup_delete_Some in Hx as [_ Hx]. eauto.
  - exact (own_conns _ _ _ _ Hi).
  - exact (own_conn_inj _ _ _ _ Hi).
  - intros x c [Hne Hx]%lookup_delete_Some. destruct (own_compiled _ _ _ _ Hi x c Hx) as (y & z & Hy & Ez).
    exists y, z. split; [|done]. apply lookup_delete_Some. split; [|done]. intros <-. simplify_eq.
  - intros p1 p2 y1 y2 [_ K1]%lookup_delete_Some [_ K2]%lookup_delete_Some. by apply (own_stmt_inj _ _ _ _ Hi).
Qed.


(** ** Releasing *)
Ltac wsimpl :=
  cbv beta zeta delta [put_db put_stmt set_sql set_dbs set_stmts set_init] in *;
  cbn [w_sql w_stmts w_dbs w_init get_or mbind outcome_bind mp_dbConn db_refCount m_dbMode st_refCount st_dbConn mp_stmtPtr] in *.

Notation owned_in ext w := (owned ext (w_sql w) (w_stmts w) (w_dbs w)).

(** Closing the connection of a handle, whether it has one or not. *)
Lemma close_spec ext q S D p d :
  owned ext q S D → D !! p = Some d →
  ∃ e q' D', (∀ S' i, Sqlite3DbHandle_Close p (mkDbWorld q S' D i) = Ret (e, mkDbWorld q' S' D' i)) ∧
    owned ext q' S D' ∧
    (e = NkErr_Ok ∧ D' = <[p := mkDb (db_refCount d) (m_dbMode d) NULL]> D ∨
     e = NkErr_DatabaseClose ∧ D' = D ∧ mp_dbConn d ≠ NULL ∧ ∃ x s, S !! x = Some s ∧ st_dbConn s = p).
Proof.
  intros Hi Hp. unfold Sqlite3DbHandle_Close, the_db. cbn [w_dbs w_sql].
  destruct (sqlite3_close (mp_dbConn d) q) as [r q'] eqn:Ec. destruct (handles_law q) as (Hn & _ & Hcc).
  destruct (decide (mp_dbConn d = NULL)) as [E|Hnull].
  - rewrite E, close_null in Ec. injection Ec as <- <-. exists NkErr_Ok, q, (<[p := mkDb (db_refCount d) (m_dbMode d) NULL]> D).
    split; [intros; rewrite Hp; cbn [get_or mbind outcome_bind]; rewrite E, close_null; done|].
    split; [|by left]. eapply owned_set_conn; [exact Hi|exact Hp|done|..].
    + intros s Hs. rewrite E in Hs. by apply Hcc in Hs.
    + intros x. split; [|intros [[]|[]]; done]. intros Hx. right. split; [done|]. rewrite E. by intros ->.
    + done.
  - destruct (own_db _ _ _ _ Hi p d Hp) as (_ & _ & Hc). specialize (Hc Hnull).
    destruct (close_law _ _ _ _ Hc Ec) as [Hs [(Hr & Hcs & x & Hx)|(-> & Hcs & Hno)]].
    + exists NkErr_DatabaseClose, q', D. split.
      { intros. rewrite Hp. cbn [get_or mbind outcome_bind]. rewrite Ec. by rewrite (proj2 (Z.eqb_neq _ _) Hr). }
      split; [by apply (owned_sql _ q)|]. right. split_and!; [done..|].
      destruct (own_compiled _ _ _ _ Hi _ _ Hx) as (y & s & Hy & <-). exists y, s. split; [done|].
      destruct (own_stmt _ _ _ _ Hi y s Hy) as (_ & _ & d' & Hd' & Hcd).
      assert (Hns : mp_stmtPtr s ≠ NULL) by (intros E; rewrite E in Hx; by rewrite (proj1 (proj2 (handles_law q))) in Hx).
      apply (own_conn_inj _ _ _ _ Hi _ _ d' d); [done..| |]; rewrite Hcd in Hx by done; congruence.
    + exists NkErr_Ok, q', (<[p := mkDb (db_refCount d) (m_dbMode d) NULL]> D). split.
      { intros. rewrite Hp. cbn [get_or mbind outcome_bind]. rewrite Ec. done. }
      split; [|by left]. eapply owned_set_conn; [exact Hi|exact Hp|done|done|..].
      * intros x. rewrite Hcs, elem_of_difference, elem_of_singleton. split; [by right|]. intros [[]|?]; done.
      * done.
Qed.

(** Releasing a database the client has a reference to. *)
Lemma release_db_spec ext q S D p d :
  owned ext q S D → D !! p = Some d → 0 < ext p →
  ∃ n q' D', (∀ S' i, Sqlite3DbHandle_Release p (mkDbWorld q S' D i) = Ret (n, mkDbWorld q' S' D' i)) ∧
    owned (bump p (-1) ext) q' S D'.
Proof.
  intros Hi Hp He. unfold Sqlite3DbHandle_Release, the_db. wsimpl. rewrite Hp. wsimpl.
  destruct (own_db _ _ _ _ Hi p d Hp) as (Hr & Hsum & _). pose proof (stmts_on_nonneg p S).
  destruct (Z.leb_spec (db_refCount d - 1) 0) as [Hle|Hgt].
  - assert (E1 : db_refCount d = 1) by lia. assert (Hone : stmts_on p S = 0) by lia.
    destruct (close_spec ext q S D p d Hi Hp) as (e & q' & D' & Hcl & Hi2 & [[-> ->]|(_ & _ & _ & x & s & Hx & Hs)]).
    2: { pose proof (stmts_on_pos p S x s Hx Hs). lia. }
    exists 0, q', (delete p D). split.
    + intros S' i. unfold Sqlite3DbHandle_Close, the_db in *. specialize (Hcl S' i). wsimpl. rewrite Hp in Hcl.
      rewrite lookup_insert_eq. wsimpl. destruct (sqlite3_close (mp_dbConn d) q) as [r q2].
      destruct (r =? SQLITE_OK); [|discriminate Hcl].
      injection Hcl as <-. wsimpl. by rewrite insert_insert_eq, delete_insert_eq.
    + rewrite <-(delete_insert_eq D p (mkDb (db_refCount d) (m_dbMode d) NULL)).
      eapply owned_remove_db; [exact Hi2|by rewrite lookup_insert_eq|done|done|done].
  - exists (db_refCount d - 1), q, (<[p := mkDb (db_refCount d - 1) (m_dbMode d) (mp_dbConn d)]> D).
    split; [intros; reflexivity|].
    apply (owned_bump_db ext q S D p (-1) d Hi Hp); lia.
Qed.
Lemma release_stmt_spec ext w p s :
  owned_in ext w → w_stmts w !! p = Some s →
  ∃ n w', Sqlite3Stmt_Release p w = Ret (n, w') ∧ owned_in (bump p (-1) ext) w'.
Proof.
  intros Hi Hp. destruct w as [q S D i]. unfold Sqlite3Stmt_Release, the_stmt. wsimpl. rewrite Hp. wsimpl.
  destruct (own_stmt _ _ _ _ Hi p s Hp) as (Hr & He & d & Hd & _).
  destruct (Z.leb_spec (st_refCount s - 1) 0) as [Hle|Hgt].
  - pose proof (owned_drop_stmt _ _ _ _ _ _ Hi Hp ltac:(lia)) as Hi'.
    assert (Hop : st_dbConn s ≠ p) by (intros E; rewrite E, (own_disj _ _ _ _ Hi p s Hp) in Hd; done).
    destruct (release_db_spec _ _ _ _ (st_dbConn s) d Hi' Hd) as (n & q' & D' & Hrel & Hi2).
    { rewrite bump_at, bump_ne by done. destruct (own_ext _ _ _ _ Hi (st_dbConn s)). lia. }
    rewrite Hrel. wsimpl. do 2 eexists. split; [done|]. wsimpl. rewrite delete_insert_eq.
    eapply owned_ext; [|exact Hi2]. intros x. unfold bump. repeat case_decide; lia.
  - do 2 eexists. split; [done|]. wsimpl. apply (owned_bump_stmt _ _ _ _ _ (-1) _ Hi Hp). lia.
Qed.

Lemma addref_db_spec ext w p d :
  owned_in ext w → w_dbs w !! p = Some d → db_refCount d ≠ INT32_MAX →
  ∃ w', Sqlite3DbHandle_AddRef p w = Ret (db_refCount d + 1, w') ∧ owned_in (bump p 1 ext) w' ∧
    w' = put_db w p (mkDb (db_refCount d + 1) (m_dbMode d) (mp_dbConn d)).
Proof.
  intros Hi Hp Hm. unfold Sqlite3DbHandle_AddRef, the_db, inc_refs. rewrite Hp. wsimpl.
  rewrite (proj2 (Z.eqb_neq _ _) Hm). wsimpl. eexists. split; [done|]. split; [|done]. destruct w. wsimpl.
  pose proof (own_db _ _ _ _ Hi p d Hp) as (? & ? & _). destruct (own_ext _ _ _ _ Hi p).
  apply (owned_bump_db _ _ _ _ _ 1 _ Hi Hp); lia.
Qed.

(** A client's reference is to an object, and dispatching on it is calling its method. *)
Lemma held_live ext w p : owned_in ext w → 0 < ext p →
  p ≠ gl_c_Sqlite3HdFactory ∧
  ((∃ s, w_stmts w !! p = Some s ∧ ∀ {A} (f a b : outcome A), dispatch p w f a b = a) ∨
   (∃ d, w_dbs w !! p = Some d ∧ ∀ {A} (f a b : outcome A), dispatch p w f a b = b)).
Proof.
  intros Hi He. pose proof (proj2 (own_ext _ _ _ _ Hi p) He) as Hl. destruct (own_addr _ _ _ _ Hi p Hl) as [_ Hf].
  split; [done|]. unfold dispatch. rewrite (proj2 (Z.eqb_neq _ _) Hf).
  destruct Hl as [[s Hs]|[d Hd]].
  - left. exists s. by rewrite Hs.
  - right. exists d. destruct (w_stmts w !! p) as [s|] eqn:Hs.
    + pose proof (own_disj _ _ _ _ Hi p s Hs). congruence.
    + by rewrite Hd.
Qed.
Lemma release_spec ext w p : owned_in ext w → 0 < ext p → ∃ w', Release p w = Ret w' ∧ owned_in (bump p (-1) ext) w'.
Proof.
  intros Hi He. destruct (held_live _ _ _ Hi He) as [_ [(s & Hs & Hd)|(d & Hs & Hd)]]; cbn [Release db_objects]; rewrite Hd.
  - destruct (release_stmt_spec _ _ _ _ Hi Hs) as (n & w' & -> & Hi'). wsimpl. eauto.
  - destruct w as [q S D i]. destruct (release_db_spec _ _ _ _ _ _ Hi Hs He) as (n & q' & D' & Hr & Hi').
    wsimpl. rewrite Hr. wsimpl. eauto.
Qed.

(** ** Opening *)

(** Closing a connection no statement uses. *)
Lemma close_unused ext w p d :
  owned_in ext w → w_dbs w !! p = Some d → mp_dbConn d ≠ NULL →
  (∀ s, compiled (w_sql w) !! s ≠ Some (mp_dbConn d)) →
  ∃ q', Sqlite3DbHandle_Close p w = Ret (NkErr_Ok, put_db (set_sql w q') p (mkDb (db_refCount d) (m_dbMode d) NULL)) ∧
    conns q' = conns (w_sql w) ∖ {[mp_dbConn d]} ∧ compiled q' = compiled (w_sql w) ∧
    sqlite3_close (mp_dbConn d) (w_sql w) = (SQLITE_OK, q') ∧
    owned_in ext (put_db (set_sql w q') p (mkDb (db_refCount d) (m_dbMode d) NULL)).
Proof.
  intros Hi Hp Hn Hno. unfold Sqlite3DbHandle_Close, the_db. rewrite Hp. cbn [get_or mbind outcome_bind].
  destruct (sqlite3_close (mp_dbConn d) (w_sql w)) as [r q'] eqn:Ec.
  destruct (own_db _ _ _ _ Hi p d Hp) as (_ & _ & Hc).
  destruct (close_law _ _ _ _ (Hc Hn) Ec) as [Hs [(_ & _ & x & Hx)|(-> & Hcs & _)]]; [by destruct (Hno x)|].
  exists q'. split; [done|]. split; [done|]. split; [done|]. split; [done|]. destruct w. wsimpl.
  eapply owned_set_conn; [exact Hi|exact Hp|done|done|..].
  - intros x. rewrite Hcs, elem_of_difference, elem_of_singleton. split; [by right|]. intros [[]|?]; done.
  - apply handles_law.
Qed.
(** The connection that was just opened is closed again. *)
Lemma close_opened q q1 q2 c r :
  c ∉ conns q → conns q1 = {[c]} ∪ conns q → compiled q1 = compiled q → sqlite3_close c q1 = (r, q2) →
  same_handles q q2.
Proof.
  intros Hc Hq1 Hs1 Hcl. destruct (close_law c q1 r q2) as [Hs [(_ & _ & x & Hx)|(_ & Hq2 & _)]]; [set_solver|done|..].
  - rewrite Hs1 in Hx. by apply handles_law in Hx.
  - split; [|congruence]. rewrite Hq2, Hq1. apply set_eq. intros x. rewrite elem_of_difference, elem_of_union, elem_of_singleton.
    split; [intros [[|] ]|intros Hx]; [done|done|]. split; [by right|]. by intros ->.
Qed.

(** What the modes ask SQLite for: reading only for [NkDbMode_ReadOnly], otherwise reading
    and writing; a missing file is created only when the creation flag comes with exactly
    one of the two. *)
Definition mode_flags (mode : Z) : Z :=
  if mode =? 1 then SQLITE_OPEN_READONLY
  else if mode =? 5 then Z.lor SQLITE_OPEN_CREATE SQLITE_OPEN_READONLY
  else if mode =? 6 then Z.lor SQLITE_OPEN_CREATE SQLITE_OPEN_READWRITE
  else SQLITE_OPEN_READWRITE.
(** The pragmas SQLite accepts on a connection opened in the mode. *)
Definition mode_pragmas (mode c : Z) (q q' : Q) : Prop :=
  if mode =? 1 then sqlite3_exec c gl_c_RoPragmaSql q = (SQLITE_OK, q')
  else if mode =? 2 then sqlite3_exec c gl_c_WrPragmaSql q = (SQLITE_OK, q')
  else q' = q.
(** From the state [q], the connection [c] to the file is opened in the mode. *)
Definition opened_as (path : list Z) (mode : Z) (q : Q) (c : Z) (q' : Q) : Prop :=
  ∃ q1, sqlite3_open_v2 path (mode_flags mode) q = (SQLITE_OK, c, q1) ∧ mode_pragmas mode c q1 q'.
(** From the state [q], the file is made if it is missing and its schema applied over a
    connection of its own, then [c] is opened in the mode. *)
Definition created_as (path : list Z) (schema : option (list Z)) (mode : Z) (q : Q) (c : Z) (q' : Q) : Prop :=
  ∃ c0 q1 q2 q3, opened_as path 6 q c0 q1 ∧
    match schema with
    | Some ((_ :: _) as sql) => sqlite3_exec c0 sql q1 = (SQLITE_OK, q2)
    | _ => q2 = q1
    end ∧ sqlite3_close c0 q2 = (SQLITE_OK, q3) ∧ opened_as path mode q3 c q'.

(** Opening [via] these calls of SQLite: the handle stays closed with nothing left open in
    SQLite, or has the one new connection in the requested mode. *)
Definition opened (via : Q → Z → Q → Prop) (p : Z) (d : Sqlite3DbHandle) (mode : Z) (e : NkErrorCode) (w w' : DbWorld Q) : Prop :=
  ∃ d', w_dbs w' = <[p := d']> (w_dbs w) ∧ w_stmts w' = w_stmts w ∧ db_refCount d' = db_refCount d ∧
    compiled (w_sql w') = compiled (w_sql w) ∧
    if isOk e then m_dbMode d' = mode ∧ mp_dbConn d' ≠ NULL ∧ mp_dbConn d' ∉ conns (w_sql w) ∧
                   conns (w_sql w') = {[mp_dbConn d']} ∪ conns (w_sql w) ∧ via (w_sql w) (mp_dbConn d') (w_sql w')
    else mp_dbConn d' = NULL ∧ conns (w_sql w') = conns (w_sql w).

Lemma mode_ok_cases mode : mode_ok mode = true → mode ∈ [1; 2; 3; 4; 5; 6; 7].
Proof.
  unfold mode_ok, NkDbMode_Unknown, NkDbMode_Count. intros Hm. apply andb_true_iff in Hm as [Hlo Hhi].
  assert (mode = 1 ∨ mode = 2 ∨ mode = 3 ∨ mode = 4 ∨ mode = 5 ∨ mode = 6 ∨ mode = 7) by lia. set_solver.
Qed.
Lemma map_mode mode : mode_ok mode = true → Sqlite3DbHandle_MapFromDbMode mode = mode_flags mode.
Proof.
  intros Hm%mode_ok_cases. repeat (apply elem_of_cons in Hm as [->|Hm]; [done|]). by apply not_elem_of_nil in Hm.
Qed.

Lemma pragmas_spec c mode q : c ≠ NULL → mode_ok mode = true →
  ∃ e q', Sqlite3DbHandle_SetPragmas c mode q = Ret (e, q') ∧ same_handles q q' ∧
    (isOk e = true → mode_pragmas mode c q q').
Proof.
  intros Hc Hm. unfold Sqlite3DbHandle_SetPragmas, mode_pragmas. rewrite (proj2 (Z.eqb_neq _ _) Hc), Hm. cbn [negb NK_ASSERT mbind outcome_bind].
  unfold NkDbMode_ReadOnly, NkDbMode_ReadWrite.
  assert (Hcase : ∀ r q', (∃ sql, sqlite3_exec c sql q = (r, q')) → ∃ e q'',
    Ret (if r =? SQLITE_OK then NkErr_Ok else NkErr_SetDatabaseProps, q') = Ret (e, q'') ∧ same_handles q q'' ∧
    (isOk e = true → r = SQLITE_OK ∧ q'' = q')).
  { intros r q' [sql Hx]. do 2 eexists. split; [done|]. split; [by eapply exec_law|]. by destruct (Z.eqb_spec r SQLITE_OK). }
  destruct (mode =? 1); [|destruct (mode =? 2)].
  - destruct (sqlite3_exec c gl_c_RoPragmaSql q) as [r q'] eqn:Ex.
    destruct (Hcase r q' (ex_intro _ _ Ex)) as (e & q'' & E & ? & Hok). exists e, q''. split; [exact E|]. split; [done|].
    by intros [-> ->]%Hok.
  - destruct (sqlite3_exec c gl_c_WrPragmaSql q) as [r q'] eqn:Ex.
    destruct (Hcase r q' (ex_intro _ _ Ex)) as (e & q'' & E & ? & Hok). exists e, q''. split; [exact E|]. split; [done|].
    by intros [-> ->]%Hok.
  - do 2 eexists. split; [done|]. by split.
Qed.

Lemma open_spec ext w p d path mode :
  owned_in ext w → w_dbs w !! p = Some d → mp_dbConn d = NULL → mode_ok mode = true →
  ∃ e w', Sqlite3DbHandle_Open p path mode w = Ret (e, w') ∧ owned_in ext w' ∧ opened (opened_as path mode) p d mode e w w'.
Proof.
  intros Hi Hp Hn Hm. unfold Sqlite3DbHandle_Open, the_db. rewrite Hm, Hp. cbn [NK_ASSERT get_or mbind outcome_bind].
  rewrite Hn. cbn [Z.eqb negb]. change (negb (NULL =? NULL)) with false. cbv iota.
  destruct (handles_law (w_sql w)) as (Hnull & _ & Hcc).
  (* whatever fails, the handle ends up without a connection *)
  assert (Hfail : ∀ q' m, same_handles (w_sql w) q' →
    owned_in ext (put_db (set_sql w q') p (mkDb (db_refCount d) m NULL)) ∧
    ∀ e, isOk e = false → opened (opened_as path mode) p d mode e w (put_db (set_sql w q') p (mkDb (db_refCount d) m NULL))).
  { intros q' m Hsh. pose proof Hsh as [Hc Hs]. destruct w as [q S D i]. wsimpl. split.
    - eapply owned_set_conn; [exact Hi|exact Hp|done|..|done].
      + intros s Hs'. rewrite Hn in Hs'. by apply Hcc in Hs'.
      + intros x. rewrite Hc, Hn. split; [|intros [[]|[]]; done]. intros Hx. right. split; [done|]. by intros ->.
    - intros e He. unfold opened. rewrite He. wsimpl. by eexists. }
  destruct (sqlite3_open_v2 path (Sqlite3DbHandle_MapFromDbMode mode) (w_sql w)) as [[r c] q1] eqn:Eo.
  destruct (open_law _ _ _ _ _ _ Eo) as [Hs1 Hc1].
  destruct (Z.eqb_spec r SQLITE_OK) as [->|Hr]; cbn [negb].
  2: { destruct (sqlite3_close c q1) as [r2 q2] eqn:Ec. do 2 eexists. split; [done|].
       destruct (Hfail q2 (m_dbMode d)) as [K1 K2]; [|split; [exact K1|by apply K2]].
       case_decide as Ed; [rewrite Ed, close_null in Ec; injection Ec as _ <-; split; [apply Hc1|done]|].
       destruct Hc1 as [Hc1 Hc2]. by eapply close_opened. }
  case_decide as Ed; [by destruct Hc1|]. destruct Hc1 as [Hc1 Hc2].
  destruct (pragmas_spec c mode q1 Ed Hm) as (e & q2 & -> & [Hc3 Hs3] & Hpr). cbn [mbind outcome_bind].
  destruct (isOk e) eqn:He; cbn [negb].
  - do 2 eexists. split; [done|]. split.
    + destruct w as [q S D i]. wsimpl. eapply owned_set_conn; [exact Hi|exact Hp|congruence|..|done].
      * intros s Hs'. rewrite Hn in Hs'. by apply Hcc in Hs'.
      * intros x. rewrite Hc3, Hc2, elem_of_union, elem_of_singleton, Hn. split.
        -- intros [->|Hx]; [by left|right]. split; [done|]. by intros ->.
        -- intros [[_ ->]|[Hx _]]; [by left|by right].
    + unfold opened. rewrite He. destruct w. wsimpl. eexists. split_and!; try done; simpl; try congruence.
      exists q1. rewrite <-(map_mode mode Hm). split; [exact Eo|by apply Hpr].
  - destruct (sqlite3_close c q2) as [r2 q3] eqn:Ec. do 2 eexists. split; [done|].
    destruct (Hfail q3 mode) as [K1 K2]; [|split; [exact K1|by apply K2]].
    eapply close_opened; [exact Hc1| | |exact Ec]; congruence.
Qed.

(** Opening, working on the connection and closing it again changes nothing but the mode. *)
Lemma closed_again via ext w w1 q2 p d mode :
  owned_in ext w1 → opened via p d mode NkErr_Ok w w1 → same_handles (w_sql w1) q2 →
  ∃ w3 d3 c1, Sqlite3DbHandle_Close p (set_sql w1 q2) = Ret (NkErr_Ok, w3) ∧ owned_in ext w3 ∧
    w_dbs w3 = <[p := d3]> (w_dbs w) ∧ w_stmts w3 = w_stmts w ∧ db_refCount d3 = db_refCount d ∧ mp_dbConn d3 = NULL ∧
    same_handles (w_sql w) (w_sql w3) ∧
    w_dbs w1 !! p = Some c1 ∧ via (w_sql w) (mp_dbConn c1) (w_sql w1) ∧ sqlite3_close (mp_dbConn c1) q2 = (SQLITE_OK, w_sql w3).
Proof.
  intros Hi (d1 & Hd1 & HS1 & Hr1 & Hs1 & _ & Hn1 & Hc1 & Hq1 & Hv1) [Hc2 Hs2].
  destruct (close_unused ext (set_sql w1 q2) p d1) as (q3 & -> & Hq3 & Hs3 & Hcl & Hi3).
  - wsimpl. by eapply owned_sql.
  - cbn. rewrite Hd1. apply lookup_insert_eq.
  - done.
  - cbn. intros s Hs. rewrite Hs2, Hs1 in Hs. by apply handles_law in Hs.
  - do 3 eexists. split; [done|]. split; [exact Hi3|].
    assert (Hl1 : w_dbs w1 !! p = Some d1) by (rewrite Hd1; apply lookup_insert_eq).
    destruct w1. wsimpl. subst. rewrite insert_insert_eq.
    split_and!; try done. split; [|congruence]. rewrite Hq3, Hc2, Hq1. apply set_eq. intros x.
    rewrite elem_of_difference, elem_of_union, elem_of_singleton.
    split; [intros [[|] ]|intros Hx]; [done|done|]. split; [by right|]. by intros ->.
Qed.

Lemma create_spec ext w p d schema path mode :
  owned_in ext w → w_dbs w !! p = Some d → mp_dbConn d = NULL → mode_ok mode = true →
  ∃ e w', Sqlite3DbHandle_Create p schema path mode w = Ret (e, w') ∧ owned_in ext w' ∧
    opened (created_as path schema mode) p d mode e w w'.
Proof.
  intros Hi Hp Hn Hm. unfold Sqlite3DbHandle_Create. rewrite Hm. cbn [NK_ASSERT mbind outcome_bind].
  destruct (open_spec ext w p d path (Z.lor NkDbMode_ReadWrite NkDbMode_Create) Hi Hp Hn eq_refl) as (e & w1 & -> & Hi1 & Ho).
  cbn [mbind outcome_bind]. destruct (isOk e) eqn:He; cbn [negb].
  2: { do 2 eexists. split; [done|]. split; [done|]. unfold opened in *. by rewrite He in *. }
  assert (e = NkErr_Ok) as -> by (by apply bool_decide_eq_true in He).
  pose proof Ho as (d1 & Hd1 & _). assert (Hl1 : w_dbs w1 !! p = Some d1) by (rewrite Hd1; apply lookup_insert_eq).
  assert (Hfin : ∀ (failed : bool) q2, same_handles (w_sql w1) q2 →
    (failed = false → match schema with
                      | Some ((_ :: _) as sql) => sqlite3_exec (mp_dbConn d1) sql (w_sql w1) = (SQLITE_OK, q2)
                      | _ => q2 = w_sql w1
                      end) →
    ∃ e w', (if failed then '(_, w) ← Sqlite3DbHandle_Close p (set_sql w1 q2); Ret (NkErr_DatabaseApplySchema, w)
             else '(_, w) ← Sqlite3DbHandle_Close p (set_sql w1 q2); Sqlite3DbHandle_Open p path mode w) = Ret (e, w') ∧
            owned_in ext w' ∧ opened (created_as path schema mode) p d mode e w w').
  { intros failed q2 Hq2 Hsch.
    destruct (closed_again _ ext w w1 q2 p d _ Hi1 Ho Hq2) as (w3 & d3 & c1 & -> & Hi3 & Hd3 & HS3 & Hr3 & Hn3 & [Hc3 Hs3] & Hl & Hv & Hcl).
    cbn [mbind outcome_bind]. rewrite Hl1 in Hl. injection Hl as <-. destruct failed.
    - do 2 eexists. split; [done|]. split; [done|]. exists d3. done.
    - destruct (open_spec ext w3 p d3 path mode Hi3) as (e & w' & -> & Hi' & d' & Hd' & HS' & Hr' & Hs' & Hok);
        [rewrite Hd3; apply lookup_insert_eq|done|done|].
      do 2 eexists. split; [done|]. split; [done|]. exists d'. rewrite Hd', Hd3, insert_insert_eq.
      rewrite Hc3 in Hok. split_and!; [done|congruence|congruence|congruence|].
      destruct (isOk e); [|done]. destruct Hok as (? & ? & ? & ? & Hop). split_and!; try done.
      exists (mp_dbConn d1), (w_sql w1), q2, (w_sql w3). split_and!; try done. by apply Hsch. }
  destruct schema as [[|c0 sql]|].
  - apply (Hfin false (w_sql w1)); by split.
  - unfold the_db. rewrite Hl1. cbn [get_or mbind outcome_bind].
    destruct (sqlite3_exec (mp_dbConn d1) (c0 :: sql) (w_sql w1)) as [r q2] eqn:Ex. cbn [mbind outcome_bind].
    apply Hfin; [by eapply exec_law|]. intros ->%negb_false_iff%Z.eqb_eq. done.
  - apply (Hfin false (w_sql w1)); by split.
Qed.

(** ** Creating objects through NkOM *)
Section create.
Context {R : Type} `{RegistryLaws R}.
Notation State := (NkOMState R (DbWorld Q)).
Implicit Types (st : State) (w : DbWorld Q).

(** The object model runs and both classes are registered with the factory. *)
Definition registered st : Prop :=
  m_isInitialized st = true ∧ ∃ r n, mp_classReg st = Some r ∧ reg_room r n ∧
    reg_map r !! reg_key clsid_NkISqlStatement = Some gl_c_Sqlite3HdFactory ∧
    reg_map r !! reg_key clsid_NkIDatabase = Some gl_c_Sqlite3HdFactory.

Lemma registered_world st w : registered st → registered (set_world st w).
Proof. intros (? & ?). by split. Qed.

(** The factory's own methods. *)
Lemma factory_methods w k c :
  AddRef gl_c_Sqlite3HdFactory w = Ret w ∧ Release gl_c_Sqlite3HdFactory w = Ret w ∧
  CreateInstance gl_c_Sqlite3HdFactory k c w = Sqlite3HdFactory_CreateInstance k w.
Proof. cbn [AddRef Release CreateInstance db_objects]. unfold dispatch. by rewrite Z.eqb_refl. Qed.

(** [NkOMCreateInstance] for a class of the factory. *)
Lemma om_create_class st k iId arg :
  registered st → k = clsid_NkISqlStatement ∨ k = clsid_NkIDatabase →
  NkOMCreateInstance k NULL iId arg st =
    ('(errCode, p, w) ← Sqlite3HdFactory_CreateInstance k (world st);
     if negb (isOk errCode) then Ret (errCode, NULL, set_world st w)
     else
       '(errCode, w) ← run_initializer p arg w;
       if negb (isOk errCode) then Ret (errCode, NULL, set_world st w)
       else
         '(errCode, res, w) ← QueryInterface p iId w;
         if negb (isOk errCode) then w ← Release p w; Ret (errCode, NULL, set_world st w)
         else w ← Release res w; Ret (errCode, res, set_world st w)).
Proof.
  intros (Hini & r & n & Hr & Hroom & Hk1 & Hk2) Hk. destruct clsid_law as (Hn1 & _ & Hn2 & _).
  unfold NkOMCreateInstance, NkOMQueryFactoryForClass, the_reg. rewrite Hini, Hr.
  assert (negb (k =? NULL) = true) as -> by (apply negb_true_iff, Z.eqb_neq; destruct Hk as [->| ->]; done).
  cbn [NK_ASSERT mbind outcome_bind]. rewrite (reg_at_spec r k n Hroom).
  assert (reg_map r !! reg_key k = Some gl_c_Sqlite3HdFactory) as -> by (destruct Hk as [->| ->]; done).
  cbn [mbind outcome_bind]. ok_step. rewrite (proj1 (factory_methods (world st) 0 0)).
  cbn [mbind outcome_bind]. ok_step. cbn [world set_world]. rewrite (proj2 (proj2 (factory_methods (world st) k NULL))).
  destruct (Sqlite3HdFactory_CreateInstance k (world st)) as [[[e p] w]| | |]; [|done..].
  cbn [mbind outcome_bind]. by rewrite (proj1 (proj2 (factory_methods w 0 0))).
Qed.

(** The factory: a null pointer with an error, or the new object with one reference. *)
Lemma factory_stmt w :
  let '(e, p) := pool_object sizeof_Sqlite3Stmt (live w) in
  Sqlite3HdFactory_CreateInstance clsid_NkISqlStatement w =
    if isOk e then Ret (NkErr_Ok, p, put_stmt w p (mkStmt 1 NULL NULL)) else Ret (e, NULL, w).
Proof.
  destruct (pool_object _ _) as [e p] eqn:Ep. unfold Sqlite3HdFactory_CreateInstance.
  destruct clsid_law as (Hn & -> & _). rewrite (proj2 (Z.eqb_neq _ _) Hn).
  change (NkOMQueryImplementationIndex factory_ImplInfos NkISqlStatement_CLSID) with (Ret 0).
  cbn [NK_ASSERT negb mbind outcome_bind]. change (0 =? SIZE_MAX) with false. change (0 =? 0) with true. cbv iota zeta.
  rewrite Ep. destruct (isOk e); cbn [negb]; [|done]. unfold Sqlite3Stmt_AddRef, the_stmt, inc_refs. wsimpl.
  rewrite lookup_insert_eq. wsimpl. change (0 =? INT32_MAX) with false. wsimpl. by rewrite insert_insert_eq.
Qed.
Lemma factory_db w :
  let '(e, p) := pool_object sizeof_Sqlite3DbHandle (live w) in
  Sqlite3HdFactory_CreateInstance clsid_NkIDatabase w =
    if isOk e then Ret (NkErr_Ok, p, put_db w p (mkDb 1 NkDbMode_Unknown NULL)) else Ret (e, NULL, w).
Proof.
  destruct (pool_object _ _) as [e p] eqn:Ep. unfold Sqlite3HdFactory_CreateInstance.
  destruct clsid_law as (_ & _ & Hn & ->). rewrite (proj2 (Z.eqb_neq _ _) Hn).
  change (NkOMQueryImplementationIndex factory_ImplInfos NkIDatabase_CLSID) with (Ret 1).
  cbn [NK_ASSERT negb mbind outcome_bind]. change (1 =? SIZE_MAX) with false. change (1 =? 0) with false. cbv iota zeta.
  rewrite Ep. destruct (isOk e); cbn [negb]; [|done]. unfold Sqlite3DbHandle_AddRef, the_db, inc_refs. wsimpl.
  rewrite lookup_insert_eq. wsimpl. change (0 =? INT32_MAX) with false. wsimpl. by rewrite insert_insert_eq.
Qed.

(** A new database object: closed, with one reference. *)
Lemma create_db_spec ext st :
  registered st → owned_in ext (world st) →
  let '(e, p) := pool_object sizeof_Sqlite3DbHandle (live (world st)) in
  NkOMCreateInstance clsid_NkIDatabase NULL NkIDatabase_IID NULL st =
    (if isOk e then Ret (NkErr_Ok, p, set_world st (put_db (world st) p (mkDb 1 NkDbMode_Unknown NULL)))
     else Ret (e, NULL, set_world st (world st))) ∧
  (isOk e = true → p ≠ NULL ∧ p ∉ live (world st) ∧
     owned_in (bump p 1 ext) (put_db (world st) p (mkDb 1 NkDbMode_Unknown NULL))).
Proof.
  intros Hreg Hi. pose proof (factory_db (world st)) as Hf. pose proof (pool_object_law sizeof_Sqlite3DbHandle (live (world st))) as Hpool.
  destruct (pool_object _ _) as [e p]. rewrite om_create_class, Hf by auto.
  destruct (isOk e) eqn:He; cbn [mbind outcome_bind]; ok_step; [|by rewrite He].
  apply bool_decide_eq_true in He as ->. destruct (Hpool p eq_refl) as (Hfr & Hn & Hfac).
  unfold live in Hfr. rewrite not_elem_of_union, !not_elem_of_dom in Hfr. destruct Hfr as [HS HD].
  split.
  2: { intros _. split_and!; [done|unfold live; by rewrite not_elem_of_union, !not_elem_of_dom|]. destruct (world st). wsimpl.
       by apply owned_new_db. }
  destruct (world st) as [q S D i]. unfold run_initializer. cbn [QueryInterface Release db_objects]. wsimpl.
  assert (Hd : ∀ {A} D' (f a b : outcome A), is_Some (D' !! p) → dispatch p (mkDbWorld q S D' i) f a b = b).
  { intros A D' f a b [x Hx]. unfold dispatch. wsimpl. by rewrite (proj2 (Z.eqb_neq _ _) Hfac), HS, Hx. }
  rewrite !Hd by (rewrite lookup_insert_eq; eauto).
  change (Sqlite3DbHandle_QueryInterface p NkIInitializable_IID ?w) with (Ret (NkErr_InterfaceNotImpl, NULL, w)).
  cbn [mbind outcome_bind]. change (isOk NkErr_InterfaceNotImpl) with false. cbv iota. cbn [mbind outcome_bind]. ok_step.
  rewrite !Hd by (rewrite lookup_insert_eq; eauto).
  unfold Sqlite3DbHandle_QueryInterface. change (NkUuidIsEqual NkIDatabase_IID NkIBase_IID || NkUuidIsEqual NkIDatabase_IID NkIDatabase_IID) with true.
  unfold Sqlite3DbHandle_AddRef, the_db, inc_refs. wsimpl. rewrite lookup_insert_eq. wsimpl.
  change (1 =? INT32_MAX) with false. wsimpl. ok_step. rewrite insert_insert_eq.
  rewrite !Hd by (rewrite lookup_insert_eq; eauto).
  unfold Sqlite3DbHandle_Release, the_db. wsimpl. rewrite lookup_insert_eq. wsimpl. change (1 + 1 - 1 <=? 0) with false. wsimpl.
  by rewrite insert_insert_eq.
Qed.

(** Methods of a statement at [p], which is not a database or the factory. *)
Lemma stmt_methods q S D i p s :
  p ≠ gl_c_Sqlite3HdFactory →
  let w := mkDbWorld q (<[p := s]> S) D i in
  (∀ n, st_refCount s = n → n ≠ INT32_MAX → ∀ iId, iId = NkIInitializable_IID ∨ iId = NkISqlStatement_IID →
     QueryInterface p iId w = Ret (NkErr_Ok, p, mkDbWorld q (<[p := mkStmt (n + 1) (st_dbConn s) (mp_stmtPtr s)]> S) D i)) ∧
  (1 < st_refCount s →
     Release p w = Ret (mkDbWorld q (<[p := mkStmt (st_refCount s - 1) (st_dbConn s) (mp_stmtPtr s)]> S) D i)) ∧
  (∀ a, Initialize p a w = Sqlite3Stmt_Initialize p a w).
Proof.
  intros Hf w. cbn [QueryInterface Release Initialize db_objects]. unfold dispatch, w. wsimpl.
  rewrite (proj2 (Z.eqb_neq _ _) Hf), lookup_insert_eq. split_and!; [|intros Hr|done].
  - intros n Hn Hm iId Hid. unfold Sqlite3Stmt_QueryInterface.
    assert (NkOMQueryImplementationIndex stmt_ImplInfos iId = Ret 1 ∨ NkOMQueryImplementationIndex stmt_ImplInfos iId = Ret 2)
      as Hix by (destruct Hid as [->| ->]; [by left|by right]).
    destruct Hix as [->| ->]; cbn [mbind outcome_bind]; [change (negb (1 =? 0)) with true|change (negb (2 =? 0)) with true]; cbv iota;
      unfold Sqlite3Stmt_AddRef, the_stmt, inc_refs; wsimpl; rewrite lookup_insert_eq; wsimpl; rewrite Hn, (proj2 (Z.eqb_neq _ _) Hm);
      wsimpl; by rewrite insert_insert_eq.
  - unfold Sqlite3Stmt_Release, the_stmt. wsimpl. rewrite lookup_insert_eq. wsimpl.
    rewrite (proj2 (Z.leb_gt _ _)) by lia. wsimpl. by rewrite insert_insert_eq.
Qed.

(** The constructor of a statement, run by NkOM: a text that does not compile makes it
    release the database it has not got yet. *)
Lemma run_stmt_initializer ext q S D p o d sql :
  owned ext q S D → S !! p = None → D !! p = None → p ≠ NULL → p ≠ gl_c_Sqlite3HdFactory →
  D !! o = Some d →
  let w := mkDbWorld q (<[p := mkStmt 1 NULL NULL]> S) D (Some (mkStmtInit sql (mp_dbConn d) o)) in
  let '(r, s, q') := sqlite3_prepare_v2 (mp_dbConn d) sql q in
  run_initializer p stmtInit_addr w =
    if (r =? SQLITE_OK) && negb (db_refCount d =? INT32_MAX)
    then Ret (NkErr_Ok, mkDbWorld q' (<[p := mkStmt 1 o s]> S)
                          (<[o := mkDb (db_refCount d + 1) (m_dbMode d) (mp_dbConn d)]> D) (w_init w))
    else Undef.
Proof.
  intros Hi HS HD Hn Hf Ho w. destruct (sqlite3_prepare_v2 _ _ _) as [[r s] q'] eqn:Ep.
  unfold run_initializer, w.
  rewrite (proj1 (stmt_methods q S D _ p (mkStmt 1 NULL NULL) Hf) 1 eq_refl ltac:(done) _ (or_introl eq_refl)).
  cbn [mbind outcome_bind]. ok_step. rewrite (proj2 (proj2 (stmt_methods q S D _ p _ Hf))).
  unfold Sqlite3Stmt_Initialize, the_stmt. rewrite (proj2 (Z.eqb_neq _ _) init_law), Z.eqb_refl. cbn [negb NK_ASSERT]. wsimpl.
  rewrite lookup_insert_eq. wsimpl. cbn [in_dbConn mp_sqlStr mp_nkomDbConn]. rewrite Ep. change (1 + 1) with 2.
  destruct (r =? SQLITE_OK); cbn [negb andb].
  - unfold Sqlite3DbHandle_AddRef, the_db, inc_refs. wsimpl. rewrite Ho. wsimpl.
    destruct (db_refCount d =? INT32_MAX); [done|]. cbn [negb]. wsimpl. ok_step. wsimpl. rewrite !insert_insert_eq.
    rewrite (proj1 (proj2 (stmt_methods _ S _ _ p _ Hf))) by (simpl; lia). wsimpl. done.
  - wsimpl. rewrite insert_insert_eq. change (isOk NkErr_CompileSqlStatement) with false. cbn [negb].
    rewrite (proj1 (proj2 (stmt_methods _ S _ _ p _ Hf))) by (simpl; lia). wsimpl. change (2 - 1) with 1.
    cbn [Release db_objects]. unfold dispatch. wsimpl. rewrite (proj2 (Z.eqb_neq _ _) Hf), lookup_insert_eq.
    unfold Sqlite3Stmt_Release, the_stmt. wsimpl. rewrite lookup_insert_eq. wsimpl. change (1 - 1 <=? 0) with true. cbv iota.
    unfold Sqlite3DbHandle_Release, the_db. wsimpl. destruct (D !! NULL) eqn:E; [|done].
    destruct (own_addr _ _ _ _ Hi NULL) as [K1 _]; [right; by rewrite E|done].
Qed.

(** Creating a statement on an open database. *)
Lemma create_stmt_spec ext st o d sql :
  registered st → owned_in ext (world st) → w_dbs (world st) !! o = Some d →
  let w := world st in
  let '(e, p) := pool_object sizeof_Sqlite3Stmt (live w) in
  let '(r, s, q') := sqlite3_prepare_v2 (mp_dbConn d) sql (w_sql w) in
  let w' := mkDbWorld q' (<[p := mkStmt 1 o s]> (w_stmts w))
              (<[o := mkDb (db_refCount d + 1) (m_dbMode d) (mp_dbConn d)]> (w_dbs w)) in
  ∀ iId, iId = NkISqlStatement_IID →
  NkOMCreateInstance clsid_NkISqlStatement NULL iId stmtInit_addr
      (set_world st (set_init w (Some (mkStmtInit sql (mp_dbConn d) o)))) =
    (if isOk e then
       if (r =? SQLITE_OK) && negb (db_refCount d =? INT32_MAX) then Ret (NkErr_Ok, p, set_world st (w' (Some (mkStmtInit sql (mp_dbConn d) o)))) else Undef
     else Ret (e, NULL, set_world st (set_init w (Some (mkStmtInit sql (mp_dbConn d) o))))) ∧
  (isOk e = true → r = SQLITE_OK → p ≠ NULL ∧ p ∉ live w ∧ ∀ i, owned_in (bump p 1 ext) (w' i)).
Proof.
  intros Hreg Hi Ho w. subst w. set (st' := set_world st _).
  pose proof (factory_stmt (world st')) as Hf. pose proof (pool_object_law sizeof_Sqlite3Stmt (live (world st))) as Hpool.
  change (live (world st')) with (live (world st)) in Hf.
  destruct (pool_object _ _) as [e p]. destruct (sqlite3_prepare_v2 _ _ _) as [[r s] q'] eqn:Ep. cbv zeta. intros iId ->.
  rewrite om_create_class, Hf by (auto using registered_world). clear Hf.
  destruct (isOk e) eqn:He; cbn [mbind outcome_bind]; ok_step; [|by rewrite He].
  apply bool_decide_eq_true in He as ->. destruct (Hpool p eq_refl) as (Hfr & Hn & Hfac).
  pose proof Hfr as Hfr'. unfold live in Hfr'. rewrite not_elem_of_union, !not_elem_of_dom in Hfr'. destruct Hfr' as [HS HD].
  pose proof (run_stmt_initializer ext _ _ _ p o d sql Hi HS HD Hn Hfac Ho) as Hrun. rewrite Ep in Hrun.
  subst st'. destruct st as [b1 b2 reg [q S D i]]. cbn [world set_world] in *. wsimpl. rewrite Hrun. split.
  - destruct ((r =? SQLITE_OK) && _); [|done]. wsimpl. ok_step. wsimpl.
    rewrite (proj1 (stmt_methods q' S _ _ p (mkStmt 1 o s) Hfac) 1 eq_refl ltac:(done) _ (or_intror eq_refl)). wsimpl. ok_step.
    rewrite (proj1 (proj2 (stmt_methods q' S _ _ p (mkStmt (1 + 1) o s) Hfac))) by (simpl; lia). done.
  - intros _ Hr. split; [done|]. split; [done|]. intros j. wsimpl.
    pose proof (own_db _ _ _ _ Hi o d Ho) as (? & ? & _). destruct (own_ext _ _ _ _ Hi o).
    assert (Hop : o ≠ p) by (intros ->; congruence).
    pose proof (owned_bump_db _ _ _ _ _ 1 _ Hi Ho ltac:(lia) ltac:(lia)) as Hi1.
    eapply owned_ext; [|eapply (owned_new_stmt _ _ _ _ _ p o _ r sql s Hi1 HS)].
    + intros x. unfold bump. repeat case_decide; lia.
    + by rewrite lookup_insert_ne.
    + done.
    + done.
    + apply lookup_insert_eq.
    + rewrite bump_at. lia.
    + done.
    + done.
Qed.

(** ** Executing does not touch the handles *)
Lemma same_trans q1 q2 q3 : same_handles q1 q2 → same_handles q2 q3 → same_handles q1 q3.
Proof. intros [? ?] [? ?]. split; congruence. Qed.
Lemma execute_loop_handles {U} (f : option (Z → list Variant → U → NkErrorCode * U)) fuel x arr u q e u' q' :
  execute_loop f fuel x arr u q = Ret (e, u', q') → same_handles q q'.
Proof.
  revert arr u q. induction fuel as [|fuel IH]; intros arr u q; [done|]. cbn [execute_loop].
  destruct (sqlite3_step x q) as [r q1] eqn:Es. apply step_law in Es. intros Hr. eapply same_trans; [exact Es|].
  destruct (r =? SQLITE_ROW); [|by simplify_eq]. destruct (match arr with Some _ => _ | None => _ end) as [ec a].
  destruct (negb (isOk ec)); [by simplify_eq|]. outcome_inv. destruct f as [f|].
  - destruct (f _ _ _) as [ec2 u2]. destruct (negb (isOk ec2)); [by simplify_eq|by eapply IH].
  - by eapply IH.
Qed.
Lemma execute_handles {U} (f : option (Z → list Variant → U → NkErrorCode * U)) fuel p x u w e u' w' :
  Sqlite3DbHandle_Execute f fuel p x u w = Ret (e, u', w') →
  ∃ q', w' = set_sql w q' ∧ same_handles (w_sql w) q'.
Proof.
  unfold Sqlite3DbHandle_Execute. intros Hr. outcome_inv. destruct (_ =? NULL).
  - simplify_eq. exists (w_sql w'). destruct w'. by split.
  - outcome_inv. destruct r1 as [[ec u2] q2]. simplify_eq. eexists. split; [done|].
    eapply same_trans; [by eapply execute_loop_handles|apply reset_law].
Qed.

(** ** Clients

    The calls a client can make; [uses] are the objects it must hold for one. *)
Inductive DbOp :=
  | OpCreateInstance
  | OpAddRef (p : Z) | OpRelease (p : Z) | OpQueryInterface (p : Z) (iId : NkUuid)
  | OpOpen (p : Z) (path : list Z) (mode : Z)
  | OpCreate (p : Z) (schema : option (list Z)) (path : list Z) (mode : Z)
  | OpClose (p : Z)
  | OpCreateStatement (p : Z) (sql : list Z)
  | OpBind (p : Z) (mem : Z → Z → option (list Z)) (index : Z) (v : Variant)
  | OpUnbind (p index : Z)
  | OpExecute (p s : Z) (fuel : nat) (f : option (Z → list Variant → list Variant → NkErrorCode * list Variant))
  | OpExecuteInline (p : Z) (sql : list Z) (fuel : nat) (f : option (Z → list Variant → list Variant → NkErrorCode * list Variant)).
Definition uses (op : DbOp) : list Z :=
  match op with
  | OpCreateInstance => []
  | OpAddRef p | OpRelease p | OpQueryInterface p _ | OpOpen p _ _ | OpCreate p _ _ _ | OpClose p
  | OpCreateStatement p _ | OpBind p _ _ _ | OpUnbind p _ | OpExecuteInline p _ _ _ => [p]
  | OpExecute p s _ _ => [p; s]
  end.
Definition gained (e : NkErrorCode) (p : Z) : Z * Z := if isOk e then (p, 1) else (p, 0).

(** The state after the call, and by how much the client's references to which object
    have changed. *)
Definition db_step (op : DbOp) st : outcome (State * (Z * Z)) :=
  let w := world st in
  match op with
  | OpCreateInstance =>
      '(e, p, st) ← NkOMCreateInstance clsid_NkIDatabase NULL NkIDatabase_IID NULL st; Ret (st, gained e p)
  | OpAddRef p => w ← AddRef p w; Ret (set_world st w, (p, 1))
  | OpRelease p => w ← Release p w; Ret (set_world st w, (p, -1))
  | OpQueryInterface p i => '(e, r, w) ← QueryInterface p i w; Ret (set_world st w, gained e r)
  | OpOpen p path mode => '(_, w) ← Sqlite3DbHandle_Open p path mode w; Ret (set_world st w, (p, 0))
  | OpCreate p schema path mode => '(_, w) ← Sqlite3DbHandle_Create p schema path mode w; Ret (set_world st w, (p, 0))
  | OpClose p => '(_, w) ← Sqlite3DbHandle_Close p w; Ret (set_world st w, (p, 0))
  | OpCreateStatement p sql => '(e, r, st) ← Sqlite3DbHandle_CreateStatement p sql st; Ret (st, gained e r)
  | OpBind p mem index v => w ← Sqlite3Stmt_Bind mem p index v w; Ret (set_world st w, (p, 0))
  | OpUnbind p index => w ← Sqlite3Stmt_Unbind p index w; Ret (set_world st w, (p, 0))
  | OpExecute p s fuel f => '(_, _, w) ← Sqlite3DbHandle_Execute f fuel p s [] w; Ret (set_world st w, (p, 0))
  | OpExecuteInline p sql fuel f => '(_, _, st) ← Sqlite3DbHandle_ExecuteInline f fuel p sql [] st; Ret (st, (p, 0))
  end.

Inductive db_reach : (Z → Z) → State → Prop :=
  | db_start st : registered st → w_stmts (world st) = ∅ → w_dbs (world st) = ∅ →
      conns (w_sql (world st)) = ∅ → compiled (w_sql (world st)) = ∅ → db_reach (λ _, 0) st
  | db_next op ext st st' p k :
      db_reach ext st → Forall (λ x, 0 < ext x) (uses op) → db_step op st = Ret (st', (p, k)) → db_reach (bump p k ext) st'.

Lemma owned_same ext q S D p : owned ext q S D → owned (bump p 0 ext) q S D.
Proof. apply owned_ext. intros x. unfold bump. case_decide; lia. Qed.
Lemma owned_set_sql ext w q' p : owned_in ext w → same_handles (w_sql w) q' → owned_in (bump p 0 ext) (set_sql w q').
Proof. intros Hi Hq. apply owned_same. destruct w. wsimpl. by eapply owned_sql. Qed.

(** The two queries. *)
Lemma addref_stmt_owned ext w p n w' : owned_in ext w → Sqlite3Stmt_AddRef p w = Ret (n, w') → owned_in (bump p 1 ext) w'.
Proof.
  intros Hi Ha. unfold Sqlite3Stmt_AddRef, the_stmt, inc_refs in Ha. outcome_inv. apply get_or_Ret_inv in E; [|done].
  destruct (_ =? INT32_MAX); [done|]. simplify_eq. destruct w. wsimpl. simplify_eq.
  pose proof (own_stmt _ _ _ _ Hi p r E) as (? & _). apply (owned_bump_stmt _ _ _ _ _ 1 _ Hi E). lia.
Qed.
Lemma addref_db_owned ext w p n w' : owned_in ext w → Sqlite3DbHandle_AddRef p w = Ret (n, w') → owned_in (bump p 1 ext) w'.
Proof.
  intros Hi Ha. unfold Sqlite3DbHandle_AddRef, the_db, inc_refs in Ha. outcome_inv. apply get_or_Ret_inv in E; [|done].
  destruct (_ =? INT32_MAX); [done|]. simplify_eq. destruct w. wsimpl. simplify_eq.
  pose proof (own_db _ _ _ _ Hi p r E) as (? & ? & _). destruct (own_ext _ _ _ _ Hi p).
  apply (owned_bump_db _ _ _ _ _ 1 _ Hi E); lia.
Qed.

Lemma query_owned ext w p i e r w' :
  owned_in ext w → 0 < ext p → QueryInterface p i w = Ret (e, r, w') →
  owned_in (bump (gained e r).1 (gained e r).2 ext) w'.
Proof.
  intros Hi He Hq. destruct (held_live _ _ _ Hi He) as [_ [(s & Hs & Hd)|(d & Hs & Hd)]]; cbn [QueryInterface db_objects] in Hq;
    rewrite Hd in Hq; unfold Sqlite3Stmt_QueryInterface, Sqlite3DbHandle_QueryInterface in Hq.
  - outcome_inv. destruct (negb _).
    + outcome_inv. destruct r1 as [n w1]. simplify_eq. by eapply addref_stmt_owned.
    + simplify_eq. by apply owned_same.
  - destruct (_ || _).
    + outcome_inv. destruct r0 as [n w1]. simplify_eq. by eapply addref_db_owned.
    + simplify_eq. by apply owned_same.
Qed.
Lemma bind_owned ext w p mem i v w' :
  owned_in ext w → Sqlite3Stmt_Bind mem p i v w = Ret w' ∨ Sqlite3Stmt_Unbind p i w = Ret w' → owned_in (bump p 0 ext) w'.
Proof.
  assert (Hun : Sqlite3Stmt_Unbind p i w = Ret w' → owned_in ext w → owned_in (bump p 0 ext) w').
  { unfold Sqlite3Stmt_Unbind. intros Hb Hi. outcome_inv. destruct (negb _); simplify_eq; [by apply owned_same|].
    apply owned_set_sql; [done|apply bind_law]. }
  intros Hi [Hb|Hb]; [|by apply Hun]. unfold Sqlite3Stmt_Bind in Hb. outcome_inv.
  destruct (negb _); simplify_eq; [by apply owned_same|]. outcome_inv.
  repeat case_match; simplify_eq; first [by apply owned_same | by apply Hun | apply owned_set_sql; [done|apply bind_law]].
Qed.

(** A new statement, on the way through [stmt_init] and [drop_init]. *)
Lemma new_stmt_owned ext st o sql st1 e p st2 :
  registered st → owned_in ext (world st) → stmt_init o sql st = Ret st1 →
  NkOMCreateInstance clsid_NkISqlStatement NULL NkISqlStatement_IID stmtInit_addr st1 = Ret (e, p, st2) →
  registered st2 ∧ owned_in (bump p (if isOk e then 1 else 0) ext) (world st2) ∧
  (isOk e = true → is_Some (w_stmts (world st2) !! p)).
Proof.
  intros Hreg Hi Hin Hcr. unfold stmt_init, the_db in Hin. outcome_inv. apply get_or_Ret_inv in E; [|done].
  pose proof (create_stmt_spec ext st o r sql Hreg Hi E) as Hsp. cbv zeta in Hsp.
  destruct (pool_object _ _) as [ec x]. destruct (sqlite3_prepare_v2 _ _ _) as [[r2 s] q']. destruct (Hsp _ eq_refl) as [Hc Hown].
  rewrite Hc in Hcr. clear Hc Hsp. destruct (isOk ec) eqn:Hec.
  - destruct (r2 =? SQLITE_OK) eqn:Er; [|discriminate]. cbn [andb] in Hcr. destruct (negb _); [|discriminate]. simplify_eq.
    cbn [isOk world set_world]. change (isOk NkErr_Ok) with true. apply Z.eqb_eq in Er. destruct (Hown eq_refl Er) as (_ & _ & Hown').
    split; [by apply registered_world|]. split; [apply Hown'|]. intros _. cbn. rewrite lookup_insert_eq. eauto.
  - simplify_eq. rewrite Hec. split; [by apply registered_world|]. split; [|done]. by apply owned_same.
Qed.

(** Whatever the connection calls return, they keep the invariant. *)
Lemma open_owned ext w p path mode e w' :
  owned_in ext w → Sqlite3DbHandle_Open p path mode w = Ret (e, w') → owned_in ext w'.
Proof.
  intros Hi E. pose proof E as E'. unfold Sqlite3DbHandle_Open in E'. outcome_inv. apply get_or_Ret_inv in E1; [|done].
  destruct (decide (mp_dbConn r0 = NULL)) as [Hn|Hn].
  - destruct (open_spec ext w p r0 path mode Hi E1 Hn E0) as (e2 & w3 & Ho & Hi3 & _). rewrite E in Ho. by simplify_eq.
  - rewrite (proj2 (Z.eqb_neq _ _) Hn) in E'. cbn [negb] in E'. by simplify_eq.
Qed.
Lemma create_owned ext w p schema path mode e w' :
  owned_in ext w → Sqlite3DbHandle_Create p schema path mode w = Ret (e, w') → owned_in ext w'.
Proof.
  intros Hi E. pose proof E as E'. unfold Sqlite3DbHandle_Create in E'. outcome_inv. unfold Sqlite3DbHandle_Open in E1. outcome_inv.
  apply get_or_Ret_inv in E3; [|done]. destruct (decide (mp_dbConn r2 = NULL)) as [Hn|Hn].
  - destruct (create_spec ext w p r2 schema path mode Hi E3 Hn E0) as (e2 & w3 & Ho & Hi3 & _). rewrite E in Ho. by simplify_eq.
  - rewrite (proj2 (Z.eqb_neq _ _) Hn) in E1. cbn [negb] in E1. injection E1 as <-. change (negb (isOk NkErr_ObjectState)) with true in E'. cbv iota in E'. by simplify_eq.
Qed.
Lemma close_owned ext w p e w' : owned_in ext w → Sqlite3DbHandle_Close p w = Ret (e, w') → owned_in ext w'.
Proof.
  intros Hi E. pose proof E as E'. unfold Sqlite3DbHandle_Close, the_db in E'. outcome_inv. apply get_or_Ret_inv in E0; [|done].
  destruct w as [q S D i]. destruct (close_spec ext q S D p r Hi E0) as (e2 & q' & D' & Hc & Hi2 & _).
  rewrite Hc in E. by simplify_eq.
Qed.
Lemma inline_owned {U} ext st p sql fuel (f : option (Z → list Variant → U → NkErrorCode * U)) u e u' st' :
  registered st → owned_in ext (world st) → Sqlite3DbHandle_ExecuteInline f fuel p sql u st = Ret (e, u', st') →
  registered st' ∧ owned_in ext (world st').
Proof.
  intros Hreg Hi Hs. unfold Sqlite3DbHandle_ExecuteInline in Hs. outcome_inv. destruct r1 as [[e2 s] st3].
  destruct (new_stmt_owned _ _ _ _ _ _ _ _ Hreg Hi E0 E1) as (Hr3 & Hi3 & Hst).
  destruct (isOk e2); cbn [negb] in Hs.
  - outcome_inv. destruct r1 as [[e3 u3] w3]. outcome_inv. destruct r1 as [n w4]. simplify_eq.
    split; [by apply registered_world|]. destruct (Hst eq_refl) as [x Hx].
    destruct (execute_handles _ _ _ _ _ _ _ _ _ E2) as (q' & -> & Hq).
    pose proof (owned_set_sql _ _ _ s Hi3 Hq) as Hi4.
    destruct (release_stmt_spec _ (set_sql (world st3) q') s x Hi4) as (n2 & w5 & Hw5 & Hi5); [by destruct (world st3)|].
    rewrite Hw5 in E3. simplify_eq. eapply owned_ext; [|exact Hi5]. intros y. unfold bump. repeat case_decide; lia.
  - simplify_eq. split; [by apply registered_world|]. eapply owned_ext; [|exact Hi3]. intros y. unfold bump. case_decide; lia.
Qed.

Lemma db_step_owned op ext st st' p k :
  registered st → owned_in ext (world st) → Forall (λ x, 0 < ext x) (uses op) → db_step op st = Ret (st', (p, k)) →
  registered st' ∧ owned_in (bump p k ext) (world st').
Proof.
  intros Hreg Hi Hu Hs. destruct op; cbn [db_step uses] in *; try apply Forall_cons_iff in Hu as [Hu Hu'].
  - pose proof (create_db_spec ext st Hreg Hi) as Hc. destruct (pool_object _ _) as [e x]. destruct Hc as [Hc Hown]. rewrite Hc in Hs.
    cbn [mbind outcome_bind] in Hs. destruct (isOk e) eqn:He; cbn [mbind outcome_bind] in Hs; unfold gained in Hs;
      [change (isOk NkErr_Ok) with true in Hs|rewrite He in Hs]; simplify_eq; (split; [by apply registered_world|]).
    + by apply Hown.
    + by apply owned_same.
  - outcome_inv. split; [by apply registered_world|]. destruct (held_live _ _ _ Hi Hu) as [_ [(s & Hs & Hd)|(d & Hs & Hd)]];
      cbn [AddRef db_objects] in E; rewrite Hd in E; outcome_inv; destruct r0 as [n w2]; simplify_eq;
      [by eapply addref_stmt_owned|by eapply addref_db_owned].
  - outcome_inv. split; [by apply registered_world|]. destruct (release_spec _ _ _ Hi Hu) as (w' & Hw & Hi'). rewrite Hw in E. by simplify_eq.
  - outcome_inv. destruct r as [[e r] w2]. simplify_eq. split; [by apply registered_world|].
    pose proof (query_owned _ _ _ _ _ _ _ Hi Hu E) as Hq. by destruct (gained e r) as [p' k'] eqn:Eg; simplify_eq.
  - outcome_inv. destruct r as [e w2]. simplify_eq. split; [by apply registered_world|]. by eapply owned_same, open_owned.
  - outcome_inv. destruct r as [e w2]. simplify_eq. split; [by apply registered_world|]. by eapply owned_same, create_owned.
  - outcome_inv. destruct r as [e w2]. simplify_eq. split; [by apply registered_world|]. by eapply owned_same, close_owned.
  - outcome_inv. destruct r as [[e r] st2]. unfold Sqlite3DbHandle_CreateStatement in E. outcome_inv.
    destruct r1 as [[e1 r1] st3]. simplify_eq.
    destruct (new_stmt_owned _ _ _ _ _ _ _ _ Hreg Hi E0 E1) as (Hr2 & Hi2 & _). unfold gained in *.
    destruct (isOk e); simplify_eq; (split; [by apply registered_world|exact Hi2]).
  - outcome_inv. split; [by apply registered_world|]. eapply bind_owned; [done|by left].
  - outcome_inv. split; [by apply registered_world|]. eapply (bind_owned _ _ _ (λ _ _, None) index (mkVariant NkVarTy_None [])); [done|by right].
  - outcome_inv. destruct r as [[e u] w2]. simplify_eq. split; [by apply registered_world|].
    destruct (execute_handles _ _ _ _ _ _ _ _ _ E) as (q' & -> & Hq). by apply owned_set_sql.
  - outcome_inv. destruct r as [[e u] st2]. simplify_eq.
    destruct (inline_owned _ _ _ _ _ _ _ _ _ _ Hreg Hi E) as [Hr2 Hi2]. split; [done|]. by apply owned_same.
Qed.

Lemma reach_owned ext st : db_reach ext st → registered st ∧ owned_in ext (world st).
Proof.
  induction 1 as [st Hreg HS HD Hc Hs|op ext st st' p k _ [Hreg Hi] Hu Hs].
  - split; [done|]. rewrite HS, HD. by apply owned_empty.
  - by eapply db_step_owned.
Qed.

(** ** Properties *)

(** C10: Whatever clients do, every reference count is the number of references to
    the object, every connection and compiled statement SQLite holds belongs to exactly one
    live object, releasing a reference one holds never goes wrong, and once all references
    are given back no object is left and SQLite holds nothing any more. *)
Theorem db_reachable ext st :
  db_reach ext st →
  owned_in ext (world st) ∧
  (∀ p, 0 < ext p → ∃ w', Release p (world st) = Ret w' ∧ owned_in (bump p (-1) ext) w') ∧
  ((∀ p, ext p = 0) → w_stmts (world st) = ∅ ∧ w_dbs (world st) = ∅ ∧
     conns (w_sql (world st)) = ∅ ∧ compiled (w_sql (world st)) = ∅).
Proof.
  intros [_ Hi]%reach_owned. split; [done|]. split; [by intros; apply release_spec|]. intros Hz.
  by apply own_none with (ext := ext).
Qed.


(** Creating a statement from a text that SQLite does not compile (or on a closed
    database) has undefined behaviour, where [NkErr_CompileSqlStatement] is meant: the
    half-made statement is released, which releases its database through a null
    pointer.  Executing such a text inline goes the same way. *)
Theorem db_bad_statement_undefined ext st o d sql fuel U f (u : U) :
  db_reach ext st → w_dbs (world st) !! o = Some d → sql ≠ [] →
  (sqlite3_prepare_v2 (mp_dbConn d) sql (w_sql (world st))).1.1 ≠ SQLITE_OK →
  isOk (pool_object sizeof_Sqlite3Stmt (live (world st))).1 = true →
  Sqlite3DbHandle_CreateStatement o sql st = Undef ∧ Sqlite3DbHandle_ExecuteInline f fuel o sql u st = Undef.
Proof.
  intros [Hreg Hi]%reach_owned Ho Hsql Hbad Hpool. pose proof (create_stmt_spec ext st o d sql Hreg Hi Ho) as Hc. cbv zeta in Hc.
  destruct (pool_object _ _) as [e p]. destruct (sqlite3_prepare_v2 _ _ _) as [[r s] q']. simpl in Hbad, Hpool.
  destruct (Hc _ eq_refl) as [Hcr _]. rewrite Hpool, (proj2 (Z.eqb_neq _ _) Hbad) in Hcr. cbn [andb] in Hcr.
  unfold Sqlite3DbHandle_CreateStatement, Sqlite3DbHandle_ExecuteInline, stmt_init, the_db. rewrite Ho.
  cbn [get_or mbind outcome_bind]. rewrite (bool_decide_eq_false_2 _ Hsql). cbn [negb NK_ASSERT mbind outcome_bind].
  rewrite Hcr. done.
Qed.
End create.
End ownership.

(** ** Witnesses: a database at 101, opened, with a statement at 102 *)
#[local] Existing Instance example_registry.
#[local] Existing Instance example_registry_laws.
Definition toy_next (op : DbOp) (st : NkOMState HTable.NkHashtable (DbWorld ToySql)) : NkOMState HTable.NkHashtable (DbWorld ToySql) :=
  match db_step op st with Ret (st', _) => st' | _ => st end.
Definition toy_created : NkOMState HTable.NkHashtable (DbWorld ToySql) := toy_next OpCreateInstance (toy_start []).
Definition toy_opened : NkOMState HTable.NkHashtable (DbWorld ToySql) := toy_next (OpOpen 101 [97] NkDbMode_ReadWrite) toy_created.
Definition toy_with_stmt : NkOMState HTable.NkHashtable (DbWorld ToySql) := toy_next (OpCreateStatement 101 [115]) toy_opened.
Definition toy_db_gone : NkOMState HTable.NkHashtable (DbWorld ToySql) := toy_next (OpRelease 101) toy_with_stmt.

Lemma toy_registered w : registered (toy_state_of w).
Proof.
  split; [done|]. exists example_classes, 0%nat. split; [done|]. split; [apply example_room; [by right|lia]|].
  split; vm_compute; reflexivity.
Defined.
Lemma toy_reach_created : db_reach (bump 101 1 (λ _, 0)) toy_created.
Proof.
  apply (db_next OpCreateInstance (λ _, 0) (toy_start [])); [by apply db_start; [apply toy_registered|..]|done|].
  vm_compute. reflexivity.
Defined.
Lemma toy_reach_opened : db_reach (bump 101 0 (bump 101 1 (λ _, 0))) toy_opened.
Proof.
  apply (db_next (OpOpen 101 [97] NkDbMode_ReadWrite) _ toy_created); [apply toy_reach_created|by repeat constructor|].
  vm_compute. reflexivity.
Defined.
Lemma toy_reach_stmt : db_reach (bump 102 1 (bump 101 0 (bump 101 1 (λ _, 0)))) toy_with_stmt.
Proof.
  apply (db_next (OpCreateStatement 101 [115]) _ toy_opened); [apply toy_reach_opened|by repeat constructor|].
  vm_compute. reflexivity.
Defined.
Lemma toy_reach_gone : db_reach (bump 101 (-1) (bump 102 1 (bump 101 0 (bump 101 1 (λ _, 0))))) toy_db_gone.
Proof.
  apply (db_next (OpRelease 101) _ toy_with_stmt); [apply toy_reach_stmt|by repeat constructor|].
  vm_compute. reflexivity.
Defined.

(** The client gave its reference to the database back; the statement keeps it alive, and
    releasing the statement is possible and closes everything. *)
Lemma db_reachable_witness :
  owned (bump 101 (-1) (bump 102 1 (bump 101 0 (bump 101 1 (λ _, 0)))))
    (w_sql (world toy_db_gone)) (w_stmts (world toy_db_gone)) (w_dbs (world toy_db_gone)) ∧
  size (w_dbs (world toy_db_gone)) = 1%nat ∧
  ∃ w', Release 102 (world toy_db_gone) = Ret w' ∧ w_dbs w' = ∅ ∧ conns (w_sql w') = ∅.
Proof.
  destruct (db_reachable _ _ toy_reach_gone) as (Hi & Hrel & _). split; [exact Hi|]. split; [vm_compute; reflexivity|].
  destruct (Hrel 102 ltac:(vm_compute; reflexivity)) as (w' & Hw & _). exists w'. split; [exact Hw|].
  vm_compute in Hw. injection Hw as <-. by vm_compute.
Defined.
Lemma db_bad_statement_undefined_witness :
  Sqlite3DbHandle_CreateStatement 101 [33] toy_opened = Undef ∧
  Sqlite3DbHandle_ExecuteInline None 5 101 [33] tt toy_opened = Undef.
Proof.
  apply (db_bad_statement_undefined _ toy_opened 101 (mkDb 1 2 1) [33] 5 unit None tt toy_reach_opened).
  - vm_compute. reflexivity.
  - done.
  - vm_compute. lia.
  - vm_compute. reflexivity.
Defined.
