(* ===== verification/DbQuery.v ===== *)
(** * Queries: result rows, parameters and values

    What [Sqlite3DbHandle_Execute] does with the rows SQLite yields, which parameters
    [Sqlite3Stmt_Bind] reaches, and what becomes of a value that is bound and read back. *)
From S2P Require Import Prelude CStr HTable Util Registry NkOM Db DbToy.

(** ** Rows *)
Section rows.
Context {Q : Type} `{Sqlite Q} `{DbHostLaws}.
Implicit Types (q : Q) (qs : list Q) (w : DbWorld Q).

(** Stepping the statement gives the rows present in the states [qs], then no more. *)
Inductive yields (s : Z) : Q → list Q → Q → Prop :=
  | yields_end q r q' : sqlite3_step s q = (r, q') → r ≠ SQLITE_ROW → yields s q [] q'
  | yields_row q q1 qs q' : sqlite3_step s q = (SQLITE_ROW, q1) → yields s q1 qs q' → yields s q (q1 :: qs) q'.

(** A column's value as type and bytes, and the row of a state. *)
Definition column_view (v : SqlValue) (ptr : Z) : NkVariantType * list Z :=
  match v with
  | SqlNull => (NkVarTy_None, [])
  | SqlInt z => (NkVarTy_Int64, le_bytes 8 z)
  | SqlFloat bits => (NkVarTy_Double, le_bytes 8 (le_value bits))
  | SqlText b => (NkVarTy_StringView, le_bytes 8 ptr ++ le_bytes 8 (Z.of_nat (length b)))
  | SqlBlob b => (NkVarTy_BufferView, le_bytes 8 ptr ++ le_bytes 8 (Z.of_nat (length b)))
  end.
Definition row_of (s : Z) q : list (NkVariantType * list Z) :=
  (λ i, column_view (sqlite3_column s i q) (sqlite3_column_ptr s i q)) <$> zrange 0 (Z.to_nat (sqlite3_column_count s q)).

(** The reference: the callback sees one row after the other until it refuses one. *)
Section visit.
Context {U : Type} (g : option (list (NkVariantType * list Z) → U → NkErrorCode * U)).
Fixpoint visit (s : Z) qs (qend : Q) (u : U) : NkErrorCode * U * Q :=
  match qs, g with
  | [], _ => (NkErr_Ok, u, qend)
  | q :: qs, None => visit s qs qend u
  | q :: qs, Some g =>
      let '(e, u) := g (row_of s q) u in
      if isOk e then visit s qs qend u
      else (if bool_decide (e = NkErr_ManuallyAborted) then NkErr_Ok else e, u, q)
  end.
(** Such a callback, reading its variants with [NkVariantGet]. *)
Definition reading : option (Z → list Variant → U → NkErrorCode * U) :=
  option_map (λ g (_ : Z) (arr : list Variant) u, g (NkVariantGet <$> arr) u) g.
End visit.

Lemma set_column_spec var v ptr :
  length (m_val var) = 16%nat →
  ∃ var', set_column var v ptr = Ret var' ∧ length (m_val var') = 16%nat ∧ NkVariantGet var' = column_view v ptr.
Proof.
  intros Hv. unfold set_column.
  set (t := Sqlite3DbHandle_MapFromSqlite3ColumnType (column_type v)).
  assert (Hb : length (variant_arg_bytes t (column_arg v ptr)) = variant_store_size t).
  { destruct v; cbn; rewrite ?length_le_bytes; done || (by rewrite length_app, !length_le_bytes) || done. }
  destruct (variant_set_spec var t (column_arg v ptr) Hv Hb) as (v' & -> & Hl & _ & Hg & _). exists v'. split; [done|]. split; [done|].
  rewrite Hg. subst t. destruct v; try done.
Qed.
Lemma prepare_loop_spec s q i arr :
  Forall (λ v, length (m_val v) = 16%nat) arr →
  ∃ arr', prepare_loop s i arr q = Ret arr' ∧ Forall (λ v, length (m_val v) = 16%nat) arr' ∧
    NkVariantGet <$> arr' = (λ i, column_view (sqlite3_column s i q) (sqlite3_column_ptr s i q)) <$> zrange i (length arr).
Proof.
  revert i. induction arr as [|v arr IH]; intros i Hall; [by exists []|]. apply Forall_cons_iff in Hall as [Hv Hall].
  cbn [prepare_loop length]. destruct (set_column_spec v (sqlite3_column s i q) (sqlite3_column_ptr s i q) Hv) as (v' & -> & Hv' & Hg).
  cbn [mbind outcome_bind]. destruct (IH (i + 1) Hall) as (arr' & -> & Hall' & Hm). cbn [mbind outcome_bind].
  exists (v' :: arr'). split; [done|]. split; [by constructor|]. by rewrite zrange_S, !fmap_cons, Hg, Hm.
Qed.
Lemma prepare_row s n arr q :
  s ≠ NULL → 0 < n → sqlite3_column_count s q = n → length arr = Z.to_nat n → Forall (λ v, length (m_val v) = 16%nat) arr →
  ∃ arr', Sqlite3DbHandle_PrepareResultArray s n arr q = Ret arr' ∧ length arr' = Z.to_nat n ∧
    Forall (λ v, length (m_val v) = 16%nat) arr' ∧ NkVariantGet <$> arr' = row_of s q.
Proof.
  intros Hs Hn Hc Hl Hall. unfold Sqlite3DbHandle_PrepareResultArray, row_of. rewrite (proj2 (Z.eqb_neq _ _) Hs), Hc.
  assert (n >? 0 = true) as -> by (apply Z.gtb_lt; lia). rewrite Hl.
  assert (n >? Z.of_nat (Z.to_nat n) = false) as -> by (destruct (Z.gtb_spec n (Z.of_nat (Z.to_nat n))); [lia|done]).
  cbn [NK_ASSERT negb mbind outcome_bind]. rewrite take_ge, drop_ge by lia.
  destruct (prepare_loop_spec s q 0 arr Hall) as (arr' & -> & Hall' & Hm). cbn [mbind outcome_bind]. exists arr'. rewrite app_nil_r.
  rewrite Hl in Hm. split_and!; [done| |done|done]. apply (f_equal length) in Hm. by rewrite !length_fmap, length_zrange in Hm.
Qed.

(** The loop, once the array is there or will be. *)
Lemma execute_loop_spec {U} (g : option (list (NkVariantType * list Z) → U → NkErrorCode * U)) s n q qs qend fuel arr u :
  s ≠ NULL → 0 < n → yields s q qs qend → Forall (λ q, sqlite3_column_count s q = n) qs → (length qs < fuel)%nat →
  match arr with
  | Some a => length a = Z.to_nat n ∧ Forall (λ v, length (m_val v) = 16%nat) a
  | None => isOk (pool_array n) = true ∨ qs = []
  end →
  execute_loop (reading g) fuel s arr u q = Ret (visit g s qs qend u).
Proof.
  intros Hs Hn Hy. revert fuel arr u. induction Hy as [q r q' Hst Hr|q q1 qs q' Hst Hy IH]; intros fuel arr u Hcnt Hfuel Harr;
    (destruct fuel as [|fuel]; [lia|]); cbn [execute_loop]; rewrite Hst.
  { by rewrite (proj2 (Z.eqb_neq _ _) Hr). }
  rewrite Z.eqb_refl. apply Forall_cons_iff in Hcnt as [Hc Hcnt]. rewrite Hc.
  set (next := match arr with Some a => (NkErr_Ok, a) | None => (pool_array n, replicate (Z.to_nat n) raw_variant) end).
  assert (∃ a, next = (NkErr_Ok, a) ∧ length a = Z.to_nat n ∧ Forall (λ v, length (m_val v) = 16%nat) a) as (a & -> & Hl & Hall).
  { subst next. destruct arr as [a|]; [by exists a|]. destruct Harr as [Hp|]; [|done]. apply bool_decide_eq_true in Hp as ->.
    eexists. split; [done|]. rewrite length_replicate. split; [done|]. apply Forall_replicate, raw_variant_law. }
  ok_step. destruct (prepare_row s n a q1 Hs Hn Hc Hl Hall) as (a' & -> & Hl' & Hall' & Hrow). cbn [mbind outcome_bind].
  cbn [length] in Hfuel. destruct g as [g|]; cbn [reading option_map visit].
  - rewrite Hrow. destruct (g (row_of s q1) u) as [e u']. destruct (isOk e); cbn [negb]; [|done].
    apply (IH fuel (Some a')); [done|lia|done].
  - apply (IH fuel (Some a')); [done|lia|done].
Qed.

(** C15: Executing a statement is [visit]: the callback gets exactly the rows of the
    result, in their order and with the columns' types and values, until it returns
    something else than [NkErr_Ok]; [NkErr_ManuallyAborted] then counts as success, any
    other code is returned; in every case the statement is reset.  The loop ends when the
    rows do. *)
Theorem db_execute_rows {U} (g : option (list (NkVariantType * list Z) → U → NkErrorCode * U)) p x d st n qs qend fuel u w :
  w_dbs w !! p = Some d → mp_dbConn d ≠ NULL → w_stmts w !! x = Some st → mp_stmtPtr st ≠ NULL →
  yields (mp_stmtPtr st) (w_sql w) qs qend → 0 < n → Forall (λ q, sqlite3_column_count (mp_stmtPtr st) q = n) qs →
  isOk (pool_array n) = true → (length qs < fuel)%nat →
  Sqlite3DbHandle_Execute (reading g) fuel p x u w =
    (let '(e, u', q) := visit g (mp_stmtPtr st) qs qend u in
     Ret (e, u', set_sql w (sqlite3_reset (mp_stmtPtr st) q))).
Proof.
  intros Hd Hc Hx Hs Hy Hn Hcnt Hp Hf. unfold Sqlite3DbHandle_Execute, the_db, the_stmt. rewrite Hd, Hx.
  cbn [get_or mbind outcome_bind]. rewrite (proj2 (Z.eqb_neq _ _) Hc).
  rewrite (execute_loop_spec g (mp_stmtPtr st) n (w_sql w) qs qend fuel None u Hs Hn Hy Hcnt Hf) by (by left).
  cbn [mbind outcome_bind]. by destruct (visit g (mp_stmtPtr st) qs qend u) as [[e u'] q].
Qed.
End rows.

(** ** Values *)

(** Only the low bits count for the bytes of an integer. *)
Lemma le_bytes_mod n x y : x mod 2 ^ (8 * Z.of_nat n) = y mod 2 ^ (8 * Z.of_nat n) → le_bytes n x = le_bytes n y.
Proof.
  intros He. rewrite <-(le_bytes_value (le_bytes n x)), <-(le_bytes_value (le_bytes n y)) by apply le_bytes_is_byte.
  by rewrite !length_le_bytes, !le_value_bytes, He.
Qed.
Lemma le_bytes_signed l : length l = 8%nat → Forall is_byte l → le_bytes 8 (i64 (le_value l)) = l.
Proof.
  intros Hl Hb. rewrite <-(le_bytes_value l) at 2 by done. rewrite Hl. apply le_bytes_mod. unfold swrapN.
  change (2 ^ (8 * Z.of_nat 8)) with (2 ^ 64). rewrite Zminus_mod_idemp_l. f_equal. lia.
Qed.
Lemma le_bytes_bits l : length l = 8%nat → Forall is_byte l → le_bytes 8 (le_value l) = l.
Proof. intros Hl Hb. rewrite <-Hl. by apply le_bytes_value. Qed.

(** What a bound value of each type is to SQLite, given the bytes [b] the variant was set
    from; [None] for the types that cannot be bound. *)
Definition widened (b : list Z) : list Z := take 8 (b ++ replicate 8 0).
Definition view_binds (mem : Z → Z → option (list Z)) (b : list Z) (mk : list Z → SqlValue) (r : option SqlValue) : Prop :=
  if decide (le_value (take 8 b) = NULL) then r = Some SqlNull
  else ∃ c, mem (le_value (take 8 b)) (le_value (drop 8 b)) = Some c ∧ r = Some (mk c).
Definition binds_as (mem : Z → Z → option (list Z)) (b : list Z) (t : NkVariantType) (r : option SqlValue) : Prop :=
  match t with
  | NkVarTy_Boolean | NkVarTy_Int8 | NkVarTy_Int16 | NkVarTy_Int32 | NkVarTy_Int64
  | NkVarTy_Uint8 | NkVarTy_Uint16 | NkVarTy_Uint32 | NkVarTy_Uint64 =>
      ∃ z, r = Some (SqlInt z) ∧ ∀ ptr, column_view (SqlInt z) ptr = (NkVarTy_Int64, widened b)
  | NkVarTy_Double => ∃ d, r = Some (SqlFloat d) ∧ ∀ ptr, column_view (SqlFloat d) ptr = (NkVarTy_Double, b)
  | NkVarTy_Float => ∃ d, r = Some (SqlFloat d) ∧ ∀ ptr, column_view (SqlFloat d) ptr = (NkVarTy_Double, widened (take 4 b))
  | NkVarTy_StringView => view_binds mem b SqlText r
  | NkVarTy_BufferView => view_binds mem b SqlBlob r
  | NkVarTy_Uuid => r = Some (SqlBlob b)
  | NkVarTy_None => r = Some SqlNull
  | _ => r = None
  end.

Lemma widened_int b : (length b ≤ 8)%nat → Forall is_byte b → length (widened b) = 8%nat ∧ Forall is_byte (widened b).
Proof.
  intros Hl Hb. unfold widened. split; [rewrite length_take, length_app, length_replicate; lia|].
  apply Forall_take, Forall_app. split; [done|]. apply Forall_replicate. unfold is_byte. lia.
Qed.
Lemma widened_pad b : (length b ≤ 8)%nat → take 8 (b ++ replicate (16 - length b) 0) = widened b.
Proof.
  intros Hl. unfold widened. rewrite !take_app, !take_replicate. do 2 f_equal. lia.
Qed.
Lemma widened_full b : length b = 8%nat → widened b = b.
Proof. intros Hl. unfold widened. by rewrite take_app_length'. Qed.

Lemma int_back c ptr : (length c ≤ 8)%nat → Forall is_byte c →
  column_view (SqlInt (i64 (le_value (take 8 (c ++ replicate (16 - length c) 0))))) ptr = (NkVarTy_Int64, widened c).
Proof. intros Hc Hcb. rewrite widened_pad by done. destruct (widened_int c Hc Hcb). unfold column_view. by rewrite le_bytes_signed. Qed.
Lemma double_back c ptr : (length c ≤ 8)%nat → Forall is_byte c →
  column_view (SqlFloat (take 8 (c ++ replicate (16 - length c) 0))) ptr = (NkVarTy_Double, widened c).
Proof. intros Hc Hcb. rewrite widened_pad by done. destruct (widened_int c Hc Hcb). unfold column_view. by rewrite le_bytes_bits. Qed.
Lemma view_back mem b mk :
  length b = 16%nat → (le_value (take 8 b) ≠ NULL → is_Some (mem (le_value (take 8 b)) (le_value (drop 8 b)))) →
  ∃ x, pointed mem mk (b ++ replicate (16 - length b) 0) = Ret x ∧ view_binds mem b mk (Some x).
Proof.
  intros Hb Hm. rewrite Hb, Nat.sub_diag, app_nil_r. unfold pointed, view_binds.
  destruct (Z.eqb_spec (le_value (take 8 b)) NULL) as [E|E].
  - eexists. split; [done|]. by rewrite decide_True.
  - destruct (Hm E) as [c Hc]. rewrite Hc. eexists. split; [done|]. rewrite decide_False by done. eauto.
Qed.

(** Binding a variant that was set and reading the column back.  64-bit integers,
    doubles, texts, blobs and UUIDs come back as the value that was bound.  The smaller integers are
    copied into a zeroed union and come back as 64-bit integers without their sign: a
    negative one as a large positive number.  A [float] comes back as the double whose low
    half are the low four bytes of the one stored.  The remaining types are not bound. *)
Theorem db_value_roundtrip v0 t a mem :
  length (m_val v0) = 16%nat → length (variant_arg_bytes t a) = variant_store_size t → Forall is_byte (variant_arg_bytes t a) →
  let b := variant_arg_bytes t a in
  (t = NkVarTy_StringView ∨ t = NkVarTy_BufferView → le_value (take 8 b) ≠ NULL →
     is_Some (mem (le_value (take 8 b)) (le_value (drop 8 b)))) →
  ∃ v r, NkVariantSet v0 t a = Ret v ∧ bound_value mem v = Ret r ∧ binds_as mem b t r.
Proof.
  intros Hv Hl Hb b Hmem. destruct (variant_set_spec v0 t a Hv Hl) as (v & -> & _ & _ & Hget & Hget').
  exists v. fold b in Hl, Hb, Hget, Hget'. clearbody b. unfold bound_value.
  destruct t; cbn [variant_store_size VariantGetTypeSize] in Hl; cbn [binds_as];
    first [rewrite Hget' by done | rewrite Hget; change (bool_decide _) with true | rewrite Hget; change (bool_decide _) with false];
    cbv iota.
  all: first
    [ by eexists
    | eexists; split; [done|]; split; [reflexivity|]; eexists; split; [reflexivity|]; intros ptr; apply int_back; [lia|done]
    | idtac ].
  - eexists. split; [done|]. split; [reflexivity|]. eexists. split; [reflexivity|]. intros ptr. apply double_back; [|by apply Forall_take].
    rewrite length_take. lia.
  - eexists. split; [done|]. split; [reflexivity|]. eexists. split; [reflexivity|]. intros ptr.
    pose proof (double_back b ptr ltac:(lia) Hb) as E. by rewrite (widened_full b Hl) in E.
  - destruct (view_back mem b SqlText Hl (Hmem (or_introl eq_refl))) as (x & -> & Hx). by eexists.
  - destruct (view_back mem b SqlBlob Hl (Hmem (or_intror eq_refl))) as (x & -> & Hx). by eexists.
  - eexists. split; [done|]. split; [reflexivity|]. by rewrite Hl, Nat.sub_diag, app_nil_r.
Qed.

(** ** Parameters *)
Section parameters.
Context {Q : Type} `{Sqlite Q} (bound : Q → Z → Z → SqlValue).
(** SQLite numbers the parameters of a statement from 1 to their count; binding sets the
    one it names and leaves the others. *)
Context (bound_same : ∀ s i v q, 1 ≤ i ≤ sqlite3_bind_parameter_count s q → bound (sqlite3_bind s i v q) s i = v)
        (bound_other : ∀ s i j v q, j ≠ i → bound (sqlite3_bind s i v q) s j = bound q s j).

Lemma bind_at mem x index v w st r :
  w_stmts w !! x = Some st → mp_stmtPtr st ≠ NULL → bound_value mem v = Ret r →
  Sqlite3Stmt_Bind mem x index v w =
    Ret (match r with
         | Some y => if i32 index <? sqlite3_bind_parameter_count (mp_stmtPtr st) (w_sql w)
                     then set_sql w (sqlite3_bind (mp_stmtPtr st) (i32 index) y (w_sql w)) else w
         | None => w
         end).
Proof.
  intros Hx Hs Hr. unfold Sqlite3Stmt_Bind, Sqlite3Stmt_Unbind, Sqlite3Stmt_IsValidParamIndex, the_stmt. rewrite Hx.
  cbn [get_or mbind outcome_bind]. rewrite (proj2 (Z.eqb_neq _ _) Hs). cbn [negb NK_ASSERT mbind outcome_bind].
  destruct (i32 index <? _) eqn:Ei; cbn [negb]; [|by destruct r]. rewrite Hr. cbn [mbind outcome_bind].
  destruct r as [[]|]; try done. by case_bool_decide.
Qed.

(** The parameters a client can bind are 1 to [count - 1]: for these the value
    arrives, but the last parameter of a statement keeps the value it had whatever is bound
    at whatever index, since the engine's check counts from 0. *)
Theorem db_last_parameter_unbound mem x v w st r :
  w_stmts w !! x = Some st → mp_stmtPtr st ≠ NULL → bound_value mem v = Ret (Some r) →
  let s := mp_stmtPtr st in
  let count := sqlite3_bind_parameter_count s (w_sql w) in
  count ≤ INT32_MAX →
  (∀ index, 1 ≤ index < count →
     ∃ w', Sqlite3Stmt_Bind mem x index v w = Ret w' ∧ bound (w_sql w') s index = r) ∧
  (∀ index, ∃ w', Sqlite3Stmt_Bind mem x index v w = Ret w' ∧ bound (w_sql w') s count = bound (w_sql w) s count).
Proof.
  intros Hx Hs Hr s count Hmax. split; intros index.
  - intros Hi. rewrite (bind_at _ _ _ _ _ _ _ Hx Hs Hr).
    assert (Hsm : i32 index = index).
    { unfold swrapN, INT32_MAX in *. change (2 ^ (32 - 1)) with 2147483648. change (2 ^ 32) with 4294967296. rewrite Z.mod_small; lia. }
    rewrite Hsm. fold s count. rewrite (proj2 (Z.ltb_lt _ _)) by lia. eexists. split; [done|]. apply bound_same. fold count. lia.
  - rewrite (bind_at _ _ _ _ _ _ _ Hx Hs Hr). fold s count. eexists. split; [done|].
    destruct (Z.ltb_spec (i32 index) count); [|done]. apply bound_other. lia.
Qed.
End parameters.

(** ** Interfaces and modes *)

(** A statement answers a query for [NkIBase] with [NkErr_InterfaceNotImpl], and a query
    for any interface it does not implement with success and itself: the index of the
    interface is used as a truth value. *)
Lemma stmt_query_inverted {Q} `{Sqlite Q} `{DbHost} p s iId (w : DbWorld Q) :
  w_stmts w !! p = Some s → st_refCount s ≠ INT32_MAX → Forall (λ u, NkUuidIsEqual iId u = false) [NkIBase_IID; NkIInitializable_IID; NkISqlStatement_IID] →
  Sqlite3Stmt_QueryInterface p NkIBase_IID w = Ret (NkErr_InterfaceNotImpl, NULL, w) ∧
  ∃ w', Sqlite3Stmt_QueryInterface p iId w = Ret (NkErr_Ok, p, w').
Proof.
  intros Hp Hr Hi. split; [done|]. unfold Sqlite3Stmt_QueryInterface, stmt_ImplInfos, NkOMQueryImplementationIndex.
  cbn [query_index_loop]. rewrite !Forall_cons_iff in Hi. destruct Hi as (-> & -> & -> & _).
  cbn [mbind outcome_bind]. change (negb (SIZE_MAX =? 0)) with true. cbv iota.
  unfold Sqlite3Stmt_AddRef, the_stmt, inc_refs. rewrite Hp. cbn [get_or mbind outcome_bind].
  rewrite (proj2 (Z.eqb_neq _ _) Hr). cbn [mbind outcome_bind]. eauto.
Qed.
(** Only the two plain modes set pragmas, and only they ask SQLite for what they mean: with
    the creation flag nothing is set, and the flag alone is lost. *)
Lemma mode_tables :
  Sqlite3DbHandle_MapFromDbMode <$> zrange 1 7 = [1; 2; 2; 2; 5; 6; 2] ∧
  ∀ {Q} `{Sqlite Q} c mode q, c ≠ NULL → mode ∈ [3; 4; 5; 6; 7] → Sqlite3DbHandle_SetPragmas c mode q = Ret (NkErr_Ok, q).
Proof.
  split; [reflexivity|]. intros Q HQ c mode q Hc Hm. unfold Sqlite3DbHandle_SetPragmas. rewrite (proj2 (Z.eqb_neq _ _) Hc).
  repeat (apply elem_of_cons in Hm as [->|Hm]; [done|]). by apply not_elem_of_nil in Hm.
Qed.

(** ** Witnesses *)
Definition toy_rows : list (list SqlValue) := [[SqlInt 1; SqlText [65]]; [SqlInt 2; SqlNull]; [SqlInt 3; SqlBlob [1; 2]]].
Definition toy_query : DbWorld ToySql :=
  mkDbWorld (mkToy {[1]} {[7 := 1]} ∅ [] toy_rows) {[102 := mkStmt 1 101 7]} {[101 := mkDb 2 NkDbMode_ReadWrite 1]} None.
(** Collects the first column, and stops at the second row. *)
Definition toy_collect (row : list (NkVariantType * list Z)) (u : list (list Z)) : NkErrorCode * list (list Z) :=
  (if bool_decide (length u = 1%nat) then NkErr_ManuallyAborted else NkErr_Ok, u ++ (snd <$> take 1 row)).

Lemma db_execute_rows_witness :
  ∃ w', Sqlite3DbHandle_Execute (reading (Some toy_collect)) 4 101 102 [] toy_query =
          Ret (NkErr_Ok, [[1; 0; 0; 0; 0; 0; 0; 0]; [2; 0; 0; 0; 0; 0; 0; 0]], w').
Proof.
  eexists.
  set (q1 := mkToy {[1]} {[7 := 1]} ∅ [SqlInt 1; SqlText [65]] (drop 1 toy_rows)).
  set (q2 := mkToy {[1]} {[7 := 1]} ∅ [SqlInt 2; SqlNull] (drop 2 toy_rows)).
  set (q3 := mkToy {[1]} {[7 := 1]} ∅ [SqlInt 3; SqlBlob [1; 2]] []).
  rewrite (db_execute_rows (Some toy_collect) 101 102 (mkDb 2 NkDbMode_ReadWrite 1) (mkStmt 1 101 7) 2 [q1; q2; q3] q3).
  - reflexivity.
  - reflexivity.
  - done.
  - reflexivity.
  - done.
  - repeat (eapply yields_row; [reflexivity|]). eapply (yields_end _ _ 101); done.
  - lia.
  - repeat constructor.
  - reflexivity.
  - simpl; lia.
Defined.
(** -1 as a 32-bit integer. *)
Lemma db_value_roundtrip_witness :
  ∃ v r, NkVariantSet raw_variant NkVarTy_Int32 (ArgWord (-1)) = Ret v ∧ bound_value (λ _ _, None) v = Ret r ∧
    ∃ z, r = Some (SqlInt z) ∧ ∀ ptr, column_view (SqlInt z) ptr = (NkVarTy_Int64, [255; 255; 255; 255; 0; 0; 0; 0]).
Proof.
  apply (db_value_roundtrip raw_variant NkVarTy_Int32 (ArgWord (-1)) (λ _ _, None)).
  - reflexivity.
  - reflexivity.
  - repeat constructor; by vm_compute.
  - by intros [|].
Defined.
Definition toy_value (q : ToySql) (_ i : Z) : SqlValue := default SqlNull (t_bound q !! i).
Lemma toy_bound_same s i v (q : ToySql) :
  1 ≤ i ≤ sqlite3_bind_parameter_count s q → toy_value (sqlite3_bind s i v q) s i = v.
Proof.
  intros Hi. cbn [sqlite3_bind sqlite3_bind_parameter_count toy_sqlite] in *. unfold toy_value.
  rewrite (proj2 (Z.leb_le 1 i)), (proj2 (Z.leb_le i (toy_params s))) by lia. cbn [andb t_bound]. by rewrite lookup_insert_eq.
Defined.
Lemma toy_bound_other s i j v (q : ToySql) : j ≠ i → toy_value (sqlite3_bind s i v q) s j = toy_value q s j.
Proof.
  intros Hj. cbn [sqlite3_bind toy_sqlite]. unfold toy_value. destruct (_ && _); [|done]. cbn [t_bound]. by rewrite lookup_insert_ne.
Defined.
Lemma db_last_parameter_unbound_witness :
  (∀ index, 1 ≤ index < 2 → ∃ w', Sqlite3Stmt_Bind (λ _ _, None) 102 index (mkVariant NkVarTy_Uuid (replicate 16 9)) toy_query = Ret w' ∧
     default SqlNull (t_bound (w_sql w') !! index) = SqlBlob (replicate 16 9)) ∧
  (∀ index, ∃ w', Sqlite3Stmt_Bind (λ _ _, None) 102 index (mkVariant NkVarTy_Uuid (replicate 16 9)) toy_query = Ret w' ∧
     default SqlNull (t_bound (w_sql w') !! 2) = SqlNull).
Proof.
  apply (db_last_parameter_unbound toy_value
    toy_bound_same toy_bound_other
    (λ _ _, None) 102 (mkVariant NkVarTy_Uuid (replicate 16 9)) toy_query (mkStmt 1 101 7)).
  - reflexivity.
  - done.
  - reflexivity.
  - vm_compute. done.
Defined.
