(* ===== verification/Asset.v ===== *)
(** * [src/Noriko/asset.c]: the asset manager

    The manager keeps a hash table of the assets in use, a database handle and the
    statement that looks an asset up; the database objects are the ones of [Db.v].  The
    methods of an asset are user code: [asset_AddRef] acts on the assets' own state.
    Listing the pending assets at the shutdown is logging. *)
From S2P Require Import Prelude CStr HTable Util Registry NkOM Db DbToy DbOwned DbQuery.

(** ** Asset types *)
Definition NkAsTy_Count : Z := 4.
Definition gl_c_AssetTypeStrs : list (list Z) :=
  bytes_of <$> ["NkAsTy_Unknown"; "NkAsTy_World"; "NkAsTy_TextureAtlas"; "NkAsTy_Level"]%string.
Definition NkAssetManagerQueryAssetTypeStr (typeId : Z) : outcome (list Z) :=
  NK_ASSERT ((typeId >=? 0) && (typeId <? NkAsTy_Count)) NkErr_InParameter;;
  get_or Undef (gl_c_AssetTypeStrs !! Z.to_nat typeId).

Definition NkIAssetManager_IID : NkUuid := mk_uuid 0x5d1db360 0x8d98 0x4eaa 0xb867256cb2a37a05.
Definition assets_ImplInfos : list (option NkUuid) :=
  [Some NkIBase_IID; Some NkIInitializable_IID; Some NkIAssetManager_IID; None].
Definition asset_cache_props : NkHashtableProperties :=
  mkHashtableProperties 32 64 16 (UINT32_MAX - 2) NkHtKeyTy_Uuid false.

(** The tables [assets] and [dependencies]. *)
Definition nl : string := String (Ascii.ascii_of_nat 10) EmptyString.
Definition gl_c_CurrDbSchema : list Z := bytes_of
  ("PRAGMA foreign_keys = OFF;" ++ nl ++
   "PRAGMA user_version = 1;" ++ nl ++
   "/* * table assets * defines the assets that are part of the game */CREATE TABLE assets(" ++ nl ++
   "uuid BLOB,                  -- unique identifier, saved as a literal 16-byte integer" ++ nl ++
   "type INT          NOT NULL, -- type (integral)" ++ nl ++
   "name VARCHAR(128) NOT NULL, -- name, up to 128 characters" ++ nl ++
   "path TEXT         NOT NULL, -- path string, using '/' as separator" ++ nl ++
   "docs TEXT,                  -- (optional) documentation string" ++ nl ++
   "PRIMARY KEY (uuid));/* * table dependencies * defines the dependency graph */CREATE TABLE dependencies(" ++ nl ++
   "depender BLOB NOT NULL, -- UUID of the asset that depends on 'dependee'" ++ nl ++
   "dependee BLOB NOT NULL, -- UUID of the asset that is being depended on" ++ nl ++
   "FOREIGN KEY (depender) REFERENCES assets(uuid)," ++ nl ++
   "FOREIGN KEY (dependee) REFERENCES assets(uuid)," ++ nl ++
   "UNIQUE      (depender, dependee)," ++ nl ++
   "CHECK       (depender != dependee)" ++ nl ++
   ");" ++ nl ++
   "PRAGMA foreign_keys = ON;")%string.

Definition query_sql : list Z := bytes_of "SELECT * FROM assets WHERE uuid = ?".
Definition db_file : list Z := bytes_of "assets.db".

(** ** The manager *)
Record AssetManager := mkAssets { mp_assetCache : option NkHashtable; am_dbConn : Z; mp_queryAssetStmt : Z }.
Definition gl_AssetManager : AssetManager := mkAssets None NULL NULL.
(** The manager is a static object. *)
Definition AssetManager_AddRef : Z := 1.
Definition AssetManager_Release : Z := 1.
(** The code, and whether the pointer is the manager. *)
Definition AssetManager_QueryInterface (iId : NkUuid) : outcome (NkErrorCode * bool) :=
  i ← NkOMQueryImplementationIndex assets_ImplInfos iId;
  Ret (if negb (i =? SIZE_MAX) then (NkErr_Ok, true) else (NkErr_InterfaceNotImpl, false)).
Definition AssetManager_Initialize (h : heap) (poolRes : NkErrorCode) (self : AssetManager)
    : outcome (NkErrorCode * AssetManager) :=
  '(errCode, cache) ← NkHashtableCreate h poolRes asset_cache_props;
  Ret (errCode, mkAssets cache (am_dbConn self) (mp_queryAssetStmt self)).

Section asset.
Context {Q : Type} `{Sqlite Q} `{DbHost} {R : Type} `{Registry R} `{KeyMemory} (gl_seed : Z).
Context {A : Type} (asset_AddRef : Z → A → outcome A).
Notation State := (NkOMState R (DbWorld Q)).

Definition new_database (st : State) : outcome (NkErrorCode * Z * State) :=
  NkOMCreateInstance clsid_NkIDatabase NULL NkIDatabase_IID NULL st.
Definition AssetManager_CreateDatabase (dbPath : list Z) (st : State) : outcome (NkErrorCode * State) :=
  '(errCode, dbHandle, st) ← new_database st;
  if negb (isOk errCode) then Ret (errCode, st)
  else
    '(errCode, w) ← Sqlite3DbHandle_Create dbHandle (Some gl_c_CurrDbSchema) dbPath NkDbMode_ReadWrite (world st);
    '(_, w) ← Sqlite3DbHandle_Release dbHandle w;
    Ret (if negb (isOk errCode) then errCode else NkErr_Ok, set_world st w).

(** Giving up the new handle. *)
Definition release_handle (errCode : NkErrorCode) (self : AssetManager) (st : State) : outcome (NkErrorCode * AssetManager * State) :=
  '(_, w) ← Sqlite3DbHandle_Release (am_dbConn self) (world st);
  Ret (errCode, mkAssets (mp_assetCache self) NULL (mp_queryAssetStmt self), set_world st w).
Definition AssetManager_OpenDatabase (isStandalone : bool) (dbPath : list Z) (self : AssetManager) (st : State)
    : outcome (NkErrorCode * AssetManager * State) :=
  NK_ASSERT (negb (bool_decide (dbPath = []))) NkErr_InParameter;;
  '(errCode, db, st) ← new_database st;
  let self := mkAssets (mp_assetCache self) db (mp_queryAssetStmt self) in
  if negb (isOk errCode) then Ret (errCode, self, st)
  else
    '(errCode, w) ← Sqlite3DbHandle_Open db dbPath (if isStandalone then NkDbMode_ReadOnly else NkDbMode_ReadWrite) (world st);
    let st := set_world st w in
    if negb (isOk errCode) then release_handle errCode self st
    else
      '(errCode, stmt, st) ← Sqlite3DbHandle_CreateStatement db query_sql st;
      let self := mkAssets (mp_assetCache self) db stmt in
      if negb (isOk errCode) then release_handle errCode self st else Ret (NkErr_Ok, self, st).
Definition AssetManager_CloseDatabase (self : AssetManager) (st : State) : outcome (NkErrorCode * AssetManager * State) :=
  if am_dbConn self =? NULL then Ret (NkErr_ComponentState, self, st)
  else
    '(_, w) ← Sqlite3Stmt_Release (mp_queryAssetStmt self) (world st);
    '(_, w) ← Sqlite3DbHandle_Release (am_dbConn self) w;
    Ret (NkErr_Ok, mkAssets (mp_assetCache self) NULL NULL, set_world st w).

(** The row callback does nothing yet. *)
Definition AssetManager_QueryAssetIterFn (colCount : Z) (colResArr : list Variant) (u : unit) : NkErrorCode * unit := (NkErr_Ok, u).
(** [behind] is what the table compares keys with, [assetId] the address of the UUID; the
    code, the pointer stored through [resPtr], the assets and the world. *)
Definition AssetManager_QueryAsset (fuel : nat) (assetId behind : Z) (self : AssetManager) (as_ : A) (w : DbWorld Q)
    : outcome (NkErrorCode * Z * A * DbWorld Q) :=
  cache ← get_or (Halt NkErr_InParameter) (mp_assetCache self);
  '(eCode, res) ← NkHashtableAt gl_seed cache assetId behind;
  if isOk eCode then as_ ← asset_AddRef res as_; Ret (NkErr_Ok, res, as_, w)
  else
    paramVar ← NkVariantSet raw_variant NkVarTy_Uuid (ArgMem (uuid_at assetId));
    w ← Sqlite3Stmt_Bind (λ _ _, None) (mp_queryAssetStmt self) 1 paramVar w;
    '(eCode, _, w) ← Sqlite3DbHandle_Execute (Some AssetManager_QueryAssetIterFn) fuel (am_dbConn self) (mp_queryAssetStmt self) tt w;
    let res := if negb (isOk eCode) then NULL else res in
    w ← Sqlite3Stmt_Unbind (mp_queryAssetStmt self) 1 w;
    Ret (eCode, res, as_, w).

(** ** Startup and shutdown; [dbExists] is the file system's answer. *)
Definition AssetManager_Startup (h : heap) (poolRes : NkErrorCode) (isStandalone dbExists : bool) (self : AssetManager) (st : State)
    : outcome (NkErrorCode * AssetManager * State) :=
  '(errCode, self) ← AssetManager_Initialize h poolRes self;
  if negb (isOk errCode) then Ret (errCode, self, st)
  else if isStandalone then
    '(errCode, st) ← (if negb dbExists then AssetManager_CreateDatabase db_file st else Ret (NkErr_Ok, st));
    if negb (isOk errCode) then Ret (errCode, self, st)
    else AssetManager_OpenDatabase isStandalone db_file self st
  else Ret (NkErr_Ok, self, st).
(** The calls of the cache's free function would be returned; it has none. *)
Definition AssetManager_Shutdown (isStandalone : bool) (self : AssetManager) (st : State)
    : outcome (NkErrorCode * AssetManager * list FreeCall * State) :=
  let frees := NkHashtableDestroy (mp_assetCache self) in
  let self := mkAssets None (am_dbConn self) (mp_queryAssetStmt self) in
  '(_, self, st) ← (if isStandalone then AssetManager_CloseDatabase self st else Ret (NkErr_Ok, self, st));
  Ret (NkErr_Ok, self, frees, st).
End asset.

(** ** The life of the database *)
Section lifecycle.
Context {Q : Type} `{SqliteLaws Q} `{DbHostLaws} {R : Type} `{RegistryLaws R}.
Notation State := (NkOMState R (DbWorld Q)).
Notation owned_in ext w := (owned ext (w_sql w) (w_stmts w) (w_dbs w)).
Implicit Types (st : State) (w : DbWorld Q) (ext : Z → Z).
#[local] Ltac next := cbn [get_or]; step; ok_step.

(** What a release does not touch. *)
Lemma release_db_stmts p w n w' : Sqlite3DbHandle_Release p w = Ret (n, w') → w_stmts w' = w_stmts w.
Proof.
  intros E. unfold Sqlite3DbHandle_Release, Sqlite3DbHandle_Close, the_db in E. outcome_inv.
  destruct (_ <=? 0); [|by simplify_eq]. outcome_inv. destruct r0 as [e w2]. simplify_eq.
  destruct (sqlite3_close _ _) as [r2 q2]. by destruct (r2 =? SQLITE_OK); simplify_eq.
Qed.
Lemma release_stmt_stmts p w n w' : Sqlite3Stmt_Release p w = Ret (n, w') → dom (w_stmts w') ⊆ dom (w_stmts w).
Proof.
  intros E. unfold Sqlite3Stmt_Release, the_stmt in E. outcome_inv. apply get_or_Ret_inv in E0; [|done].
  apply (elem_of_dom_2 (D := gset Z)) in E0. destruct (_ <=? 0); [|simplify_eq; cbn; set_solver].
  outcome_inv. destruct r0 as [k w2]. simplify_eq. apply release_db_stmts in E1. cbn in *. rewrite E1. set_solver.
Qed.

(** Giving up a reference to a database one holds. *)
Lemma release_handle_spec ext errCode self st d :
  owned_in ext (world st) → w_dbs (world st) !! am_dbConn self = Some d → 0 < ext (am_dbConn self) →
  ∃ w', release_handle errCode self st = Ret (errCode, mkAssets (mp_assetCache self) NULL (mp_queryAssetStmt self), set_world st w') ∧
    owned_in (bump (am_dbConn self) (-1) ext) w'.
Proof.
  intros Hi Hd He. unfold release_handle. destruct (world st) as [q S D i].
  destruct (release_db_spec _ _ _ _ _ _ Hi Hd He) as (n & q' & D' & Hr & Hi'). rewrite Hr. next. by eexists.
Qed.
Lemma close_database_spec ext c db x st s d :
  owned_in (bump x 1 (bump db 1 ext)) (world st) → db ≠ NULL → w_stmts (world st) !! x = Some s →
  w_dbs (world st) !! db = Some d → (∀ p, 0 ≤ ext p) →
  ∃ w', AssetManager_CloseDatabase (mkAssets c db x) st = Ret (NkErr_Ok, mkAssets c NULL NULL, set_world st w') ∧ owned_in ext w'.
Proof.
  intros Hi Hn Hs Hd Hext. unfold AssetManager_CloseDatabase. cbn [am_dbConn mp_queryAssetStmt mp_assetCache].
  rewrite (proj2 (Z.eqb_neq _ _) Hn).
  destruct (release_stmt_spec _ _ _ _ Hi Hs) as (n & w1 & E & Hi1). rewrite E. next.
  apply release_stmt_stmts in E. assert (Hne : db ≠ x) by (intros ->; by rewrite (own_disj _ _ _ _ Hi x s Hs) in Hd).
  assert (Hpos : 0 < bump x (-1) (bump x 1 (bump db 1 ext)) db) by (rewrite !bump_ne, bump_at by done; pose proof (Hext db); lia).
  destruct (own_ext _ _ _ _ Hi1 db) as [_ Hl]. destruct (Hl Hpos) as [[y Hy]|[d' Hd']].
  { apply (elem_of_dom_2 (D := gset Z)), E, elem_of_dom in Hy as [z Hz]. by rewrite (own_disj _ _ _ _ Hi db z Hz) in Hd. }
  destruct w1 as [q S D i]. destruct (release_db_spec _ _ _ _ _ _ Hi1 Hd' Hpos) as (n2 & q' & D' & Hr & Hi2). rewrite Hr. next.
  eexists. split; [done|]. eapply owned_ext; [|exact Hi2]. intros p. unfold bump. repeat case_decide; lia.
Qed.
(** The statement of the manager is created once its handle is open. *)
Lemma query_stmt_spec ext st db d :
  registered st → owned_in ext (world st) → w_dbs (world st) !! db = Some d → db_refCount d = 1 →
  (sqlite3_prepare_v2 (mp_dbConn d) query_sql (w_sql (world st))).1.1 = SQLITE_OK →
  ∃ e x w', Sqlite3DbHandle_CreateStatement db query_sql st = Ret (e, x, set_world st w') ∧
    if isOk e then owned_in (bump x 1 ext) w' ∧ x ∉ live (world st) ∧ ∃ s,
      w_stmts w' !! x = Some (mkStmt 1 db s) ∧ w_dbs w' !! db = Some (mkDb 2 (m_dbMode d) (mp_dbConn d)) ∧
      sqlite3_prepare_v2 (mp_dbConn d) query_sql (w_sql (world st)) = (SQLITE_OK, s, w_sql w')
    else owned_in ext w' ∧ w_dbs w' = w_dbs (world st).
Proof.
  intros Hreg Hi Hd Hr Hok. pose proof (create_stmt_spec ext st db d query_sql Hreg Hi Hd) as Hc. cbv zeta in Hc.
  destruct (pool_object _ _) as [e p]. destruct (sqlite3_prepare_v2 _ _ _) as [[r s] q']. cbn [fst] in Hok. subst r.
  destruct (Hc _ eq_refl) as [Hcr Hown]. unfold Sqlite3DbHandle_CreateStatement, stmt_init, the_db. rewrite Hd. next. rewrite Hcr, Hr.
  change ((SQLITE_OK =? SQLITE_OK) && negb (1 =? INT32_MAX)) with true. cbv iota. destruct (isOk e) eqn:He; next.
  - exists NkErr_Ok, p. eexists. split; [done|]. next. destruct (Hown eq_refl eq_refl) as (_ & Hfr & Hi'). rewrite Hr in Hi'.
    cbn [world set_world set_init drop_init w_stmts w_dbs w_sql].
    split; [apply (Hi' None)|]. split; [done|]. exists s. by rewrite lookup_insert_eq, lookup_insert_eq.
  - exists e, NULL. eexists. split; [done|]. rewrite He. by split.
Qed.

(** The mode the manager opens its database in. *)
Definition database_mode (isStandalone : bool) : Z := if isStandalone then NkDbMode_ReadOnly else NkDbMode_ReadWrite.
(** The manager has the new object [db], a handle open in the mode on the connection [c]
    with the reference of the manager and the one of the new statement [x], which SQLite
    compiled from the query on that connection. *)
Definition database_open (dbPath : list Z) (isStandalone : bool) (w : DbWorld Q) (db x : Z) (w' : DbWorld Q) : Prop :=
  db ∉ live w ∧ x ∉ live w ∧ ∃ c s q,
    w_dbs w' !! db = Some (mkDb 2 (database_mode isStandalone) c) ∧ w_stmts w' !! x = Some (mkStmt 1 db s) ∧
    c ∉ conns (w_sql w) ∧ opened_as dbPath (database_mode isStandalone) (w_sql w) c q ∧
    sqlite3_prepare_v2 c query_sql q = (SQLITE_OK, s, w_sql w').

(** C20: Opening the asset database of a manager, with a file that has the asset table (so
    that SQLite compiles the query on the connection just opened; otherwise creating the
    statement is undefined, [db_bad_statement_undefined]), gives the manager either one
    reference to a new handle, open in the mode of the application on a new connection, and
    one to the new statement compiled on it, or no handle and no reference; closing it then
    gives everything back: whatever references clients hold besides are as before, and if
    there are none, neither is any object, connection or compiled statement. *)
Theorem asset_database_lifecycle ext st self isStandalone dbPath :
  registered st → owned_in ext (world st) → dbPath ≠ [] →
  (∀ c q, opened_as dbPath (database_mode isStandalone) (w_sql (world st)) c q →
     (sqlite3_prepare_v2 c query_sql q).1.1 = SQLITE_OK) →
  ∃ e self' w1, AssetManager_OpenDatabase isStandalone dbPath self st = Ret (e, self', set_world st w1) ∧
    if isOk e then
      database_open dbPath isStandalone (world st) (am_dbConn self') (mp_queryAssetStmt self') w1 ∧
      owned_in (bump (mp_queryAssetStmt self') 1 (bump (am_dbConn self') 1 ext)) w1 ∧
      ∃ w2, AssetManager_CloseDatabase self' (set_world st w1) = Ret (NkErr_Ok, mkAssets (mp_assetCache self) NULL NULL, set_world st w2) ∧
        owned_in ext w2 ∧
        ((∀ p, ext p = 0) → w_stmts w2 = ∅ ∧ w_dbs w2 = ∅ ∧ conns (w_sql w2) = ∅ ∧ compiled (w_sql w2) = ∅)
    else
      owned_in ext w1 ∧ am_dbConn self' = NULL ∧
      AssetManager_CloseDatabase self' (set_world st w1) = Ret (NkErr_ComponentState, self', set_world st w1).
Proof.
  intros Hreg Hi Hpath Hsql. assert (Hext : ∀ p, 0 ≤ ext p) by (intros p; apply (own_ext _ _ _ _ Hi p)).
  unfold AssetManager_OpenDatabase, new_database. rewrite (bool_decide_eq_false_2 _ Hpath). cbn [negb NK_ASSERT]. next.
  pose proof (create_db_spec ext st Hreg Hi) as Hc. destruct (pool_object _ _) as [e p]. destruct Hc as [-> Hown].
  destruct (isOk e) eqn:He; next.
  2: { rewrite He. cbn [negb]. exists e. do 2 eexists. split; [done|]. rewrite He. by split_and!. }
  destruct (Hown eq_refl) as (Hn & Hfp & Hi1). clear Hown. set (st1 := set_world st _).
  change (if isStandalone then NkDbMode_ReadOnly else NkDbMode_ReadWrite) with (database_mode isStandalone).
  assert (Hm : mode_ok (database_mode isStandalone) = true) by by destruct isStandalone.
  destruct (open_spec _ (world st1) p (mkDb 1 NkDbMode_Unknown NULL) dbPath _ Hi1 ltac:(apply lookup_insert_eq) eq_refl Hm)
    as (e1 & w1 & -> & Hi2 & d & Hd & HS & Hr & _ & Hopen). next.
  assert (Hp : w_dbs w1 !! p = Some d) by (rewrite Hd; apply lookup_insert_eq).
  assert (Hpos : 0 < bump p 1 ext p) by (rewrite bump_at; pose proof (Hext p); lia).
  assert (Hback : ∀ errCode x w2, isOk errCode = false → owned_in (bump p 1 ext) w2 → w_dbs w2 !! p = Some d →
    ∃ e self' w3, release_handle errCode (mkAssets (mp_assetCache self) p x) (set_world st w2) = Ret (e, self', set_world st w3) ∧
      isOk e = false ∧ owned_in ext w3 ∧ am_dbConn self' = NULL).
  { intros errCode x w2 Herr Hi3 Hp2. destruct (release_handle_spec _ errCode (mkAssets (mp_assetCache self) p x) (set_world st w2) d Hi3 Hp2 Hpos)
      as (w3 & -> & Hi4). do 3 eexists. split; [done|]. split_and!; [done| |done].
    eapply owned_ext; [|exact Hi4]. cbn. intros y. unfold bump. repeat case_decide; lia. }
  change (set_world st1 w1) with (set_world st w1). destruct (isOk e1) eqn:He1; cbn [negb].
  2: { destruct (Hback e1 (mp_queryAssetStmt self) w1 He1 Hi2 Hp) as (e2 & s2 & w3 & -> & He2 & Hi3 & Hs2).
       do 3 eexists. split; [done|]. rewrite He2. split_and!; [done..|]. unfold AssetManager_CloseDatabase. by rewrite Hs2. }
  destruct (query_stmt_spec _ (set_world st w1) p d ltac:(by apply registered_world) Hi2 Hp Hr) as (e2 & x & w2 & Hcs & Hres).
  { by apply Hsql, Hopen. }
  rewrite Hcs. next. cbn [mp_assetCache]. destruct (isOk e2) eqn:He2; cbn [negb].
  2: { destruct Hres as [Hi3 Hd3]. cbn [world set_world] in Hd3; rewrite <-Hd3 in Hp.
       destruct (Hback e2 x w2 He2 Hi3 Hp) as (e3 & s2 & w3 & Hb & He3 & Hi4 & Hs2). change (set_world (set_world st w1) w2) with (set_world st w2). rewrite Hb.
       do 3 eexists. split; [done|]. rewrite He3. split_and!; [done..|]. unfold AssetManager_CloseDatabase. by rewrite Hs2. }
  destruct Hres as (Hi3 & Hfx & s & Hs & Hd' & Hprep). destruct Hopen as (Hmode & _ & Hcn & _ & Hop).
  exists NkErr_Ok. do 2 eexists. split; [done|]. next. cbn [am_dbConn mp_queryAssetStmt]. split.
  { split; [exact Hfp|]. split; [|exists (mp_dbConn d), s, (w_sql w1); rewrite Hmode in Hd'; by split_and!].
    intros Hx. apply Hfx. cbn [world set_world]. unfold live in *. rewrite HS, Hd. cbn [put_db set_dbs w_stmts w_dbs world set_world st1].
    rewrite !dom_insert_L. set_solver. }
  split; [exact Hi3|].
  destruct (close_database_spec ext (mp_assetCache self) p x (set_world st w2) _ _ Hi3 Hn Hs Hd' Hext) as (w3 & Hcl & Hi4).
  exists w3. split; [exact Hcl|]. split; [done|]. by apply own_none.
Qed.
End lifecycle.

(** ** Queries *)
Section query.
Context {Q : Type} `{SqliteLaws Q} `{DbHostLaws} `{KeyMemoryLaws} (gl_seed : Z) {A : Type} (asset_AddRef : Z → A → outcome A).

(** Binding or unbinding the only parameter of a statement does nothing. *)
Lemma only_parameter mem x v (w : DbWorld Q) s :
  w_stmts w !! x = Some s → mp_stmtPtr s ≠ NULL → (∀ q : Q, sqlite3_bind_parameter_count (mp_stmtPtr s) q = 1) →
  Sqlite3Stmt_Bind mem x 1 v w = Ret w ∧ Sqlite3Stmt_Unbind x 1 w = Ret w.
Proof.
  intros Hx Hs Hone. unfold Sqlite3Stmt_Bind, Sqlite3Stmt_Unbind, Sqlite3Stmt_IsValidParamIndex, the_stmt. rewrite Hx.
  cbn [get_or mbind outcome_bind]. rewrite (proj2 (Z.eqb_neq _ _) Hs), Hone. done.
Qed.

(** Querying an asset that is in the cache returns it, with a reference more and without
    asking the database.  For any other the statement is executed with its parameter as it
    was, whichever asset is asked for (the lookup statement has the one parameter), and
    what is returned as the asset is NULL, also when the code is [NkErr_Ok]. *)
Theorem asset_query ht db x fuel assetId behind a (w : DbWorld Q) s :
  htable_ok ht → w_stmts w !! x = Some s → mp_stmtPtr s ≠ NULL → length (uuid_at assetId) = 16%nat →
  (∀ q : Q, sqlite3_bind_parameter_count (mp_stmtPtr s) q = 1) →
  AssetManager_QueryAsset gl_seed asset_AddRef fuel assetId behind (mkAssets (Some ht) db x) a w =
    match ht_map ht !! key_repr (slot_keyType ht) assetId with
    | Some p => a' ← asset_AddRef p a; Ret (NkErr_Ok, p, a', w)
    | None => '(e, _, w') ← Sqlite3DbHandle_Execute (Some AssetManager_QueryAssetIterFn) fuel db x tt w; Ret (e, NULL, a, w')
    end.
Proof.
  intros Hok Hx Hs Hid Hone. unfold AssetManager_QueryAsset. cbn [mp_assetCache get_or mbind outcome_bind am_dbConn mp_queryAssetStmt].
  rewrite (at_spec gl_seed ht assetId behind Hok). destruct (ht_map ht !! _) as [p|]; step; ok_step; [done|].
  change (isOk NkErr_ItemNotFound) with false. cbv iota.
  destruct (variant_set_spec raw_variant NkVarTy_Uuid (ArgMem (uuid_at assetId)) raw_variant_law ltac:(cbn; rewrite length_take, Hid; done)) as (v & -> & _). step.
  rewrite (proj1 (only_parameter _ x v w s Hx Hs Hone)). step.
  destruct (Sqlite3DbHandle_Execute _ fuel db x tt w) as [[[e u] w']| | |] eqn:E; [|done..]. step.
  destruct (execute_handles _ _ _ _ _ _ _ _ _ E) as (q' & -> & _).
  rewrite (proj2 (only_parameter (λ _ _, None) x v (set_sql w q') s Hx Hs Hone)). step. by destruct (isOk e).
Qed.
End query.

(** ** Witnesses *)
#[local] Existing Instance example_registry.
#[local] Existing Instance example_registry_laws.

Lemma toy_query_compiles c (q : ToySql) :
  opened_as db_file (database_mode true) (w_sql (world (toy_start []))) c q → (sqlite3_prepare_v2 c query_sql q).1.1 = SQLITE_OK.
Proof.
  intros (q1 & Ho & Hp). vm_compute in Ho. injection Ho as <- <-. vm_compute in Hp. injection Hp as <-.
  vm_compute. reflexivity.
Defined.
Lemma asset_database_lifecycle_witness :
  ∃ e self' w1, AssetManager_OpenDatabase true db_file gl_AssetManager (toy_start []) = Ret (e, self', set_world (toy_start []) w1) ∧
    e = NkErr_Ok ∧ w_dbs w1 !! 101 = Some (mkDb 2 NkDbMode_ReadOnly 1) ∧
    ∃ w2, AssetManager_CloseDatabase self' (set_world (toy_start []) w1) =
            Ret (NkErr_Ok, mkAssets None NULL NULL, set_world (toy_start []) w2) ∧ w_dbs w2 = ∅ ∧ conns (w_sql w2) = ∅.
Proof.
  destruct (asset_database_lifecycle (λ _, 0) (toy_start []) gl_AssetManager true db_file
    (toy_registered _) (owned_empty (toy_empty []) ltac:(by vm_compute) ltac:(by vm_compute)) ltac:(by vm_compute) toy_query_compiles)
    as (e & self' & w1 & Ho & Hres).
  pose proof Ho as Ho'. vm_compute in Ho'. injection Ho' as <- <- <-. destruct Hres as (_ & _ & w2 & Hc & _ & Hz).
  destruct (Hz (λ _, eq_refl)) as (_ & Hd & Hcn & _).
  do 3 eexists. split; [exact Ho|]. split; [done|]. split; [reflexivity|]. exists w2. by split_and!.
Defined.

(** The manager with an empty cache, and the statement at 102 of a database with one asset. *)
Definition toy_assets : DbWorld ToySql :=
  mkDbWorld (mkToy {[1]} {[8 := 1]} ∅ [] [[SqlBlob (replicate 16 7)]]) {[102 := mkStmt 1 101 8]} {[101 := mkDb 2 NkDbMode_ReadOnly 1]} None.
(** The asset with UUID 5 is cached, at 50. *)
Definition toy_cache : NkHashtable := mkHashtable 1 2 asset_cache_props [mkExtPair (mkPair 5 50) true 0; empty_slot].
Lemma toy_cache_ok : @htable_ok uuid_memory toy_cache.
Proof. split; [simpl; lia|reflexivity|reflexivity|]. apply (bool_decide_unpack _). vm_compute. exact I. Defined.

Lemma asset_query_witness :
  @AssetManager_QueryAsset _ toy_sqlite toy_host uuid_memory 77 (list Z) (λ p l, Ret (p :: l)) 5 5 0 (mkAssets (Some toy_cache) 101 102) [] toy_assets =
    Ret (NkErr_Ok, 50, [50], toy_assets) ∧
  ∃ w', @AssetManager_QueryAsset _ toy_sqlite toy_host uuid_memory 77 (list Z) (λ p l, Ret (p :: l)) 5 6 0 (mkAssets (Some toy_cache) 101 102) [] toy_assets =
    Ret (NkErr_Ok, NULL, [], w').
Proof.
  pose proof (λ p, @asset_query _ toy_sqlite _ _ _ _ uuid_memory uuid_memory_laws 77 (list Z) (λ p l, Ret (p :: l)) toy_cache 101 102 5 p 0 []
    toy_assets (mkStmt 1 101 8) toy_cache_ok eq_refl ltac:(done) ltac:(cbn; by case_match) (λ _, eq_refl)) as Hq.
  split; [rewrite Hq; reflexivity|]. eexists. rewrite Hq. vm_compute. reflexivity.
Defined.
