(* ===== verification/Explorer.v ===== *)
(** * [src/NorikoEd/explorer.cpp]: the tree of the project explorer and its item model

    The items live in a store and refer to each other by address: a parent owns its
    children, a child points back.  [ExplorerModel] presents the tree to the views of the
    user-interface library, which keep model indexes: row, column and the address of the
    item.  What is proved is the contract of item models, that rows and parents agree.
    Left out is the widget around the model, but for the action that adds a filter. *)
From S2P Require Import Prelude.

(** ** Data *)
Module ItemType.
Inductive t := Generic | Session | Project | Filter.
#[global] Instance t_eq_dec : EqDecision t.
Proof. solve_decision. Defined.
End ItemType.
(** The variants that occur: none, a text, the icon in a resource file. *)
Inductive QVariant := QNone | QText (s : string) | QIcon (file : string).
Definition toString (v : QVariant) : string := match v with QText s => s | _ => "" end%string.

Record ExplorerItem := mkItem { m_itemType : ItemType.t; m_childItems : list Z; mp_parentItem : Z; m_internalVal : QVariant }.
Notation Items := (gmap Z ExplorerItem).
Definition new_item (typeId : ItemType.t) (parPtr : Z) : ExplorerItem := mkItem typeId [] parPtr QNone.
Definition set_children (it : ExplorerItem) (l : list Z) : ExplorerItem := mkItem (m_itemType it) l (mp_parentItem it) (m_internalVal it).

(** A model index; the default one is not valid. *)
Record QModelIndex := mkIndex { ix_row : Z; ix_column : Z; internalPointer : Z }.
Definition no_index : QModelIndex := mkIndex (-1) (-1) NULL.
Definition isValid (ix : QModelIndex) : bool := (ix_row ix >=? 0) && (ix_column ix >=? 0).
Definition createIndex (row column ptr : Z) : QModelIndex := mkIndex row column ptr.

Definition DisplayRole : Z := 0.
Definition DecorationRole : Z := 1.
Definition EditRole : Z := 2.
Definition NoItemFlags : Z := 0.
Definition ItemIsEditable : Z := 2.

(** ** Items; [this] is the address *)
Section item.
Context (items : Items) (this : Z).
Definition the_item : outcome ExplorerItem := get_or Undef (items !! this).
Definition ExplorerItem_getItemType : outcome ItemType.t := it ← the_item; Ret (m_itemType it).
Definition ExplorerItem_getItemData (colId : Z) : outcome QVariant :=
  if colId >? 0 then Ret QNone
  else
    it ← the_item;
    Ret (match m_itemType it with ItemType.Session | ItemType.Filter => m_internalVal it | _ => QNone end).
Definition ExplorerItem_getChildCount : outcome Z := it ← the_item; Ret (Z.of_nat (length (m_childItems it))).
Definition ExplorerItem_getChildAt (rowPos : Z) : outcome Z :=
  it ← the_item;
  Ret (if (rowPos <? 0) || (rowPos >=? Z.of_nat (length (m_childItems it))) then NULL
       else default NULL (m_childItems it !! Z.to_nat rowPos)).
Definition ExplorerItem_getParent : outcome Z := it ← the_item; Ret (mp_parentItem it).
(** [std::find_if] and [std::distance]: the number of children when it is not among them. *)
Definition distance (l : list Z) : Z := match list_find (λ c, c = this) l with Some (i, _) => Z.of_nat i | None => Z.of_nat (length l) end.
End item.
Definition ExplorerItem_getItemRow (items : Items) (this : Z) : outcome Z :=
  it ← the_item items this;
  if mp_parentItem it =? NULL then Ret 0
  else
    par ← the_item items (mp_parentItem it);
    Ret (i32 (distance this (m_childItems par))).
Definition ExplorerItem_setItemType (newType : ItemType.t) (this : Z) (items : Items) : outcome Items :=
  it ← the_item items this;
  if bool_decide (m_itemType it = ItemType.Generic)
  then Ret (<[this := mkItem newType (m_childItems it) (mp_parentItem it) (m_internalVal it)]> items)
  else Ret items.
Definition ExplorerItem_setItemData (colId : Z) (newVal : QVariant) (this : Z) (items : Items) : outcome (bool * Items) :=
  if colId >? 0 then Ret (false, items)
  else
    it ← the_item items this;
    match m_itemType it with
    | ItemType.Session | ItemType.Filter => Ret (true, <[this := mkItem (m_itemType it) (m_childItems it) (mp_parentItem it) newVal]> items)
    | _ => Ret (false, items)
    end.
(** An iterator outside the vector is undefined. *)
Definition ExplorerItem_insertChildItem (where2Insert childItem this : Z) (items : Items) : outcome Items :=
  it ← the_item items this;
  if (0 <=? where2Insert) && (where2Insert <=? Z.of_nat (length (m_childItems it))) then
    Ret (<[this := set_children it (take (Z.to_nat where2Insert) (m_childItems it) ++ childItem :: drop (Z.to_nat where2Insert) (m_childItems it))]> items)
  else Undef.
(** Deleting an item deletes the children it owns; the fuel is the height of the tree. *)
Fixpoint delete_item (fuel : nat) (p : Z) (items : Items) : outcome Items :=
  match fuel with
  | O => OutOfFuel
  | S fuel =>
      it ← the_item items p;
      items ← foldl (λ o c, items ← o; delete_item fuel c items) (Ret items) (m_childItems it);
      Ret (delete p items)
  end.
Definition ExplorerItem_removeChildItem (fuel : nat) (where2Remove this : Z) (items : Items) : outcome Items :=
  it ← the_item items this;
  if (0 <=? where2Remove) && (where2Remove <? Z.of_nat (length (m_childItems it))) then
    c ← get_or Undef (m_childItems it !! Z.to_nat where2Remove);
    delete_item fuel c (<[this := set_children it (take (Z.to_nat where2Remove) (m_childItems it) ++ drop (S (Z.to_nat where2Remove)) (m_childItems it))]> items)
  else Undef.

(** ** The model *)
(** [operator new] gives an address that is not in use. *)
Class ItemMemory := { new_address : Items → Z }.
Class ItemMemoryLaws `{ItemMemory} : Prop := { new_address_law items : items !! new_address items = None ∧ new_address items ≠ NULL }.
Inductive Signal := SigDataChanged (ix : QModelIndex) | SigRowsInserted (parIndex : QModelIndex) (first last : Z).
Record ExplorerModel := mkModel { m_rootItem : Z; m_items : Items; signals : list Signal }.

Section model.
Context `{ItemMemory}.
Definition set_items (m : ExplorerModel) (items : Items) : ExplorerModel := mkModel (m_rootItem m) items (signals m).
Definition emit (sig : Signal) (m : ExplorerModel) : ExplorerModel := mkModel (m_rootItem m) (m_items m) (signals m ++ [sig]).
Definition make_item (typeId : ItemType.t) (parPtr : Z) (items : Items) : Z * Items :=
  let p := new_address items in (p, <[p := new_item typeId parPtr]> items).

Definition ExplorerModel_ctor : outcome ExplorerModel :=
  let '(root, items) := make_item ItemType.Generic NULL ∅ in
  let '(a1, items) := make_item ItemType.Filter root items in
  let '(a2, items) := make_item ItemType.Filter a1 items in
  let '(a3, items) := make_item ItemType.Filter a2 items in
  let '(a4, items) := make_item ItemType.Filter a2 items in
  let '(a5, items) := make_item ItemType.Filter a1 items in
  let '(a6, items) := make_item ItemType.Filter a1 items in
  '(_, items) ← ExplorerItem_setItemData 0 (QText "Ace of Spaces") a1 items;
  '(_, items) ← ExplorerItem_setItemData 0 (QText "assets") a2 items;
  '(_, items) ← ExplorerItem_setItemData 0 (QText "tilesets") a3 items;
  '(_, items) ← ExplorerItem_setItemData 0 (QText "maps") a4 items;
  '(_, items) ← ExplorerItem_setItemData 0 (QText "data") a5 items;
  '(_, items) ← ExplorerItem_setItemData 0 (QText "docs") a6 items;
  items ← ExplorerItem_insertChildItem 0 a3 a2 items;
  items ← ExplorerItem_insertChildItem 1 a4 a2 items;
  items ← ExplorerItem_insertChildItem 0 a2 a1 items;
  items ← ExplorerItem_insertChildItem 1 a5 a1 items;
  items ← ExplorerItem_insertChildItem 2 a6 a1 items;
  items ← ExplorerItem_insertChildItem 0 a1 root items;
  Ret (mkModel root items []).

Definition ExplorerModel_getItemPointer (ix : QModelIndex) (m : ExplorerModel) : Z :=
  if isValid ix && negb (internalPointer ix =? NULL) then internalPointer ix else m_rootItem m.
(** [base] is what [QAbstractItemModel::flags] answers. *)
Definition ExplorerModel_flags (base : QModelIndex → Z) (ix : QModelIndex) : Z :=
  if negb (isValid ix) then NoItemFlags else Z.lor ItemIsEditable (base ix).
Definition ExplorerModel_index (rowPos colPos : Z) (parIndex : QModelIndex) (m : ExplorerModel) : outcome QModelIndex :=
  if isValid parIndex && negb (ix_column parIndex =? 0) then Ret no_index
  else
    let parItem := ExplorerModel_getItemPointer parIndex m in
    if parItem =? NULL then Ret no_index
    else
      childItem ← ExplorerItem_getChildAt (m_items m) parItem rowPos;
      Ret (if negb (childItem =? NULL) then createIndex rowPos colPos childItem else no_index).
Definition ExplorerModel_parent (childIndex : QModelIndex) (m : ExplorerModel) : outcome QModelIndex :=
  if negb (isValid childIndex) then Ret no_index
  else
    let childItem := ExplorerModel_getItemPointer childIndex m in
    parentItem ← (if negb (childItem =? NULL) then ExplorerItem_getParent (m_items m) childItem else Ret NULL);
    if negb (parentItem =? m_rootItem m) && negb (parentItem =? NULL) then
      row ← ExplorerItem_getItemRow (m_items m) parentItem;
      Ret (createIndex row 0 parentItem)
    else Ret no_index.
Definition ExplorerModel_rowCount (parIndex : QModelIndex) (m : ExplorerModel) : outcome Z :=
  if isValid parIndex && (ix_column parIndex >? 0) then Ret 0
  else
    let itemPtr := ExplorerModel_getItemPointer parIndex m in
    if negb (itemPtr =? NULL) then n ← ExplorerItem_getChildCount (m_items m) itemPtr; Ret (i32 n) else Ret 0.
Definition ExplorerModel_columnCount (parIndex : QModelIndex) : Z := 1.
Definition ExplorerModel_data (ix : QModelIndex) (roleId : Z) (m : ExplorerModel) : outcome QVariant :=
  if negb (isValid ix) then Ret QNone
  else
    let itemPtr := ExplorerModel_getItemPointer ix m in
    if (roleId =? EditRole) || (roleId =? DisplayRole) then ExplorerItem_getItemData (m_items m) itemPtr 0
    else if roleId =? DecorationRole then
      ty ← ExplorerItem_getItemType (m_items m) itemPtr;
      Ret (match ty with
           | ItemType.Session => QIcon ":/icons/ico_session.png"
           | ItemType.Filter => QIcon ":/icons/ico_folderfilter.png"
           | _ => QNone
           end)
    else Ret QNone.
Definition ExplorerModel_setData (ix : QModelIndex) (newVal : QVariant) (roleId : Z) (m : ExplorerModel) : outcome (bool * ExplorerModel) :=
  let itemPtr := ExplorerModel_getItemPointer ix m in
  '(editRes, items) ← (if (roleId =? DisplayRole) || (roleId =? EditRole) then ExplorerItem_setItemData 0 newVal itemPtr (m_items m)
                       else Ret (false, m_items m));
  let m := set_items m items in
  Ret (editRes, if editRes : bool then emit (SigDataChanged ix) m else m).
(** The check of the arguments has no effect: its [return] is missing. *)
Definition ExplorerModel_insertRows (where2Insert numOfRows : Z) (parIndex : QModelIndex) (m : ExplorerModel) : outcome (bool * ExplorerModel) :=
  let itemPtr := ExplorerModel_getItemPointer parIndex m in
  last ← int_op (where2Insert + numOfRows - 1);
  let '(child, items) := make_item ItemType.Generic itemPtr (m_items m) in
  items ← ExplorerItem_insertChildItem where2Insert child itemPtr items;
  Ret (true, emit (SigRowsInserted parIndex where2Insert last) (set_items m items)).

(** [ExplorerFilterModel::filterAcceptsRow]; [contains] is whether a text matches the filter. *)
Definition ExplorerFilterModel_filterAcceptsRow (contains : string → bool) (sourceRowNum : Z) (srcParentIndex : QModelIndex) (m : ExplorerModel)
    : outcome bool :=
  if negb (isValid srcParentIndex) then Ret false
  else
    n ← ExplorerItem_getChildCount (m_items m) (internalPointer srcParentIndex);
    if u64 sourceRowNum >=? n then Ret false
    else
      currModelIndex ← ExplorerModel_index sourceRowNum 0 srcParentIndex m;
      v ← ExplorerItem_getItemData (m_items m) (internalPointer currModelIndex) 0;
      Ret (contains (toString v)).
(** [ExplorerWidget::on_actAddFilter_triggered], as far as the model is concerned: the index of the new filter. *)
Definition ExplorerWidget_AddFilter (srcInd : QModelIndex) (m : ExplorerModel) : outcome (QModelIndex * ExplorerModel) :=
  if negb (isValid srcInd) || (internalPointer srcInd =? NULL) then Ret (no_index, m)
  else
    let itemPtr := internalPointer srcInd in
    n ← ExplorerItem_getChildCount (m_items m) itemPtr;
    '(_, m) ← ExplorerModel_insertRows (i32 n) 1 srcInd m;
    n ← ExplorerItem_getChildCount (m_items m) itemPtr;
    row ← int_op (i32 n - 1);
    filterIndex ← ExplorerModel_index row 0 srcInd m;
    if negb (isValid filterIndex) then Ret (no_index, m)
    else
      items ← ExplorerItem_setItemType ItemType.Filter (internalPointer filterIndex) (m_items m);
      '(_, m) ← ExplorerModel_setData filterIndex (QText "NewFilter") EditRole (set_items m items);
      Ret (filterIndex, m).
End model.

(** ** The tree

    What the items are apart from their types and texts: children and parent. *)
Definition shape (items : Items) : gmap Z (list Z * Z) := (λ it, (m_childItems it, mp_parentItem it)) <$> items.
Record tree_ok (root : Z) (T : gmap Z (list Z * Z)) : Prop := {
  to_root : ∃ l, T !! root = Some (l, NULL);
  to_null : T !! NULL = None;
  to_child p l par c : T !! p = Some (l, par) → c ∈ l → ∃ l', T !! c = Some (l', p);
  to_once p l par : T !! p = Some (l, par) → NoDup l;
  to_parent p l par : T !! p = Some (l, par) → p ≠ root → ∃ l' par', T !! par = Some (l', par') ∧ p ∈ l';
  to_depth : ∃ d : Z → nat, ∀ p l par c, T !! p = Some (l, par) → c ∈ l → d c = S (d p)
}.
Lemma shape_lookup items p l par : shape items !! p = Some (l, par) ↔ ∃ it, items !! p = Some it ∧ m_childItems it = l ∧ mp_parentItem it = par.
Proof.
  unfold shape. rewrite lookup_fmap, fmap_Some. split.
  - intros (it & ? & [= -> ->]). by exists it.
  - intros (it & ? & <- & <-). by exists it.
Qed.
Lemma shape_insert p it items : shape (<[p := it]> items) = <[p := (m_childItems it, mp_parentItem it)]> (shape items).
Proof. unfold shape. by rewrite fmap_insert. Qed.
Lemma shape_same p it it' items :
  items !! p = Some it → m_childItems it' = m_childItems it → mp_parentItem it' = mp_parentItem it → shape (<[p := it']> items) = shape items.
Proof. intros Hp E1 E2. rewrite shape_insert, E1, E2. apply insert_id, shape_lookup. eauto. Qed.

Lemma tree_single root : root ≠ NULL → tree_ok root {[root := ([], NULL)]}.
Proof.
  intros Hr. split.
  - exists []. by simplify_map_eq.
  - by simplify_map_eq.
  - intros p l par c [<- [= <- <-]]%lookup_singleton_Some Hc. by apply not_elem_of_nil in Hc.
  - intros p l par [<- [= <- <-]]%lookup_singleton_Some. constructor.
  - intros p l par [<- [= <- <-]]%lookup_singleton_Some. done.
  - exists (λ _, O). intros p l par c [<- [= <- <-]]%lookup_singleton_Some Hc. by apply not_elem_of_nil in Hc.
Qed.
(** A new item without children, anywhere among the children of another. *)
Definition add_leaf (this c : Z) (w : nat) (l : list Z) (par : Z) (T : gmap Z (list Z * Z)) : gmap Z (list Z * Z) :=
  <[this := (take w l ++ c :: drop w l, par)]> (<[c := ([], this)]> T).
Lemma leaf_elem w c (l : list Z) x : x ∈ take w l ++ c :: drop w l ↔ x = c ∨ x ∈ l.
Proof. rewrite elem_of_app, elem_of_cons. rewrite <- (take_drop w l) at 3. rewrite elem_of_app. tauto. Qed.
Lemma leaf_nodup w c (l : list Z) : NoDup l → c ∉ l → NoDup (take w l ++ c :: drop w l).
Proof.
  intros Hl Hc. rewrite <- (take_drop w l) in Hl. apply list.NoDup_app in Hl as (H1 & H2 & H3). rewrite <- (take_drop w l) in Hc.
  apply not_elem_of_app in Hc as [Hc1 Hc2]. apply list.NoDup_app. split; [done|]. split; [|by constructor].
  intros x Hx [->|Hx']%elem_of_cons; [done|by eapply H2].
Qed.
Lemma tree_leaf root T this c w l par :
  tree_ok root T → T !! this = Some (l, par) → T !! c = None → c ≠ NULL → tree_ok root (add_leaf this c w l par T).
Proof.
  intros [Hroot Hnull Hchild Honce Hpar (d & Hd)] Ht Hc Hn. assert (Htc : this ≠ c) by congruence. unfold add_leaf.
  assert (Hcl : ∀ p l' par', T !! p = Some (l', par') → c ∉ l').
  { intros p l' par' Hp Hin. destruct (Hchild _ _ _ _ Hp Hin) as [l'' E]. congruence. }
  assert (Hold : ∀ p l' par', T !! p = Some (l', par') → ∃ l'', <[this:=(take w l ++ c :: drop w l, par)]> (<[c:=([], this)]> T) !! p = Some (l'', par') ∧ ∀ x, x ∈ l' → x ∈ l'').
  { intros p l' par' Hp. destruct (decide (p = this)) as [->|Hne].
    - rewrite Ht in Hp. injection Hp as <- <-. eexists. split; [by simplify_map_eq|]. intros x Hx. apply leaf_elem. by right.
    - exists l'. split; [|done]. assert (p ≠ c) by congruence. by simplify_map_eq. }
  split.
  - destruct Hroot as [l0 Hl0]. destruct (Hold _ _ _ Hl0) as (l'' & E & _). by exists l''.
  - assert (this ≠ NULL) by congruence. by simplify_map_eq.
  - intros p l' par' x Hp Hx. apply lookup_insert_Some in Hp as [[<- [= <- <-]]|[Hne [[<- [= <- <-]]|[Hne2 Hp]]%lookup_insert_Some]].
    + apply leaf_elem in Hx as [->|Hx]; [exists []; by simplify_map_eq|]. destruct (Hchild _ _ _ _ Ht Hx) as [lx Ex].
      destruct (Hold _ _ _ Ex) as (lx' & ? & _). by exists lx'.
    + by apply not_elem_of_nil in Hx.
    + destruct (Hchild _ _ _ _ Hp Hx) as [lx Ex]. destruct (Hold _ _ _ Ex) as (lx' & ? & _). by exists lx'.
  - intros p l' par' Hp. apply lookup_insert_Some in Hp as [[<- [= <- <-]]|[Hne [[<- [= <- <-]]|[Hne2 Hp]]%lookup_insert_Some]].
    + apply leaf_nodup; [by eapply Honce|by eapply Hcl].
    + constructor.
    + by eapply Honce.
  - intros p l' par' Hp Hr. apply lookup_insert_Some in Hp as [[<- [= <- <-]]|[Hne [[<- [= <- <-]]|[Hne2 Hp]]%lookup_insert_Some]].
    + destruct (Hpar _ _ _ Ht Hr) as (lp & pp & Ep & Hin). destruct (Hold _ _ _ Ep) as (lp' & E & Hsub). exists lp', pp. auto.
    + eexists _, par. split; [by simplify_map_eq|]. apply leaf_elem. by left.
    + destruct (Hpar _ _ _ Hp Hr) as (lp & pp & Ep & Hin). destruct (Hold _ _ _ Ep) as (lp' & E & Hsub). exists lp', pp. auto.
  - exists (λ x, if decide (x = c) then S (d this) else d x). intros p l' par' x Hp Hx.
    apply lookup_insert_Some in Hp as [[<- [= <- <-]]|[Hne [[<- [= <- <-]]|[Hne2 Hp]]%lookup_insert_Some]].
    + rewrite (decide_False (P := this = c)) by done. apply leaf_elem in Hx as [->|Hx]; [by rewrite decide_True|].
      rewrite decide_False by (intros ->; by eapply Hcl). by eapply Hd.
    + by apply not_elem_of_nil in Hx.
    + rewrite !decide_False; [by eapply Hd| |]; [congruence|]. intros ->. by eapply Hcl.
Qed.

Lemma the_item_ok (items : Items) p it : items !! p = Some it → the_item items p = Ret it.
Proof. intros Hp. unfold the_item. by rewrite Hp. Qed.

(** ** The contract of the model *)
Definition model_ok (m : ExplorerModel) : Prop := tree_ok (m_rootItem m) (shape (m_items m)).
(** The indexes of a model: none, and those of the items in their rows. *)
Inductive model_index (m : ExplorerModel) : QModelIndex → Prop :=
  | mi_none : model_index m no_index
  | mi_item r c l : (∃ par, shape (m_items m) !! c = Some (l, par) ∧ ∃ l' par', shape (m_items m) !! par = Some (l', par') ∧ l' !! r = Some c) →
      model_index m (mkIndex (Z.of_nat r) 0 c).
(** The rows fit into [int]. *)
Definition rows_fit (m : ExplorerModel) : Prop := ∀ p it, m_items m !! p = Some it → Z.of_nat (length (m_childItems it)) ≤ INT32_MAX.

Lemma distance_spec c l r : NoDup l → l !! r = Some c → distance c l = Z.of_nat r.
Proof.
  intros Hl Hr. unfold distance. destruct (list_find (λ c', c' = c) l) as [[i x]|] eqn:E.
  - apply list_find_Some in E as (Hi & -> & _). f_equal. by eapply NoDup_lookup.
  - exfalso. eapply list_find_None in E. rewrite list.Forall_forall in E. by eapply E; [eapply list_elem_of_lookup_2|].
Qed.
Lemma i32_row n l : (n ≤ length (l : list Z))%nat → Z.of_nat (length l) ≤ INT32_MAX → i32 (Z.of_nat n) = Z.of_nat n.
Proof. unfold INT32_MAX, swrapN. intros ? ?. change (32 - 1) with 31. rewrite Z.mod_small; lia. Qed.
Lemma valid_row r c : isValid (mkIndex (Z.of_nat r) 0 c) = true.
Proof. unfold isValid. cbn [ix_row ix_column]. by rewrite Z.geb_leb, (proj2 (Z.leb_le _ _)) by lia. Qed.

Lemma pointer_of r c m : c ≠ NULL → ExplorerModel_getItemPointer (mkIndex (Z.of_nat r) 0 c) m = c.
Proof. intros Hn. unfold ExplorerModel_getItemPointer. rewrite valid_row. cbn [internalPointer]. by rewrite (proj2 (Z.eqb_neq _ _) Hn). Qed.

Section contract.
Context (m : ExplorerModel) (Hok : model_ok m).
Lemma item_nonnull p it : m_items m !! p = Some it → p ≠ NULL.
Proof. intros Hp ->. pose proof (to_null _ _ Hok) as E. unfold shape in E. by rewrite lookup_fmap, Hp in E. Qed.
Lemma shape_item p l par : shape (m_items m) !! p = Some (l, par) → ∃ it, m_items m !! p = Some it ∧ m_childItems it = l ∧ mp_parentItem it = par ∧ p ≠ NULL.
Proof. intros (it & Hp & ? & ?)%shape_lookup. exists it. split_and!; [done..|by eapply item_nonnull]. Qed.
Lemma pointer_item ix : model_index m ix → ∃ it, m_items m !! ExplorerModel_getItemPointer ix m = Some it ∧ ExplorerModel_getItemPointer ix m ≠ NULL ∧
  isValid ix && negb (ix_column ix =? 0) = false ∧ isValid ix && (ix_column ix >? 0) = false.
Proof.
  intros [|r c l (par & Hc & _)].
  - destruct (to_root _ _ Hok) as [l Hl]. destruct (shape_item _ _ _ Hl) as (it & Hit & _ & _ & Hn). by exists it.
  - destruct (shape_item _ _ _ Hc) as (it & Hit & _ & _ & Hn). exists it. rewrite pointer_of by done. by rewrite valid_row.
Qed.
Lemma row_count ix it : model_index m ix → m_items m !! ExplorerModel_getItemPointer ix m = Some it → rows_fit m →
  ExplorerModel_rowCount ix m = Ret (Z.of_nat (length (m_childItems it))).
Proof.
  intros Hix Hit Hfit. destruct (pointer_item ix Hix) as (it' & Hit' & Hn & _ & Hv). unfold ExplorerModel_rowCount. rewrite Hv, (proj2 (Z.eqb_neq _ _) Hn). cbn [negb].
  unfold ExplorerItem_getChildCount. rewrite (the_item_ok _ _ _ Hit). step. f_equal. eapply i32_row; [done|by eapply Hfit].
Qed.
Lemma child_at this it row : m_items m !! this = Some it → 0 ≤ row →
  ExplorerItem_getChildAt (m_items m) this row = Ret (default NULL (m_childItems it !! Z.to_nat row)).
Proof.
  intros Hit Hrow. unfold ExplorerItem_getChildAt. rewrite (the_item_ok _ _ _ Hit). step. destruct (Z.ltb_spec row 0); [lia|]. cbn [orb]. rewrite Z.geb_leb.
  destruct (Z.leb_spec (Z.of_nat (length (m_childItems it))) row) as [Hge|]; [|done].
  by rewrite lookup_ge_None_2 by lia.
Qed.
Lemma index_spec ix it row : model_index m ix → m_items m !! ExplorerModel_getItemPointer ix m = Some it → 0 ≤ row →
  ExplorerModel_index row 0 ix m = Ret (match m_childItems it !! Z.to_nat row with Some c => mkIndex row 0 c | None => no_index end).
Proof.
  intros Hix Hit Hrow. destruct (pointer_item ix Hix) as (it' & Hit' & Hn & Hv & _). unfold ExplorerModel_index. rewrite Hv, (proj2 (Z.eqb_neq _ _) Hn).
  rewrite (child_at _ it row Hit Hrow). step. destruct (m_childItems it !! Z.to_nat row) as [c|] eqn:Ec; simpl; [|done].
  assert (Hc : ∃ l', shape (m_items m) !! c = Some (l', ExplorerModel_getItemPointer ix m)).
  { eapply (to_child _ _ Hok); [apply shape_lookup; by exists it|by eapply list_elem_of_lookup_2]. }
  destruct Hc as [l' Hc]. destruct (shape_item _ _ _ Hc) as (_ & _ & _ & _ & Hcn). by rewrite (proj2 (Z.eqb_neq _ _) Hcn).
Qed.
Lemma item_row p it par r : m_items m !! p = Some it → m_items m !! mp_parentItem it = Some par → m_childItems par !! r = Some p → rows_fit m →
  ExplorerItem_getItemRow (m_items m) p = Ret (Z.of_nat r).
Proof.
  intros Hp Hpar Hr Hfit. unfold ExplorerItem_getItemRow. rewrite (the_item_ok _ _ _ Hp). step. rewrite (proj2 (Z.eqb_neq _ _) (item_nonnull _ _ Hpar)), (the_item_ok _ _ _ Hpar). step.
  rewrite (distance_spec p (m_childItems par) r); [|eapply (to_once _ _ Hok), shape_lookup; by exists par|done].
  f_equal. eapply i32_row; [|by eapply Hfit]. apply lookup_lt_Some in Hr. lia.
Qed.
(** An index of the model for a child leads back to the index it was asked from. *)
Lemma parent_spec ix it row c :
  model_index m ix → m_items m !! ExplorerModel_getItemPointer ix m = Some it → m_childItems it !! Z.to_nat row = Some c → 0 ≤ row → rows_fit m →
  ExplorerModel_parent (mkIndex row 0 c) m = Ret ix.
Proof.
  intros Hix Hit Hc Hrow Hfit. unfold ExplorerModel_parent. rewrite <- (Z2Nat.id row Hrow), valid_row. cbn [negb].
  assert (Hcp : ∃ l', shape (m_items m) !! c = Some (l', ExplorerModel_getItemPointer ix m)).
  { eapply (to_child _ _ Hok); [apply shape_lookup; by exists it|by eapply list_elem_of_lookup_2]. }
  destruct Hcp as [l' Hcp]. destruct (shape_item _ _ _ Hcp) as (itc & Hitc & _ & Epar & Hcn).
  cbv zeta. rewrite (pointer_of _ c m Hcn).
  rewrite (proj2 (Z.eqb_neq _ _) Hcn). cbn [negb]. unfold ExplorerItem_getParent. rewrite (the_item_ok _ _ _ Hitc). step. rewrite Epar.
  destruct Hix as [|r p l (par & Hp & lp & pp & Hpar & Hr)].
  - change (ExplorerModel_getItemPointer no_index m) with (m_rootItem m). by rewrite Z.eqb_refl.
  - destruct (shape_item _ _ _ Hp) as (itp & Hitp & _ & Eparp & Hpn). destruct (shape_item _ _ _ Hpar) as (itpp & Hitpp & Echp & _ & _).
    pose proof (pointer_of r p m Hpn) as Eptr.
    rewrite Eptr. assert (Hroot : p ≠ m_rootItem m).
    { intros ->. destruct (to_root _ _ Hok) as [lr Hlr]. rewrite Hp in Hlr. injection Hlr as _ ->. by rewrite (to_null _ _ Hok) in Hpar. }
    rewrite (proj2 (Z.eqb_neq _ _) Hroot), (proj2 (Z.eqb_neq _ _) Hpn). cbn [negb andb].
    rewrite (item_row p itp itpp r Hitp); [step; done|by rewrite Eparp|by rewrite Echp|done].
Qed.
End contract.

(** ** Everything that changes the model *)
Lemma set_data_shape colId v this items b items' : ExplorerItem_setItemData colId v this items = Ret (b, items') → shape items' = shape items.
Proof.
  unfold ExplorerItem_setItemData. destruct (colId >? 0); [by intros [= _ <-]|]. intros E. apply bind_Ret_inv in E as (it & Hit & E).
  apply get_or_Ret_inv in Hit; [|done]. destruct (m_itemType it); simplify_eq; try done; by eapply shape_same.
Qed.
Lemma set_type_shape ty this items items' : ExplorerItem_setItemType ty this items = Ret items' → shape items' = shape items.
Proof.
  unfold ExplorerItem_setItemType. intros E. apply bind_Ret_inv in E as (it & Hit & E). apply get_or_Ret_inv in Hit; [|done].
  case_bool_decide; [|by injection E as <-]. injection E as <-. by eapply shape_same.
Qed.
Lemma set_data_model ix v role m b m' : ExplorerModel_setData ix v role m = Ret (b, m') → m_rootItem m' = m_rootItem m ∧ shape (m_items m') = shape (m_items m).
Proof.
  unfold ExplorerModel_setData. intros E. apply bind_Ret_inv in E as ([r items] & Hs & E). injection E as <- <-. assert (shape items = shape (m_items m)).
  { revert Hs. destruct (_ || _); [by apply set_data_shape|by intros [= <- <-]]. }
  by destruct r.
Qed.
Section reach.
Context `{ItemMemoryLaws}.
Lemma insert_child w c this items items' :
  ExplorerItem_insertChildItem w c this items = Ret items' →
  ∃ it, items !! this = Some it ∧ 0 ≤ w ≤ Z.of_nat (length (m_childItems it)) ∧
    items' = <[this := set_children it (take (Z.to_nat w) (m_childItems it) ++ c :: drop (Z.to_nat w) (m_childItems it))]> items.
Proof.
  unfold ExplorerItem_insertChildItem. intros E. apply bind_Ret_inv in E as (it & Hit & E). apply get_or_Ret_inv in Hit; [|done].
  destruct (Z.leb_spec 0 w), (Z.leb_spec w (Z.of_nat (length (m_childItems it)))); try done. injection E as <-. by exists it.
Qed.
(** One new item, whatever number of rows was asked for. *)
Lemma insert_rows_inv w n ix m b m' :
  ExplorerModel_insertRows w n ix m = Ret (b, m') →
  let this := ExplorerModel_getItemPointer ix m in let c := new_address (m_items m) in
  ∃ it, (this ≠ c → m_items m !! this = Some it ∧ 0 ≤ w ≤ Z.of_nat (length (m_childItems it)) ∧
    m_items m' = <[this := set_children it (take (Z.to_nat w) (m_childItems it) ++ c :: drop (Z.to_nat w) (m_childItems it))]>
                   (<[c := new_item ItemType.Generic this]> (m_items m))) ∧
    b = true ∧ m_rootItem m' = m_rootItem m ∧ signals m' = signals m ++ [SigRowsInserted ix w (w + n - 1)].
Proof.
  unfold ExplorerModel_insertRows. intros E. apply bind_Ret_inv in E as (last & Hl & E). apply int_op_inv in Hl as [-> _]. unfold make_item in E.
  apply bind_Ret_inv in E as (items & Hi & E). injection E as <- <-. apply insert_child in Hi as (it & Hit & Hw & ->). exists it. split; [|done].
  intros Hne. rewrite lookup_insert_ne in Hit by done. done.
Qed.
Lemma insert_rows_shape w n ix m b m' : model_ok m → model_index m ix → ExplorerModel_insertRows w n ix m = Ret (b, m') →
  let this := ExplorerModel_getItemPointer ix m in let c := new_address (m_items m) in
  ∃ l par, shape (m_items m) !! this = Some (l, par) ∧ shape (m_items m) !! c = None ∧ c ≠ NULL ∧
    shape (m_items m') = add_leaf this c (Z.to_nat w) l par (shape (m_items m)) ∧ m_rootItem m' = m_rootItem m.
Proof.
  intros Hok Hix E this c. apply insert_rows_inv in E as (it & Hit & _ & Hr & _). destruct (pointer_item m Hok ix Hix) as (it0 & Hit0 & _).
  destruct (new_address_law (m_items m)) as [Hc Hcn]. 
  assert (Hne : this ≠ c) by (intros Heq; unfold this, c in Heq; by rewrite Heq, Hc in Hit0). destruct (Hit Hne) as (Hit' & _ & Ei).
  exists (m_childItems it), (mp_parentItem it). split; [apply shape_lookup; by exists it|]. split; [unfold shape; by rewrite lookup_fmap; unfold c; rewrite Hc|].
  split; [done|]. split; [|done]. by rewrite Ei, !shape_insert.
Qed.
Lemma insert_rows_ok w n ix m b m' : model_ok m → model_index m ix → ExplorerModel_insertRows w n ix m = Ret (b, m') → model_ok m'.
Proof.
  intros Hok Hix E. destruct (insert_rows_shape _ _ _ _ _ _ Hok Hix E) as (l & par & Hl & Hc & Hn & Es & Er). unfold model_ok. rewrite Es, Er. by apply tree_leaf.
Qed.
(** The model starts with the sample project. *)
Lemma new_distinct items p it : items !! p = Some it → new_address items ≠ p.
Proof. intros Hp E. destruct (new_address_law items) as [Hn _]. rewrite E in Hn. congruence. Qed.
Lemma set_text_ok text this (items : Items) it :
  items !! this = Some it → m_itemType it = ItemType.Filter →
  ExplorerItem_setItemData 0 (QText text) this items = Ret (true, <[this := mkItem (m_itemType it) (m_childItems it) (mp_parentItem it) (QText text)]> items).
Proof. intros Hit Ht. unfold ExplorerItem_setItemData. cbn [Z.gtb Z.compare]. rewrite (the_item_ok _ _ _ Hit). step. by rewrite Ht. Qed.
Lemma append_ok c this (items : Items) it w :
  items !! this = Some it → w = Z.of_nat (length (m_childItems it)) →
  ExplorerItem_insertChildItem w c this items = Ret (<[this := set_children it (m_childItems it ++ [c])]> items).
Proof.
  intros Hit ->. unfold ExplorerItem_insertChildItem. rewrite (the_item_ok _ _ _ Hit). step. rewrite Z.leb_refl, andb_true_r, (proj2 (Z.leb_le _ _)) by lia.
  by rewrite Nat2Z.id, firstn_all, drop_all.
Qed.
Definition known (items : Items) (ps : list Z) : Prop := NoDup ps ∧ ∀ p, p ∈ ps → p = NULL ∨ is_Some (items !! p).
Lemma known_new it (items : Items) ps : known items ps → known (<[new_address items := it]> items) (new_address items :: ps).
Proof.
  intros [Hps Hin]. split.
  - constructor; [|done]. destruct (new_address_law items) as [Hn Hnn]. intros [|[it' Hit]]%Hin; [done|congruence].
  - intros p [->|Hp]%elem_of_cons; [right; apply lookup_insert_is_Some'; by left|].
    destruct (Hin p Hp) as [->|?]; [by left|]. right. apply lookup_insert_is_Some'. by right.
Qed.
(** The tree of the sample project, leaf by leaf. *)
Definition sample_tree (r a1 a2 a3 a4 a5 a6 : Z) : gmap Z (list Z * Z) :=
  add_leaf a1 a6 2 [a2; a5] r (add_leaf a1 a5 1 [a2] r (add_leaf a2 a4 1 [a3] a1 (add_leaf a2 a3 0 [] a1
    (add_leaf a1 a2 0 [] r (add_leaf r a1 0 [] NULL {[r := ([], NULL)]}))))).
Lemma sample_tree_ok r a1 a2 a3 a4 a5 a6 : NoDup [a6; a5; a4; a3; a2; a1; r; NULL] → tree_ok r (sample_tree r a1 a2 a3 a4 a5 a6).
Proof.
  intros Hnd. rewrite !list.NoDup_cons, !not_elem_of_cons in Hnd. destruct_and!. unfold sample_tree, add_leaf in *.
  repeat first [apply tree_leaf; [|by simplify_map_eq|by simplify_map_eq|done]|by apply tree_single].
Qed.
Lemma ctor_ok : ∃ m, ExplorerModel_ctor = Ret m ∧ model_ok m.
Proof.
  unfold ExplorerModel_ctor, make_item.
  set (i0 := ∅ : Items). set (r := new_address i0). set (i1 := <[r := _]> i0). set (a1 := new_address i1). set (i2 := <[a1 := _]> i1).
  set (a2 := new_address i2). set (i3 := <[a2 := _]> i2). set (a3 := new_address i3). set (i4 := <[a3 := _]> i3). set (a4 := new_address i4).
  set (i5 := <[a4 := _]> i4). set (a5 := new_address i5). set (i6 := <[a5 := _]> i5). set (a6 := new_address i6). set (i7 := <[a6 := _]> i6).
  assert (Hnd : known i7 [a6; a5; a4; a3; a2; a1; r; NULL]).
  { do 7 apply known_new. split; [by repeat constructor; apply not_elem_of_nil|]. intros p [->|?%not_elem_of_nil]%elem_of_cons; [by left|done]. }
  apply proj1 in Hnd. clearbody a6 a5 a4 a3 a2 a1 r.
  pose proof (sample_tree_ok _ _ _ _ _ _ _ Hnd) as HT. rewrite !list.NoDup_cons, !not_elem_of_cons in Hnd. destruct_and!. subst i7 i6 i5 i4 i3 i2 i1 i0.
  do 6 (erewrite set_text_ok; [|by simplify_map_eq|done]; cbn [mbind outcome_bind new_item m_itemType m_childItems mp_parentItem]).
  do 6 (erewrite append_ok; [|by simplify_map_eq|done]; cbn [mbind outcome_bind new_item set_children m_itemType m_childItems mp_parentItem app]).
  eexists. split; [done|]. unfold model_ok. cbn [m_rootItem m_items].
  match goal with |- tree_ok r ?T => replace T with (sample_tree r a1 a2 a3 a4 a5 a6); [done|] end.
  rewrite !shape_insert. cbn [set_children new_item m_childItems mp_parentItem]. unfold sample_tree, add_leaf, shape. rewrite fmap_empty. cbn [take drop app].
  apply map_eq. intros p. destruct (decide (p = r)) as [->|]; [by simplify_map_eq|]. destruct (decide (p = a1)) as [->|]; [by simplify_map_eq|].
  destruct (decide (p = a2)) as [->|]; [by simplify_map_eq|]. destruct (decide (p = a3)) as [->|]; [by simplify_map_eq|].
  destruct (decide (p = a4)) as [->|]; [by simplify_map_eq|]. destruct (decide (p = a5)) as [->|]; [by simplify_map_eq|].
  destruct (decide (p = a6)) as [->|]; by simplify_map_eq.
Qed.
Inductive ex_reach : ExplorerModel → Prop :=
  | er_ctor m : ExplorerModel_ctor = Ret m → ex_reach m
  | er_data m ix v role b m' : ex_reach m → model_index m ix → ExplorerModel_setData ix v role m = Ret (b, m') → ex_reach m'
  | er_rows m w n ix b m' : ex_reach m → model_index m ix → ExplorerModel_insertRows w n ix m = Ret (b, m') → ex_reach m'
  | er_filter m ix ix' m' : ex_reach m → model_index m ix → ExplorerWidget_AddFilter ix m = Ret (ix', m') → ex_reach m'.
Lemma add_filter_ok ix m ix' m' : model_ok m → model_index m ix → ExplorerWidget_AddFilter ix m = Ret (ix', m') → model_ok m'.
Proof.
  intros Hok Hix. unfold ExplorerWidget_AddFilter. destruct (negb _ || _); [by intros [= _ <-]|]. intros E. outcome_inv.
  match goal with K : ExplorerModel_insertRows _ _ _ _ = Ret ?r |- _ => destruct r as [b m1]; apply insert_rows_ok in K; [|done..] end.
  outcome_inv. case_match; outcome_inv; [done|].
  match goal with K : ExplorerItem_setItemType _ _ _ = _ |- _ => apply set_type_shape in K end.
  case_match. outcome_inv. match goal with K : ExplorerModel_setData _ _ _ _ = _ |- _ => apply set_data_model in K as [Er Es] end.
  unfold model_ok. rewrite Er, Es. cbn [set_items m_rootItem m_items].
  match goal with K : shape _ = shape (m_items _) |- _ => by rewrite K end.
Qed.
Lemma explorer_reach_ok m : ex_reach m → model_ok m.
Proof.
  induction 1 as [m E|m ix v role b m' _ IH Hix E|m w n ix b m' _ IH Hix E|m ix ix' m' _ IH Hix E].
  - destruct ctor_ok as (m' & E' & ?). congruence.
  - apply set_data_model in E as [Er Es]. unfold model_ok. by rewrite Er, Es.
  - by eapply insert_rows_ok.
  - by eapply add_filter_ok.
Qed.

(** C34: the contract of item models, for every state the explorer gets to: an index has as many valid rows as
    [rowCount] says; the index of a row belongs to an item that knows its row, and its parent is the index it
    was asked from; every other row has no index.  Rows are not negative, and the column is the only one there is, 0. *)
Theorem explorer_index_parent m ix row :
  ex_reach m → model_index m ix → rows_fit m → 0 ≤ row →
  ∃ n child, ExplorerModel_rowCount ix m = Ret n ∧ ExplorerModel_index row 0 ix m = Ret child ∧
    if decide (row < n) then
      isValid child = true ∧ model_index m child ∧ ExplorerModel_parent child m = Ret ix ∧
      ExplorerItem_getItemRow (m_items m) (internalPointer child) = Ret row
    else child = no_index.
Proof.
  intros Hok%explorer_reach_ok Hix Hfit Hrow. destruct (pointer_item m Hok ix Hix) as (it & Hit & _). exists (Z.of_nat (length (m_childItems it))).
  rewrite (row_count m Hok ix it Hix Hit Hfit), (index_spec m Hok ix it row Hix Hit Hrow). eexists. split; [done|]. split; [done|].
  case_decide as Hlt; [|by rewrite lookup_ge_None_2 by lia].
  destruct (lookup_lt_is_Some_2 (m_childItems it) (Z.to_nat row)) as [c Hc]; [lia|]. rewrite Hc.
  assert (Hcs : ∃ l', shape (m_items m) !! c = Some (l', ExplorerModel_getItemPointer ix m)).
  { eapply (to_child _ _ Hok); [apply shape_lookup; by exists it|by eapply list_elem_of_lookup_2]. }
  destruct Hcs as [l' Hcs]. destruct (shape_item m Hok _ _ _ Hcs) as (itc & Hitc & _ & Epar & _).
  rewrite (parent_spec m Hok ix it row c Hix Hit Hc Hrow Hfit). cbn [internalPointer].
  rewrite (item_row m Hok c itc it (Z.to_nat row) Hitc), Z2Nat.id by (done || by rewrite Epar).
  assert (Hm : model_index m (mkIndex (Z.of_nat (Z.to_nat row)) 0 c)).
  { apply (mi_item m _ c l'). eexists. split; [done|]. exists (m_childItems it), (mp_parentItem it). split; [|done]. apply shape_lookup. by exists it. }
  rewrite Z2Nat.id in Hm by done. split; [|done]. rewrite <- (Z2Nat.id row Hrow). apply valid_row.
Qed.

Lemma child_count_ok (items : Items) p it : items !! p = Some it → ExplorerItem_getChildCount items p = Ret (Z.of_nat (length (m_childItems it))).
Proof. intros Hp. unfold ExplorerItem_getChildCount. by rewrite (the_item_ok _ _ _ Hp). Qed.
Lemma int_row n : (Z.of_nat n < INT32_MAX) → i32 (Z.of_nat n) = Z.of_nat n ∧ int_op (Z.of_nat n + 1 - 1) = Ret (Z.of_nat n) ∧ i32 (Z.of_nat (n + 1)) = Z.of_nat n + 1.
Proof.
  unfold INT32_MAX. intros Hn. unfold swrapN. change (32 - 1) with 31. rewrite !Z.mod_small by lia. split; [lia|]. split; [|lia].
  rewrite int_op_ok by (unfold INT32_MIN, INT32_MAX; lia). f_equal. lia.
Qed.
(** A row after the last one. *)
Lemma insert_last m r p it :
  m_items m !! p = Some it → p ≠ NULL → Z.of_nat (length (m_childItems it)) < INT32_MAX →
  let n := Z.of_nat (length (m_childItems it)) in let c := new_address (m_items m) in let ix := mkIndex (Z.of_nat r) 0 p in
  ExplorerModel_insertRows n 1 ix m =
    Ret (true, emit (SigRowsInserted ix n n) (set_items m (<[p := set_children it (m_childItems it ++ [c])]> (<[c := new_item ItemType.Generic p]> (m_items m))))).
Proof.
  intros Hp Hpn Hlen n c ix. unfold ExplorerModel_insertRows, make_item, ix. rewrite (pointer_of _ _ m Hpn). fold c.
  destruct (int_row _ Hlen) as (_ & E & _). fold n in E. rewrite E. step. destruct (new_address_law (m_items m)) as [Hc _]. fold c in Hc.
  assert (p ≠ c) by congruence. erewrite append_ok; [|by simplify_map_eq|done]. done.
Qed.
(** The index of the last row. *)
Lemma index_last m r p it l c :
  m_items m !! p = Some it → p ≠ NULL → c ≠ NULL → m_childItems it = l ++ [c] →
  ExplorerModel_index (Z.of_nat (length l)) 0 (mkIndex (Z.of_nat r) 0 p) m = Ret (mkIndex (Z.of_nat (length l)) 0 c).
Proof.
  intros Hp Hpn Hcn Hl. unfold ExplorerModel_index. rewrite valid_row, (pointer_of _ _ _ Hpn), (proj2 (Z.eqb_neq _ _) Hpn). cbn [ix_column negb andb Z.eqb].
  rewrite (child_at m p it) by (done || lia). rewrite Nat2Z.id, Hl, list_lookup_middle by done. step. simpl. by rewrite (proj2 (Z.eqb_neq _ _) Hcn).
Qed.

(** Adding a filter to an item appends one item of that type, with the name the editor starts from, and changes nothing else. *)
Theorem explorer_add_filter m r p it :
  ex_reach m → model_index m (mkIndex r 0 p) → m_items m !! p = Some it → Z.of_nat (length (m_childItems it)) < INT32_MAX →
  let n := Z.of_nat (length (m_childItems it)) in let c := new_address (m_items m) in
  ∃ m', ExplorerWidget_AddFilter (mkIndex r 0 p) m = Ret (mkIndex n 0 c, m') ∧ m_items m !! c = None ∧
    m_items m' = <[c := mkItem ItemType.Filter [] p (QText "NewFilter")]> (<[p := set_children it (m_childItems it ++ [c])]> (m_items m)) ∧
    signals m' = signals m ++ [SigRowsInserted (mkIndex r 0 p) n n; SigDataChanged (mkIndex n 0 c)].
Proof.
  intros Hok%explorer_reach_ok Hix Hp Hlen n c. subst n. destruct (new_address_law (m_items m)) as [Hc Hcn]. fold c in Hc, Hcn.
  assert (Hpc : p ≠ c) by congruence. pose proof (item_nonnull m Hok _ _ Hp) as Hpn.
  assert (Hr : ∃ r', r = Z.of_nat r') by (inversion Hix; by eexists). destruct Hr as [r' ->].
  destruct (int_row _ Hlen) as (E1 & E2 & E3).
  unfold ExplorerWidget_AddFilter. rewrite valid_row. cbn [internalPointer negb orb]. rewrite (proj2 (Z.eqb_neq _ _) Hpn). cbv zeta.
  rewrite (child_count_ok _ _ _ Hp). step. rewrite E1.
  pose proof (insert_last m r' p it Hp Hpn Hlen) as Ei. cbv zeta in Ei. fold c in Ei. rewrite Ei. step.
  set (items := <[p := _]> _). cbn [set_items emit m_items m_rootItem signals].
  assert (Hpi : items !! p = Some (set_children it (m_childItems it ++ [c]))) by (unfold items; by simplify_map_eq).
  assert (Hci : items !! c = Some (new_item ItemType.Generic p)) by (unfold items; by simplify_map_eq).
  rewrite (child_count_ok _ _ _ Hpi). step. cbn [set_children m_childItems]. rewrite length_app. cbn [length]. rewrite E3, E2. step.
  erewrite index_last; [|exact Hpi|done|exact Hcn|done]. step. rewrite valid_row. cbn [negb internalPointer].
  unfold ExplorerItem_setItemType. rewrite (the_item_ok _ _ _ Hci). step. rewrite bool_decide_true by done. step.
  unfold ExplorerModel_setData. rewrite (pointer_of _ _ _ Hcn). cbn [orb DisplayRole EditRole Z.eqb set_items m_items].
  erewrite set_text_ok; [|by apply lookup_insert_eq|done]. step. eexists. split; [done|]. split; [done|].
  cbn [emit set_items m_items signals new_item m_childItems mp_parentItem m_itemType]. split; [|by rewrite <- app_assoc].
  unfold items. apply map_eq. intros q. destruct (decide (q = c)) as [->|]; [by simplify_map_eq|]. destruct (decide (q = p)) as [->|]; by simplify_map_eq.
Qed.
(** Asked for any number of rows, the model announces them all and inserts one. *)
Lemma explorer_inserts_one w n r p m b m' :
  ex_reach m → model_index m (mkIndex r 0 p) → p ≠ NULL → ExplorerModel_insertRows w n (mkIndex r 0 p) m = Ret (b, m') →
  b = true ∧ signals m' = signals m ++ [SigRowsInserted (mkIndex r 0 p) w (w + n - 1)] ∧
  ∃ l l' par, shape (m_items m) !! p = Some (l, par) ∧ shape (m_items m') !! p = Some (l', par) ∧ length l' = S (length l).
Proof.
  intros Hok%explorer_reach_ok Hix Hpn E. destruct (insert_rows_inv _ _ _ _ _ _ E) as (it & _ & -> & _ & Es). split; [done|]. split; [done|].
  destruct (insert_rows_shape _ _ _ _ _ _ Hok Hix E) as (l & par & Hl & Hc & Hcn & Esh & _).
  assert (Hptr : ExplorerModel_getItemPointer (mkIndex r 0 p) m = p).
  { inversion Hix; subst. by apply pointer_of. }
  rewrite Hptr in *. exists l. eexists _, par. split; [done|]. rewrite Esh. unfold add_leaf. split; [by rewrite lookup_insert_eq|].
  rewrite length_app. cbn [length]. rewrite length_take, length_drop. lia.
Qed.
(** A top-level item is not accepted by the filter, whatever the filter is. *)
Lemma explorer_filter_top contains row m : ExplorerFilterModel_filterAcceptsRow contains row no_index m = Ret false.
Proof. reflexivity. Qed.
End reach.

(** ** The sample project *)
Definition top_address (items : Items) : Z := foldr Z.max 0 (map_to_list items).*1.
#[export] Instance counting_memory : ItemMemory := { new_address items := top_address items + 1 }.
#[export] Instance counting_memory_laws : ItemMemoryLaws.
Proof.
  split. intros items. assert (Hmax : ∀ l p, p ∈ l → p ≤ foldr Z.max 0 l).
  { intros l p. induction 1; cbn [foldr]; lia. }
  assert (Hpos : ∀ l, 0 ≤ foldr Z.max 0 l) by (intros l; induction l; cbn [foldr]; lia). split.
  - destruct (items !! new_address items) as [it|] eqn:E; [|done]. exfalso. apply elem_of_map_to_list in E.
    pose proof (Hmax (map_to_list items).*1 (new_address items)) as K. cbn [new_address counting_memory] in *. unfold top_address in *.
    assert (top_address items + 1 ∈ (map_to_list items).*1) by (apply list_elem_of_fmap; eexists; split; [|exact E]; done). unfold top_address in *. specialize (K ltac:(done)). lia.
  - cbn. unfold top_address, NULL. specialize (Hpos (map_to_list items).*1). lia.
Qed.
Definition sample : ExplorerModel := match ExplorerModel_ctor with Ret m => m | _ => mkModel NULL ∅ [] end.
Lemma sample_reach : ex_reach sample.
Proof. apply er_ctor. vm_compute. reflexivity. Qed.
(** The index of "Ace of Spaces", the only item at the top; its third child is "docs". *)
Definition sample_top : QModelIndex := mkIndex 0 0 2.
Lemma sample_top_index : model_index sample sample_top.
Proof.
  apply (mi_item sample 0 2 [3; 6; 7]). exists 1. split; [by vm_compute|]. exists [2], NULL. by vm_compute.
Qed.
Lemma sample_fits : rows_fit sample.
Proof.
  intros p it Hp. assert (Hall : map_Forall (λ _ it, Z.of_nat (length (m_childItems it)) ≤ INT32_MAX) (m_items sample)).
  { apply (bool_decide_unpack _). by vm_compute. }
  by apply (Hall p it).
Qed.
Lemma explorer_index_parent_witness : ∃ child, ExplorerModel_index 2 0 sample_top sample = Ret child ∧
  ExplorerModel_parent child sample = Ret sample_top ∧ ExplorerModel_data child DisplayRole sample = Ret (QText "docs").
Proof.
  destruct (explorer_index_parent sample sample_top 2 sample_reach sample_top_index sample_fits) as (n & child & Hn & Hc & Hrow); [discriminate|].
  assert (n = 3) as -> by (vm_compute in Hn; injection Hn as <-; reflexivity). rewrite decide_True in Hrow by reflexivity.
  exists child. split; [exact Hc|]. split; [apply Hrow|]. vm_compute in Hc. injection Hc as <-. vm_compute. reflexivity.
Defined.
Lemma explorer_add_filter_witness : ∃ m', ExplorerWidget_AddFilter sample_top sample = Ret (mkIndex 3 0 8, m') ∧
  ExplorerModel_data (mkIndex 3 0 8) EditRole m' = Ret (QText "NewFilter").
Proof.
  destruct (explorer_add_filter sample 0 2 (mkItem ItemType.Filter [3; 6; 7] 1 (QText "Ace of Spaces")) sample_reach sample_top_index) as (m' & E & _ & Em & _).
  - vm_compute. reflexivity.
  - reflexivity.
  - exists m'. split; [exact E|]. unfold ExplorerModel_data, ExplorerModel_getItemPointer. cbn. rewrite Em. vm_compute. reflexivity.
Defined.
(** Columns are not checked: the second column of the first row has an index, although there is one column. *)
Example explorer_second_column : ExplorerModel_columnCount no_index = 1 ∧ ExplorerModel_index 0 1 no_index sample = Ret (mkIndex 0 1 2).
Proof. by vm_compute. Qed.
(** Two rows asked for and announced, one inserted. *)
Example explorer_two_rows : match ExplorerModel_insertRows 0 2 sample_top sample with
  | Ret (b, m) => Some (b, signals m, ExplorerModel_rowCount sample_top m) | _ => None end = Some (true, [SigRowsInserted sample_top 0 1], Ret 4).
Proof. by vm_compute. Qed.
