(* ===== verification/EdProject.v ===== *)
(** * [src/NorikoEd/session.cpp] and [project.cpp]: the editor's items and projects

    [Item]: a node with an ordered list of children.  [ProjectManager]: creating a project
    writes its file, opening reads it back.  Whether the text went into the file is never
    asked.  The XML reader and writer, the text functions and the files of the
    user-interface library are parameters; what a written document reads as is a law of
    theirs, what the disk takes of it is not.  Message boxes and log messages are left out. *)
From S2P Require Import Prelude Util.

(** * Items *)
Module Items.
Inductive Type_ := Generic | Session | Filter | Project | Document.
#[global] Instance Type_eq_dec : EqDecision Type_.
Proof. solve_decision. Defined.
Record Item := mkItem { m_itemType : Type_; m_childItems : list Z; mp_parentItem : Z; m_sessionName : list Z }.
Notation Store := (gmap Z Item).
Definition set_children (it : Item) (l : list Z) : Item := mkItem (m_itemType it) l (mp_parentItem it) (m_sessionName it).
Definition the_item (s : Store) (p : Z) : outcome Item := get_or Undef (s !! p).

Definition Item_ctor (itemType : Type_) (parPtr : Z) : Item := mkItem itemType [] parPtr [].
(** The name is not stored. *)
Definition SessionItem_ctor (sessionName : list Z) (parPtr : Z) : Item := Item_ctor Session parPtr.
Definition SessionItem_getSessionName (this : Z) (s : Store) : outcome (list Z) := it ← the_item s this; Ret (m_sessionName it).
Definition SessionItem_setSessionName (newName : list Z) (this : Z) (s : Store) : outcome Store :=
  it ← the_item s this; Ret (<[this := mkItem (m_itemType it) (m_childItems it) (mp_parentItem it) newName]> s).
Definition Item_getItemType (this : Z) (s : Store) : outcome Type_ := it ← the_item s this; Ret (m_itemType it).
Definition Item_getChildAt (index this : Z) (s : Store) : outcome Z :=
  it ← the_item s this;
  Ret (if index >=? Z.of_nat (length (m_childItems it)) then NULL else default NULL (m_childItems it !! Z.to_nat index)).
Definition Item_getParentItem (this : Z) (s : Store) : outcome Z := it ← the_item s this; Ret (mp_parentItem it).

(** [std::find_if]: the end when there is none. *)
Definition find_item (p : Z) (l : list Z) : nat := match list_find (λ c, p = c) l with Some (i, _) => i | None => length l end.
(** [full]: the vector has no room and cannot grow. *)
Definition Item_addChildItem (full : bool) (beforePtr itemPtr this : Z) (s : Store) : outcome (bool * Store) :=
  it ← the_item s this;
  let i := find_item beforePtr (m_childItems it) in
  if full then Ret (false, s)
  else Ret (true, <[this := set_children it (take i (m_childItems it) ++ itemPtr :: drop i (m_childItems it))]> s).
Definition Item_removeChildItem (itemPtr this : Z) (s : Store) : outcome (bool * Store) :=
  it ← the_item s this;
  let i := find_item itemPtr (m_childItems it) in
  if (i <? length (m_childItems it))%nat
  then Ret (true, <[this := set_children it (take i (m_childItems it) ++ drop (S i) (m_childItems it))]> s)
  else Ret (false, s).
Definition SessionItem_addChildItem (full : bool) (beforePtr itemPtr this : Z) (s : Store) : outcome (bool * Store) :=
  ty ← Item_getItemType itemPtr s;
  if bool_decide (ty = Session) then Ret (false, s) else Item_addChildItem full beforePtr itemPtr this s.
(** The destructor deletes the children; deleting one twice is undefined. *)
Fixpoint Item_dtor (fuel : nat) (this : Z) (s : Store) : outcome Store :=
  match fuel with
  | O => OutOfFuel
  | S fuel =>
      it ← the_item s this;
      s ← foldl (λ o c, s ← o; Item_dtor fuel c s) (Ret s) (m_childItems it);
      Ret (delete this s)
  end.

Lemma item_found (s : Store) p it : s !! p = Some it → the_item s p = Ret it.
Proof. intros Hp. unfold the_item. by rewrite Hp. Qed.
Lemma find_absent p l : p ∉ l → find_item p l = length l.
Proof.
  intros Hp. unfold find_item. destruct (list_find _ l) as [[i x]|] eqn:E; [|done]. apply list_find_Some in E as (Hi & -> & _).
  exfalso. apply Hp. by eapply list_elem_of_lookup_2.
Qed.
Lemma find_first p l1 l2 : p ∉ l1 → find_item p (l1 ++ p :: l2) = length l1.
Proof.
  intros Hp. unfold find_item. rewrite (proj2 (list_find_Some (λ c, p = c) _ (length l1) p)); [done|].
  split; [by apply list_lookup_middle|]. split; [done|]. intros j y Hj Hlt ->. rewrite lookup_app_l in Hj by done. apply Hp. by eapply list_elem_of_lookup_2.
Qed.

(** A child is put in front of the first occurrence of the one named, or at the end when it is not a
    child, and the others keep their order; removing it restores the children.  Neither changes the
    parent the child knows. *)
Theorem item_add_remove s this it before item l1 l2 :
  s !! this = Some it → m_childItems it = l1 ++ l2 → before ∉ l1 → (l2 = [] ∨ ∃ l2', l2 = before :: l2') → item ∉ l1 →
  ∃ s', Item_addChildItem false before item this s = Ret (true, s') ∧ Item_removeChildItem item this s' = Ret (true, s) ∧
    (m_childItems <$> s' !! this) = Some (l1 ++ item :: l2) ∧ ∀ p, mp_parentItem <$> s' !! p = mp_parentItem <$> s !! p.
Proof.
  intros Hit Hl Hb Hl2 Hi. unfold Item_addChildItem. rewrite (item_found _ _ _ Hit). step. rewrite Hl.
  assert (Hf : find_item before (l1 ++ l2) = length l1).
  { destruct Hl2 as [->|[l2' ->]]; [rewrite app_nil_r; by apply find_absent|by apply find_first]. }
  rewrite Hf, take_app_length, drop_app_length. eexists. split; [done|]. split; [|split].
  - unfold Item_removeChildItem. erewrite item_found; [|by simplify_map_eq]. step. cbn [set_children m_childItems]. rewrite (find_first item l1 l2 Hi).
    rewrite (proj2 (Nat.ltb_lt _ _)) by (rewrite length_app; cbn; lia). rewrite take_app_length.
    assert (Ed : drop (S (length l1)) (l1 ++ item :: l2) = l2) by by rewrite cons_middle, app_assoc, drop_app_length' by (rewrite length_app; cbn; lia).
    rewrite Ed. do 2 f_equal. apply map_eq. intros q. destruct (decide (q = this)) as [->|]; simplify_map_eq; [|done]. f_equal. destruct it; cbn in *. by rewrite Hl.
  - by simplify_map_eq.
  - intros p. destruct (decide (p = this)) as [->|]; by simplify_map_eq.
Qed.
(** A session is not put into a session. *)
Lemma session_not_nested full before item this s it :
  s !! item = Some it → m_itemType it = Session → SessionItem_addChildItem full before item this s = Ret (false, s).
Proof. intros Hit Ht. unfold SessionItem_addChildItem, Item_getItemType. rewrite (item_found _ _ _ Hit). step. by rewrite bool_decide_true. Qed.
(** A session has no name until one is set. *)
Lemma session_name_lost name par this s : SessionItem_getSessionName this (<[this := SessionItem_ctor name par]> s) = Ret [].
Proof. unfold SessionItem_getSessionName. by erewrite item_found by apply lookup_insert_eq. Qed.
(** A child that was added twice is deleted twice. *)
Example item_added_twice :
  let s := {[ 1 := Item_ctor Generic NULL; 2 := Item_ctor Filter 1 ]} : Store in
  match (('(_, s) ← Item_addChildItem false NULL 2 1 s; '(_, s) ← Item_addChildItem false NULL 2 1 s; Item_dtor 5 1 s) : outcome Store) with
  | Undef => true | _ => false end = true.
Proof. vm_compute. reflexivity. Qed.
Lemma item_add_remove_witness :
  let s := {[ 1 := mkItem Generic [2; 3] NULL []; 2 := Item_ctor Filter 1; 3 := Item_ctor Filter 1; 4 := Item_ctor Filter 1 ]} : Store in
  ∃ s', Item_addChildItem false 3 4 1 s = Ret (true, s') ∧ Item_removeChildItem 4 1 s' = Ret (true, s) ∧ (m_childItems <$> s' !! 1) = Some [2; 4; 3].
Proof.
  intros s. destruct (item_add_remove s 1 (mkItem Generic [2; 3] NULL []) 3 4 [2] [3]) as (s' & E1 & E2 & E3 & _).
  - vm_compute. reflexivity.
  - reflexivity.
  - apply (bool_decide_unpack _). vm_compute. exact I.
  - right. by exists [].
  - apply (bool_decide_unpack _). vm_compute. exact I.
  - exists s'. split; [exact E1|]. split; [exact E2|exact E3].
Defined.
End Items.

(** * Projects *)
Notation QString := (list Z).
(** The characters of a literal. *)
Definition lit (s : string) : QString := (λ c, Z.of_nat (Ascii.nat_of_ascii c)) <$> String.list_ascii_of_string s.

(** ** The user-interface library *)
(** Texts and paths. *)
Class QtText := {
  trimmed : QString → QString;
  replace_blanks : QString → QString;          (* [replace(" ", "_")] *)
  absolutePath : QString → QString;
  toNativeSeparators : QString → QString;
  toUtf8 : QString → list Z                    (* [toStdString().c_str()] *)
}.
Class QtTextLaws `{QtText} : Prop := { utf8_ascii s : Forall (λ c, 0 ≤ c < 128) s → toUtf8 s = s }.
(** The calls that write a document, and what is read back. *)
Inductive XmlCall := WStartDocument | WStartElement (name : string) | WTextElement (name : string) (text : QString) | WEndElement | WEndDocument.
Inductive XmlToken := XNoToken | XStartDocument | XStartElement (name : string) | XCharacters (text : QString) | XEndElement (name : string) | XEndDocument | XInvalid.
#[export] Instance XmlToken_eq_dec : EqDecision XmlToken.
Proof. solve_decision. Defined.
Class QtXml (X : Type) := {
  render : list XmlCall → list Z;              (* [QXmlStreamWriter], with formatting *)
  xml_text : QString → Prop;                   (* texts that XML can hold *)
  reader : list Z → X;
  xr_name : X → string;
  isEndDocument : X → bool;
  readElementText : X → QString * X;
  readNext : X → X;
  (* the current token and those to come *)
  tokens : X → list XmlToken
}.
Definition token_name (t : option XmlToken) : string := match t with Some (XStartElement n) | Some (XEndElement n) => n | _ => "" end.
(** The tokens of a document whose parts are as given, with white space between the parts. *)
Inductive part := PToken (t : XmlToken) | PElement (name : string) (text : QString).
Definition element_tokens (name : string) (text : QString) : list XmlToken :=
  XStartElement name :: (if decide (text = []) then [] else [XCharacters text]) ++ [XEndElement name].
Inductive spaced : list part → list XmlToken → Prop :=
  | sp_nil : spaced [] []
  | sp_token t ps ts : spaced ps ts → spaced (PToken t :: ps) (t :: ts)
  | sp_element n x ps ts : spaced ps ts → spaced (PElement n x :: ps) (element_tokens n x ++ ts)
  | sp_space x ps ts : spaced ps ts → spaced ps (XCharacters x :: ts).
Class QtXmlLaws (X : Type) `{QtXml X} : Prop := {
  name_law x : xr_name x = token_name (head (tokens x));
  end_law x : isEndDocument x = bool_decide (head (tokens x) = Some XEndDocument);
  next_law x t t' ts : tokens x = t :: t' :: ts → tokens (readNext x) = t' :: ts;
  text_law x n text ts : tokens x = element_tokens n text ++ ts →
    (readElementText x).1 = text ∧ tokens (readElementText x).2 = XEndElement n :: ts;
  (* what is read was to come; reading the text of something else may raise an error *)
  next_sub_law x t : t ∈ tokens (readNext x) → t ∈ tokens x;
  text_sub_law x t : t ∈ tokens (readElementText x).2 → t ∈ tokens x ∨ t = XInvalid;
  ascii_law s : Forall (λ c, 32 ≤ c < 127) s → xml_text s;
  (* one root element with text elements in it *)
  written_law root es : Forall (λ e, xml_text e.2) es →
    spaced (PToken XNoToken :: PToken XStartDocument :: PToken (XStartElement root) :: ((λ e, PElement e.1 e.2) <$> es) ++ [PToken (XEndElement root); PToken XEndDocument])
      (tokens (reader (render (WStartDocument :: WStartElement root :: ((λ e, WTextElement e.1 e.2) <$> es) ++ [WEndElement; WEndDocument]))))
}.
(** Directories and files. *)
Class QtFiles (F : Type) := {
  mkpath : QString → F → bool * F;
  open_write : QString → F → bool * F;         (* the file is created or emptied *)
  put_bytes : QString → list Z → F → F;        (* writing to the open file and closing it; whether that worked is not asked *)
  read_file : QString → F → option (list Z)    (* nothing when it cannot be opened *)
}.
(** An empty file that is written to holds the first of the bytes: all of them, unless there is an error. *)
Class QtFilesLaws (F : Type) `{QtFiles F} : Prop := {
  opened_empty path f f' : open_write path f = (true, f') → read_file path f' = Some [];
  put_first path b f : read_file path f = Some [] → ∃ n, read_file path (put_bytes path b f) = Some (take n b)
}.

(** ** Projects and their manager *)
Record Project := mkProject {
  m_uuidRep : NkUuid; m_workingTitle : QString; m_authoringOrg : QString; m_productDescription : QString; m_qualifiedPath : QString
}.
Section project.
Context {X F : Type} `{QtText} `{QtXml X} `{QtFiles F}.
(** The projects, what [projectLoaded] told, the files, the random numbers. *)
Record ProjectManager := mkManager { m_projVec : list Project; projectLoaded : list (QString * QString); pm_files : F; pm_rng : RngContext }.
Definition with_files (m : ProjectManager) (f : F) : ProjectManager := mkManager (m_projVec m) (projectLoaded m) f (pm_rng m).

(** [UniversallyNamedItem]: a malformed identifier throws. *)
Definition uuidToString (p : Project) : QString := NkUuidToString (m_uuidRep p).
Definition Project_ctor_named (uuidStr wkTitle author brDesc dirRoot : QString) : outcome (NkErrorCode + Project) :=
  '(cvtRes, u) ← NkUuidFromString (toUtf8 uuidStr);
  Ret (if negb (isOk cvtRes) then inl cvtRes else inr (mkProject u wkTitle author brDesc dirRoot)).
Definition Project_writeRootXmlDocument (p : Project) : list Z :=
  render [WStartDocument; WStartElement "nkproject"; WTextElement "uuid" (uuidToString p); WTextElement "working_title" (m_workingTitle p);
          WTextElement "project_author" (m_authoringOrg p); WTextElement "product_description" (m_productDescription p);
          WTextElement "rootpath" (m_qualifiedPath p); WEndElement; WEndDocument].
Definition ConvertWorkingTitle (wkTitle : QString) : QString := replace_blanks (trimmed wkTitle).
Definition CreateProjectPath (wkTitle parDir : QString) : QString := parDir ++ lit "/" ++ ConvertWorkingTitle wkTitle.
Definition project_file (p : Project) : QString := m_qualifiedPath p ++ lit "/" ++ ConvertWorkingTitle (m_workingTitle p) ++ lit ".nkproj".
(** The result tells whether the file could be opened: the errors of writing are not looked at. *)
Definition int_WriteProjectFile (p : Project) (f : F) : bool * F :=
  let '(ok, f) := open_write (project_file p) f in
  if negb ok then (false, f) else (true, put_bytes (project_file p) (Project_writeRootXmlDocument p) f).
Definition createProject (wkTitle author prodDesc dirRoot : QString) (m : ProjectManager) : bool * ProjectManager :=
  let qualDirRoot := CreateProjectPath wkTitle dirRoot in
  let '(ok, f) := mkpath (absolutePath qualDirRoot) (pm_files m) in
  let m := with_files m f in
  if negb ok then (false, m)
  else
    let '(u, rng) := NkUuidGenerate (pm_rng m) in
    let proj := mkProject u wkTitle author prodDesc (toNativeSeparators (absolutePath qualDirRoot)) in
    let '(ok, f) := int_WriteProjectFile proj (pm_files m) in
    let m := mkManager (m_projVec m) (projectLoaded m) f rng in
    if negb ok then (false, m)
    else (true, mkManager (m_projVec m ++ [proj]) (projectLoaded m ++ [(wkTitle, dirRoot)]) f rng).

Record Fields := mkFields { fd_uuid : QString; fd_title : QString; fd_author : QString; fd_desc : QString; fd_root : QString }.
(** One pass of the loop: the comparisons are made one after the other, with the name the pass began with. *)
Definition read_field (fd : Fields) (x : X) : Fields * X :=
  let currName := xr_name x in
  let '(fd, x) := if String.eqb currName "uuid" then let '(t, x) := readElementText x in (mkFields t (fd_title fd) (fd_author fd) (fd_desc fd) (fd_root fd), x) else (fd, x) in
  let '(fd, x) := if String.eqb currName "working_title" then let '(t, x) := readElementText x in (mkFields (fd_uuid fd) t (fd_author fd) (fd_desc fd) (fd_root fd), x) else (fd, x) in
  let '(fd, x) := if String.eqb currName "project_author" then let '(t, x) := readElementText x in (mkFields (fd_uuid fd) (fd_title fd) t (fd_desc fd) (fd_root fd), x) else (fd, x) in
  let '(fd, x) := if String.eqb currName "product_description" then let '(t, x) := readElementText x in (mkFields (fd_uuid fd) (fd_title fd) (fd_author fd) t (fd_root fd), x) else (fd, x) in
  if String.eqb currName "rootpath" then let '(t, x) := readElementText x in (mkFields (fd_uuid fd) (fd_title fd) (fd_author fd) (fd_desc fd) t, x) else (fd, x).
Fixpoint read_fields (fuel : nat) (fd : Fields) (x : X) : outcome Fields :=
  match fuel with
  | O => OutOfFuel
  | S fuel =>
      if isEndDocument x then Ret fd
      else let '(fd, x) := read_field fd x in read_fields fuel fd (readNext x)
  end.
Definition openProject (fuel : nat) (projFilePath : QString) (m : ProjectManager) : outcome (bool * ProjectManager) :=
  match read_file projFilePath (pm_files m) with
  | None => Ret (false, m)
  | Some b =>
      fd ← read_fields fuel (mkFields [] [] [] [] []) (reader b);
      if bool_decide (fd_title fd = []) || bool_decide (fd_root fd = []) then Ret (false, m)
      else
        newProj ← Project_ctor_named (fd_uuid fd) (fd_title fd) (fd_author fd) (fd_desc fd) (fd_root fd);
        match newProj with
        | inl _ => Ret (false, m)
        | inr p => Ret (true, mkManager (m_projVec m ++ [p]) (projectLoaded m ++ [(fd_title fd, fd_root fd)]) (pm_files m) (pm_rng m))
        end
  end.
End project.
Arguments ProjectManager : clear implicits.

(** ** Reading what was written *)
Section proofs.
Context {X F : Type} `{QtTextLaws} `{QtXmlLaws X} `{QtFilesLaws F}.
Implicit Types (x : X) (fd : Fields) (m : ProjectManager F).
Definition field_names : list string := ["uuid"; "working_title"; "project_author"; "product_description"; "rootpath"]%string.
Definition set_field (n : string) (t : QString) (fd : Fields) : Fields :=
  if String.eqb n "uuid" then mkFields t (fd_title fd) (fd_author fd) (fd_desc fd) (fd_root fd)
  else if String.eqb n "working_title" then mkFields (fd_uuid fd) t (fd_author fd) (fd_desc fd) (fd_root fd)
  else if String.eqb n "project_author" then mkFields (fd_uuid fd) (fd_title fd) t (fd_desc fd) (fd_root fd)
  else if String.eqb n "product_description" then mkFields (fd_uuid fd) (fd_title fd) (fd_author fd) t (fd_root fd)
  else mkFields (fd_uuid fd) (fd_title fd) (fd_author fd) (fd_desc fd) t.
Lemma read_field_other fd x : xr_name x ∉ field_names → read_field fd x = (fd, x).
Proof.
  intros Hn. unfold field_names in Hn. rewrite !not_elem_of_cons in Hn. destruct Hn as (H1' & H2' & H3' & H4' & H5' & _). unfold read_field.
  by rewrite (proj2 (String.eqb_neq _ _) H1'), (proj2 (String.eqb_neq _ _) H2'), (proj2 (String.eqb_neq _ _) H3'), (proj2 (String.eqb_neq _ _) H4'), (proj2 (String.eqb_neq _ _) H5').
Qed.
Lemma read_field_name fd x : xr_name x ∈ field_names → read_field fd x = (set_field (xr_name x) (readElementText x).1 fd, (readElementText x).2).
Proof.
  intros Hn. unfold read_field. repeat (apply elem_of_cons in Hn as [E|Hn]; [rewrite E; cbn; by destruct (readElementText x)|]). by apply not_elem_of_nil in Hn.
Qed.
(** A document of fields: nothing but elements with their names, and tokens without them. *)
Inductive field_parts : list part → list (string * QString) → Prop :=
  | fp_end : field_parts [PToken XEndDocument] []
  | fp_token t ps es : t ≠ XEndDocument → token_name (Some t) ∉ field_names → field_parts ps es → field_parts (PToken t :: ps) es
  | fp_element n s ps es : n ∈ field_names → field_parts ps es → field_parts (PElement n s :: ps) ((n, s) :: es).
Lemma spaced_nonempty ps ts es : field_parts ps es → spaced ps ts → ∃ t ts', ts = t :: ts'.
Proof. intros Hf Hs. destruct Hs; [inversion Hf| | |]; by do 2 eexists. Qed.
Lemma read_fields_spec ps ts : spaced ps ts → ∀ es fd x fuel, field_parts ps es → tokens x = ts → (length ts ≤ fuel)%nat →
  read_fields fuel fd x = Ret (foldl (λ fd e, set_field e.1 e.2 fd) fd es).
Proof.
  induction 1 as [|t ps ts Hs IH|n s ps ts Hs IH|s ps ts Hs IH]; intros es fd x fuel Hf Ht Hfuel; [inversion Hf|..].
  - destruct fuel as [|fuel]; [cbn in Hfuel; lia|]. cbn [read_fields]. rewrite end_law, Ht. cbn [head]. inversion Hf as [|? ? ? Hne Hn Hf'|]; subst; [done|].
    rewrite bool_decide_false by congruence. rewrite read_field_other by (by rewrite name_law, Ht).
    destruct (spaced_nonempty _ _ _ Hf' Hs) as (t' & ts' & ->). apply IH; [done|by eapply next_law|cbn in *; lia].
  - destruct fuel as [|fuel]; [cbn in Hfuel; lia|]. cbn [read_fields]. rewrite end_law, Ht. cbn [head element_tokens app]. rewrite bool_decide_false by done.
    inversion Hf as [| |? ? ? ? Hn Hf']; subst. assert (Hname : xr_name x = n) by (by rewrite name_law, Ht).
    rewrite read_field_name by (by rewrite Hname). destruct (text_law x n s ts Ht) as [-> Hrest]. rewrite Hname. cbn [foldl fst snd].
    destruct (spaced_nonempty _ _ _ Hf' Hs) as (t' & ts' & ->). apply IH; [done|by eapply next_law|].
    unfold element_tokens in Hfuel. cbn [length app] in Hfuel. rewrite !length_app in Hfuel. cbn [length] in *. lia.
  - destruct fuel as [|fuel]; [cbn in Hfuel; lia|]. cbn [read_fields]. rewrite end_law, Ht. cbn [head]. rewrite bool_decide_false by done.
    rewrite read_field_other by (rewrite name_law, Ht; by apply (bool_decide_unpack _)).
    destruct (spaced_nonempty _ _ _ Hf Hs) as (t' & ts' & ->). apply IH; [done|by eapply next_law|cbn in *; lia].
Qed.

(** The identifiers of new projects are well formed. *)
Lemma generated_bytes c : length (NkUuidGenerate c).1 = 16%nat ∧ Forall is_byte (NkUuidGenerate c).1.
Proof.
  unfold NkUuidGenerate. destruct (PRNGNextNoLock c) as [a c1], (PRNGNextNoLock c1) as [b c2]. cbn [fst].
  split; [by rewrite !length_insert, length_app, !length_le_bytes|].
  assert (Hhigh : ∀ z, is_byte (Z.lor (Z.shiftl 4 4) (Z.land z 0x0F)) ∧ is_byte (Z.lor (Z.shiftl 2 6) (Z.land z 0x3F))).
  { intros z. change 0x0F with (Z.ones 4). change 0x3F with (Z.ones 6). rewrite !Z.land_ones by lia.
    assert (Hall : ∀ k, 0 ≤ k < 64 → is_byte (Z.lor (Z.shiftl 2 6) k) ∧ (k < 16 → is_byte (Z.lor (Z.shiftl 4 4) k))).
    { intros k Hk. apply (zrange_all (λ k, is_byte (Z.lor (Z.shiftl 2 6) k) ∧ (k < 16 → is_byte (Z.lor (Z.shiftl 4 4) k))) 0 64); [|lia].
      unfold is_byte. apply (bool_decide_unpack _). vm_compute. exact I. }
    pose proof (Z.mod_pos_bound z (2 ^ 4) ltac:(lia)). pose proof (Z.mod_pos_bound z (2 ^ 6) ltac:(lia)). split; [|apply Hall; lia].
    apply Hall; lia. }
  assert (Hraw : Forall is_byte (le_bytes 8 a ++ le_bytes 8 b)) by (apply Forall_app; split; apply le_bytes_is_byte).
  assert (Hins : ∀ i z l, is_byte z → Forall is_byte l → Forall is_byte (<[i := z]> l)).
  { intros i z l Hz Hl. apply Forall_lookup. intros j y Hj. apply list_lookup_insert_Some in Hj as [(_ & <- & _)|[_ Hj]]; [done|].
    by apply (Forall_lookup_1 _ _ _ _ Hl Hj). }
  apply Hins; [apply Hhigh|]. apply Hins; [apply Hhigh|done].
Qed.
Lemma hex_ascii d : 0 ≤ d < 16 → 48 ≤ hex_digit d < 103.
Proof. intros Hd. unfold hex_digit. destruct (Z.ltb_spec d 10); lia. Qed.
Lemma uuid_text_ascii u : Forall is_byte u → Forall (λ c, 32 ≤ c < 127) (NkUuidToString u).
Proof.
  intros Hu. unfold NkUuidToString. generalize 0 as i. induction Hu as [|b u Hb _ IH]; intros i; cbn [uuid_print_loop]; [constructor|].
  unfold is_byte in Hb. assert (Hn : 0 ≤ Z.shiftr b 4 < 16 ∧ 0 ≤ Z.land b 0x0F < 16).
  { change 0x0F with (Z.ones 4). rewrite Z.shiftr_div_pow2, Z.land_ones by lia. change (2 ^ 4) with 16. Z.to_euclidean_division_equations; lia. }
  destruct Hn as [H1' H2']. pose proof (hex_ascii _ H1'). pose proof (hex_ascii _ H2').
  apply Forall_app. split; [case_match; [by repeat constructor|constructor]|]. repeat (constructor; [lia|]). apply IH.
Qed.
Lemma uuid_reads u : length u = 16%nat → Forall is_byte u → NkUuidFromString (toUtf8 (NkUuidToString u)) = Ret (NkErr_Ok, u).
Proof.
  intros Hl Hu. rewrite utf8_ascii by (eapply Forall_impl; [|by apply uuid_text_ascii]; cbn; lia). by apply uuid_roundtrip.
Qed.
Definition project_fields (p : Project) : list (string * QString) :=
  [("uuid", uuidToString p); ("working_title", m_workingTitle p); ("project_author", m_authoringOrg p);
   ("product_description", m_productDescription p); ("rootpath", m_qualifiedPath p)]%string.
Lemma written_fields p fuel :
  Forall (λ e, xml_text e.2) (project_fields p) → (length (tokens (reader (Project_writeRootXmlDocument p))) ≤ fuel)%nat →
  read_fields fuel (mkFields [] [] [] [] []) (reader (Project_writeRootXmlDocument p)) =
    Ret (mkFields (uuidToString p) (m_workingTitle p) (m_authoringOrg p) (m_productDescription p) (m_qualifiedPath p)).
Proof.
  intros Hs Hf. pose proof (written_law "nkproject" (project_fields p) Hs) as Hsp. cbn [project_fields fmap list_fmap fst snd app] in Hsp.
  erewrite (read_fields_spec _ _ Hsp (project_fields p)); [reflexivity| |done|done]. unfold project_fields.
  do 3 (apply fp_token; [done|by apply (bool_decide_unpack _)|]). do 5 (apply fp_element; [by apply (bool_decide_unpack _)|]).
  apply fp_token; [done|by apply (bool_decide_unpack _)|]. apply fp_end.
Qed.
Lemma create_inv t a d r m m' : createProject t a d r m = (true, m') →
  ∃ p, m_projVec m' = m_projVec m ++ [p] ∧ projectLoaded m' = projectLoaded m ++ [(t, r)] ∧ p = mkProject (m_uuidRep p) t a d (toNativeSeparators (absolutePath (CreateProjectPath t r))) ∧
    length (m_uuidRep p) = 16%nat ∧ Forall is_byte (m_uuidRep p) ∧ ∃ n, read_file (project_file p) (pm_files m') = Some (take n (Project_writeRootXmlDocument p)).
Proof.
  unfold createProject. destruct (mkpath _ _) as [[] f]; [|done]. cbn [negb with_files pm_rng pm_files m_projVec projectLoaded].
  destruct (NkUuidGenerate (pm_rng m)) as [u rng] eqn:Eu. destruct (generated_bytes (pm_rng m)) as [Hl Hb]. rewrite Eu in Hl, Hb. cbn [fst] in Hl, Hb.
  set (p := mkProject u t a d _). unfold int_WriteProjectFile. destruct (open_write _ f) as [[] f2] eqn:Ew; [|done]. cbn [negb]. intros [= <-].
  exists p. split_and!; try done. by eapply put_first, opened_empty.
Qed.

(** C39: a project that was created is the last of the manager's, made of the texts given; its file holds the first bytes of the
    document that tells them, as many as the disk took, since the errors of writing are not looked at.  When these are all, opening the
    file reads the same project back, with its identifier, and appends it, whatever white space the writer puts between the elements: if
    the title and the path of the project are not empty (the reader takes such a file for malformed), and the texts are such that XML can
    hold them. *)
Theorem project_reopened t a d r m m' :
  createProject t a d r m = (true, m') →
  let q := toNativeSeparators (absolutePath (CreateProjectPath t r)) in
  ∃ p n, m_projVec m' = m_projVec m ++ [p] ∧ p = mkProject (m_uuidRep p) t a d q ∧ projectLoaded m' = projectLoaded m ++ [(t, r)] ∧
    read_file (project_file p) (pm_files m') = Some (take n (Project_writeRootXmlDocument p)) ∧
    ((length (Project_writeRootXmlDocument p) ≤ n)%nat → t ≠ [] → q ≠ [] → Forall xml_text [t; a; d; q] →
     ∃ fuel m'', openProject fuel (project_file p) m' = Ret (true, m'') ∧ m_projVec m'' = m_projVec m' ++ [p] ∧ pm_files m'' = pm_files m' ∧
       projectLoaded m'' = projectLoaded m' ++ [(t, q)]).
Proof.
  intros (p & Ep & El & Ed & Hl & Hb & n & Hr)%create_inv. cbv zeta. set (q := toNativeSeparators _) in *. clearbody q. exists p, n.
  split; [done|]. split; [done|]. split; [done|]. split; [done|]. intros Hn Ht Hpath Hs. rewrite take_ge in Hr by done.
  assert (Et : m_workingTitle p = t) by by rewrite Ed. assert (Ea : m_authoringOrg p = a) by by rewrite Ed.
  assert (Edd : m_productDescription p = d) by by rewrite Ed. assert (Eq : m_qualifiedPath p = q) by by rewrite Ed.
  exists (length (tokens (reader (Project_writeRootXmlDocument p)))). unfold openProject. rewrite Hr, written_fields; [|clear Hr Hn Ed|done].
  - step. cbn [fd_title fd_root fd_uuid fd_author fd_desc]. rewrite Et, Eq. rewrite !bool_decide_false by done. cbn [orb].
    unfold Project_ctor_named, uuidToString. rewrite uuid_reads by done. step. ok_step. eexists. split; [done|]. cbn [m_projVec pm_files projectLoaded].
    split; [|done]. rewrite Ea, Edd. do 2 f_equal. by rewrite Ed.
  - unfold project_fields. rewrite Et, Ea, Edd, Eq. rewrite !Forall_cons_iff in *. destruct Hs as (? & ? & ? & ? & _).
    cbn [snd]. split_and!; try done. by apply ascii_law, uuid_text_ascii.
Qed.
(** A file that XML does not accept, which has no end of the document: the loop that reads it never ends. *)
Theorem open_malformed_hangs path b m fuel :
  read_file path (pm_files m) = Some b → XEndDocument ∉ tokens (reader b) → openProject fuel path m = OutOfFuel.
Proof.
  intros Hr Ht. unfold openProject. rewrite Hr. generalize (mkFields [] [] [] [] []) as fd. revert Ht. generalize (reader b) as x.
  assert (Hloop : ∀ x, XEndDocument ∉ tokens x → ∀ fd, read_fields fuel fd x = OutOfFuel).
  { induction fuel as [|fuel IH]; intros x Hx fd; [done|]. cbn [read_fields]. rewrite end_law, bool_decide_false.
    - destruct (decide (xr_name x ∈ field_names)) as [Hn|Hn]; [rewrite read_field_name by done|rewrite read_field_other by done].
      + apply IH. intros K%next_sub_law%text_sub_law. by destruct K.
      + apply IH. by intros ?%next_sub_law.
    - intros E. apply Hx. destruct (tokens x); [done|]. injection E as ->. by constructor. }
  intros x Hx fd. by rewrite Hloop.
Qed.
(** The signal tells the directory a new project was put into, not the project's own. *)
Theorem project_signal t a d r m m' :
  createProject t a d r m = (true, m') → list.last (projectLoaded m') = Some (t, r).
Proof. intros (p & _ & -> & _)%create_inv. by rewrite last_snoc. Qed.
End proofs.

(** ** A library to run the manager on *)
#[export] Instance plain_text : QtText := {
  trimmed s := s;
  replace_blanks s := (λ c, if c =? 32 then 95 else c) <$> s;
  absolutePath s := s;
  toNativeSeparators s := s;
  toUtf8 s := s
}.
#[export] Instance plain_text_laws : QtTextLaws.
Proof. by split. Qed.
Definition call_code (c : XmlCall) : nat * string * QString :=
  match c with
  | WStartDocument => (0, "", []) | WStartElement n => (1, n, []) | WTextElement n t => (2, n, t) | WEndElement => (3, "", []) | WEndDocument => (4, "", [])
  end%nat%string.
Definition code_call (c : nat * string * QString) : option XmlCall :=
  match c with
  | (0, _, _) => Some WStartDocument | (1, n, _) => Some (WStartElement n) | (2, n, t) => Some (WTextElement n t) | (3, _, _) => Some WEndElement
  | (4, _, _) => Some WEndDocument | _ => None
  end%nat.
#[export] Instance XmlCall_eq_dec : EqDecision XmlCall.
Proof. solve_decision. Defined.
#[export] Instance XmlCall_countable : Countable XmlCall.
Proof. refine (inj_countable call_code code_call _). by intros []. Defined.
(** The tokens of a document; a line break in front of every text element. *)
Fixpoint call_tokens (open : list string) (calls : list XmlCall) : list XmlToken :=
  match calls with
  | [] => []
  | WStartDocument :: calls => XStartDocument :: call_tokens open calls
  | WStartElement n :: calls => XStartElement n :: call_tokens (n :: open) calls
  | WTextElement n t :: calls => XCharacters [10] :: element_tokens n t ++ call_tokens open calls
  | WEndElement :: calls => match open with n :: open => XEndElement n :: call_tokens open calls | [] => [XInvalid] end
  | WEndDocument :: calls => XEndDocument :: call_tokens open calls
  end.
#[export] Instance token_xml : QtXml (list XmlToken) := {
  render calls := [Zpos (encode calls)];
  xml_text _ := True;
  reader b := match b with [Zpos n] => match decode n with Some calls => XNoToken :: call_tokens [] calls | None => [XNoToken; XInvalid] end | _ => [XNoToken; XInvalid] end;
  xr_name x := token_name (head x);
  isEndDocument x := bool_decide (head x = Some XEndDocument);
  readElementText x :=
    match x with
    | XStartElement _ :: XCharacters t :: XEndElement n :: ts => (t, XEndElement n :: ts)
    | XStartElement _ :: XEndElement n :: ts => ([], XEndElement n :: ts)
    | _ => ([], x)
    end;
  readNext x := match x with _ :: t :: ts => t :: ts | _ => x end;
  tokens x := x
}.
#[export] Instance token_xml_laws : QtXmlLaws (list XmlToken).
Proof.
  split; cbn [tokens token_xml xr_name isEndDocument readElementText readNext xml_text reader render]; try done.
  - by intros x t t' ts ->.
  - intros x n text ts ->. unfold element_tokens. by destruct (decide (text = [])) as [->|].
  - intros [|t [|t' ts]] t0; try done. intros Ht. by right.
  - intros x t Ht. left. repeat (case_match; cbn [snd] in Ht; try done; subst).
    + apply elem_of_cons. right. apply elem_of_cons. by right.
    + apply elem_of_cons. by right.
  - intros root es _. rewrite decode_encode. apply sp_token. cbn [call_tokens app]. do 2 apply sp_token. induction es as [|[n t] es IH]; cbn [fmap list_fmap app call_tokens].
    + do 2 apply sp_token. constructor.
    + apply sp_space. cbn [fst snd]. by apply sp_element.
Qed.
(** Files by their paths, on a disk that takes so many bytes more. *)
Record Files := mkFiles { fs_map : gmap QString (list Z); fs_free : nat }.
#[export] Instance map_files : QtFiles Files := {
  mkpath _ f := (true, f);
  open_write path f := (true, mkFiles (<[path := []]> (fs_map f)) (fs_free f));
  put_bytes path b f := mkFiles (<[path := take (fs_free f) b]> (fs_map f)) (fs_free f - length b);
  read_file path f := fs_map f !! path
}.
#[export] Instance map_files_laws : QtFilesLaws Files.
Proof.
  split; cbn.
  - intros path f f' [= <-]. apply lookup_insert_eq.
  - intros path b f _. exists (fs_free f). apply lookup_insert_eq.
Qed.
Definition empty_manager (free : nat) : ProjectManager Files := mkManager [] [] (mkFiles {[ lit "bad" := [0] ]} free) (mkRng 1 2 3 4).
Definition created (free : nat) : bool * ProjectManager Files :=
  createProject (X := list XmlToken) (lit "Ace of Spaces") (lit "TophUwO") [] (lit "C:") (empty_manager free).
Definition ace_file : QString := lit "C:/Ace_of_Spaces/Ace_of_Spaces.nkproj".
Lemma project_reopened_witness : ∃ p fuel m'', m_projVec (created 10).2 = [p] ∧
  openProject (X := list XmlToken) fuel ace_file (created 10).2 = Ret (true, m'') ∧ m_projVec m'' = [p; p].
Proof.
  destruct (project_reopened (X := list XmlToken) (lit "Ace of Spaces") (lit "TophUwO") [] (lit "C:") (empty_manager 10) (created 10).2) as (p & n & Ep & Ed & _ & Er & Hopen).
  - vm_compute. reflexivity.
  - assert (Ef : project_file p = ace_file) by (rewrite Ed; vm_compute; reflexivity).
    destruct Hopen as (fuel & m'' & Eo & Em & _).
    + change (length (Project_writeRootXmlDocument p)) with 1%nat. destruct n; [|apply le_n_S, Nat.le_0_l]. exfalso. rewrite Ef in Er. vm_compute in Er. discriminate.
    + discriminate.
    + discriminate.
    + repeat constructor.
    + exists p, fuel, m''. rewrite Ef in Eo. rewrite Em, Ep. split; [reflexivity|]. split; [exact Eo|reflexivity].
Defined.
(** On a full disk the project is created and its file stays empty: opening it then never ends. *)
Example project_on_full_disk :
  (created 0).1 = true ∧ read_file ace_file (pm_files (created 0).2) = Some [] ∧
  openProject (X := list XmlToken) 1000 ace_file (created 0).2 = OutOfFuel.
Proof. vm_compute. split_and!; reflexivity. Qed.
Lemma open_malformed_hangs_witness : openProject (X := list XmlToken) 1000 (lit "bad") (empty_manager 0) = OutOfFuel.
Proof.
  apply (open_malformed_hangs (X := list XmlToken) (lit "bad") [0] (empty_manager 0) 1000).
  - vm_compute. reflexivity.
  - apply (bool_decide_unpack _). vm_compute. exact I.
Defined.
Lemma project_signal_witness : list.last (projectLoaded (created 10).2) = Some (lit "Ace of Spaces", lit "C:") ∧ m_qualifiedPath <$> m_projVec (created 10).2 = [lit "C:/Ace_of_Spaces"].
Proof.
  split; [|vm_compute; reflexivity]. apply (project_signal (X := list XmlToken) (lit "Ace of Spaces") (lit "TophUwO") [] (lit "C:") (empty_manager 10) (created 10).2). vm_compute. reflexivity.
Defined.
