(* ===== verification/EdDialog.v ===== *)
(** * [src/NorikoEd/dialog.cpp]: the dialogs that create and open projects

    A dialog is the texts of its input fields, the values it took from them and whether
    its OK button can be pressed.  A field tells the dialog when its text changes.  What a
    file dialog answers is an argument; the widgets' looks are left out. *)
From S2P Require Import Prelude Util EdProject.

(** [QDir::exists] and [QFile::exists]. *)
Class QtExists (F : Type) := { dir_exists : QString → F → bool; file_exists : QString → F → bool }.
Class QtExistsLaws (F : Type) `{QtText} `{QtFiles F} `{QtExists F} : Prop := {
  mkpath_exists path f f' : mkpath path f = (true, f') → dir_exists path f' = true;
  open_keeps_dirs path f ok f' dir : open_write path f = (ok, f') → dir_exists dir f = true → dir_exists dir f' = true;
  put_keeps_dirs path b f dir : dir_exists dir f = true → dir_exists dir (put_bytes path b f) = true;
  absolute_exists path f : dir_exists (absolutePath path) f = dir_exists path f
}.

Section dialogs.
Context {X F : Type} `{QtText} `{QtXml X} `{QtFiles F} `{QtExists F}.
Notation Manager := (ProjectManager F).

(** ** Creating a project *)
(** The four values, the texts of the four fields, the button, and whether the dialog was accepted. *)
Record NewProjectDialog := mkNew {
  m_wkTitle : QString; m_projAuthor : QString; m_brDesc : QString; m_parPath : QString;
  leWkTitle : QString; leAuthor : QString; leRootPath : QString; pteDesc : QString;
  btnOk : bool; nd_accepted : bool
}.
Definition New_on_UpdateDialogState (f : F) (d : NewProjectDialog) : NewProjectDialog :=
  let parPath := leRootPath d in
  mkNew (m_wkTitle d) (m_projAuthor d) (m_brDesc d) parPath (leWkTitle d) (leAuthor d) (leRootPath d) (pteDesc d)
    (negb (bool_decide (leWkTitle d = [])) && negb (bool_decide (parPath = []) || negb (dir_exists parPath f))) (nd_accepted d).
(** [setText] and typing: [textChanged] is emitted when the text is another one. *)
Definition title_changed (text : QString) (f : F) (d : NewProjectDialog) : NewProjectDialog :=
  if bool_decide (text = leWkTitle d) then d
  else New_on_UpdateDialogState f (mkNew (m_wkTitle d) (m_projAuthor d) (m_brDesc d) (m_parPath d) text (leAuthor d) (leRootPath d) (pteDesc d) (btnOk d) (nd_accepted d)).
Definition root_changed (text : QString) (f : F) (d : NewProjectDialog) : NewProjectDialog :=
  if bool_decide (text = leRootPath d) then d
  else New_on_UpdateDialogState f (mkNew (m_wkTitle d) (m_projAuthor d) (m_brDesc d) (m_parPath d) (leWkTitle d) (leAuthor d) text (pteDesc d) (btnOk d) (nd_accepted d)).
(** Nothing listens to the other two fields. *)
Definition others_changed (author desc : QString) (d : NewProjectDialog) : NewProjectDialog :=
  mkNew (m_wkTitle d) (m_projAuthor d) (m_brDesc d) (m_parPath d) (leWkTitle d) author (leRootPath d) desc (btnOk d) (nd_accepted d).
(** The button is enabled until the first update. *)
Definition NewProjectDialog_ctor (defParent : QString) (f : F) : NewProjectDialog :=
  let d := mkNew [] [] [] defParent [] [] [] [] true false in
  root_changed (m_parPath d) f d.
Definition NewProjectDialog_reset (defParent : QString) (f : F) (d : NewProjectDialog) : NewProjectDialog :=
  let d := mkNew [] [] [] defParent (leWkTitle d) (leAuthor d) (leRootPath d) (pteDesc d) (btnOk d) (nd_accepted d) in
  let d := title_changed [] f d in
  let d := others_changed [] (pteDesc d) d in
  let d := root_changed defParent f d in
  others_changed (leAuthor d) [] d.
Definition NewProjectDialog_browse (newRootDir : QString) (f : F) (d : NewProjectDialog) : NewProjectDialog :=
  if bool_decide (newRootDir = []) then d
  else root_changed newRootDir f (mkNew (m_wkTitle d) (m_projAuthor d) (m_brDesc d) newRootDir (leWkTitle d) (leAuthor d) (leRootPath d) (pteDesc d) (btnOk d) (nd_accepted d)).
Definition NewProjectDialog_accept (d : NewProjectDialog) (m : Manager) : NewProjectDialog * Manager :=
  let d := mkNew (leWkTitle d) (leAuthor d) (pteDesc d) (leRootPath d) (leWkTitle d) (leAuthor d) (leRootPath d) (pteDesc d) (btnOk d) (nd_accepted d) in
  let targetDir := CreateProjectPath (m_wkTitle d) (m_parPath d) in
  if dir_exists targetDir (pm_files m) then (d, m)
  else
    let '(ok, m) := createProject (m_wkTitle d) (m_projAuthor d) (m_brDesc d) (m_parPath d) m in
    (if ok : bool
     then mkNew (m_wkTitle d) (m_projAuthor d) (m_brDesc d) (m_parPath d) (leWkTitle d) (leAuthor d) (leRootPath d) (pteDesc d) (btnOk d) true
     else d, m).

(** ** Opening a project *)
Record OpenProjectDialog := mkOpen { leProjFilePath : QString; ok_open : bool; od_accepted : bool }.
Definition Open_on_UpdateDialogState (f : F) (d : OpenProjectDialog) : OpenProjectDialog :=
  mkOpen (leProjFilePath d) (file_exists (leProjFilePath d) f) (od_accepted d).
Definition OpenProjectDialog_ctor (f : F) : OpenProjectDialog := Open_on_UpdateDialogState f (mkOpen [] true false).
Definition file_changed (text : QString) (f : F) (d : OpenProjectDialog) : OpenProjectDialog :=
  if bool_decide (text = leProjFilePath d) then d else Open_on_UpdateDialogState f (mkOpen text (ok_open d) (od_accepted d)).
Definition OpenProjectDialog_browse (newProjFile : QString) (f : F) (d : OpenProjectDialog) : OpenProjectDialog :=
  if bool_decide (newProjFile = []) then d else file_changed newProjFile f d.
Definition OpenProjectDialog_accept (fuel : nat) (d : OpenProjectDialog) (m : Manager) : outcome (OpenProjectDialog * Manager) :=
  '(ok, m) ← openProject (X := X) fuel (leProjFilePath d) m;
  Ret (if ok : bool then mkOpen (leProjFilePath d) (ok_open d) true else d, m).

(** ** What the user does with the dialog *)
Inductive NewAction := TypeTitle (t : QString) | TypeRoot (t : QString) | TypeOthers (author desc : QString) | PressReset | PressBrowse (dir : QString) | PressOk.
(** A button that is disabled cannot be pressed. *)
Definition new_action (defParent : QString) (a : NewAction) (s : NewProjectDialog * Manager) : NewProjectDialog * Manager :=
  let '(d, m) := s in
  match a with
  | TypeTitle t => (title_changed t (pm_files m) d, m)
  | TypeRoot t => (root_changed t (pm_files m) d, m)
  | TypeOthers author desc => (others_changed author desc d, m)
  | PressReset => (NewProjectDialog_reset defParent (pm_files m) d, m)
  | PressBrowse dir => (NewProjectDialog_browse dir (pm_files m) d, m)
  | PressOk => if btnOk d then NewProjectDialog_accept d m else (d, m)
  end.
(** The files may be changed by others between two actions. *)
Inductive nd_reach (defParent : QString) : NewProjectDialog → Manager → Prop :=
  | nd_start m : nd_reach defParent (NewProjectDialog_ctor defParent (pm_files m)) m
  | nd_action d m a : nd_reach defParent d m → nd_reach defParent (new_action defParent a (d, m)).1 (new_action defParent a (d, m)).2
  | nd_files d m f : nd_reach defParent d m → nd_reach defParent d (with_files m f).
End dialogs.

(** * Theorems *)
Section proofs.
Context {X F : Type} `{QtText} `{QtXml X} `{QtFiles F} `{!QtFilesLaws F} `{QtExists F} `{!QtExistsLaws F}.
Notation Manager := (ProjectManager F).

(** The directory remembered is the one in the field, and the button waits for both texts. *)
Definition nd_ok (d : NewProjectDialog) : Prop :=
  m_parPath d = leRootPath d ∧ (btnOk d = true → leWkTitle d ≠ [] ∧ leRootPath d ≠ []).
Lemma update_ok f d : nd_ok (New_on_UpdateDialogState f d).
Proof.
  split; [done|]. cbn. rewrite andb_true_iff, !negb_true_iff, orb_false_iff. intros [K1%bool_decide_eq_false [K2%bool_decide_eq_false _]]. done.
Qed.
Lemma title_ok t f d : nd_ok d → nd_ok (title_changed t f d).
Proof. intros K. unfold title_changed. case_bool_decide; [done|apply update_ok]. Qed.
Lemma root_ok t f d : (t = leRootPath d → nd_ok d) → nd_ok (root_changed t f d).
Proof. intros K. unfold root_changed. case_bool_decide; [by apply K|apply update_ok]. Qed.
Lemma reset_ok p f d : nd_ok d → nd_ok (NewProjectDialog_reset p f d).
Proof.
  intros [K1 K2]. unfold NewProjectDialog_reset. cbv zeta. set (d1 := mkNew [] _ _ _ _ _ _ _ _ _).
  assert (Hd : ∀ d2, (p = leRootPath d2 → nd_ok d2) → nd_ok (others_changed (leAuthor (root_changed p f d2)) [] (root_changed p f d2))) by (intros d2 K; exact (root_ok p f d2 K)).
  apply Hd. unfold title_changed. cbn [d1 leWkTitle]. case_bool_decide as Ht; [|intros _; exact (update_ok f _)].
  intros Ep. split; [exact Ep|]. cbn. intros Hb. by destruct (K2 Hb).
Qed.
Lemma action_ok p a d (m : Manager) : nd_ok d → nd_ok (new_action p a (d, m)).1.
Proof.
  intros K. destruct a as [t|t|author desc| |dir|]; cbn.
  - by apply title_ok.
  - by apply root_ok.
  - done.
  - by apply reset_ok.
  - unfold NewProjectDialog_browse. case_bool_decide; [done|]. apply root_ok. intros E. split; [exact E|apply K].
  - destruct (btnOk d) eqn:Eb; [|done]. destruct K as [_ K]. unfold NewProjectDialog_accept. cbv zeta.
    case_match; [split; [done|exact K]|]. case_match. case_match; (split; [done|exact K]).
Qed.
Lemma nd_reach_ok p d (m : Manager) : p ≠ [] → nd_reach p d m → nd_ok d.
Proof.
  intros Hp. induction 1 as [m|d m a _ IH|d m f _ IH]; [|by apply action_ok|done].
  unfold NewProjectDialog_ctor. apply root_ok. by intros E.
Qed.

Lemma create_makes_dir t a r desc (m m' : Manager) :
  createProject t a desc r m = (true, m') → dir_exists (CreateProjectPath t r) (pm_files m') = true.
Proof.
  unfold createProject. destruct (mkpath _ _) as [[] f] eqn:Em; [|done]. cbn [negb with_files pm_rng pm_files]. apply mkpath_exists in Em. rewrite absolute_exists in Em.
  destruct (NkUuidGenerate _) as [u rng]. unfold int_WriteProjectFile. destruct (open_write _ _) as [[] f2] eqn:Ew; [|done]. cbn [negb]. intros [= <-].
  by eapply put_keeps_dirs, open_keeps_dirs.
Qed.

(** C36: whatever the user types, browses for, resets and confirms, and whatever happens to the files meanwhile: OK can only be
    pressed with a title and a directory.  Pressing it keeps the dialog open and the projects as they are, or closes
    it with one new project made from the fields, in a directory that did not exist before and does now; so
    pressing it with the same texts once more is refused, and the project that was created stays as it is. *)
Theorem dialog_new_project p d (m : Manager) :
  p ≠ [] → nd_reach p d m → btnOk d = true → nd_accepted d = false →
  let '(d', m') := new_action p PressOk (d, m) in
  leWkTitle d ≠ [] ∧ leRootPath d ≠ [] ∧
  if nd_accepted d'
  then dir_exists (CreateProjectPath (leWkTitle d) (leRootPath d)) (pm_files m) = false ∧
       dir_exists (CreateProjectPath (leWkTitle d) (leRootPath d)) (pm_files m') = true ∧
       (∃ u, m_projVec m' = m_projVec m ++ [mkProject u (leWkTitle d) (leAuthor d) (pteDesc d)
               (toNativeSeparators (absolutePath (CreateProjectPath (leWkTitle d) (leRootPath d))))]) ∧
       new_action p PressOk (d', m') = (d', m')
  else m_projVec m' = m_projVec m ∧ projectLoaded m' = projectLoaded m.
Proof.
  intros Hp [_ Hok]%nd_reach_ok Hb Ha; [|done]. destruct (Hok Hb) as [Ht Hr]. cbn [new_action]. rewrite Hb. unfold NewProjectDialog_accept at 1. cbn [m_wkTitle m_projAuthor m_brDesc m_parPath leWkTitle leAuthor leRootPath pteDesc btnOk].
  destruct (dir_exists _ (pm_files m)) eqn:Ed; [by rewrite Ha|]. destruct (createProject _ _ _ _ m) as [[] m'] eqn:Ec; cbn [nd_accepted].
  - split; [done|]. split; [done|]. split; [done|]. split; [by eapply create_makes_dir|]. split.
    + unfold createProject in Ec. repeat (case_match; simplify_eq/=; try done). by eexists.
    + cbn [new_action btnOk]. rewrite Hb. unfold NewProjectDialog_accept. cbn [m_wkTitle m_projAuthor m_brDesc m_parPath leWkTitle leAuthor leRootPath pteDesc btnOk nd_accepted].
      by rewrite (create_makes_dir _ _ _ _ _ _ Ec).
  - rewrite Ha. unfold createProject in Ec. repeat (case_match; simplify_eq/=; try done).
Qed.
End proofs.

(** * A file system with directories to run the dialog on *)
(** A path leads to a directory or to a file. *)
Definition Disk : Type := gmap QString (option (list Z)).
#[export] Instance disk_files : QtFiles Disk := {
  mkpath path f := match f !! path with Some (Some _) => (false, f) | _ => (true, <[path := None]> f) end;
  open_write path f := match f !! path with Some None => (false, f) | _ => (true, <[path := Some []]> f) end;
  put_bytes path b f := match f !! path with Some (Some _) => <[path := Some b]> f | _ => f end;
  read_file path f := f !! path ≫= id
}.
#[export] Instance disk_exists : QtExists Disk := {
  dir_exists path f := bool_decide (f !! path = Some None);
  file_exists path f := bool_decide (is_Some (f !! path ≫= id))
}.
#[export] Instance disk_files_laws : QtFilesLaws Disk.
Proof.
  split; cbn.
  - intros path f f'. repeat case_match; try done; intros [= <-]; exact (f_equal (λ o, o ≫= id) (lookup_insert_eq f path (Some []))).
  - intros path b f Hr. exists (length b). rewrite firstn_all. destruct (f !! path) as [[l|]|] eqn:E; [|discriminate Hr..].
    exact (f_equal (λ o, o ≫= id) (lookup_insert_eq f path (Some b))).
Qed.
#[export] Instance disk_exists_laws : QtExistsLaws Disk.
Proof.
  split; cbn.
  - intros path f f'. repeat case_match; try done; intros [= <-]; apply bool_decide_eq_true, (lookup_insert_eq f path None).
  - intros path f ok f' dir E Hd%bool_decide_eq_true. apply bool_decide_eq_true.
    destruct (decide (dir = path)) as [->|]; [by rewrite Hd in E; simplify_eq|]. repeat case_match; simplify_eq; try done; exact (eq_trans (lookup_insert_ne f path dir _ (not_eq_sym n)) Hd).
  - intros path b f dir Hd%bool_decide_eq_true. apply bool_decide_eq_true.
    destruct (decide (dir = path)) as [->|]; [by rewrite Hd|]. repeat case_match; try done; exact (eq_trans (lookup_insert_ne f path dir _ (not_eq_sym n)) Hd).
  - done.
Qed.
Definition documents : QString := lit "C:/Documents".
Definition disk_manager : ProjectManager Disk := mkManager [] [] {[ documents := None ]} (mkRng 1 2 3 4).
Definition act (a : NewAction) (s : NewProjectDialog * ProjectManager Disk) : NewProjectDialog * ProjectManager Disk :=
  new_action (X := list XmlToken) documents a s.
Definition filled_in : NewProjectDialog * ProjectManager Disk :=
  act (TypeTitle (lit "Ace of Spaces")) (act (TypeOthers (lit "TophUwO") []) (NewProjectDialog_ctor documents (pm_files disk_manager), disk_manager)).
Lemma dialog_new_project_witness :
  btnOk (NewProjectDialog_ctor documents (pm_files disk_manager)) = false ∧ nd_accepted (act PressOk filled_in).1 = true ∧
  length (m_projVec (act PressOk filled_in).2) = 1%nat ∧ act PressOk (act PressOk filled_in) = act PressOk filled_in.
Proof.
  assert (Ha : nd_accepted (act PressOk filled_in).1 = true) by (vm_compute; reflexivity).
  split; [vm_compute; reflexivity|]. split; [exact Ha|].
  assert (K := dialog_new_project (X := list XmlToken) documents filled_in.1 filled_in.2).
  change (filled_in.1, filled_in.2) with filled_in in K. change (new_action documents PressOk filled_in) with (act PressOk filled_in) in K.
  destruct (act PressOk filled_in) as [d' m'] eqn:Ed. cbn [fst snd] in Ha. rewrite Ha in K.
  destruct K as (_ & _ & _ & _ & [u Eu] & Eagain).
  - discriminate.
  - unfold filled_in. apply (nd_action documents _ _ (TypeTitle _)). apply (nd_action documents _ _ (TypeOthers _ _)). apply nd_start.
  - vm_compute. reflexivity.
  - vm_compute. reflexivity.
  - cbn [fst snd]. split; [|exact Eagain]. rewrite Eu. reflexivity.
Defined.
(** A dialog that starts with no directory leaves the button enabled, though there is no title. *)
Example dialog_ok_at_first : btnOk (NewProjectDialog_ctor [] (∅ : Disk)) = true.
Proof. reflexivity. Qed.
